(* ===== verification/_CoqProject ===== *)
-Q . S2P
Prelude.v
Sha256.v
Params.v
Csv.v
Utils.v
Networks.v
Vrf.v
Interfaces.v
Core.v
Instances.v
TxPool.v
Storage.v
G2E.v
BlockChain.v
Ledger.v
ChainProps.v
MerkleProof.v
Messages.v
PbftNode.v
Pbft.v
Relay.v
PbftRound.v
Shard.v
ViewChange.v
NodeExamples.v
CLPA.v
CopyClpa.v
Transfer.v
TransferExamples.v
Injection.v
BrokerCommittee.v
BrokerNode.v
ClpaCommittee.v
HalfFloats.v
Measure.v
Supervisor.v
Report.v
TransferBroker.v
SupervisorExamples.v
Listen.v
Query.v
Build.v
