(* ===== verification/Prelude.v ===== *)
(** * BlockEmulator (Game2Earn fork): a verification development

    The program under src/ emulates a sharded blockchain.  A supervisor reads
    transactions from a data set and sends them to the leaders of the shards; the
    nodes of a shard agree on blocks by PBFT and execute them on a state trie;
    cross-shard transactions are relayed to another shard or paid through a broker;
    in the CLPA variants the supervisor repartitions the accounts and the shards move
    accounts between them.  This fork adds bets ("Game2Earn"): a transaction may
    deposit a stake on a pair of numbers for a future height, and the block of that
    height pays the winners.

    ** Parts and files

    Foundations
    - [Prelude] (this file): the monad [outcome] of Go code that may panic, loops
      ([foldM], [foldMi]), machine integers ([u64], [i64], [i32]), slices
      ([slice_at], [slice_set]), shared lemmas, the hint database [emu].
    - [Sha256]: SHA-256.  [Params]: src/params.  [Utils]: src/utils, with the
      functions of strconv and math/big it calls.  [Csv]: the writer and reader of
      encoding/csv and the files that lines are appended to.
    - [Networks]: src/networks, the delays, the rate limits, the pool of connections and
      the streams on them.  [Vrf]: src/shard/vrf over a class of the cryptographic
      libraries ([CryptoOps], [CryptoLaws]).
    - [Interfaces]: what the program uses of third-party code, as classes of operations
      with their laws as separate classes: encoding/gob ([GobOps], [GobLaws]), bolt
      ([BoltOps], [BoltLaws]), go-ethereum's state trie ([TrieOps], [TrieLaws]), bit
      sets ([BitSetOps]); JSON is the class [Json] of [Messages].  [Instances] gives
      concrete instances of all of them with proofs of the laws, at which the witness of
      every property evaluates.

    A node
    - [Core], [TxPool]: src/core (accounts, transactions, blocks, the pool).
      [Storage]: src/storage.
    - [G2E]: src/chain/g2e_book.go and the sums of the settlement.
      [BlockChain]: src/chain/blockchain.go; its state is the record [BlockChain] and
      every method a function on it.  [Ledger] holds the abstract specification, a
      ledger of balances and bets, and the proof that executing a block on the trie
      implements it.  [ChainProps]: replicas, adding and generating blocks, linked
      chains, restarts, transferred accounts.  [MerkleProof]:
      src/chain/merkleproof.go.
    - [Messages]: src/message (all messages and their framing) and src/shard/nodes.go.
    - [PbftNode]: the node of src/consensus_shard/pbft_all/pbft.go with its tools, and
      the interfaces of pbftMod_interface.go as classes ([ExtraOpInConsensus],
      [OpInterShards]) with the laws the consensus relies on ([ExtraOpLaws],
      [OpInterShardsLaws]).  [Pbft]: messageHandle.go, view_change.go and the
      dispatch, over any module; the goroutines of a node are the step relation
      [pstep].  [PbftRound]: the waiting handlers of a round do not block each other.
    - [Shard]: the nodes of a shard with the messages in flight between them
      ([shard_step]), and the round that a proposal starts, through all nodes.
      [ViewChange]: the same nodes with their timers ([change_step]) when the leader is
      silent.
      [Listen]: [TcpListen] and [handleClientRequest] of nodes and supervisor, a goroutine
      per connection over the stream that arrives.
    - [Relay]: pbftInside_module.go and pbftOutside_module.go, instances of the
      interfaces.  [Transfer]: the CLPA modules with accountTransfer_module.go.
      [BrokerNode]: the broker modules.  [TransferBroker]: the CLPA modules with
      brokers.

    The supervisor
    - [CLPA]: src/partition, with binary64 scores.  [CopyClpa]: the copy of a state,
      which shares a slice with the original, and its hash.
    - [Injection]: the stop signal, [data2tx], sending in rounds and
      committee_relay.go.  [BrokerCommittee]: src/broker and committee_broker.go.
      [ClpaCommittee]: committee_clpa.go and committee_clpa_broker.go, whose loops wait
      for the shards, as step relations.  [HalfFloats], [Measure]: the measure modules
      with binary64 counters.  [Supervisor]: supervisor.go.  [Report]: the CSV files of the
      measure modules and of the leaders, with the decimal text of binary64 numbers.

    Around a run
    - [Build]: main.go and src/build (the checks of the address table, the configuration
      of every process and the generated scripts).  [Query]: src/query, the readers of a
      stopped node's databases, over [BoltIterOps], the iteration of a bolt bucket.

    Examples
    - [NodeExamples], [TransferExamples], [SupervisorExamples]: concrete nodes, shards
      and committees at which the properties are instantiated.

    ** How the code is modelled

    A method is a function from the receiver's state to an [outcome] of the new state;
    [log.Panic], an index out of range, a nil map write or the unlocking of an unlocked
    mutex are [Panic].  A [uint64], [int] or [int32] is a [Z] wrapped where the code
    computes.  The clock, the order in which Go visits a map, and files are arguments.
    Messages are appended to a trace ([sent] of a node, [outbox] of a committee).
    Handlers that hold a lock for their whole body are atomic; code that sleeps until a
    condition holds is a step relation whose states are the points of waiting ([pstep],
    [cstep], [clpa_step], [clpa_broker_step], [sup_run]), and other messages are
    handled between its steps.  Votes are counted by the address of a decoded object,
    as the code does, so decoding allocates.

    ** What the theorems show

    - Execution: [GetUpdateStatusTrie_refines_ledger], [block_conserves_funds],
      [block_keeps_balances_nonneg], [settlement_solvent], [replicas_agree],
      [generated_block_accepted], [reachable_chain_linked], [AddAccounts_FetchAccounts],
      [run_pool_fifo].
    - Consensus: [executed_once_after_quorum] (any order of messages),
      [shard_round_commits] (all nodes, any order of deliveries and handlers, from one
      block to the next), [view_change_completes] (any order of timers and messages, from
      one leader to the next), [announcements_overwrite], [replica_round_completes], [proposal_commits_at_replica],
      [one_sender_reaches_quorum], [left_behind_node_stays_behind].
    - Cross-shard transactions: [relay_block_sends], [relayed_transfer_funds],
      [relayed_proofs_accepted], [TxProof_roundtrip], [TxProofBatch_correct];
      [dealTxByBroker_splits], [broker_pays_out], [Broker_HandleinCommit_reports],
      [brokered_transfer_funds], [broker_node_never_catches_up].
    - Repartition: [CLPA_Partition_correct], [incremental_counts_exact],
      [AddEdges_wellformed]; [sendAccounts_and_Txs_splits], [proposePartition_collects],
      [repartition_waits_for_all], [accountTransfer_do_installs], and with brokers
      [ClpaBroker_sendAccounts_and_Txs_splits], [repartition_keeps_placement]; at the
      supervisor [clpa_committee_repartitions], [clpa_broker_pays_out].
    - Supervisor: [txSending_injects], [Relay_MsgSendingControl_injects],
      [data2tx_amount], [supervisor_stops_when_quiet]; [TxNumCount_exact] and
      [tx_number_file_exact] (up to the text of the file), [metrics_file_reads_back].
    - Messages on the wire: [pool_delivers_in_order] from the sender to the lines of the
      stream, [TcpListen_refines_pstep] from the stream to the handlers.
    - Random values: [vrf_output_verifies].
    - Before and after a run: [generated_processes_start], [queries_return_stored],
      [account_queries_agree].
    Some theorems state what the code does where it does not do what it means to; these
    say so in their comments.

    ** Bounds

    Fuel is taken by [Sha256.chunks] (the number of words of its input), the rate limiter
    [write_wait] (the number of bytes; [write_wait_ok]), the lines of a stream
    ([stream_lines], the number of bytes; [lines_of_stream]) and the CSV reader
    ([read_record], [read_records]: the number of characters; [read_csv_write]); every
    step consumes at least one.  [drain] models a loop of the code that never ends, for any
    fuel ([ReadFromConn_never_returns]).  Other loops run over lists, over the height of the
    chain, or a number of times known before they start ([Nat.iter] in [Measure], the rounds
    of [CLPA]).  A round of a shard of n nodes takes at most 3n + 6n^2 steps.  Hypotheses such
    as a height below 2^63 exclude only the wrap-around of a counter; the theorems name them.

    ** Not modelled

    The time a send takes (delays order the goroutines, which the step relations leave
    open anyway), the token bucket and the sockets behind [Networks], log files, failing file
    operations and printing.  The rounds of [Shard] exclude view changes, and [ViewChange]
    starts between two blocks: a timer in the middle of a round is a step of [pstep]
    only.

    ** Plan

    The parts above are complete.  Next: two shards and the supervisor together, and
    liveness of a repartition. *)

From stdpp Require Export base gmap strings list fin_maps pretty sorting.
From Stdlib Require Export ZArith Lia.
From Stdlib Require Import Ascii.

#[global] Open Scope Z_scope.

(** ** Results of Go code that may panic

    [log.Panic], a failed slice or index expression, a nil map assignment or
    the unlocking of an unlocked mutex end the process: they are values
    [Panic why] of the result type. *)
Inductive outcome (A : Type) : Type :=
| Ret (a : A)
| Panic (why : string).
Arguments Ret {A} _.
Arguments Panic {A} _.

#[export] Instance outcome_eq_dec {A} `{EqDecision A} : EqDecision (outcome A).
Proof. solve_decision. Defined.

#[export] Instance outcome_ret : MRet outcome := @Ret.
#[export] Instance outcome_bind : MBind outcome := λ A B f m,
  match m with Ret a => f a | Panic w => Panic w end.

Definition is_ret {A} (m : outcome A) : Prop := ∃ a, m = Ret a.
Definition is_panic {A} (m : outcome A) : Prop := ∃ w, m = Panic w.

(** A value that must be present, otherwise the code panics. *)
Definition or_panic {A} (why : string) (o : option A) : outcome A :=
  match o with Some a => Ret a | None => Panic why end.

(** A loop [for _, x := range l] whose body updates a state and may panic. *)
Fixpoint foldM {A B} (f : B → A → outcome B) (b : B) (l : list A) : outcome B :=
  match l with
  | [] => Ret b
  | x :: l' => b' ← f b x; foldM f b' l'
  end.

(** The same loop with the index of the element, [for i, x := range l]. *)
Fixpoint foldMi {A B} (f : B → Z → A → outcome B) (b : B) (i : Z) (l : list A) :
    outcome B :=
  match l with
  | [] => Ret b
  | x :: l' => b' ← f b i x; foldMi f b' (i + 1) l'
  end.

(** ** Machine integers *)
Definition u64_mod : Z := 2 ^ 64.
(** Conversion to [uint64] and wrap-around of [uint64] arithmetic. *)
Definition u64 (z : Z) : Z := z mod u64_mod.
(** Conversion to [int64]/[int] and wrap-around of [int] arithmetic. *)
Definition i64 (z : Z) : Z :=
  let r := z mod u64_mod in if r <? 2 ^ 63 then r else r - u64_mod.
(** Conversion to [int32]. *)
Definition i32 (z : Z) : Z :=
  let r := z mod 2 ^ 32 in if r <? 2 ^ 31 then r else r - 2 ^ 32.
Definition is_u64 (z : Z) : Prop := 0 ≤ z < u64_mod.

(** The length of a Go slice or string as an [int]. *)
Definition zlen {A} (l : list A) : Z := Z.of_nat (length l).

(** ** Slices: index and slice expressions with Go's bounds checks *)
Definition slice_at {A} (l : list A) (i : Z) : outcome A :=
  if (0 <=? i) then or_panic "index out of range" (l !! Z.to_nat i)
  else Panic "index out of range".
Definition slice_set {A} (l : list A) (i : Z) (x : A) : outcome (list A) :=
  if (0 <=? i) && (i <? zlen l) then Ret (<[Z.to_nat i := x]> l)
  else Panic "index out of range".

(** Strings are byte strings: a Go [[]byte] and a Go [string] are both
    [string] here, so the conversion [string(b)] is the identity. *)
Abbreviation bytes := string (only parsing).

(** [m[k] = append(m[k], x)]: the missing key reads as the empty slice. *)
Definition map_append `{Countable K} {A} (m : gmap K (list A)) (k : K) (x : A) :
    gmap K (list A) :=
  <[k := default [] (m !! k) ++ [x]]> m.

(** Sum of a list of integers. *)
Fixpoint zsum (l : list Z) : Z :=
  match l with [] => 0 | x :: l' => x + zsum l' end.

(** ** Tactics *)

(** Invert binds of the outcome monad in the hypotheses. *)
Ltac inv_ret :=
  repeat match goal with
  | H : Ret _ = Ret _ |- _ => injection H as H; try subst
  | H : Ret _ = Panic _ |- _ => discriminate H
  | H : Panic _ = Ret _ |- _ => discriminate H
  | H : mbind _ ?m = Ret _ |- _ =>
      let E := fresh "E" in
      destruct m eqn:E; cbn in H; [|discriminate H]
  end.

(** Case on the first [match] or [if] of the goal or of a hypothesis. *)
Ltac split_match :=
  match goal with
  | |- context [match ?x with _ => _ end] => let E := fresh "E" in destruct x eqn:E
  | H : context [match ?x with _ => _ end] |- _ =>
      let E := fresh "E" in destruct x eqn:E
  end.

Create HintDb emu.
Create Rewrite HintDb emu.

(** ** Lemmas on the outcome monad *)
Lemma bind_ret {A B} (a : A) (f : A → outcome B) : (Ret a ≫= f) = f a.
Proof. done. Qed.

Lemma bind_Ret_inv {A B} (m : outcome A) (f : A → outcome B) b :
  m ≫= f = Ret b → ∃ a, m = Ret a ∧ f a = Ret b.
Proof. destruct m; [eauto|done]. Qed.

Lemma foldM_app {A B} (f : B → A → outcome B) b l1 l2 :
  foldM f b (l1 ++ l2) = foldM f b l1 ≫= λ b', foldM f b' l2.
Proof.
  revert b. induction l1 as [|x l1 IH]; intros b; [done|]. cbn.
  destruct (f b x); cbn; [apply IH|done].
Qed.

(** Loop invariant rule for [foldM]. *)
Lemma foldM_inv {A B} (I : B → Prop) (f : B → A → outcome B) l b b' :
  (∀ b x b', x ∈ l → I b → f b x = Ret b' → I b') →
  I b → foldM f b l = Ret b' → I b'.
Proof.
  revert b. induction l as [|x l IH]; intros b Hf Hb Hl; cbn in Hl; inv_ret; [done|].
  eapply IH; [|eapply Hf; [..|exact E]|exact Hl]; [|set_solver|done].
  intros; eapply Hf; [|done..]. set_solver.
Qed.

(** A loop whose body never panics does not panic. *)
Lemma foldM_ret {A B} (f : B → A → outcome B) l b :
  (∀ b x, x ∈ l → is_ret (f b x)) → is_ret (foldM f b l).
Proof.
  revert b. induction l as [|x l IH]; intros b Hf; [by eexists|].
  cbn. destruct (Hf b x) as [b' ->]; [set_solver|]. cbn.
  apply IH. intros; apply Hf; set_solver.
Qed.

(** A loop whose body always returns is a left fold. *)
Lemma foldM_foldl {A B} (g : B → A → B) l b :
  foldM (λ b x, Ret (g b x)) b l = Ret (foldl g b l).
Proof. revert b. induction l as [|x l IH]; intros b; [done|]. apply IH. Qed.

(** A loop that appends one result per element. *)
Lemma foldM_collect {A B} (f : A → outcome B) (P : A → B → Prop) l acc :
  (∀ x, x ∈ l → ∃ y, f x = Ret y ∧ P x y) →
  ∃ ys, foldM (λ res x, y ← f x; Ret (res ++ [y])) acc l = Ret (acc ++ ys) ∧ Forall2 P l ys.
Proof.
  revert acc. induction l as [|x l IH]; intros acc Hf.
  { exists []. by rewrite app_nil_r. }
  destruct (Hf x) as (y & Ey & Hy); [by left|].
  destruct (IH (acc ++ [y])) as (ys & Eys & Hys); [intros; apply Hf; by right|].
  exists (y :: ys). split; [|by constructor]. cbn. rewrite Ey. cbn. rewrite Eys.
  by rewrite <-app_assoc.
Qed.

(** ** Lemmas on machine integers *)
Lemma u64_mod_pos : 0 < u64_mod.
Proof. done. Qed.
#[export] Hint Resolve u64_mod_pos : emu.

Lemma u64_id z : is_u64 z → u64 z = z.
Proof. intros. by apply Z.mod_small. Qed.

Lemma u64_range z : is_u64 (u64 z).
Proof. apply Z.mod_pos_bound. done. Qed.
#[export] Hint Resolve u64_range : emu.

Lemma i64_id z : - 2 ^ 63 ≤ z < 2 ^ 63 → i64 z = z.
Proof.
  intros Hz. unfold i64, u64_mod in *. destruct (decide (0 ≤ z)).
  - rewrite Z.mod_small by lia. case (Z.ltb_spec z (2 ^ 63)); lia.
  - rewrite <-(Z_mod_plus_full z 1), Z.mod_small by lia.
    case (Z.ltb_spec (z + 1 * 2 ^ 64) (2 ^ 63)); lia.
Qed.

(** ** Lemmas on lists and sums *)
Lemma zlen_nonneg {A} (l : list A) : 0 ≤ zlen l.
Proof. unfold zlen. lia. Qed.
#[export] Hint Resolve zlen_nonneg : emu.

Lemma zlen_app {A} (l1 l2 : list A) : zlen (l1 ++ l2) = zlen l1 + zlen l2.
Proof. unfold zlen. rewrite length_app. lia. Qed.

Lemma zlen_cons {A} (x : A) l : zlen (x :: l) = zlen l + 1.
Proof. unfold zlen. cbn. lia. Qed.

Lemma zsum_app l1 l2 : zsum (l1 ++ l2) = zsum l1 + zsum l2.
Proof. induction l1; cbn in *; lia. Qed.

Lemma zsum_cons x l : zsum (x :: l) = x + zsum l.
Proof. done. Qed.

#[export] Instance zsum_perm : Proper ((≡ₚ) ==> (=)) zsum.
Proof. induction 1; cbn in *; lia. Qed.

Lemma zsum_mul_r l q : zsum ((λ a, a * q) <$> l) = zsum l * q.
Proof. induction l; cbn in *; lia. Qed.

Lemma zsum_nonneg l : Forall (λ z, 0 ≤ z) l → 0 ≤ zsum l.
Proof. induction 1; cbn in *; lia. Qed.

#[export] Hint Rewrite @zlen_app @zlen_cons zsum_app zsum_cons : emu.

(** Index expressions inside the bounds return, outside they panic. *)
Lemma slice_at_lookup {A} (l : list A) i x :
  slice_at l i = Ret x ↔ 0 ≤ i ∧ l !! Z.to_nat i = Some x.
Proof.
  unfold slice_at. destruct (Z.leb_spec 0 i); cbn; [|split; [done|lia]].
  destruct (l !! Z.to_nat i); cbn; naive_solver.
Qed.

Lemma slice_at_ok {A} (l : list A) i :
  0 ≤ i < zlen l → is_ret (slice_at l i).
Proof.
  intros Hi. unfold zlen in *.
  destruct (lookup_lt_is_Some_2 l (Z.to_nat i)) as [x Hx]; [lia|].
  exists x. apply slice_at_lookup. split; [lia|done].
Qed.

(** Appending to one key of a map of slices. *)
Lemma lookup_map_append `{Countable K} {A} (m : gmap K (list A)) k x k' :
  default [] (map_append m k x !! k') =
  default [] (m !! k') ++ (if decide (k = k') then [x] else []).
Proof.
  unfold map_append. rewrite lookup_insert.
  case_decide; subst; cbn; [done|by rewrite app_nil_r].
Qed.

(** A filter no element passes is empty; one every element passes is the list. *)
Lemma list_filter_none {A} (P : A → Prop) `{∀ x, Decision (P x)} (l : list A) :
  (∀ x, x ∈ l → ¬ P x) → filter P l = [].
Proof.
  induction l as [|x l IH]; intros Hl; [done|].
  rewrite filter_cons_False by (apply Hl; by left). apply IH. intros y Hy. apply Hl. by right.
Qed.

Lemma list_filter_all {A} (P : A → Prop) `{∀ x, Decision (P x)} (l : list A) :
  (∀ x, x ∈ l → P x) → filter P l = l.
Proof.
  induction l as [|x l IH]; intros Hl; [done|].
  rewrite filter_cons_True by (apply Hl; by left). f_equal. apply IH.
  intros y Hy. apply Hl. by right.
Qed.

(** A list is split into the classes of a key without loss or duplication. *)
Lemma classes_perm {A K} `{EqDecision K} (key : A → outcome K) (ks : list K) (l : list A) :
  NoDup ks → (∀ x, x ∈ l → ∃ k, key x = Ret k ∧ k ∈ ks) →
  (ks ≫= λ k, base.filter (λ x, key x = Ret k) l) ≡ₚ l.
Proof.
  intros Hks. induction l as [|x l IH]; intros Hl.
  { clear. by induction ks. }
  destruct (Hl x) as (k & Ek & Hk); [by left|].
  specialize (IH ltac:(intros; apply Hl; by right)).
  transitivity (x :: (ks ≫= λ k, base.filter (λ x, key x = Ret k) l)); [clear IH Hl|by rewrite IH].
  induction Hks as [|k' ks Hk' Hks IHks]; [by apply not_elem_of_nil in Hk|].
  cbn [mbind list_bind].
  apply elem_of_cons in Hk as [->|Hk].
  - rewrite filter_cons_True by done. cbn [app]. do 2 f_equiv.
    assert (∀ k, k ∈ ks → k ≠ k') as Hne by (intros ??->; done).
    clear -Hne Ek. induction ks as [|k2 ks IH]; [done|]. cbn [mbind list_bind].
    rewrite filter_cons_False; [rewrite IH; [done|set_solver]|].
    rewrite Ek. intros [= E]. by apply (Hne k2); [left|].
  - rewrite filter_cons_False; [rewrite (IHks Hk); by rewrite Permutation_middle|].
    rewrite Ek. intros [= ->]. done.
Qed.

(** Filters and binds only depend on the elements. *)
Lemma list_filter_iff_in {A} (P Q : A → Prop) `{∀ x, Decision (P x), ∀ x, Decision (Q x)} (l : list A) :
  (∀ x, x ∈ l → P x ↔ Q x) → base.filter P l = base.filter Q l.
Proof.
  induction l as [|x l IH]; intros Hl; [done|]. rewrite !filter_cons.
  rewrite IH by (intros; apply Hl; by right). destruct (Hl x) as [H1 H2]; [by left|].
  repeat case_decide; tauto || done.
Qed.

Lemma list_bind_ext_in {A B} (f g : A → list B) (l : list A) :
  (∀ x, x ∈ l → f x = g x) → l ≫= f = l ≫= g.
Proof.
  induction l as [|x l IH]; intros Hl; [done|]. cbn [mbind list_bind].
  rewrite (Hl x) by (by left). f_equal. apply IH. intros. apply Hl. by right.
Qed.

(** ** Concatenation of strings *)
Section Strings.
#[local] Arguments String.append !_ _ / : simpl nomatch.

Lemma str_app_assoc (a b c : string) : (a +:+ b) +:+ c = a +:+ (b +:+ c).
Proof. induction a as [|x a IH]; [done|]. simpl. by rewrite IH. Qed.

Lemma str_app_nil (a : string) : a +:+ "" = a.
Proof. induction a as [|x a IH]; [done|]. simpl. by rewrite IH. Qed.

Lemma str_length_app (a b : string) :
  String.length (a +:+ b) = (String.length a + String.length b)%nat.
Proof. induction a as [|x a IH]; [done|]. simpl. by rewrite IH. Qed.

End Strings.
