(* ===== verification/Sha256.v ===== *)
(** * SHA-256

    The repository hashes transactions ([core.NewTransaction]), block headers
    ([BlockHeader.Hash]), account states ([AccountState.Hash]) and consensus
    requests ([getDigest]) with Go's [crypto/sha256].  This file holds an
    executable SHA-256 on byte strings, so that every digest of the model is
    a computed value; two known digests are checked at the end. *)

From S2P Require Import Prelude.
From Stdlib Require Import Ascii.

Module Sha256.

(** ** 32-bit words *)
Definition w32 (z : Z) : Z := Z.land z 0xffffffff.
Definition add32 (a b : Z) : Z := w32 (a + b).
Definition rotr (n x : Z) : Z := Z.lor (Z.shiftr x n) (w32 (Z.shiftl x (32 - n))).
Definition not32 (x : Z) : Z := Z.lxor x 0xffffffff.

Definition bsig0 (x : Z) : Z := Z.lxor (Z.lxor (rotr 2 x) (rotr 13 x)) (rotr 22 x).
Definition bsig1 (x : Z) : Z := Z.lxor (Z.lxor (rotr 6 x) (rotr 11 x)) (rotr 25 x).
Definition ssig0 (x : Z) : Z := Z.lxor (Z.lxor (rotr 7 x) (rotr 18 x)) (Z.shiftr x 3).
Definition ssig1 (x : Z) : Z := Z.lxor (Z.lxor (rotr 17 x) (rotr 19 x)) (Z.shiftr x 10).
Definition ch (x y z : Z) : Z := Z.lxor (Z.land x y) (Z.land (not32 x) z).
Definition maj (x y z : Z) : Z :=
  Z.lxor (Z.lxor (Z.land x y) (Z.land x z)) (Z.land y z).

(** ** The constants

    The round constants are the first 32 bits of the fractional parts of the cube
    roots of the first 64 primes, the initial state those of the square roots of the
    first eight; both tables are computed from this definition. *)
Definition is_prime (n : nat) : bool :=
  forallb (λ d, negb (Nat.eqb (Nat.modulo n d) 0)) (seq 2 (n - 2)).
Definition primes : list Z := Z.of_nat <$> base.filter (λ n, Is_true (is_prime n)) (seq 2 310).

(** The cube root of [n], rounded down, built from its bits [k], ..., 0. *)
Fixpoint cube_root (k : nat) (r n : Z) : Z :=
  let r' := r + 2 ^ Z.of_nat k in
  let r'' := if r' ^ 3 <=? n then r' else r in
  match k with O => r'' | S k' => cube_root k' r'' n end.

Definition K : list Z :=
  Eval vm_compute in (λ p, w32 (cube_root 35 0 (Z.shiftl p 96))) <$> take 64 primes.
Definition H0 : list Z :=
  Eval vm_compute in (λ p, w32 (Z.sqrt (Z.shiftl p 64))) <$> take 8 primes.

(** ** Bytes, padding and words *)
Definition str_bytes (s : string) : list Z :=
  (λ a, Z.of_N (N_of_ascii a)) <$> String.list_ascii_of_string s.
Definition bytes_str (l : list Z) : string :=
  String.string_of_list_ascii ((λ z, ascii_of_N (Z.to_N z)) <$> l).

(** The [n] bytes of [x], most significant first. *)
Fixpoint be_bytes (n : nat) (x : Z) : list Z :=
  match n with
  | O => []
  | S n' => Z.land (Z.shiftr x (8 * Z.of_nat n')) 255 :: be_bytes n' x
  end.

Definition pad (m : list Z) : list Z :=
  let len := zlen m in
  m ++ [128] ++ replicate (Z.to_nat ((55 - len) mod 64)) 0 ++ be_bytes 8 (8 * len).

Fixpoint to_words (l : list Z) : list Z :=
  match l with
  | a :: b :: c :: d :: l' =>
      (Z.shiftl a 24 + Z.shiftl b 16 + Z.shiftl c 8 + d) :: to_words l'
  | _ => []
  end.

(** ** The message schedule and the compression function *)

(** [win] holds the last sixteen words, oldest first. *)
Fixpoint extend (n : nat) (win : list Z) : list Z :=
  match n with
  | O => win
  | S n' =>
      match win with
      | w0 :: rest =>
          let w15 := nth 0 rest 0 in
          let w7 := nth 8 rest 0 in
          let w2 := nth 13 rest 0 in
          let w := add32 (add32 (ssig1 w2) w7) (add32 (ssig0 w15) w0) in
          w0 :: extend n' (rest ++ [w])
      | [] => []
      end
  end.

Definition schedule (chunk : list Z) : list Z := extend 48 chunk.

Definition round (h : list Z) (kw : Z * Z) : list Z :=
  match h with
  | [a; b; c; d; e; f; g; hh] =>
      let t1 := add32 (add32 (add32 hh (bsig1 e)) (add32 (ch e f g) kw.1)) kw.2 in
      let t2 := add32 (bsig0 a) (maj a b c) in
      [add32 t1 t2; a; b; c; add32 d t1; e; f; g]
  | _ => h
  end.

Definition compress (h : list Z) (chunk : list Z) : list Z :=
  zip_with add32 h (foldl round h (zip K (schedule chunk))).

Fixpoint chunks (fuel : nat) (l : list Z) : list (list Z) :=
  match fuel with
  | O => []
  | S f => match l with [] => [] | _ => take 16 l :: chunks f (drop 16 l) end
  end.

Definition sum256_bytes (m : list Z) : list Z :=
  let ws := to_words (pad m) in
  foldl compress H0 (chunks (length ws) ws) ≫= be_bytes 4.

(** [sha256.Sum256] as a function on byte strings. *)
Definition sum256 (s : bytes) : bytes := bytes_str (sum256_bytes (str_bytes s)).

(** A digest has 32 bytes. *)
Lemma round_length h kw : length h = 8%nat → length (round h kw) = 8%nat.
Proof. do 9 (destruct h as [|? h]; [try done|]); done. Qed.

Lemma rounds_length l h : length h = 8%nat → length (foldl round h l) = 8%nat.
Proof. revert h. induction l; intros h Hh; [done|]. cbn. by apply IHl, round_length. Qed.

Lemma compress_length h c : length h = 8%nat → length (compress h c) = 8%nat.
Proof.
  intros Hh. unfold compress. rewrite length_zip_with, rounds_length by done. lia.
Qed.

Lemma compresses_length l h : length h = 8%nat → length (foldl compress h l) = 8%nat.
Proof. revert h. induction l; intros h Hh; [done|]. cbn. by apply IHl, compress_length. Qed.

Lemma length_bytes_str l : String.length (bytes_str l) = length l.
Proof. induction l as [|x l IH]; [done|]. cbn. f_equal. exact IH. Qed.

Lemma sum256_length s : String.length (sum256 s) = 32%nat.
Proof.
  unfold sum256. rewrite length_bytes_str. unfold sum256_bytes. cbv zeta.
  set (h := foldl compress _ _).
  assert (length h = 8%nat) as Hh by (apply compresses_length; done). clearbody h.
  do 9 (destruct h as [|? h]; [try done|]); done.
Qed.

Example sum256_abc : sum256_bytes (str_bytes "abc") =
  [0xba; 0x78; 0x16; 0xbf; 0x8f; 0x01; 0xcf; 0xea; 0x41; 0x41; 0x40; 0xde; 0x5d; 0xae; 0x22; 0x23; 0xb0; 0x03; 0x61; 0xa3; 0x96; 0x17; 0x7a; 0x9c; 0xb4; 0x10; 0xff; 0x61; 0xf2; 0x00; 0x15; 0xad].
Proof. vm_compute. reflexivity. Qed.

Example sum256_two_chunks :
  sum256_bytes (str_bytes "BlockEmulator: a block header longer than one SHA-256 chunk of sixty-four bytes") =
  [0x39; 0x97; 0xe5; 0x03; 0x57; 0x8a; 0x4c; 0x99; 0x08; 0xda; 0x45; 0x28; 0xd0; 0x05; 0x16; 0xec; 0x8b; 0x1e; 0x6c; 0x3c; 0x22; 0xed; 0x43; 0xeb; 0xc5; 0x37; 0x74; 0xe1; 0x14; 0x15; 0x21; 0x1e].
Proof. vm_compute. reflexivity. Qed.

End Sha256.
