(* ===== verification/Params.v ===== *)
(** * Package [params]: the configuration of a run

    Models src/params/global_config.go (the package-level variables and
    [ReadConfigFile]) and src/params/static_config.go ([ChainConfig] and the
    constants).  The variables form the class [Params], so that every
    definition of the development that reads one takes the configuration as
    an implicit argument. *)

From S2P Require Import Prelude.

(** The package-level variables.  [G2E_Beta], the closing window of bets, is
    read by [GetUpdateStatusTrie] but declared nowhere in the repository: it is
    a free parameter of the model. *)
Class Params := mkParams {
  NodesInShard : Z;
  ShardNum : Z;
  ConsensusMethod : Z;
  PbftViewChangeTimeOut : Z;
  Block_Interval : Z;
  MaxBlockSize_global : Z;
  BlocksizeInBytes : Z;
  UseBlocksizeInBytes : Z;
  InjectSpeed : Z;
  TotalDataSize : Z;
  TxBatchSize : Z;
  BrokerNum : Z;
  RelayWithMerkleProof : Z;
  ExpDataRootDir : string;
  DataWrite_path : string;
  LogWrite_path : string;
  DatabaseWrite_path : string;
  DatasetFile : string;
  ReconfigTimeGap : Z;
  Delay : Z;
  JitterRange : Z;
  Bandwidth : Z;
  G2E_Beta : Z
}.

(** The initial values of the variables (the network variables have Go's zero
    value); the closing window is given. *)
Definition default_params (beta : Z) : Params := {|
  NodesInShard := 4; ShardNum := 4;
  ConsensusMethod := 0; PbftViewChangeTimeOut := 10000; Block_Interval := 5000;
  MaxBlockSize_global := 2000; BlocksizeInBytes := 20000; UseBlocksizeInBytes := 0;
  InjectSpeed := 2000; TotalDataSize := 160000; TxBatchSize := 16000;
  BrokerNum := 10; RelayWithMerkleProof := 0;
  ExpDataRootDir := "expTest"; DataWrite_path := "expTest/result/";
  LogWrite_path := "expTest/log"; DatabaseWrite_path := "expTest/database/";
  DatasetFile := "./selectedTxs_300K.csv"; ReconfigTimeGap := 50;
  Delay := 0; JitterRange := 0; Bandwidth := 0; G2E_Beta := beta |}.

(** The JSON configuration file. *)
Record globalConfig := {
  gc_ConsensusMethod : Z;
  gc_PbftViewChangeTimeOut : Z;
  gc_ExpDataRootDir : string;
  gc_BlockInterval : Z;
  gc_BlocksizeInBytes : Z;
  gc_MaxBlockSizeGlobal : Z;
  gc_UseBlocksizeInBytes : Z;
  gc_InjectSpeed : Z;
  gc_TotalDataSize : Z;
  gc_TxBatchSize : Z;
  gc_BrokerNum : Z;
  gc_RelayWithMerkleProof : Z;
  gc_DatasetFile : string;
  gc_ReconfigTimeGap : Z;
  gc_Delay : Z;
  gc_JitterRange : Z;
  gc_Bandwidth : Z
}.

(** [ReadConfigFile]: [data] is the file's content ([None] when it cannot be
    read) and [unmarshal] the JSON decoding. *)
Definition ReadConfigFile (unmarshal : bytes → option globalConfig)
    (data : option bytes) (p : Params) : outcome Params :=
  data ← or_panic "Error reading file" data;
  config ← or_panic "Error unmarshalling JSON" (unmarshal data);
  Ret {|
    NodesInShard := @NodesInShard p;
    ShardNum := @ShardNum p;
    ConsensusMethod := gc_ConsensusMethod config;
    PbftViewChangeTimeOut := gc_PbftViewChangeTimeOut config;
    Block_Interval := gc_BlockInterval config;
    MaxBlockSize_global := gc_MaxBlockSizeGlobal config;
    BlocksizeInBytes := gc_BlocksizeInBytes config;
    UseBlocksizeInBytes := gc_UseBlocksizeInBytes config;
    InjectSpeed := gc_InjectSpeed config;
    TotalDataSize := gc_TotalDataSize config;
    TxBatchSize := gc_TxBatchSize config;
    BrokerNum := gc_BrokerNum config;
    RelayWithMerkleProof := gc_RelayWithMerkleProof config;
    ExpDataRootDir := gc_ExpDataRootDir config;
    DataWrite_path := (gc_ExpDataRootDir config +:+ "/result/")%string;
    LogWrite_path := (gc_ExpDataRootDir config +:+ "/log")%string;
    DatabaseWrite_path := (gc_ExpDataRootDir config +:+ "/database/")%string;
    DatasetFile := gc_DatasetFile config;
    ReconfigTimeGap := gc_ReconfigTimeGap config;
    Delay := gc_Delay config;
    JitterRange := gc_JitterRange config;
    Bandwidth := gc_Bandwidth config;
    G2E_Beta := @G2E_Beta p |}.

(** [params.ChainConfig]. *)
Record ChainConfig := {
  ChainID : Z;
  cc_NodeID : Z;
  cc_ShardID : Z;
  Nodes_perShard : Z;
  ShardNums : Z;
  BlockSize : Z;
  BlockInterval : Z;
  cc_InjectSpeed : Z;
  MaxRelayBlockSize : Z
}.

Definition SupervisorShard : Z := 2147483647.
Definition Init_Balance : Z := 100000000000000000000000000000000000000000000.
Definition CommitteeMethod : list string := ["CLPA_Broker"; "CLPA"; "Broker"; "Relay"].
Definition MeasureBrokerMod : list string :=
  ["TPS_Broker"; "TCL_Broker"; "CrossTxRate_Broker"; "TxNumberCount_Broker"].
Definition MeasureRelayMod : list string :=
  ["TPS_Relay"; "TCL_Relay"; "CrossTxRate_Relay"; "TxNumberCount_Relay"].

Lemma Init_Balance_value : Init_Balance = 10 ^ 44.
Proof. reflexivity. Qed.
