(* ===== verification/Csv.v ===== *)
(** * Comma-separated files

    The writer and the reader of encoding/csv with their default settings, as far as the
    repository uses them: the measurements of nodes and supervisor are appended to CSV
    files, the transactions to inject are read from one.  [WriteMetricsToCSV] is
    src/supervisor/measure/measureTool.go. *)

From S2P Require Import Prelude Params.
From Stdlib Require Import Ascii.

Definition comma : ascii := ascii_of_nat 44.
Definition dquote : ascii := ascii_of_nat 34.
Definition lf : ascii := ascii_of_nat 10.
Definition cr : ascii := ascii_of_nat 13.

(** ** Writing *)

(** The field begins with a character that unicode.IsSpace accepts, in UTF-8. *)
Definition byte_string (l : list nat) : string := foldr (λ n s, String (ascii_of_nat n) s) "" l.
Definition spaces : list string :=
  map byte_string [[9]; [10]; [11]; [12]; [13]; [32]; [194; 133]; [194; 160]; [225; 154; 128];
                   [226; 128; 168]; [226; 128; 169]; [226; 128; 175]; [226; 129; 159]; [227; 128; 128]]%nat ++
  map (λ k, byte_string [226; 128; 128 + k]%nat) (seq 0 11).
Definition leading_space (f : string) : bool := existsb (λ p, String.prefix p f) spaces.

Fixpoint has_special (f : string) : bool :=
  match f with
  | EmptyString => false
  | String c f => Ascii.eqb c lf || Ascii.eqb c cr || Ascii.eqb c dquote || Ascii.eqb c comma || has_special f
  end.

(** The field \. is the end of data marker of some databases. *)
Definition fieldNeedsQuotes (f : string) : bool :=
  if decide (f = "") then false
  else if decide (f = byte_string [92; 46]%nat) then true
  else has_special f || leading_space f.

Fixpoint escape (f : string) : string :=
  match f with
  | EmptyString => ""
  | String c f => if Ascii.eqb c dquote then String dquote (String dquote (escape f)) else String c (escape f)
  end.

Definition write_field (f : string) : string :=
  if fieldNeedsQuotes f then String dquote (escape f +:+ String dquote "") else f.

Fixpoint write_fields (row : list string) : string :=
  match row with
  | [] => String lf ""
  | [f] => write_field f +:+ String lf ""
  | f :: row => write_field f +:+ String comma (write_fields row)
  end.

Definition write_rows (rows : list (list string)) : string := foldr (λ r s, write_fields r +:+ s) "" rows.

(** ** Reading *)

(** A carriage return before a line end or at the end of the file is dropped. *)
Fixpoint normalize (s : string) : string :=
  match s with
  | EmptyString => ""
  | String c s' =>
      if Ascii.eqb c cr then
        match s' with
        | EmptyString => ""
        | String c' _ => if Ascii.eqb c' lf then normalize s' else String c (normalize s')
        end
      else String c (normalize s')
  end.

(** How a field ended. *)
Inductive ending := at_comma | at_line | at_end.

Definition cons_field (c : ascii) (r : option (string * ending * string)) : option (string * ending * string) :=
  match r with Some (f, e, rest) => Some (String c f, e, rest) | None => None end.

(** A field without quotes; a quote inside is an error. *)
Fixpoint plain (s : string) : option (string * ending * string) :=
  match s with
  | EmptyString => Some ("", at_end, "")
  | String c s =>
      if Ascii.eqb c comma then Some ("", at_comma, s)
      else if Ascii.eqb c lf then Some ("", at_line, s)
      else if Ascii.eqb c dquote then None
      else cons_field c (plain s)
  end.

(** A field after its opening quote. *)
Fixpoint quoted (s : string) : option (string * ending * string) :=
  match s with
  | EmptyString => None
  | String c s =>
      if Ascii.eqb c dquote then
        match s with
        | EmptyString => Some ("", at_end, "")
        | String c' s' =>
            if Ascii.eqb c' dquote then cons_field dquote (quoted s')
            else if Ascii.eqb c' comma then Some ("", at_comma, s')
            else if Ascii.eqb c' lf then Some ("", at_line, s')
            else None
        end
      else cons_field c (quoted s)
  end.

Definition read_field (s : string) : option (string * ending * string) :=
  match s with
  | String c s' => if Ascii.eqb c dquote then quoted s' else plain s
  | EmptyString => plain s
  end.

Fixpoint read_record (fuel : nat) (s : string) : option (list string * string) :=
  match fuel with
  | O => None
  | S fuel =>
      match read_field s with
      | None => None
      | Some (f, at_comma, rest) =>
          match read_record fuel rest with Some (l, rest) => Some (f :: l, rest) | None => None end
      | Some (f, _, rest) => Some ([f], rest)
      end
  end.

(** The results of [Read] up to the end of the file or the first error, [None]; empty
    lines are skipped and all records must have the length of the first. *)
Fixpoint read_records (fuel : nat) (width : option nat) (s : string) : list (option (list string)) :=
  match fuel, s with
  | O, _ | _, EmptyString => []
  | S fuel, String c s' =>
      if Ascii.eqb c lf then read_records fuel width s'
      else match read_record (String.length s) s with
           | None => [None]
           | Some (l, rest) =>
               if decide (default (length l) width = length l)
               then Some l :: read_records fuel (Some (length l)) rest else [None]
           end
  end.

Definition read_csv (s : string) : list (option (list string)) :=
  let s := normalize s in read_records (String.length s) None s.

(** ** The files of the measurements

    The files of the disk by path; making the directory is left out. *)
Abbreviation Files := (gmap string string).

Definition append_csv (path : string) (colName : list string) (colVals : list (list string)) (fs : Files) : Files :=
  let old := default "" (fs !! path) in
  let header := if decide (old = "") then write_rows [colName] else "" in
  <[path := old +:+ header +:+ write_rows colVals]> fs.

Definition metrics_path `{Params} (fileName : string) : string :=
  DataWrite_path +:+ "supervisor_measureOutput/" +:+ fileName +:+ ".csv".

Definition WriteMetricsToCSV `{Params} (fileName : string) (colName : list string)
    (colVals : list (list string)) : Files → Files :=
  append_csv (metrics_path fileName) colName colVals.

(** ** Reading back what was written *)
Fixpoint no_cr (s : string) : bool :=
  match s with EmptyString => true | String c s => negb (Ascii.eqb c cr) && no_cr s end.

Lemma no_cr_app a b : no_cr (a +:+ b) = no_cr a && no_cr b.
Proof.
  induction a as [|c a IH]; [done|]. change (String c a +:+ b) with (String c (a +:+ b)).
  cbn [no_cr]. by rewrite IH, andb_assoc.
Qed.

Lemma normalize_id s : no_cr s = true → normalize s = s.
Proof.
  induction s as [|c s IH]; [done|]. cbn [no_cr normalize].
  intros [Hc%negb_true_iff Hs]%andb_true_iff. by rewrite Hc, IH.
Qed.

(** The character after a field. *)
Definition end_char (e : ending) : ascii := match e with at_comma => comma | _ => lf end.

Lemma plain_write f e rest :
  e ≠ at_end → has_special f = false → plain (f +:+ String (end_char e) rest) = Some (f, e, rest).
Proof.
  intros He. induction f as [|c f IH]; [by destruct e|]. cbn [has_special].
  intros [[[[Hl Hr]%orb_false_iff Hq]%orb_false_iff Hc]%orb_false_iff Hf]%orb_false_iff.
  change (String c f +:+ ?s) with (String c (f +:+ s)). cbn [plain]. by rewrite Hc, Hl, Hq, IH.
Qed.

Lemma quoted_write f e rest :
  e ≠ at_end → quoted (escape f +:+ String dquote (String (end_char e) rest)) = Some (f, e, rest).
Proof.
  intros He. induction f as [|c f IH]; [by destruct e|]. cbn [escape].
  destruct (Ascii.eqb c dquote) eqn:Ec.
  - apply Ascii.eqb_eq in Ec as ->. change (String dquote (String dquote (escape f)) +:+ ?s)
      with (String dquote (String dquote (escape f +:+ s))). cbn [quoted].
    by rewrite Ascii.eqb_refl, IH.
  - change (String c (escape f) +:+ ?s) with (String c (escape f +:+ s)). cbn [quoted]. by rewrite Ec, IH.
Qed.

Lemma no_special_head c f : has_special (String c f) = false → Ascii.eqb c dquote = false.
Proof. cbn. intros [[[_ H]%orb_false_iff _]%orb_false_iff _]%orb_false_iff. done. Qed.

Lemma read_field_write f e rest :
  e ≠ at_end → read_field (write_field f +:+ String (end_char e) rest) = Some (f, e, rest).
Proof.
  intros He. unfold write_field. destruct (fieldNeedsQuotes f) eqn:Eq.
  - change (String dquote (escape f +:+ String dquote "") +:+ ?s)
      with (String dquote ((escape f +:+ String dquote "") +:+ s)).
    cbn [read_field]. rewrite Ascii.eqb_refl, str_app_assoc.
    change (String dquote "" +:+ ?s) with (String dquote s). by apply quoted_write.
  - assert (has_special f = false) as Hs.
    { unfold fieldNeedsQuotes in Eq. destruct (decide (f = "")) as [->|]; [done|].
      case_decide; [done|]. by apply orb_false_iff in Eq as [-> _]. }
    pose proof (plain_write f e rest He Hs) as Hp. destruct f as [|c f].
    + change ("" +:+ ?s) with s in *. cbn [read_field]. by destruct e.
    + change (String c f +:+ ?s) with (String c (f +:+ s)) in *. cbn [read_field].
      by rewrite (no_special_head c f).
Qed.

Lemma read_record_write row rest fuel :
  row ≠ [] → (length row ≤ fuel)%nat → read_record fuel (write_fields row +:+ rest) = Some (row, rest).
Proof.
  revert fuel. induction row as [|f row IH]; intros fuel Hne Hf; [done|].
  destruct fuel as [|fuel]; [cbn in Hf; lia|]. destruct row as [|g row].
  - cbn [write_fields read_record]. rewrite str_app_assoc.
    change (String lf "" +:+ rest) with (String (end_char at_line) rest). by rewrite read_field_write.
  - change (write_fields (f :: g :: row)) with (write_field f +:+ String comma (write_fields (g :: row))).
    rewrite str_app_assoc. change (String comma ?s +:+ rest) with (String (end_char at_comma) (s +:+ rest)).
    cbn [read_record]. rewrite read_field_write by done. rewrite IH; [done..|cbn in *; lia].
Qed.

(** A record that can be told from an empty line. *)
Definition record_ok (n : nat) (row : list string) : Prop :=
  length row = n ∧ row ≠ [] ∧ row ≠ [""] ∧ Forall (λ f, no_cr f = true) row.

Lemma write_fields_length row : (length row ≤ String.length (write_fields row))%nat.
Proof.
  induction row as [|f [|g row] IH]; [cbn; lia|cbn [write_fields]; rewrite str_length_app; cbn; lia|].
  change (write_fields (f :: g :: row)) with (write_field f +:+ String comma (write_fields (g :: row))).
  rewrite str_length_app. cbn [String.length length] in *. lia.
Qed.

(** The first character of a record is not a line end. *)
Lemma write_field_head f e rest :
  (f = "" → e ≠ lf) → ∃ c s, write_field f +:+ String e rest = String c s ∧ Ascii.eqb c lf = false.
Proof.
  intros Hf. unfold write_field. destruct (fieldNeedsQuotes f) eqn:Eq; [by eexists _, _|].
  destruct f as [|c f]; [|].
  - eexists _, _. split; [done|]. apply Ascii.eqb_neq. by apply Hf.
  - eexists c, _. split; [done|]. unfold fieldNeedsQuotes in Eq. repeat case_decide; try done.
    cbn in Eq. apply Ascii.eqb_neq. intros ->. by rewrite Ascii.eqb_refl in Eq.
Qed.

Lemma write_row_head n row rest :
  record_ok n row → ∃ c s, write_fields row +:+ rest = String c s ∧ Ascii.eqb c lf = false.
Proof.
  intros (_ & Hne & Hne' & _). destruct row as [|f [|g row]]; [done| |].
  - cbn [write_fields]. rewrite str_app_assoc. apply write_field_head. congruence.
  - change (write_fields (f :: g :: row)) with (write_field f +:+ String comma (write_fields (g :: row))).
    rewrite str_app_assoc. by apply write_field_head.
Qed.

Lemma read_records_write n rows fuel w :
  Forall (record_ok n) rows → default n w = n → (length rows ≤ fuel)%nat →
  read_records fuel w (write_rows rows) = Some <$> rows.
Proof.
  intros Hr. revert fuel w. induction Hr as [|row rows Hrow _ IH]; intros fuel w Hw Hf.
  { by destruct fuel. }
  destruct fuel as [|fuel]; [cbn in Hf; lia|].
  change (write_rows (row :: rows)) with (write_fields row +:+ write_rows rows).
  destruct (write_row_head n row (write_rows rows) Hrow) as (c & s & E & Hc). destruct Hrow as (Hn & Hne & _).
  pose proof (read_record_write row (write_rows rows) (String.length (write_fields row +:+ write_rows rows)) Hne)
    as Hrd. rewrite str_length_app in Hrd at 1. pose proof (write_fields_length row).
  specialize (Hrd ltac:(lia)). rewrite E in Hrd |- *. cbn [read_records]. rewrite Hc, Hrd, Hn.
  rewrite decide_True by done. cbn [fmap list_fmap]. f_equal. apply IH; [done|cbn in Hf; lia].
Qed.

Lemma write_field_no_cr f : no_cr f = true → no_cr (write_field f) = true.
Proof.
  intros Hf. unfold write_field. destruct (fieldNeedsQuotes f); [|done]. cbn [no_cr].
  change (negb (Ascii.eqb dquote cr)) with true. rewrite andb_true_l, no_cr_app.
  apply andb_true_iff. split; [|done]. induction f as [|c f IH]; [done|]. cbn [escape no_cr] in *.
  apply andb_true_iff in Hf as [Hc Hf]. destruct (Ascii.eqb c dquote); cbn [no_cr]; rewrite IH, ?Hc by done; done.
Qed.

Lemma write_fields_no_cr row : Forall (λ f, no_cr f = true) row → no_cr (write_fields row) = true.
Proof.
  induction 1 as [|f row Hf Hr IH]; [done|]. apply write_field_no_cr in Hf. destruct row as [|g row].
  - cbn [write_fields]. by rewrite no_cr_app, Hf.
  - change (write_fields (f :: g :: row)) with (write_field f +:+ String comma (write_fields (g :: row))).
    by rewrite no_cr_app, Hf.
Qed.

Lemma write_rows_app r1 r2 : write_rows (r1 ++ r2) = write_rows r1 +:+ write_rows r2.
Proof.
  induction r1 as [|r r1 IH]; [done|].
  change (write_rows ((r :: r1) ++ r2)) with (write_fields r +:+ write_rows (r1 ++ r2)).
  change (write_rows (r :: r1)) with (write_fields r +:+ write_rows r1). by rewrite IH, str_app_assoc.
Qed.

Lemma write_rows_length n rows : Forall (record_ok n) rows → (length rows ≤ String.length (write_rows rows))%nat.
Proof.
  induction 1 as [|row rows Hr _ IH]; [cbn; lia|].
  change (write_rows (row :: rows)) with (write_fields row +:+ write_rows rows). rewrite str_length_app.
  pose proof (write_fields_length row). destruct row; [by destruct Hr as (_ & ? & _)|]. cbn in *. lia.
Qed.

(** Reading returns the records written. *)
Lemma read_csv_write n rows : Forall (record_ok n) rows → read_csv (write_rows rows) = Some <$> rows.
Proof.
  intros Hr. unfold read_csv. rewrite normalize_id.
  - apply (read_records_write n); [done..|]. by eapply write_rows_length.
  - induction Hr as [|row rows (_ & _ & _ & H) _ IH]; [done|].
    change (write_rows (row :: rows)) with (write_fields row +:+ write_rows rows).
    by rewrite no_cr_app, IH, write_fields_no_cr.
Qed.

(** ** Appending to a file *)
Definition file_of (path : string) (rows : list (list string)) (fs : Files) : Prop :=
  fs !! path = Some (write_rows rows).

Lemma append_csv_fresh path header rows fs :
  default "" (fs !! path) = "" → file_of path (header :: rows) (append_csv path header rows fs).
Proof.
  intros E. unfold file_of, append_csv. cbv zeta. rewrite lookup_insert_eq, E, decide_True by done.
  change ("" +:+ ?s) with s. change (header :: rows) with ([header] ++ rows). by rewrite write_rows_app.
Qed.

Lemma append_csv_more n path header rows rows' fs :
  record_ok n header → file_of path (header :: rows) fs →
  file_of path (header :: rows ++ rows') (append_csv path header rows' fs).
Proof.
  intros Hh E. unfold file_of, append_csv in *. cbv zeta. rewrite lookup_insert_eq, E. cbn [default from_option id].
  change (write_rows (header :: ?r)) with (write_fields header +:+ write_rows r).
  destruct (write_row_head n header (write_rows rows) Hh) as (c & s & Ec & _).
  rewrite decide_False by (by rewrite Ec).
  change ("" +:+ ?s) with s. by rewrite write_rows_app, <-str_app_assoc.
Qed.

(** C28 (roundtrip) A file of measurements holds one header and all lines.  However often
    [WriteMetricsToCSV] has appended to a file that did not exist, with one header and
    lines of its length, reading the file as CSV returns the header once, then every line
    of every call in order, whatever commas, quotes and line ends the fields contain (but
    no carriage returns). *)
Theorem metrics_file_reads_back `{Params} (n : nat) fileName header
    (first : list (list string)) (calls : list (list (list string))) (fs : Files) :
  fs !! metrics_path fileName = None → record_ok n header →
  Forall (record_ok n) first → Forall (Forall (record_ok n)) calls →
  let fs' := foldl (λ fs rows, WriteMetricsToCSV fileName header rows fs) fs (first :: calls) in
  ∃ content, fs' !! metrics_path fileName = Some content ∧
    read_csv content = Some <$> (header :: first ++ concat calls).
Proof.
  intros Hnone Hh Hf Hc fs'. exists (write_rows (header :: first ++ concat calls)). split.
  - subst fs'. cbn [foldl]. assert (file_of (metrics_path fileName) (header :: first)
      (WriteMetricsToCSV fileName header first fs)) as Hfile.
    { apply append_csv_fresh. by rewrite Hnone. }
    revert Hfile. generalize (WriteMetricsToCSV fileName header first fs). clear Hnone fs Hf.
    revert first. induction Hc as [|rows calls _ _ IH]; intros first fs Hfile; cbn [foldl concat].
    + by rewrite app_nil_r.
    + rewrite app_assoc. apply IH. by apply (append_csv_more n).
  - apply (read_csv_write n). constructor; [done|]. apply Forall_app. split; [done|].
    clear -Hc. induction Hc as [|rows calls H _ IH]; [by constructor|]. cbn. by apply Forall_app.
Qed.

Lemma metrics_file_reads_back_witness :
  let _ := default_params 2 in
  let header := ["EpochID"; "latency (ms, All Txs)"] in
  let fs' := foldl (λ fs rows, WriteMetricsToCSV "Tx_number" header rows fs) (∅ : Files)
    [[["0"; "1,5"]]; [["1"; ""]]] in
  ∃ content, fs' !! metrics_path "Tx_number" = Some content ∧
    read_csv content = Some <$> [header; ["0"; "1,5"]; ["1"; ""]].
Proof.
  intros PR header fs'.
  apply (metrics_file_reads_back 2 "Tx_number" header [["0"; "1,5"]] [[["1"; ""]]] ∅).
  - reflexivity.
  - by repeat constructor.
  - by repeat constructor.
  - by repeat constructor.
Defined.
