(* ===== verification/Utils.v ===== *)
(** * Package [utils]: addresses and the default partition

    Models src/utils: [Addr2Shard], which places an account by the last eight
    hexadecimal digits of its address, and [ModBytes], the index of a byte
    string in the bloom filter; with the functions of [strconv] they call. *)

From S2P Require Import Prelude Params.
From Stdlib Require Import Ascii.

(** [type Address = string]. *)
Abbreviation Address := string (only parsing).

Module Strconv.

Inductive NumError := ErrSyntax | ErrRange.

Definition maxUint64 : Z := 2 ^ 64 - 1.

Definition code (c : ascii) : Z := Z.of_N (N_of_ascii c).

(** The value of a digit or letter, [d] in [strconv.ParseUint]. *)
Definition digit (c : ascii) : option Z :=
  let c := code c in
  let lc := Z.lor c 0x20 in
  if (48 <=? c) && (c <=? 57) then Some (c - 48)
  else if (97 <=? lc) && (lc <=? 122) then Some (lc - 97 + 10)
  else None.

Fixpoint parse_loop (base n : Z) (l : list ascii) : Z * option NumError :=
  match l with
  | [] => (n, None)
  | c :: l' =>
      match digit c with
      | None => (0, Some ErrSyntax)
      | Some d =>
          if base <=? d then (0, Some ErrSyntax)
          else if maxUint64 / base + 1 <=? n then (maxUint64, Some ErrRange)
          else
            let n' := n * base in
            let n1 := u64 (n' + d) in
            if n1 <? n' then (maxUint64, Some ErrRange) else parse_loop base n1 l'
      end
  end.

(** [strconv.ParseUint(s, base, 64)] for an explicit base between 2 and 36. *)
Definition ParseUint (s : list ascii) (base : Z) : Z * option NumError :=
  match s with [] => (0, Some ErrSyntax) | _ => parse_loop base 0 s end.

(** [strconv.ParseInt(s, base, 64)]. *)
Definition ParseInt (s : list ascii) (base : Z) : Z * option NumError :=
  match s with
  | [] => (0, Some ErrSyntax)
  | c :: s' =>
      let neg := code c =? 45 in
      let rest := if neg || (code c =? 43) then s' else s in
      match ParseUint rest base with
      | (_, Some ErrSyntax) => (0, Some ErrSyntax)
      | (un, _) =>
          if negb neg && (2 ^ 63 <=? un) then (2 ^ 63 - 1, Some ErrRange)
          else if neg && (2 ^ 63 <? un) then (- 2 ^ 63, Some ErrRange)
          else ((if neg then - un else un), None)
      end
  end.

Definition is_hex (c : ascii) : bool :=
  match digit c with Some d => d <? 16 | None => false end.

(** The number a hexadecimal string denotes. *)
Definition hex_value (n : Z) (l : list ascii) : Z :=
  foldl (λ n c, n * 16 + default 0 (digit c)) n l.

Lemma digit_nonneg c d : digit c = Some d → 0 ≤ d.
Proof.
  unfold digit. cbv zeta. intros H.
  destruct (_ && _) eqn:E1 in H; [|destruct (_ && _) eqn:E2 in H];
    simplify_eq; apply andb_true_iff in E1 || apply andb_true_iff in E2; lia.
Qed.

Lemma hex_value_bound l n :
  0 ≤ n → Forall (λ c, is_hex c = true) l →
  n * 16 ^ zlen l ≤ hex_value n l < (n + 1) * 16 ^ zlen l.
Proof.
  intros Hn Hl. revert n Hn. induction Hl as [|c l Hc Hl IH]; intros n Hn.
  { change (zlen (@nil ascii)) with 0. change (hex_value n []) with n. lia. }
  unfold is_hex in Hc. destruct (digit c) as [d|] eqn:Hd; [|done].
  pose proof (digit_nonneg _ _ Hd). cbn. rewrite Hd. cbn.
  specialize (IH (n * 16 + d) ltac:(lia)).
  pose proof (Z.pow_pos_nonneg 16 (zlen l) ltac:(lia) (zlen_nonneg l)).
  rewrite zlen_cons, Z.pow_add_r by auto with emu lia.
  apply Z.ltb_lt in Hc. unfold hex_value in *. nia.
Qed.

Lemma parse_loop_hex l n :
  0 ≤ n → Forall (λ c, is_hex c = true) l → hex_value n l < 2 ^ 64 →
  parse_loop 16 n l = (hex_value n l, None).
Proof.
  intros Hn Hl. revert n Hn. induction Hl as [|c l Hc Hl IH]; intros n Hn Hb; [done|].
  unfold is_hex in Hc. cbn in Hb |- *.
  destruct (digit c) as [d|] eqn:Hd; [|done]. cbn in Hb |- *.
  pose proof (digit_nonneg _ _ Hd).
  pose proof (hex_value_bound l (n * 16 + d) ltac:(lia) Hl).
  pose proof (Z.pow_pos_nonneg 16 (zlen l) ltac:(lia) (zlen_nonneg l)).
  assert (n * 16 + d < 2 ^ 64) by (unfold hex_value in *; nia).
  destruct (Z.leb_spec 16 d); [lia|].
  assert (maxUint64 / 16 + 1 = 2 ^ 60) as -> by reflexivity.
  destruct (Z.leb_spec (2 ^ 60) n); [lia|].
  rewrite u64_id by (unfold is_u64, u64_mod; lia).
  destruct (Z.ltb_spec (n * 16 + d) (n * 16)); [lia|]. by apply IH; [lia|].
Qed.

Lemma parse_loop_syntax l n :
  0 ≤ n → ¬ Forall (λ c, is_hex c = true) l → (zlen l ≤ 8) → n < 2 ^ 28 * 16 ^ (8 - zlen l) →
  parse_loop 16 n l = (0, Some ErrSyntax).
Proof.
  revert n. induction l as [|c l IH]; intros n Hn Hl Hlen Hb.
  { destruct Hl. constructor. }
  cbn. destruct (digit c) as [d|] eqn:Hd; [|done].
  pose proof (digit_nonneg _ _ Hd).
  destruct (Z.leb_spec 16 d); [done|].
  assert (maxUint64 / 16 + 1 = 2 ^ 60) as -> by reflexivity.
  rewrite zlen_cons in *. pose proof (zlen_nonneg l).
  assert (16 ^ (8 - zlen l) = 16 ^ (8 - (zlen l + 1)) * 16) as Hp.
  { replace (8 - zlen l) with (8 - (zlen l + 1) + 1) by lia.
    rewrite Z.pow_add_r by lia. lia. }
  assert (16 ^ (8 - zlen l) ≤ 16 ^ 8) by (apply Z.pow_le_mono_r; lia).
  destruct (Z.leb_spec (2 ^ 60) n); [lia|].
  rewrite u64_id by (unfold is_u64, u64_mod; lia).
  destruct (Z.ltb_spec (n * 16 + d) (n * 16)); [lia|].
  apply IH; [lia| |lia|lia].
  intros Hall. apply Hl. constructor; [|done]. unfold is_hex. rewrite Hd. lia.
Qed.

End Strconv.

Section Partition.
Context {PR : Params}.

(** [addr[len(addr)-8:]] for long addresses. *)
Definition last8 (addr : Address) : list ascii :=
  let l := String.list_ascii_of_string addr in
  if decide (8 < length l)%nat then drop (length l - 8) l else l.

(** [Addr2Shard]: the default shard of an address. *)
Definition Addr2Shard (addr : Address) : outcome Z :=
  match Strconv.ParseUint (last8 addr) 16 with
  | (num, None) =>
      if ShardNum =? 0 then Panic "integer divide by zero"
      else Ret (Z.rem (i64 num) ShardNum)
  | (_, Some _) => Panic "strconv.ParseUint"
  end.

(** An address whose last eight characters are a hexadecimal number. *)
Definition valid_addr (addr : Address) : bool :=
  match last8 addr with [] => false | l => forallb Strconv.is_hex l end.

(** [new(big.Int).SetBytes(data)]: the big-endian value of a byte string. *)
Definition SetBytes (data : bytes) : Z :=
  foldl (λ n c, n * 256 + Strconv.code c) 0 (String.list_ascii_of_string data).

(** [ModBytes]. *)
Definition ModBytes (data : bytes) (mod_ : Z) : outcome Z :=
  if i64 mod_ =? 0 then Panic "division by zero"
  else Ret (Z.modulo (SetBytes data) (Z.abs (i64 mod_))).

Lemma last8_short addr : zlen (last8 addr) ≤ 8.
Proof.
  unfold last8, zlen. cbv zeta. case_decide; [rewrite length_drop|]; lia.
Qed.

Lemma Addr2Shard_value addr :
  valid_addr addr = true → 0 < ShardNum →
  Addr2Shard addr = Ret (Strconv.hex_value 0 (last8 addr) mod ShardNum).
Proof.
  unfold valid_addr, Addr2Shard, Strconv.ParseUint. intros Hv Hs.
  pose proof (last8_short addr) as Hlen.
  destruct (last8 addr) as [|c l] eqn:El; [done|]. rewrite <-El in *.
  assert (Forall (λ c, Strconv.is_hex c = true) (last8 addr)) as Hl.
  { apply Forall_forall. intros x Hx. apply list_elem_of_In in Hx.
    rewrite El in Hx. rewrite El in Hv. by apply (proj1 (forallb_forall _ _) Hv). }
  destruct (Strconv.hex_value_bound _ 0 ltac:(lia) Hl) as [H1 H2].
  assert (16 ^ zlen (last8 addr) ≤ 16 ^ 8) by (apply Z.pow_le_mono_r; lia).
  rewrite Strconv.parse_loop_hex by (try done; lia).
  destruct (Z.eqb_spec ShardNum 0); [lia|].
  rewrite i64_id by lia. by rewrite Z.rem_mod_nonneg by lia.
Qed.

Lemma Addr2Shard_panics addr :
  valid_addr addr = false → Addr2Shard addr = Panic "strconv.ParseUint".
Proof.
  unfold valid_addr, Addr2Shard, Strconv.ParseUint. intros Hv.
  pose proof (last8_short addr) as Hlen.
  destruct (last8 addr) as [|c l] eqn:El; [done|].
  rewrite Strconv.parse_loop_syntax; [done|lia| |done|].
  - intros Hall. apply not_true_iff_false in Hv. apply Hv, forallb_forall.
    intros x Hx. rewrite Forall_forall in Hall. apply Hall. by apply list_elem_of_In.
  - pose proof (Z.pow_pos_nonneg 16 (8 - zlen (c :: l))). lia.
Qed.

Lemma Addr2Shard_range addr s :
  0 < ShardNum → Addr2Shard addr = Ret s → 0 ≤ s < ShardNum.
Proof.
  intros Hs H. destruct (valid_addr addr) eqn:Hv.
  - rewrite Addr2Shard_value in H by done. inv_ret. by apply Z.mod_pos_bound.
  - by rewrite Addr2Shard_panics in H.
Qed.

Lemma ModBytes_range data m :
  0 < m < 2 ^ 63 → ∃ r, ModBytes data m = Ret r ∧ 0 ≤ r < m.
Proof.
  intros Hm. unfold ModBytes. rewrite i64_id by lia.
  destruct (Z.eqb_spec m 0); [lia|]. eexists. split; [done|].
  rewrite Z.abs_eq by lia. apply Z.mod_pos_bound. lia.
Qed.

End Partition.
