(* ===== verification/Networks.v ===== *)
(** * Package [networks]: connections, delays and rate limits

    Models src/networks/p2pNetwork.go, upload_limit.go and download_limit.go.  The nodes
    and committees record what they hand to [networks] as (address, message) pairs; this
    file models what becomes of a pair: the delay, the connection pool, the rate-limited
    write of the message and its end-of-line byte, and the reader of a connection, which
    cuts the byte stream into lines again.

    Sockets are parameters: whether [SetKeepAlive], [net.Dial] and [Write] succeed.  The
    limiter of golang.org/x/time/rate is its burst and its [WaitN]; random numbers are an
    argument.  [connMaplock] is held for the whole body of a send, so sends are atomic. *)

From S2P Require Import Prelude Params.
From Stdlib Require Import Ascii.

#[local] Arguments String.append !_ _ / : simpl nomatch.

(** ** Parameters of the network *)

Definition set_network (p : Params) (delay jitter bandwidth : Z) : Params :=
  mkParams (@NodesInShard p) (@ShardNum p) (@ConsensusMethod p) (@PbftViewChangeTimeOut p)
    (@Block_Interval p) (@MaxBlockSize_global p) (@BlocksizeInBytes p) (@UseBlocksizeInBytes p)
    (@InjectSpeed p) (@TotalDataSize p) (@TxBatchSize p) (@BrokerNum p)
    (@RelayWithMerkleProof p) (@ExpDataRootDir p) (@DataWrite_path p) (@LogWrite_path p)
    (@DatabaseWrite_path p) (@DatasetFile p) (@ReconfigTimeGap p) delay jitter bandwidth
    (@G2E_Beta p).

(** [InitNetworkTools]: the corrected parameters; both limiters get the bandwidth as
    limit and burst. *)
Definition InitNetworkTools (p : Params) : Params :=
  set_network p (if @Delay p <? 0 then 0 else @Delay p)
    (if @JitterRange p <? 0 then 0 else @JitterRange p)
    (if @Bandwidth p <? 0 then 2147483647 else @Bandwidth p).

(** The delay of one message in milliseconds; [intn k] is [randomDelayGenerator.Intn(k)],
    which panics unless [k] is positive.  [time.Sleep] returns at once when the delay is
    not positive. *)
Definition this_delay (intn : Z → Z) (p : Params) : outcome Z :=
  if negb (@JitterRange p =? 0) then
    if @JitterRange p <=? 0 then Panic "invalid argument to Intn"
    else Ret (intn (@JitterRange p) - Z.quot (@JitterRange p) 2 + @Delay p)
  else Ret (@Delay p).

(** ** Rate limits *)
Section Limiter.
(** [burst] is [limiter.Burst()], [WaitN n] the error of [limiter.WaitN]. *)
Context (burst : Z) (WaitN : Z → option string).

(** The loop of [rateLimitedWriter.Write]: the tokens asked for, or the error; [None] when
    it has not ended after [fuel] rounds. *)
Fixpoint write_wait (fuel : nat) (n : Z) : option (list Z + string) :=
  if n <=? 0 then Some (inl [])
  else match fuel with
  | O => None
  | S fuel =>
      let writeByteNum := if burst >? n then n else burst in
      match WaitN writeByteNum with
      | Some err => Some (inr err)
      | None =>
          match write_wait fuel (n - writeByteNum) with
          | Some (inl l) => Some (inl (writeByteNum :: l))
          | r => r
          end
      end
  end.

(** The loop of [rateLimitedReader.Read], which asks for all remaining bytes at once. *)
Fixpoint read_wait (fuel : nat) (n : Z) : option (list Z + string) :=
  if n <=? 0 then Some (inl [])
  else match fuel with
  | O => None
  | S fuel =>
      let writeByteNum := if burst >? n then n else burst in
      match WaitN n with
      | Some err => Some (inr err)
      | None =>
          match read_wait fuel (n - writeByteNum) with
          | Some (inl l) => Some (inl (n :: l))
          | r => r
          end
      end
  end.

(** [WaitN] fails when more than the burst is asked for (the limit is finite). *)
Context (WaitN_burst : ∀ n, WaitN n = None ↔ n ≤ burst).

(** With a positive burst the writer gets exactly as many tokens as it has bytes, never
    more than the burst at a time; the number of bytes is enough fuel. *)
Lemma write_wait_ok n fuel :
  0 < burst → 0 ≤ n → (Z.to_nat n ≤ fuel)%nat →
  ∃ l, write_wait fuel n = Some (inl l) ∧ foldr Z.add 0 l = n ∧ Forall (λ w, 0 < w ≤ burst) l.
Proof.
  intros Hb. revert n. induction fuel as [|fuel IH]; intros n Hn Hf; cbn.
  { rewrite (proj2 (Z.leb_le n 0)) by lia. exists []. cbn. split_and!; [done|lia|constructor]. }
  destruct (Z.leb_spec n 0).
  { exists []. cbn. split_and!; [done|lia|constructor]. }
  set (w := if burst >? n then n else burst).
  assert (0 < w ≤ burst ∧ w ≤ n) as [Hw Hwn] by (unfold w; destruct (Z.gtb_spec burst n); lia).
  rewrite (proj2 (WaitN_burst w)) by lia.
  destruct (IH (n - w)) as (l & -> & Hl & Hall); [lia..|].
  exists (w :: l). split_and!; [done|cbn; lia|by constructor].
Qed.

(** With burst 0 the writer asks for 0 tokens for ever. *)
Lemma write_wait_stuck n fuel : burst = 0 → 0 < n → write_wait fuel n = None.
Proof.
  intros Hb Hn. induction fuel as [|fuel IH]; cbn.
  - by destruct (Z.leb_spec n 0); [lia|].
  - destruct (Z.leb_spec n 0); [lia|]. rewrite Hb. destruct (Z.gtb_spec 0 n); [lia|].
    rewrite (proj2 (WaitN_burst 0)) by lia. by rewrite Z.sub_0_r, IH.
Qed.

(** The reader works exactly when its buffer fits the burst. *)
Lemma read_wait_ok n fuel :
  0 < n → (0 < fuel)%nat →
  (n ≤ burst → read_wait fuel n = Some (inl [n])) ∧
  (burst < n → ∃ err, WaitN n = Some err ∧ read_wait fuel n = Some (inr err)).
Proof.
  intros Hn Hf. destruct fuel as [|fuel]; [lia|]. cbn [read_wait].
  destruct (Z.leb_spec n 0); [lia|]. split; intros Hb.
  - rewrite (proj2 (WaitN_burst n)) by lia.
    assert (n - (if burst >? n then n else burst) = 0) as ->
      by (destruct (Z.gtb_spec burst n); lia).
    by destruct fuel.
  - destruct (WaitN n) as [err|] eqn:E; [by exists err|]. apply WaitN_burst in E. lia.
Qed.

End Limiter.

(** ** The connection pool *)

(** The line end of a message. *)
Definition eol : string := String (ascii_of_nat 10) "".
Definition wire (msg : bytes) : bytes := msg +:+ eol.

(** The pool, what has been written on every connection made so far, and the closed
    ones; connections are numbered in the order they are made. *)
Record NetState := mkNet {
  connectionPool : gmap string Z;
  written : gmap Z bytes;
  closed_conns : gset Z;
  conns : Z
}.

(** The outcomes of the socket operations during one send. *)
Record Sockets := mkSockets {
  keepalive_ok : bool;     (* SetKeepAlive on the pooled connection *)
  dial_ok : bool;          (* net.Dial *)
  write_ok : bool          (* the write itself *)
}.

(** [net.Dial] and the entry in the pool. *)
Definition dial (o : Sockets) (addr : string) (st : NetState) : NetState * option Z :=
  if dial_ok o then
    (mkNet (<[addr := conns st]> (connectionPool st)) (<[conns st := ""]> (written st))
       (closed_conns st) (conns st + 1), Some (conns st))
  else (st, None).

(** The connection for the address; a pooled one that is not alive is replaced. *)
Definition connection (o : Sockets) (addr : string) (st : NetState) : NetState * option Z :=
  match connectionPool st !! addr with
  | Some c =>
      if keepalive_ok o then (st, Some c)
      else dial o addr (mkNet (delete addr (connectionPool st)) (written st) (closed_conns st) (conns st))
  | None => dial o addr st
  end.

(** [writeToConn]: waits for the tokens, then writes; [None] when it waits for ever. *)
Definition writeToConn (burst : Z) (WaitN : Z → option string) (o : Sockets) (connMsg : bytes)
    (c : Z) (st : NetState) : option NetState :=
  match write_wait burst WaitN (String.length connMsg) (Z.of_nat (String.length connMsg)) with
  | None => None
  | Some (inr _) => Some st
  | Some (inl _) =>
      if write_ok o then
        Some (mkNet (connectionPool st)
                (<[c := default "" (written st !! c) +:+ connMsg]> (written st)) (closed_conns st) (conns st))
      else Some st
  end.

(** The goroutine of [TcpDial] after the delay, under [connMaplock]; errors are logged. *)
Definition dial_and_write (burst : Z) (WaitN : Z → option string) (o : Sockets)
    (context : bytes) (addr : string) (st : NetState) : option NetState :=
  let '(st, c) := connection o addr st in
  match c with
  | None => Some st
  | Some c => writeToConn burst WaitN o (wire context) c st
  end.

Definition CloseAllConnInPool (st : NetState) : NetState :=
  mkNet ∅ (written st) (closed_conns st ∪ list_to_set (map_to_list (connectionPool st)).*2) (conns st).

(** ** Reading a connection *)

(** [ReadBytes('\n')] on what is left of the stream: the line with its end and the rest, or
    no line (and [io.EOF]) when there is no end left. *)
Fixpoint ReadBytes (s : string) : option (string * string) :=
  match s with
  | EmptyString => None
  | String c s =>
      if Ascii.eqb c (ascii_of_nat 10) then Some (eol, s)
      else match ReadBytes s with
           | Some (l, rest) => Some (String c l, rest)
           | None => None
           end
  end.

(** The lines of a stream; what follows the last line end is not returned. *)
Fixpoint stream_lines (fuel : nat) (s : string) : list string :=
  match fuel with
  | O => []
  | S fuel => match ReadBytes s with
              | None => []
              | Some (l, rest) => l :: stream_lines fuel rest
              end
  end.
Definition lines_of (s : string) : list string := stream_lines (String.length s) s.

(** [readMessage] on the buffer: [ReadBytes] fails with [io.EOF] only, which is dropped. *)
Definition readMessage (buffer : string) : string * string :=
  match ReadBytes buffer with
  | Some (l, rest) => (l, rest)
  | None => (buffer, "")
  end.

(** The inner loop of [ReadFromConn] over the messages of the buffer: [io.ErrShortBuffer] and
    other errors would end it, but [readMessage] returns none.  [None] when the loop is
    still running after [fuel] rounds; otherwise the logged messages and the buffer. *)
Fixpoint drain (read : string → (string + string) * string) (fuel : nat) (buffer : string) :
    option (list string * string) :=
  match fuel with
  | O => None
  | S fuel =>
      match read buffer with
      | (inr _, rest) => Some ([], rest)
      | (inl m, rest) =>
          match drain read fuel rest with
          | Some (l, rest) => Some (m :: l, rest)
          | None => None
          end
      end
  end.

(** [ReadFromConn]: [chunks] are the results of the reads from the connection until its
    end; the result is the list of logged messages. *)
Fixpoint ReadFromConn (fuel : nat) (chunks : list string) (buffer : string) : option (list string) :=
  match chunks with
  | [] => Some []
  | ch :: chunks =>
      match drain (λ b, let '(m, rest) := readMessage b in (inl m, rest)) fuel (buffer +:+ ch) with
      | None => None
      | Some (l, buffer) =>
          match ReadFromConn fuel chunks buffer with
          | Some l' => Some (l ++ l')
          | None => None
          end
      end
  end.

(** ** Delays *)

(** After the correction a delay never panics and lies within half a jitter range of
    the configured one. *)
Lemma this_delay_range intn p :
  (∀ k, 0 < k → 0 ≤ intn k < k) →
  let p' := InitNetworkTools p in
  ∃ t, this_delay intn p' = Ret t ∧ 0 ≤ @Delay p' ∧ 0 ≤ @JitterRange p' ∧
    @Delay p' - Z.quot (@JitterRange p') 2 ≤ t ≤
    @Delay p' + (@JitterRange p' - Z.quot (@JitterRange p') 2).
Proof.
  intros Hi p'. assert (0 ≤ @Delay p' ∧ 0 ≤ @JitterRange p') as [Hd Hj].
  { unfold p'. cbn. destruct (Z.ltb_spec (@Delay p) 0), (Z.ltb_spec (@JitterRange p) 0); lia. }
  unfold this_delay. pose proof (Z.quot_pos (@JitterRange p') 2 ltac:(lia) ltac:(lia)).
  pose proof (Z.quot_le_upper_bound (@JitterRange p') 2 (@JitterRange p') ltac:(lia) ltac:(lia)).
  destruct (Z.eqb_spec (@JitterRange p') 0); cbn [negb].
  - eexists. split; [done|]. lia.
  - destruct (Z.leb_spec (@JitterRange p') 0); [lia|]. eexists. split; [done|].
    specialize (Hi (@JitterRange p') ltac:(lia)). lia.
Qed.

(** ** Lines *)
Fixpoint no_eol (s : string) : bool :=
  match s with
  | EmptyString => true
  | String c s => negb (Ascii.eqb c (ascii_of_nat 10)) && no_eol s
  end.

Definition stream_of (msgs : list bytes) : bytes := foldr (λ m s, wire m +:+ s) "" msgs.

Lemma ReadBytes_line m rest :
  no_eol m = true → ReadBytes (wire m +:+ rest) = Some (wire m, rest).
Proof.
  unfold wire. induction m as [|c m IH]; cbn; [done|].
  intros [Hc Hm]%andb_true_iff. apply negb_true_iff in Hc. rewrite Hc.
  cbn in IH. by rewrite IH.
Qed.

Lemma ReadBytes_partial s : no_eol s = true → ReadBytes s = None.
Proof.
  induction s as [|c s IH]; cbn; [done|]. intros [Hc Hs]%andb_true_iff.
  apply negb_true_iff in Hc. by rewrite Hc, IH.
Qed.

Lemma stream_lines_ok msgs tail fuel :
  Forall (λ m, no_eol m = true) msgs → no_eol tail = true → (length msgs ≤ fuel)%nat →
  stream_lines fuel (stream_of msgs +:+ tail) = wire <$> msgs.
Proof.
  intros Hm Ht. revert fuel. induction Hm as [|m msgs Hm Hms IH]; intros fuel Hf.
  - destruct fuel; cbn; [done|]. by rewrite ReadBytes_partial.
  - destruct fuel as [|fuel]; cbn in Hf; [lia|]. cbn [stream_of foldr stream_lines].
    rewrite str_app_assoc, ReadBytes_line by done. cbn. f_equal. apply IH. lia.
Qed.

Lemma stream_length msgs tail : (length msgs ≤ String.length (stream_of msgs +:+ tail))%nat.
Proof.
  induction msgs as [|m msgs IH]; [cbn; lia|]. cbn [length].
  change (stream_of (m :: msgs)) with (wire m +:+ stream_of msgs).
  unfold wire. rewrite !str_length_app in *.
  change (String.length eol) with 1%nat. lia.
Qed.

(** The reader cuts a stream into the messages it was made from. *)
Lemma lines_of_stream msgs tail :
  Forall (λ m, no_eol m = true) msgs → no_eol tail = true →
  lines_of (stream_of msgs +:+ tail) = wire <$> msgs.
Proof. intros. apply stream_lines_ok; [done..|]. apply stream_length. Qed.

Lemma stream_of_snoc msgs m : stream_of (msgs ++ [m]) = stream_of msgs +:+ wire m.
Proof.
  induction msgs as [|m' msgs IH]; [by cbn; rewrite str_app_nil|].
  change (stream_of ((m' :: msgs) ++ [m])) with (wire m' +:+ stream_of (msgs ++ [m])).
  change (stream_of (m' :: msgs)) with (wire m' +:+ stream_of msgs).
  by rewrite IH, str_app_assoc.
Qed.

(** ** Sequences of sends *)
Section Sends.
Context (burst : Z) (WaitN : Z → option string) (WaitN_burst : ∀ n, WaitN n = None ↔ n ≤ burst).

(** The sends in the order in which they get the lock. *)
Fixpoint send_seq (l : list (Sockets * string * bytes)) (st : NetState) : option NetState :=
  match l with
  | [] => Some st
  | (o, addr, msg) :: l =>
      match dial_and_write burst WaitN o msg addr st with
      | Some st => send_seq l st
      | None => None
      end
  end.

(** The messages to an address whose write succeeded. *)
Definition messages_to (addr : string) (l : list (Sockets * string * bytes)) : list bytes :=
  omap (λ '(o, a, m), if decide (a = addr) then if write_ok o then Some m else None else None) l.

(** The pool after the sends [l]: one connection per address sent to, with exactly the
    messages to it. *)
Definition pool_inv (l : list (Sockets * string * bytes)) (st : NetState) : Prop :=
  (∀ addr, match connectionPool st !! addr with
           | Some c => written st !! c = Some (stream_of (messages_to addr l)) ∧
                       (c ∉ closed_conns st) ∧ 0 ≤ c < conns st
           | None => addr ∉ (l.*1).*2
           end) ∧
  (∀ a b c, connectionPool st !! a = Some c → connectionPool st !! b = Some c → a = b) ∧
  (∀ c, c ∈ closed_conns st → c < conns st) ∧ 0 ≤ conns st.

Lemma messages_to_snoc addr l o a m :
  messages_to addr (l ++ [(o, a, m)]) =
  messages_to addr l ++ (if decide (a = addr) then if write_ok o then [m] else [] else []).
Proof. unfold messages_to. rewrite omap_app. cbn. by case_decide; [destruct (write_ok o)|]. Qed.

Lemma messages_to_none addr l : addr ∉ (l.*1).*2 → messages_to addr l = [].
Proof.
  intros H. unfold messages_to. induction l as [|[[o a] m] l IH]; cbn in *; [done|].
  apply not_elem_of_cons in H as [Hne H]. rewrite decide_False by done. by apply IH.
Qed.

Lemma writeToConn_ok o msg c st s :
  0 < burst → written st !! c = Some s →
  writeToConn burst WaitN o (wire msg) c st =
    Some (mkNet (connectionPool st)
            (if write_ok o then <[c := s +:+ wire msg]> (written st) else written st)
            (closed_conns st) (conns st)).
Proof.
  intros Hb Hs. unfold writeToConn.
  destruct (write_wait_ok burst WaitN WaitN_burst (Z.of_nat (String.length (wire msg)))
    (String.length (wire msg))) as (l & -> & _); [lia..|].
  rewrite Hs. destruct (write_ok o); [done|]. by destruct st.
Qed.

(** The connection used for a send: the pooled one, or a new one. *)
Lemma connection_inv o addr l st :
  keepalive_ok o = true → dial_ok o = true → pool_inv l st →
  ∃ st' c, connection o addr st = (st', Some c) ∧ connectionPool st' !! addr = Some c ∧
    written st' !! c = Some (stream_of (messages_to addr l)) ∧
    (c ∉ closed_conns st') ∧ 0 ≤ c < conns st' ∧
    (∀ a, a ≠ addr → connectionPool st' !! a = connectionPool st !! a) ∧
    (∀ a c', a ≠ addr → connectionPool st !! a = Some c' → c' ≠ c ∧ written st' !! c' = written st !! c') ∧
    closed_conns st' = closed_conns st ∧ conns st ≤ conns st'.
Proof.
  intros Hk Hd (Hp & Hinj & Hcl & Hc0). unfold connection. pose proof (Hp addr) as Ha.
  destruct (connectionPool st !! addr) as [c|] eqn:E.
  - rewrite Hk. exists st, c. destruct Ha as (? & ? & ?). split_and!; try done; try lia.
    intros a c' Hne Ea. split; [|done]. intros ->. by apply Hne, (Hinj a addr c).
  - unfold dial. rewrite Hd. eexists _, _. split; [done|]. cbn.
    rewrite lookup_insert_eq, lookup_insert_eq, messages_to_none by done.
    split_and!; try done; try lia.
    + intros Hin%Hcl. lia.
    + intros a Hne. by rewrite lookup_insert_ne.
    + intros a c' Hne Ea. pose proof (Hp a) as Ha'. rewrite Ea in Ha'. destruct Ha' as (_ & _ & ?).
      split; [lia|]. rewrite lookup_insert_ne; [done|]. lia.
Qed.

Lemma dial_and_write_inv o addr msg l st :
  0 < burst → keepalive_ok o = true → dial_ok o = true → pool_inv l st →
  ∃ st', dial_and_write burst WaitN o msg addr st = Some st' ∧ pool_inv (l ++ [(o, addr, msg)]) st'.
Proof.
  intros Hb Hk Hd Hi. pose proof Hi as (Hp & Hinj & Hcl & Hc0).
  destruct (connection_inv o addr l st Hk Hd Hi)
    as (st1 & c & E & Ec & Ew & Hnc & Hr & Hoth & Hothw & Hcl1 & Hcn).
  unfold dial_and_write. rewrite E, (writeToConn_ok o msg c st1 _ Hb Ew).
  eexists. split; [done|]. split_and!; cbn.
  - intros a. rewrite messages_to_snoc. destruct (decide (addr = a)) as [<-|Hne].
    + rewrite Ec. destruct (write_ok o); [rewrite lookup_insert_eq, stream_of_snoc|rewrite app_nil_r]; done.
    + rewrite app_nil_r, (Hoth a) by done. specialize (Hp a).
      destruct (connectionPool st !! a) as [c'|] eqn:Ea.
      * destruct (Hothw a c') as [Hc' Hw]; [done..|]. rewrite Hcl1.
        destruct Hp as (Hp1 & Hp2 & Hp3). split_and!; [|done|lia..].
        destruct (write_ok o); [rewrite lookup_insert_ne by done|]; by rewrite Hw.
      * rewrite !fmap_app. cbn. set_solver.
  - intros a b c' Ea Eb. destruct (decide (a = addr)) as [->|Ha], (decide (b = addr)) as [->|Hb'].
    + done.
    + rewrite Hoth in Eb by done. destruct (Hothw b c') as [? _]; [done..|]. congruence.
    + rewrite Hoth in Ea by done. destruct (Hothw a c') as [? _]; [done..|]. congruence.
    + rewrite Hoth in Ea, Eb by done. by apply (Hinj a b c').
  - rewrite Hcl1. intros c' Hc'%Hcl. lia.
  - lia.
Qed.

Lemma send_seq_inv l l0 st :
  0 < burst → Forall (λ s, keepalive_ok s.1.1 = true ∧ dial_ok s.1.1 = true) l → pool_inv l0 st →
  ∃ st', send_seq l st = Some st' ∧ pool_inv (l0 ++ l) st'.
Proof.
  intros Hb Hl. revert l0 st. induction Hl as [|[[o a] m] l [Hk Hd] Hl IH]; intros l0 st Hi; cbn.
  { exists st. by rewrite app_nil_r. }
  destruct (dial_and_write_inv o a m l0 st Hb Hk Hd Hi) as (st1 & -> & Hi1).
  destruct (IH _ _ Hi1) as (st' & -> & Hi'). exists st'. by rewrite <-app_assoc in Hi'.
Qed.

Definition net_init : NetState := mkNet ∅ ∅ ∅ 0.

Lemma pool_inv_init : pool_inv [] net_init.
Proof.
  split_and!; cbn; [|done|set_solver|lia]. intros addr. rewrite lookup_empty. set_solver.
Qed.

(** C18 (roundtrip) Messages arrive whole, once and in order: with a positive bandwidth and as
    long as connections can be made and stay alive, every send returns; every address sent
    to has one connection of its own, on which exactly the messages to it whose write
    succeeded have been written, and the reader of the connection cuts this stream back
    into these messages, in the order in which they got the lock, provided no message
    contains a line end.  A partly received message is not handed on. *)
Theorem pool_delivers_in_order l :
  0 < burst → Forall (λ s, keepalive_ok s.1.1 = true ∧ dial_ok s.1.1 = true) l →
  Forall (λ s, no_eol s.2 = true) l →
  ∃ st, send_seq l net_init = Some st ∧
    ∀ addr, addr ∈ (l.*1).*2 →
      ∃ c s, connectionPool st !! addr = Some c ∧ written st !! c = Some s ∧
        (∀ a, connectionPool st !! a = Some c → a = addr) ∧
        lines_of s = wire <$> messages_to addr l ∧
        ∀ part, no_eol part = true → lines_of (s +:+ part) = wire <$> messages_to addr l.
Proof.
  intros Hb Hl Hm. destruct (send_seq_inv l [] net_init Hb Hl pool_inv_init) as (st & E & Hi).
  exists st. split; [done|]. intros addr Ha. destruct Hi as (Hp & Hinj & _).
  specialize (Hp addr). cbn [app] in Hp. destruct (connectionPool st !! addr) as [c|] eqn:Ec; [|done].
  destruct Hp as (Hw & _). exists c, (stream_of (messages_to addr l)).
  assert (Forall (λ m, no_eol m = true) (messages_to addr l)) as Hall.
  { apply Forall_forall. intros m. unfold messages_to. rewrite list_elem_of_omap.
    intros ([[o a] m'] & Hin & E'). rewrite Forall_forall in Hm. specialize (Hm _ Hin). cbn in *.
    repeat case_match; naive_solver. }
  split_and!; [done..|by intros a Ea; apply (Hinj a addr c)| |].
  - rewrite <-(str_app_nil (stream_of _)). by apply lines_of_stream.
  - intros part Hpart. by apply lines_of_stream.
Qed.

(** With bandwidth 0 the first send on a connection never returns; it holds the lock of
    the pool, so no message of the process is ever sent. *)
Theorem zero_bandwidth_blocks o msg addr st c :
  burst = 0 → (connection o addr st).2 = Some c → dial_and_write burst WaitN o msg addr st = None.
Proof.
  intros Hb Hc. unfold dial_and_write. destruct (connection o addr st) as [st1 c1]. cbn in Hc. subst.
  unfold writeToConn. rewrite (write_wait_stuck 0 WaitN) by (done || unfold wire;
    rewrite str_length_app; cbn; lia). done.
Qed.

End Sends.

(** [ReadFromConn] never returns once it has read something: when the buffer is
    exhausted [readMessage] returns an empty message and no error, so the loop over the
    messages of the buffer has no end. *)
Theorem ReadFromConn_never_returns ch chunks buffer fuel :
  ReadFromConn fuel (ch :: chunks) buffer = None.
Proof.
  cbn. assert (∀ fuel b, drain (λ b, let '(m, rest) := readMessage b in (inl m, rest)) fuel b = None)
    as Hd; [|by rewrite Hd].
  clear. induction fuel as [|fuel IH]; intros b; [done|]. cbn. destruct (readMessage b).
  by rewrite IH.
Qed.

(** Two addresses and a burst of four bytes. *)
Lemma pool_delivers_in_order_witness :
  let WaitN n := if n <=? 4 then None else Some "rate: Wait(n) exceeds limiter's burst" in
  let ok := mkSockets true true true in
  let l := [(ok, "ip1", "prepare"); (ok, "ip2", "commit"); (ok, "ip1", "reply")] in
  ∃ st, send_seq 4 WaitN l net_init = Some st ∧
    ∀ addr, addr ∈ (l.*1).*2 →
      ∃ c s, connectionPool st !! addr = Some c ∧ written st !! c = Some s ∧
        (∀ a, connectionPool st !! a = Some c → a = addr) ∧
        lines_of s = wire <$> messages_to addr l ∧
        ∀ part, no_eol part = true → lines_of (s +:+ part) = wire <$> messages_to addr l.
Proof.
  intros WaitN ok l. apply (pool_delivers_in_order 4 WaitN).
  - intros n. unfold WaitN. destruct (Z.leb_spec n 4); split; done || lia.
  - lia.
  - by repeat constructor.
  - by repeat constructor.
Defined.
