(* ===== verification/Vrf.v ===== *)
(** * Verifiable random values

    src/shard/vrf: the accounts of vrf_account.go, whose random value is a signature of
    the seed, and the wrappers of vrf.go around a VRF library.  The elliptic curve, the
    VRF, RLP and Keccak are third-party code: the class [CryptoOps], with the documented
    laws in [CryptoLaws] and a small concrete instance at the end. *)

From S2P Require Import Prelude.

(** ** The libraries

    An address is the string of its bytes.  [None] stands for a non-nil error. *)
Class CryptoOps := {
  PrivateKey : Type;
  PublicKey : Type;
  pub_of : PrivateKey → PublicKey;                 (* the field PublicKey of a private key *)
  crypto_Sign : bytes → PrivateKey → option bytes; (* crypto.Sign(hash, prv) *)
  crypto_Ecrecover : bytes → bytes → option bytes; (* crypto.Ecrecover(hash, sig) *)
  FromECDSAPub : PublicKey → bytes;                (* crypto.FromECDSAPub *)
  UnmarshalPubkey : bytes → option PublicKey;      (* crypto.UnmarshalPubkey *)
  PubkeyToAddress : PublicKey → bytes;             (* crypto.PubkeyToAddress *)
  BytesToAddress : bytes → bytes;                  (* common.BytesToAddress *)
  vrf_Prove : PrivateKey → bytes → option (bytes * bytes);
    (* ecvrf.Secp256k1Sha256Tai.Prove: the output and the proof *)
  vrf_Verify : PublicKey → bytes → option bytes → option bytes;
    (* ecvrf.Secp256k1Sha256Tai.Verify: the output; the proof may be nil *)
  keccak : bytes → bytes                           (* the 32 bytes read after writing *)
}.

Class CryptoLaws (C : CryptoOps) := {
  (** A signature is made of a 32-byte hash and lets everybody recover the public key. *)
  Sign_ok h k : is_Some (crypto_Sign h k) ↔ String.length h = 32%nat;
  Ecrecover_Sign h k sig :
    crypto_Sign h k = Some sig → crypto_Ecrecover h sig = Some (FromECDSAPub (pub_of k));
  Ecrecover_length h sig : String.length h ≠ 32%nat → crypto_Ecrecover h sig = None;
  Unmarshal_From p : UnmarshalPubkey (FromECDSAPub p) = Some p;
  Unmarshal_nil : UnmarshalPubkey "" = None;
  Address_length p : String.length (PubkeyToAddress p) = 20%nat;
  BytesToAddress_id a : String.length a = 20%nat → BytesToAddress a = a;
  (** Proofs verify, and a missing proof does not. *)
  Verify_Prove k x out pf :
    vrf_Prove k x = Some (out, pf) → vrf_Verify (pub_of k) x (Some pf) = Some out;
  Verify_nil p x : vrf_Verify p x None = None;
  keccak_length b : String.length (keccak b) = 32%nat
}.

(** A proof and a random value; [None] is a nil slice. *)
Record VRFResult := mkVRF { Proof_ : option bytes; RandomValue : option bytes }.

Section Vrf.
Context {C : CryptoOps}.

Record VrfAccount := mkVA {
  privateKey : PrivateKey;
  pubKey : PublicKey;
  accountAddr : bytes;
  keyDir : string
}.

(** [newPrivateKey] logs an error of the generator and then uses the key: [generated] is
    the result of secp256k1.GeneratePrivateKey. *)
Definition newPrivateKey (generated : option PrivateKey) : outcome PrivateKey :=
  or_panic "nil pointer dereference" generated.

(** [join] is filepath.Join. *)
Definition NewVrfAccount (join : string → string → string) (generated : option PrivateKey)
    (nodeDatadir : string) : outcome VrfAccount :=
  k ← newPrivateKey generated;
  Ret (mkVA k (pub_of k) (PubkeyToAddress (pub_of k)) (join nodeDatadir "KeyStoreDir")).

Definition SignHash (a : VrfAccount) (hash : bytes) : bytes :=
  match crypto_Sign hash (privateKey a) with Some sig => sig | None => "" end.

(** The errors of the two calls are only logged; the key that is missing then is
    dereferenced. *)
Definition VerifySignature (msgHash sig expected_addr : bytes) : outcome bool :=
  let pubKeyBytes := default "" (crypto_Ecrecover msgHash sig) in
  pubkey ← or_panic "nil pointer dereference" (UnmarshalPubkey pubKeyBytes);
  Ret (bool_decide (PubkeyToAddress pubkey = expected_addr)).

Definition GenerateVRFOutput (a : VrfAccount) (randSeed : bytes) : VRFResult :=
  mkVRF (Some (accountAddr a)) (Some (SignHash a randSeed)).

(** The receiver is not used. *)
Definition VerifyVRFOutput (_ : VrfAccount) (vrfResult : VRFResult) (randSeed : bytes) : outcome bool :=
  VerifySignature randSeed (default "" (RandomValue vrfResult))
    (BytesToAddress (default "" (Proof_ vrfResult))).

Definition GetAccountAddress (a : VrfAccount) : bytes := accountAddr a.

(** ** vrf.go *)
Definition GenerateVRF (k : PrivateKey) (input : bytes) : VRFResult :=
  match vrf_Prove k input with
  | Some (output, proof) => mkVRF (Some proof) (Some output)
  | None => mkVRF None None
  end.

(** [reflect.DeepEqual] tells a nil slice from an empty one. *)
Definition VerifyVRF (p : PublicKey) (input : bytes) (vrfResult : VRFResult) : bool :=
  let output := vrf_Verify p input (Proof_ vrfResult) in
  bool_decide (output = RandomValue vrfResult).

(** ** Hashing

    A hasher of the pool holds what was written to it.  [encoded] is what rlp.Encode
    writes and whether it succeeds. *)
Definition hasher : Type := bytes.

Definition rlpHash (sha : hasher) (encoded : bytes * bool) : (bytes + string) * hasher :=
  let sha := "" in
  let '(b, ok) := encoded in
  let sha := sha +:+ b in
  if ok : bool then (inl (keccak sha), sha) else (inr "rlp", sha).

Definition RlpHash (sha : hasher) (encoded : bytes * bool) : (bytes + string) * hasher :=
  rlpHash sha encoded.

(** ** Properties *)
Context {CL : CryptoLaws C}.

(** An account made by [NewVrfAccount]. *)
Definition account_ok (a : VrfAccount) : Prop :=
  pubKey a = pub_of (privateKey a) ∧ accountAddr a = PubkeyToAddress (pubKey a).

Lemma NewVrfAccount_ok join k dir :
  ∃ a, NewVrfAccount join (Some k) dir = Ret a ∧ account_ok a ∧ privateKey a = k.
Proof. by eexists. Qed.

(** A signature is accepted for the address of its signer and for no other. *)
Lemma VerifySignature_Sign a h addr :
  account_ok a → String.length h = 32%nat →
  VerifySignature h (SignHash a h) addr = Ret (bool_decide (accountAddr a = addr)).
Proof.
  intros [Hp Ha] Hh. unfold VerifySignature, SignHash.
  destruct (proj2 (Sign_ok h (privateKey a)) Hh) as [sig E]. rewrite E, (Ecrecover_Sign h (privateKey a) sig E).
  cbn [default from_option id]. rewrite Unmarshal_From. cbn [or_panic]. by rewrite bind_ret, Ha, Hp.
Qed.

(** A seed of another length has no random value: the verification dereferences the
    missing key. *)
Lemma VerifySignature_length h sig addr :
  String.length h ≠ 32%nat → VerifySignature h sig addr = Panic "nil pointer dereference".
Proof.
  intros Hh. unfold VerifySignature. rewrite Ecrecover_length by done. cbn [default from_option id].
  by rewrite Unmarshal_nil.
Qed.

(** C40 (roundtrip) The random value of an account verifies.  For every account that
    [NewVrfAccount] makes and every seed that [RlpHash] returns, whatever the hasher taken
    from the pool had been used for, any account accepts the value and proof that
    [GenerateVRFOutput] returns for the seed, and accepts that value for no other address;
    for a seed that does not have 32 bytes the verification panics. *)
Theorem vrf_output_verifies join k dir (verifier : VrfAccount) sha encoded seed sha' :
  RlpHash sha encoded = (inl seed, sha') →
  ∃ a, NewVrfAccount join (Some k) dir = Ret a ∧
    VerifyVRFOutput verifier (GenerateVRFOutput a seed) seed = Ret true ∧
    (∀ other, String.length other = 20%nat → other ≠ GetAccountAddress a →
       VerifyVRFOutput verifier (mkVRF (Some other) (RandomValue (GenerateVRFOutput a seed))) seed
         = Ret false) ∧
    ∀ seed', String.length seed' ≠ 32%nat →
      VerifyVRFOutput verifier (GenerateVRFOutput a seed') seed' = Panic "nil pointer dereference".
Proof.
  intros Hs. destruct (NewVrfAccount_ok join k dir) as (a & E & Ha & _). exists a. split; [done|].
  assert (String.length seed = 32%nat) as Hlen.
  { unfold RlpHash, rlpHash in Hs. destruct encoded as [b []]; simplify_eq. apply keccak_length. }
  assert (String.length (accountAddr a) = 20%nat) as HA by (rewrite (proj2 Ha); apply Address_length).
  unfold VerifyVRFOutput. cbn [GenerateVRFOutput Proof_ RandomValue default from_option id].
  split_and!.
  - rewrite BytesToAddress_id, VerifySignature_Sign by done. by rewrite bool_decide_true.
  - intros other Ho Hne. rewrite BytesToAddress_id, VerifySignature_Sign by done.
    rewrite bool_decide_false; [done|]. unfold GetAccountAddress in Hne. congruence.
  - intros seed' Hs'. by apply VerifySignature_length.
Qed.

(** [VerifyVRF] accepts what [GenerateVRF] returns for the public key, also
    when the generation failed: a failure is only logged, leaves a result without proof
    and value, and the verification of that result, which fails as well, compares nil
    with nil. *)
Theorem failed_vrf_verifies k x : VerifyVRF (pub_of k) x (GenerateVRF k x) = true.
Proof.
  unfold VerifyVRF, GenerateVRF. destruct (vrf_Prove k x) as [[out pf]|] eqn:E; cbn.
  - rewrite (Verify_Prove k x out pf E). by apply bool_decide_true.
  - rewrite Verify_nil. by apply bool_decide_true.
Qed.

End Vrf.

(** ** A concrete instance

    A key is its address; a signature is the hash followed by the key. *)
Fixpoint zeros (n : nat) : string := match n with O => "" | S n => String Ascii.zero (zeros n) end.
Definition to_length (n : nat) (b : bytes) : bytes := String.substring 0 n (b +:+ zeros n).

Lemma take_app (a b : string) : String.substring 0 (String.length a) (a +:+ b) = a.
Proof.
  induction a as [|c a IH]; [by destruct b|]. change (String c a +:+ b) with (String c (a +:+ b)).
  cbn [String.length String.substring]. by rewrite IH.
Qed.

Lemma take_length n (b : string) : (n ≤ String.length b)%nat → String.length (String.substring 0 n b) = n.
Proof.
  revert n. induction b as [|c b IH]; intros [|n] H; cbn in *; try done; [lia|].
  rewrite IH; lia.
Qed.

Lemma to_length_length n b : String.length (to_length n b) = n.
Proof.
  apply take_length. rewrite str_length_app.
  assert (∀ m, String.length (zeros m) = m) as -> by (intros m; induction m as [|m IH]; [done|cbn; by rewrite IH]).
  lia.
Qed.

Lemma to_length_id n b : String.length b = n → to_length n b = b.
Proof. intros <-. apply take_app. Qed.

Fixpoint drop_string (n : nat) (s : string) : string :=
  match n, s with S n, String _ s => drop_string n s | _, _ => s end.

Lemma drop_app (a b : string) : drop_string (String.length a) (a +:+ b) = b.
Proof. induction a as [|c a IH]; [by destruct b|]. exact IH. Qed.

#[export] Instance ToyCrypto : CryptoOps := {|
  PrivateKey := string; PublicKey := string;
  pub_of k := k;
  crypto_Sign h k := if decide (String.length h = 32%nat) then Some (h +:+ k) else None;
  crypto_Ecrecover h sig :=
    if decide (String.length h = 32%nat) then Some ("p" +:+ drop_string 32 sig) else None;
  FromECDSAPub p := "p" +:+ p;
  UnmarshalPubkey b := match b with EmptyString => None | String _ p => Some p end;
  PubkeyToAddress p := to_length 20 p;
  BytesToAddress b := to_length 20 b;
  vrf_Prove k x := if decide (x = "") then None else Some (x +:+ k, x);
  vrf_Verify p x pf := if decide (pf = Some x ∧ x ≠ "") then Some (x +:+ p) else None;
  keccak b := to_length 32 b
|}.

#[export] Instance ToyCrypto_laws : CryptoLaws ToyCrypto.
Proof.
  split; cbn -[drop_string to_length].
  - intros h k. case_decide; split; try done; by intros [].
  - intros h k sig E. case_decide as Hh; [|done]. injection E as <-.
    pose proof (drop_app h k) as Hd. rewrite Hh in Hd. by rewrite Hd.
  - intros h sig Hh. by rewrite decide_False.
  - done.
  - done.
  - intros p. apply to_length_length.
  - intros a. apply to_length_id.
  - intros k x out pf. case_decide; [done|]. intros [= <- <-]. by rewrite decide_True.
  - done.
  - intros b. apply to_length_length.
Qed.

Lemma vrf_output_verifies_witness :
  let seed := to_length 32 "random seed" in
  RlpHash "used before" ("random seed", true) = (inl seed, "random seed") ∧
  ∃ a, NewVrfAccount (C := ToyCrypto) (λ d f, d +:+ "/" +:+ f) (Some "alice") "../test" = Ret a ∧
    VerifyVRFOutput a (GenerateVRFOutput a seed) seed = Ret true.
Proof.
  intros seed. split; [reflexivity|].
  destruct (vrf_output_verifies (C := ToyCrypto) (λ d f, d +:+ "/" +:+ f) "alice" "../test"
    (mkVA (C := ToyCrypto) "alice" "alice" (to_length 20 "alice") "../test/KeyStoreDir")
    "used before" ("random seed", true) seed "random seed" eq_refl) as (a & E & Hv & _).
  exists a. split; [exact E|]. exact Hv.
Defined.

(** The library of the instance proves nothing about an empty input. *)
Lemma failed_vrf_verifies_witness :
  GenerateVRF (C := ToyCrypto) "alice" "" = mkVRF None None ∧
  VerifyVRF (C := ToyCrypto) "alice" "" (GenerateVRF (C := ToyCrypto) "alice" "") = true.
Proof. split; [reflexivity|]. exact (failed_vrf_verifies (C := ToyCrypto) "alice" ""). Defined.
