(* ===== verification/Interfaces.v ===== *)
(** * Interfaces of the third-party code the repository calls

    The bit set of [bits-and-blooms/bitset], the Merkle-Patricia trie and trie
    database of [go-ethereum/trie], and the key-value store [boltdb/bolt] are
    not part of the repository.  Each is a class of operations ([...Ops], with
    the Go function it stands for) and a class of the documented laws the
    repository relies on ([...Laws]).  The components are written against the
    operations, their theorems against the laws; [Instances] holds one concrete
    implementation of every class. *)

From S2P Require Import Prelude.

(** ** [bitset.BitSet] *)
Class BitSetOps := {
  BitSet : Type;
  bs_New : Z → BitSet;                 (* bitset.New *)
  bs_Set : BitSet → Z → BitSet;        (* (b *BitSet) Set *)
  bs_Test : BitSet → Z → bool          (* (b *BitSet) Test *)
}.

Class BitSetLaws (B : BitSetOps) := {
  bs_Test_New n i : bs_Test (bs_New n) i = false;
  bs_Test_Set b i j : bs_Test (bs_Set b i) j = bool_decide (i = j) || bs_Test b j
}.

(** ** [trie.Trie] and [trie.Database]

    A root is a byte string; [None] stands for a non-nil error or a nil slice. *)
Class TrieOps := {
  Trie : Type;
  TrieDB : Type;
  EthDB : Type;
  NodeSet : Type;
  BytesToHash : bytes → bytes;               (* common.BytesToHash(b).Bytes() *)
  memory_db : EthDB;                         (* rawdb.NewMemoryDatabase *)
  trie_NewDatabase : EthDB → TrieDB;         (* trie.NewDatabase[WithConfig] *)
  trie_New : bytes → TrieDB → option Trie;   (* trie.New(trie.TrieID(root), db) *)
  trie_NewEmpty : TrieDB → Trie;             (* trie.NewEmpty *)
  trie_Get : Trie → bytes → option bytes;    (* (t *Trie) Get *)
  trie_Update : Trie → bytes → bytes → Trie; (* (t *Trie) Update *)
  trie_Hash : Trie → bytes;                  (* (t *Trie) Hash().Bytes() *)
  trie_Commit : Trie → bytes * option NodeSet;   (* (t *Trie) Commit(false) *)
  triedb_Update : NodeSet → TrieDB → option TrieDB;
    (* (db *Database) Update(trie.NewWithNodeSet(ns)) *)
  triedb_Commit : bytes → TrieDB → option TrieDB;
    (* (db *Database) Commit(root, false) *)
  trie_Prove : Trie → bytes → option (list (bytes * bytes));
    (* (t *Trie) Prove(key, 0, proof): the pairs of the proof database in the
       order of its iterator *)
  trie_VerifyProof : bytes → bytes → list (bytes * bytes) → option (option bytes)
    (* trie.VerifyProof(root, key, db) on the database filled by the given
       sequence of [Put]s: error, nil value or value *)
}.

(** Every trie that can be opened in [db] can be opened in [db'] with the same
    content. *)
Definition persists `{TrieOps} (db db' : TrieDB) : Prop :=
  ∀ r t, trie_New r db = Some t →
    ∃ t', trie_New r db' = Some t' ∧ ∀ k, trie_Get t' k = trie_Get t k.

Class TrieLaws (T : TrieOps) := {
  (** [backed t r db]: [t] was opened at the root [r] in [db] and possibly had
      values stored since. *)
  backed : Trie → bytes → TrieDB → Prop;
  backed_New r db t : trie_New r db = Some t → backed t r db;
  backed_NewEmpty db : backed (trie_NewEmpty db) (trie_Hash (trie_NewEmpty db)) db;
  backed_Update t r db k v :
    v ≠ "" → backed t r db → backed (trie_Update t k v) r db;
  trie_Get_NewEmpty db k : trie_Get (trie_NewEmpty db) k = None;
  (** An update with a non-empty value stores it (an empty value deletes). *)
  trie_Get_Update t k v k' :
    v ≠ "" → trie_Get (trie_Update t k v) k' =
               if decide (k = k') then Some v else trie_Get t k';
  trie_Hash_New r db t : trie_New r db = Some t → trie_Hash t = BytesToHash r;
  BytesToHash_Hash t : BytesToHash (trie_Hash t) = trie_Hash t;
  BytesToHash_idemp b : BytesToHash (BytesToHash b) = BytesToHash b;
  (** The root is determined by the content. *)
  trie_Hash_ext t t' : (∀ k, trie_Get t k = trie_Get t' k) → trie_Hash t = trie_Hash t';
  trie_Commit_root t : (trie_Commit t).1 = trie_Hash t;
  (** The empty root can always be opened. *)
  trie_New_empty db db' :
    ∃ t, trie_New (trie_Hash (trie_NewEmpty db)) db' = Some t ∧
         ∀ k, trie_Get t k = None;
  (** A trie whose content did not change has no node set. *)
  trie_Commit_clean t r db :
    backed t r db → (trie_Commit t).2 = None →
    trie_Hash t = BytesToHash r ∧
    ∃ t', trie_New (trie_Hash t) db = Some t' ∧ ∀ k, trie_Get t' k = trie_Get t k;
  (** A dirty trie is stored by [Update] and [Commit], which keep the others. *)
  trie_Commit_dirty t r db ns :
    backed t r db → (trie_Commit t).2 = Some ns →
    ∃ db1 db2 t',
      triedb_Update ns db = Some db1 ∧ triedb_Commit (trie_Hash t) db1 = Some db2 ∧
      persists db db2 ∧
      trie_New (trie_Hash t) db2 = Some t' ∧ ∀ k, trie_Get t' k = trie_Get t k;
  (** The proof of a key verifies against the root and yields its value. *)
  trie_Prove_present t k v :
    trie_Get t k = Some v →
    ∃ pf, trie_Prove t k = Some pf ∧
          trie_VerifyProof (trie_Hash t) k pf = Some (Some v);
  (** The proof of a missing key exists and yields no value. *)
  trie_Prove_absent t k :
    trie_Get t k = None →
    ∃ pf, trie_Prove t k = Some pf ∧
          ∀ v, trie_VerifyProof (trie_Hash t) k pf ≠ Some (Some v)
}.

(** ** [bolt.DB]: buckets of key-value pairs *)
Class BoltOps := {
  BoltDB : Type;
  bolt_HasBucket : string → BoltDB → bool;      (* tx.Bucket(name) != nil *)
  bolt_CreateBucket : string → BoltDB → option BoltDB;
    (* db.Update of tx.CreateBucketIfNotExists(name) *)
  bolt_Put : string → bytes → bytes → BoltDB → option BoltDB;
    (* db.Update of tx.Bucket(name).Put(key, value) *)
  bolt_Get : string → bytes → BoltDB → option bytes
    (* db.View of tx.Bucket(name).Get(key) *)
}.

(** The key and value sizes [Put] accepts. *)
Definition bolt_key_ok (k : bytes) : Prop := 
  k ≠ "" ∧ Z.of_nat (String.length k) ≤ 32768.
Definition bolt_value_ok (v : bytes) : Prop :=
  Z.of_nat (String.length v) ≤ 2147483646.

Class BoltLaws (B : BoltOps) := {
  bolt_Create_ok b db : b ≠ "" → is_Some (bolt_CreateBucket b db);
  bolt_Create_has b db db' b' :
    bolt_CreateBucket b db = Some db' →
    bolt_HasBucket b' db' = bool_decide (b = b') || bolt_HasBucket b' db;
  bolt_Create_get b db db' b' k :
    bolt_CreateBucket b db = Some db' → bolt_Get b' k db' = bolt_Get b' k db;
  bolt_Put_ok b k v db :
    bolt_HasBucket b db = true → bolt_key_ok k → bolt_value_ok v →
    is_Some (bolt_Put b k v db);
  bolt_Put_has b k v db db' b' :
    bolt_Put b k v db = Some db' → bolt_HasBucket b' db' = bolt_HasBucket b' db;
  bolt_Get_Put b k v db db' b' k' :
    bolt_Put b k v db = Some db' →
    bolt_Get b' k' db' =
      if decide (b = b' ∧ k = k') then Some v else bolt_Get b' k' db
}.

Lemma persists_refl `{TrieOps} db : persists db db.
Proof. intros r t Ht. eauto. Qed.

Lemma persists_trans `{TrieOps} db1 db2 db3 :
  persists db1 db2 → persists db2 db3 → persists db1 db3.
Proof.
  intros H12 H23 r t (t2 & Ht2 & Hg2)%H12.
  destruct (H23 _ _ Ht2) as (t3 & Ht3 & Hg3). exists t3. split; [done|].
  intros k. by rewrite Hg3.
Qed.
#[export] Hint Resolve persists_refl : emu.

#[export] Instance persists_preorder `{TrieOps} : PreOrder persists.
Proof. split; [exact persists_refl|exact persists_trans]. Qed.
