(* ===== verification/Core.v ===== *)
(** * Package [core]: accounts, transactions and blocks

    Models src/core/account.go, src/core/transaction.go and src/core/block.go.
    A [*big.Int] is an integer, a [time.Time] the nanoseconds since Go's zero
    time (so [IsZero] is a test against 0), a [[]byte] a byte string with nil
    and empty identified, except [Transaction.RawTxHash], whose nilness the code
    tests and which is an option.  The wire format of [encoding/gob] is the
    class [GobOps] with its round-trip laws. *)

From S2P Require Import Prelude Params Utils Interfaces Sha256.

(** ** Time *)
Definition Time : Type := Z.
Definition IsZero (t : Time) : bool := t =? 0.
(** [commitTS.Sub(t).Milliseconds()] *)
Definition sub_ms (a b : Time) : Z := Z.quot (a - b) 1000000.

(** ** Accounts *)
Record Account := { acc_AcAddress : Address; PublicKey : bytes }.

Record AccountState := mkAS {
  as_AcAddress : Address;
  as_Nonce : Z;
  as_Balance : Z;
  as_StorageRoot : bytes;
  as_CodeHash : bytes
}.

(** [&core.AccountState{Nonce: n, Balance: b}] *)
Definition new_AccountState (n b : Z) : AccountState := mkAS "" n b "" "".

Definition set_Balance (s : AccountState) (b : Z) : AccountState :=
  mkAS (as_AcAddress s) (as_Nonce s) b (as_StorageRoot s) (as_CodeHash s).

(** [(as *AccountState) Deduct]: the new state and the result. *)
Definition Deduct (s : AccountState) (val : Z) : AccountState * bool :=
  if as_Balance s <? val then (s, false)
  else (set_Balance s (as_Balance s - val), true).

(** [(s *AccountState) Deposit]. *)
Definition Deposit (s : AccountState) (value : Z) : AccountState :=
  set_Balance s (as_Balance s + value).

(** ** Transactions *)
Record Transaction := mkTx {
  Sender : Address;
  Recipient : Address;
  tx_Nonce : Z;
  Signature : bytes;
  Value : Z;
  TxHash : bytes;
  tx_Time : Time;
  Relayed : bool;
  HasBroker : bool;
  SenderIsBroker : bool;
  OriginalSender : Address;
  FinalRecipient : Address;
  RawTxHash : option bytes;
  G2EEnabled : bool;
  G2EMeta : bytes;
  Height : Z;
  PairI : Z;
  PairJ : Z
}.

#[export] Instance Transaction_eq_dec : EqDecision Transaction.
Proof. solve_decision. Defined.

Definition set_Time (t : Time) (x : Transaction) : Transaction :=
  mkTx (Sender x) (Recipient x) (tx_Nonce x) (Signature x) (Value x) (TxHash x) t
    (Relayed x) (HasBroker x) (SenderIsBroker x) (OriginalSender x)
    (FinalRecipient x) (RawTxHash x) (G2EEnabled x) (G2EMeta x) (Height x)
    (PairI x) (PairJ x).

Definition set_Relayed (b : bool) (x : Transaction) : Transaction :=
  mkTx (Sender x) (Recipient x) (tx_Nonce x) (Signature x) (Value x) (TxHash x)
    (tx_Time x) b (HasBroker x) (SenderIsBroker x) (OriginalSender x)
    (FinalRecipient x) (RawTxHash x) (G2EEnabled x) (G2EMeta x) (Height x)
    (PairI x) (PairJ x).

Definition set_TxHash (h : bytes) (x : Transaction) : Transaction :=
  mkTx (Sender x) (Recipient x) (tx_Nonce x) (Signature x) (Value x) h
    (tx_Time x) (Relayed x) (HasBroker x) (SenderIsBroker x) (OriginalSender x)
    (FinalRecipient x) (RawTxHash x) (G2EEnabled x) (G2EMeta x) (Height x)
    (PairI x) (PairJ x).

(** The bytes a [Transaction] occupies, [unsafe.Sizeof] on a 64-bit platform:
    five strings and byte slices of 16 and 24 bytes, a 24-byte time, the
    booleans padded to eight bytes. *)
Definition sizeof_Transaction : Z :=
  2 * 16 + 8 + 24 + 8 + 24 + 24 + 8 + 2 * 16 + 24 + 8 + 24 + 3 * 8.

Example sizeof_Transaction_value : sizeof_Transaction = 240.
Proof. reflexivity. Qed.

(** ** Blocks *)
Section Blocks.
Context {BS : BitSetOps}.

Record BlockHeader := mkBH {
  ParentBlockHash : bytes;
  StateRoot : bytes;
  TxRoot : bytes;
  Bloom : BitSet;
  Number : Z;
  bh_Time : Time;
  Miner : Z
}.

Record Block := mkBlock {
  Header : BlockHeader;
  Body : list Transaction;
  b_Hash : bytes
}.

(** [NewBlock]: the hash is still nil. *)
Definition NewBlock (bh : BlockHeader) (bb : list Transaction) : Block :=
  mkBlock bh bb "".

Definition set_Hash (b : Block) (h : bytes) : Block := mkBlock (Header b) (Body b) h.
Definition set_Body (b : Block) (l : list Transaction) : Block :=
  mkBlock (Header b) l (b_Hash b).

End Blocks.

(** ** [encoding/gob] *)
Class GobOps {BS : BitSetOps} := {
  gob_AS : AccountState → bytes;
  ungob_AS : bytes → option AccountState;
  gob_Tx : Transaction → bytes;
  ungob_Tx : bytes → option Transaction;
  gob_BH : BlockHeader → bytes;
  ungob_BH : bytes → option BlockHeader;
  gob_B : Block → bytes;
  ungob_B : bytes → option Block
}.

(** An empty slice is not transmitted and is decoded as nil: a transaction
    survives the round trip unless its raw hash is empty but not nil. *)
Definition gob_tx_ok (x : Transaction) : Prop := RawTxHash x ≠ Some "".

Class GobLaws {BS : BitSetOps} (G : GobOps) := {
  ungob_gob_AS s : ungob_AS (gob_AS s) = Some s;
  gob_AS_nonempty s : gob_AS s ≠ "";
  ungob_gob_Tx x : gob_tx_ok x → ungob_Tx (gob_Tx x) = Some x;
  ungob_gob_BH h : ungob_BH (gob_BH h) = Some h;
  ungob_gob_B b : Forall gob_tx_ok (Body b) → ungob_B (gob_B b) = Some b
}.

Section Encoding.
Context {BS : BitSetOps} {G : GobOps}.

Definition AccountState_Encode (s : AccountState) : bytes := gob_AS s.
Definition DecodeAS (b : bytes) : outcome AccountState :=
  or_panic "gob: AccountState" (ungob_AS b).
Definition AccountState_Hash (s : AccountState) : bytes :=
  Sha256.sum256 (AccountState_Encode s).

Definition Transaction_Encode (x : Transaction) : bytes := gob_Tx x.
Definition DecodeTx (b : bytes) : outcome Transaction :=
  or_panic "gob: Transaction" (ungob_Tx b).

Definition BlockHeader_Encode (bh : BlockHeader) : bytes := gob_BH bh.
Definition DecodeBH (b : bytes) : outcome BlockHeader :=
  or_panic "gob: BlockHeader" (ungob_BH b).
Definition BlockHeader_Hash (bh : BlockHeader) : bytes :=
  Sha256.sum256 (BlockHeader_Encode bh).

Definition Block_Encode (b : Block) : bytes := gob_B b.
Definition DecodeB (b : bytes) : outcome Block :=
  or_panic "gob: Block" (ungob_B b).

(** [NewTransaction]: the hash is the digest of the transaction before the
    hash and the betting flag are set. *)
Definition NewTransaction (sender recipient : Address) (value nonce : Z)
    (proposeTime : Time) (height pair_i pair_j : Z) : Transaction :=
  let tx := mkTx sender recipient nonce "" value "" proposeTime false false false
              "" "" None false "" height pair_i pair_j in
  let hash := Sha256.sum256 (Transaction_Encode tx) in
  mkTx sender recipient nonce "" value hash proposeTime false false false
    "" "" None true "" height pair_i pair_j.

End Encoding.

(** ** Properties of accounts *)
Lemma Deduct_spec s val :
  Deduct s val = if decide (val ≤ as_Balance s)
                 then (Deposit s (- val), true) else (s, false).
Proof.
  unfold Deduct, Deposit. destruct (Z.ltb_spec (as_Balance s) val); case_decide; try lia; done.
Qed.

Lemma Deposit_Deduct s v :
  v ≤ as_Balance s → Deposit (Deduct s v).1 v = s.
Proof.
  intros Hv. rewrite Deduct_spec. case_decide; [|lia]. cbn.
  destruct s; unfold Deposit, set_Balance; cbn. f_equal. lia.
Qed.

Section RoundTrips.
Context {BS : BitSetOps} {G : GobOps} {GL : GobLaws G}.

Lemma DecodeAS_Encode s :
  DecodeAS (AccountState_Encode s) = Ret s.
Proof. unfold DecodeAS, AccountState_Encode. by rewrite ungob_gob_AS. Qed.

Lemma DecodeB_Encode b :
  Forall gob_tx_ok (Body b) → DecodeB (Block_Encode b) = Ret b.
Proof. intros. unfold DecodeB, Block_Encode. by rewrite ungob_gob_B. Qed.

Lemma DecodeBH_Encode h :
  DecodeBH (BlockHeader_Encode h) = Ret h.
Proof. unfold DecodeBH, BlockHeader_Encode. by rewrite ungob_gob_BH. Qed.

End RoundTrips.
