(* ===== verification/Instances.v ===== *)
(** * One concrete implementation of the third-party interfaces

    Shows that the laws of [Interfaces] and [Core] hold together and gives the
    witnesses something to compute with: a bit set as a finite set, a trie as a
    finite map whose root is its serialization, a bolt database as a map of
    buckets, and a length-prefixed serializer for [encoding/gob] and
    [encoding/json].  Nothing in the components depends on these choices. *)

From S2P Require Import Prelude Params Utils Interfaces Core.
From Stdlib Require Import Ascii.

#[local] Arguments String.append !_ _ / : simpl nomatch.

(** ** A serializer with an exact inverse *)
Class Ser (A : Type) := mkSer {
  ser : A → string;
  deser : string → option (A * string);
  deser_ser a s : deser (ser a +:+ s) = Some (a, s)
}.

(** Reading a whole string. *)
Definition parse `{Ser A} (s : string) : option A :=
  match deser s with Some (a, EmptyString) => Some a | _ => None end.

Lemma parse_ser `{Ser A} (a : A) : parse (ser a) = Some a.
Proof. unfold parse. rewrite <-(str_app_nil (ser a)), deser_ser. done. Qed.

Lemma ser_inj `{Ser A} (a b : A) : ser a = ser b → a = b.
Proof. intros E. assert (Some a = Some b) by (by rewrite <-!parse_ser, E). congruence. Qed.

Fixpoint ser_pos (p : positive) : string :=
  match p with
  | xH => ";" | xO p => "0" +:+ ser_pos p | xI p => "1" +:+ ser_pos p
  end.
Fixpoint deser_pos (s : string) : option (positive * string) :=
  match s with
  | String ";" s => Some (xH, s)
  | String "0" s => '(p, s) ← deser_pos s; Some (xO p, s)
  | String "1" s => '(p, s) ← deser_pos s; Some (xI p, s)
  | _ => None
  end.
Lemma deser_ser_pos p s : deser_pos (ser_pos p +:+ s) = Some (p, s).
Proof. induction p as [p IH|p IH|]; cbn; rewrite ?IH; done. Qed.
#[export] Instance Ser_pos : Ser positive := mkSer _ ser_pos deser_pos deser_ser_pos.

Definition ser_Z (z : Z) : string :=
  match z with Z0 => "Z" | Zpos p => "+" +:+ ser p | Zneg p => "-" +:+ ser p end.
Definition deser_Z (s : string) : option (Z * string) :=
  match s with
  | String "Z" s => Some (0, s)
  | String "+" s => '(p, s) ← deser s; Some (Zpos p, s)
  | String "-" s => '(p, s) ← deser s; Some (Zneg p, s)
  | _ => None
  end.
Lemma deser_ser_Z z s : deser_Z (ser_Z z +:+ s) = Some (z, s).
Proof. destruct z; cbn; rewrite ?deser_ser_pos; done. Qed.
#[export] Instance Ser_Z : Ser Z := mkSer _ ser_Z deser_Z deser_ser_Z.

Definition ser_bool (b : bool) : string := if b then "t" else "f".
Definition deser_bool (s : string) : option (bool * string) :=
  match s with
  | String "t" s => Some (true, s) | String "f" s => Some (false, s) | _ => None
  end.
Lemma deser_ser_bool b s : deser_bool (ser_bool b +:+ s) = Some (b, s).
Proof. by destruct b. Qed.
#[export] Instance Ser_bool : Ser bool := mkSer _ ser_bool deser_bool deser_ser_bool.

Fixpoint split_at (n : nat) (s : string) : option (string * string) :=
  match n, s with
  | O, _ => Some ("", s)
  | S n, String c s => '(a, b) ← split_at n s; Some (String c a, b)
  | S _, EmptyString => None
  end.
Lemma split_at_app a s : split_at (String.length a) (a +:+ s) = Some (a, s).
Proof. induction a as [|c a IH]; cbn; [by destruct s|]. by rewrite IH. Qed.

Definition ser_string (a : string) : string := ser (Z.of_nat (String.length a)) +:+ a.
Definition deser_string (s : string) : option (string * string) :=
  '(n, s) ← deser (A := Z) s; split_at (Z.to_nat n) s.
Lemma deser_ser_string a s : deser_string (ser_string a +:+ s) = Some (a, s).
Proof.
  unfold deser_string, ser_string. rewrite str_app_assoc, deser_ser. cbn.
  rewrite Nat2Z.id. apply split_at_app.
Qed.
#[export] Instance Ser_string : Ser string := mkSer _ ser_string deser_string deser_ser_string.

Section Combinators.
Context {A B : Type} {SA : Ser A} {SB : Ser B}.

Definition ser_pair (x : A * B) : string := ser x.1 +:+ ser x.2.
Definition deser_pair (s : string) : option ((A * B) * string) :=
  '(a, s) ← deser s; '(b, s) ← deser s; Some ((a, b), s).
Lemma deser_ser_pair x s : deser_pair (ser_pair x +:+ s) = Some (x, s).
Proof.
  destruct x as [a b]. unfold deser_pair, ser_pair. cbn.
  rewrite str_app_assoc, deser_ser. cbn. by rewrite deser_ser.
Qed.

Definition ser_option (o : option A) : string :=
  match o with Some a => "S" +:+ ser a | None => "N" end.
Definition deser_option (s : string) : option (option A * string) :=
  match s with
  | String "S" s => '(a, s) ← deser s; Some (Some a, s)
  | String "N" s => Some (None, s)
  | _ => None
  end.
Lemma deser_ser_option o s : deser_option (ser_option o +:+ s) = Some (o, s).
Proof. destruct o; cbn; [by rewrite deser_ser|done]. Qed.

Fixpoint ser_elems (l : list A) : string :=
  match l with [] => "" | x :: l => ser x +:+ ser_elems l end.
Fixpoint deser_elems (n : nat) (s : string) : option (list A * string) :=
  match n with
  | O => Some ([], s)
  | S n => '(a, s) ← deser s; '(l, s) ← deser_elems n s; Some (a :: l, s)
  end.
Definition ser_list (l : list A) : string := ser (zlen l) +:+ ser_elems l.
Definition deser_list (s : string) : option (list A * string) :=
  '(n, s) ← deser (A := Z) s; deser_elems (Z.to_nat n) s.
Lemma deser_ser_list l s : deser_list (ser_list l +:+ s) = Some (l, s).
Proof.
  unfold deser_list, ser_list, zlen. rewrite str_app_assoc, deser_ser. cbn.
  rewrite Nat2Z.id. induction l as [|x l IH]; cbn; [done|].
  rewrite str_app_assoc, deser_ser. cbn. by rewrite IH.
Qed.

(** A type that embeds in a serializable one. *)
Definition Ser_iso {C} (f : C → A) (g : A → C) (gf : ∀ c, g (f c) = c) : Ser C.
Proof.
  refine (mkSer C (λ c, ser (f c)) (λ s, '(a, s) ← deser s; Some (g a, s)) _).
  intros c s. rewrite deser_ser. cbn. by rewrite gf.
Defined.
End Combinators.

#[export] Instance Ser_pair {A B} {SA : Ser A} {SB : Ser B} : Ser (A * B) :=
  mkSer _ ser_pair deser_pair deser_ser_pair.
#[export] Instance Ser_option {A} {SA : Ser A} : Ser (option A) :=
  mkSer _ ser_option deser_option deser_ser_option.
#[export] Instance Ser_list {A} {SA : Ser A} : Ser (list A) :=
  mkSer _ ser_list deser_list deser_ser_list.
#[export] Instance Ser_gmap {K A} `{Countable K} {SK : Ser K} {SA : Ser A} :
  Ser (gmap K A) := Ser_iso map_to_list list_to_map list_to_map_to_list.

(** ** [bitset] *)
#[export] Instance SetBits : BitSetOps := {|
  BitSet := gset Z;
  bs_New _ := ∅;
  bs_Set b i := {[i]} ∪ b;
  bs_Test b i := bool_decide (i ∈ b)
|}.

#[export] Instance SetBits_laws : BitSetLaws SetBits.
Proof.
  split; cbn; intros.
  - apply bool_decide_eq_false. set_solver.
  - apply eq_true_iff_eq. rewrite orb_true_iff, !bool_decide_eq_true. set_solver.
Qed.

(** ** [encoding/gob] *)
#[export] Instance Ser_AS : Ser AccountState :=
  Ser_iso (λ s, (as_AcAddress s, as_Nonce s, as_Balance s, as_StorageRoot s, as_CodeHash s))
    (λ '(a, n, b, r, c), mkAS a n b r c) ltac:(by intros []).

#[export] Instance Ser_Tx : Ser Transaction :=
  Ser_iso (λ x, (Sender x, Recipient x, tx_Nonce x, Signature x, Value x, TxHash x,
                 tx_Time x, Relayed x, HasBroker x, SenderIsBroker x, OriginalSender x,
                 FinalRecipient x, RawTxHash x, G2EEnabled x, G2EMeta x, Height x,
                 PairI x, PairJ x))
    (λ '(a, b, c, d, e, f, g, h, i, j, k, l, m, n, o, p, q, r),
       mkTx a b c d e f g h i j k l m n o p q r) ltac:(by intros []).

#[export] Instance Ser_BS : Ser (@BitSet SetBits) :=
  Ser_iso (C := gset Z) (elements (C := gset Z)) list_to_set (list_to_set_elements_L (C := gset Z)).

#[export] Instance Ser_BH : Ser BlockHeader :=
  Ser_iso (λ h, (ParentBlockHash h, StateRoot h, TxRoot h, Bloom h, Number h,
                 bh_Time h, Miner h))
    (λ '(a, b, c, d, e, f, g), mkBH a b c d e f g) ltac:(by intros []).

#[export] Instance Ser_B : Ser Block :=
  Ser_iso (λ b, (Header b, Body b, b_Hash b)) (λ '(h, l, x), mkBlock h l x)
    ltac:(by intros []).

#[export] Instance SerGob : GobOps := {|
  gob_AS := ser; ungob_AS := parse;
  gob_Tx := ser; ungob_Tx := parse;
  gob_BH := ser; ungob_BH := parse;
  gob_B := ser; ungob_B := parse
|}.

#[export] Instance SerGob_laws : GobLaws SerGob.
Proof.
  split; intros; try apply parse_ser.
  destruct s as [a n b r c]. cbn. unfold ser_pair. cbn. unfold ser_string, ser_pair. cbn.
  by destruct (Z.of_nat (String.length a)).
Qed.

(** ** [trie] *)
Definition map_root (m : gmap string string) : string := ser m.

#[export] Instance MapTrie : TrieOps := {|
  Trie := gmap string string;
  TrieDB := gmap string (gmap string string);
  EthDB := gmap string (gmap string string);
  NodeSet := gmap string string;
  BytesToHash b := b;
  memory_db := ∅;
  trie_NewDatabase db := db;
  trie_New r db :=
    if decide (r = map_root ∅) then Some ∅
    else m ← db !! r; if decide (map_root m = r) then Some m else None;
  trie_NewEmpty _ := ∅;
  trie_Get m k := m !! k;
  trie_Update m k v := if decide (v = "") then delete k m else <[k := v]> m;
  trie_Hash := map_root;
  trie_Commit m := (map_root m, Some m);
  triedb_Update m db := Some (<[map_root m := m]> db);
  triedb_Commit _ db := Some db;
  trie_Prove m k := Some [(map_root m, map_root m)];
  trie_VerifyProof r k pf :=
    if decide ((r, r) ∈ pf) then m ← parse (A := gmap string string) r; Some (m !! k)
    else None
|}.

Lemma map_root_inj m m' : map_root m = map_root m' → m = m'.
Proof. apply ser_inj. Qed.

#[export] Instance MapTrie_laws : TrieLaws MapTrie.
Proof.
  refine {| backed _ _ _ := True |}; cbn -[map_root]; try done.
  - intros m k v k' Hv. rewrite decide_False by done. by rewrite lookup_insert.
  - intros r db t. case_decide; [by intros [= <-]|].
    destruct (db !! r); cbn; [|done]. case_decide; by intros [= <-].
  - intros m m' Hm. f_equal. by apply map_eq.
  - intros db db'. exists ∅. rewrite decide_True by done. split; [done|].
    intros. apply lookup_empty.
  - intros m r0 db m' _ [= <-]. exists (<[map_root m := m]> db), (<[map_root m := m]> db), m.
    split_and!; [done..| | |done].
    + intros r t Ht. exists t. split; [|done]. cbn -[map_root] in *. case_decide; [done|].
      destruct (db !! r) as [m'|] eqn:Hr; cbn in Ht; [|done].
      case_decide; simplify_eq. rewrite lookup_insert.
      case_decide as Hd; [apply map_root_inj in Hd as ->|rewrite Hr]; cbn; by case_decide.
    + case_decide as Hd; [by apply map_root_inj in Hd as ->|].
      rewrite lookup_insert_eq. cbn. by rewrite decide_True.
  - intros m k v Hk. eexists. split; [done|]. rewrite decide_True by set_solver.
    unfold map_root. rewrite parse_ser. cbn. by rewrite Hk.
  - intros m k Hk. eexists. split; [done|]. rewrite decide_True by set_solver.
    unfold map_root. rewrite parse_ser. cbn. by rewrite Hk.
Qed.

(** ** [bolt] *)
#[export] Instance MapBolt : BoltOps := {|
  BoltDB := gmap string (gmap string string) * gset string;
  bolt_HasBucket b db := bool_decide (b ∈ db.2);
  bolt_CreateBucket b db := if decide (b = "") then None else Some (db.1, {[b]} ∪ db.2);
  bolt_Put b k v db :=
    if decide (k = "") then None
    else Some (<[b := <[k := v]> (default ∅ (db.1 !! b))]> db.1, db.2);
  bolt_Get b k db := default ∅ (db.1 !! b) !! k
|}.

#[export] Instance MapBolt_laws : BoltLaws MapBolt.
Proof.
  split; cbn.
  - intros b db Hb. rewrite decide_False by done. eauto.
  - intros b db db' b'. case_decide; [done|]. intros [= <-]. cbn.
    apply eq_true_iff_eq. rewrite orb_true_iff, !bool_decide_eq_true. set_solver.
  - intros b db db' b' k. case_decide; [done|]. by intros [= <-].
  - intros b k v db _ [Hk _] _. rewrite decide_False by done. eauto.
  - intros b k v db db' b'. case_decide; [done|]. by intros [= <-].
  - intros b k v db db' b' k'. case_decide; [done|]. intros [= <-]. cbn.
    rewrite lookup_insert. case_decide as Hb; [subst|by rewrite decide_False by naive_solver].
    cbn. rewrite lookup_insert. repeat case_decide; naive_solver.
Qed.

(** A database without buckets. *)
Definition empty_bolt : @BoltDB MapBolt := (∅, ∅).
