(* ===== verification/TxPool.v ===== *)
(** * The transaction pool

    Models src/core/txpool.go.  The pool is a FIFO queue of transactions and,
    per destination shard, the transactions to relay.  [RelayPool] may be nil
    (after [ClearRelayPool]), which reads as empty and cannot be assigned to.
    Every operation holds the pool's mutex for its whole body, so it is one
    atomic function on the state; [GetLocked]/[GetUnlocked], which callers use
    to read the queue's length, do not change it. *)

From S2P Require Import Prelude Params Utils Interfaces Core.

Record TxPool := mkPool {
  TxQueue : list Transaction;
  RelayPool : option (gmap Z (list Transaction))
}.

Definition NewTxPool : TxPool := mkPool [] (Some ∅).

(** [if tx.Time.IsZero() { tx.Time = time.Now() }] *)
Definition stamp (now : Time) (tx : Transaction) : Transaction :=
  if IsZero (tx_Time tx) then set_Time now tx else tx.

Definition AddTx2Pool (now : Time) (tx : Transaction) (p : TxPool) : TxPool :=
  mkPool (TxQueue p ++ [stamp now tx]) (RelayPool p).

(** [clock i] is the reading of the clock in the [i]-th round of the loop. *)
Definition AddTxs2Pool (clock : nat → Time) (txs : list Transaction) (p : TxPool) :
    TxPool :=
  mkPool (TxQueue p ++ imap (λ i tx, stamp (clock i) tx) txs) (RelayPool p).

Definition AddTxs2Pool_Head (txs : list Transaction) (p : TxPool) : TxPool :=
  mkPool (txs ++ TxQueue p) (RelayPool p).

(** [txpool.TxQueue[:txNum]] and [txpool.TxQueue[txNum:]]. *)
Definition cut (txNum : Z) (p : TxPool) : list Transaction * TxPool :=
  (take (Z.to_nat txNum) (TxQueue p),
   mkPool (drop (Z.to_nat txNum) (TxQueue p)) (RelayPool p)).

Definition PackTxs (max_txs : Z) (p : TxPool) : list Transaction * TxPool :=
  let txNum := if zlen (TxQueue p) <? max_txs then zlen (TxQueue p) else max_txs in
  cut txNum p.

(** The loop of [PackTxsWithBytes] from index [tx_idx]; it ends with the number
    of transactions to pack. *)
Fixpoint pack_loop (max_bytes currentSize tx_idx : Z) (l : list Transaction) : Z :=
  match l with
  | [] => tx_idx
  | _ :: l' =>
      let currentSize := currentSize + sizeof_Transaction in
      if max_bytes <? currentSize then tx_idx
      else pack_loop max_bytes currentSize (tx_idx + 1) l'
  end.

Definition PackTxsWithBytes (max_bytes : Z) (p : TxPool) : list Transaction * TxPool :=
  cut (pack_loop max_bytes 0 0 (TxQueue p)) p.

(** The transactions waiting for a shard; a nil map reads as empty. *)
Definition relay_of (p : TxPool) (shardID : Z) : list Transaction :=
  default [] (default ∅ (RelayPool p) !! shardID).

Definition AddRelayTx (tx : Transaction) (shardID : Z) (p : TxPool) : outcome TxPool :=
  match RelayPool p with
  | None => Panic "assignment to entry in nil map"
  | Some m => Ret (mkPool (TxQueue p) (Some (map_append m shardID tx)))
  end.

Definition GetTxQueueLen (p : TxPool) : Z := zlen (TxQueue p).

Definition ClearRelayPool (p : TxPool) : TxPool := mkPool (TxQueue p) None.

Definition PackRelayTxs (shardID minRelaySize maxRelaySize : Z) (p : TxPool) :
    (list Transaction * bool) * TxPool :=
  match default ∅ (RelayPool p) !! shardID with
  | None => (([], false), p)
  | Some l =>
      if zlen l <? i64 minRelaySize then (([], false), p)
      else
        let txNum := if zlen l <? maxRelaySize then zlen l else maxRelaySize in
        ((take (Z.to_nat txNum) l, true),
         mkPool (TxQueue p)
           (<[shardID := drop (Z.to_nat txNum) l]> <$> RelayPool p))
  end.

(** One transaction of the relay pool of [shardID] in [TransferTxs]. *)
Definition transfer_relay (addr : Address) (shardID : Z)
    (acc : list Transaction * gmap Z (list Transaction)) (tx : Transaction) :
    list Transaction * gmap Z (list Transaction) :=
  if decide (Sender tx = addr) then (acc.1 ++ [tx], acc.2)
  else (acc.1, map_append acc.2 shardID tx).

(** [TransferTxs]: [order] is the order in which the loop visits the keys of
    [RelayPool]. *)
Definition TransferTxs (order : list Z) (addr : Address) (p : TxPool) :
    list Transaction * TxPool :=
  let '(txTransfered, newTxQueue) :=
    foldl (λ acc tx, if decide (Sender tx = addr) then (acc.1 ++ [tx], acc.2)
                     else (acc.1, acc.2 ++ [tx])) ([], []) (TxQueue p) in
  let '(txTransfered, newRelayPool) :=
    foldl (λ acc shardID, foldl (transfer_relay addr shardID) acc (relay_of p shardID))
      (txTransfered, ∅) order in
  (txTransfered, mkPool newTxQueue (Some newRelayPool)).

(** ** A pool under a sequence of operations *)
Inductive pool_op :=
| OpAdd (clock : nat → Time) (txs : list Transaction)
| OpPack (max_txs : Z)
| OpPackBytes (max_bytes : Z).

(** Runs the operations and collects the packed transactions in order. *)
Fixpoint run_pool (ops : list pool_op) (p : TxPool) : list Transaction * TxPool :=
  match ops with
  | [] => ([], p)
  | OpAdd clock txs :: ops' => run_pool ops' (AddTxs2Pool clock txs p)
  | OpPack n :: ops' =>
      let '(l, p') := PackTxs n p in
      let '(l', p'') := run_pool ops' p' in (l ++ l', p'')
  | OpPackBytes n :: ops' =>
      let '(l, p') := PackTxsWithBytes n p in
      let '(l', p'') := run_pool ops' p' in (l ++ l', p'')
  end.

(** The transactions the operations add, as they enter the queue. *)
Fixpoint added (ops : list pool_op) : list Transaction :=
  match ops with
  | [] => []
  | OpAdd clock txs :: ops' => imap (λ i tx, stamp (clock i) tx) txs ++ added ops'
  | _ :: ops' => added ops'
  end.

(** ** Properties *)
Lemma cut_app n p : (cut n p).1 ++ TxQueue (cut n p).2 = TxQueue p.
Proof. apply take_drop. Qed.

Lemma pack_loop_value max_bytes cur idx l :
  0 ≤ cur ≤ max_bytes →
  pack_loop max_bytes cur idx l =
    idx + Z.min (zlen l) ((max_bytes - cur) / sizeof_Transaction).
Proof.
  change sizeof_Transaction with 240.
  revert cur idx. induction l as [|tx l IH]; intros cur idx Hc.
  { change (zlen (@nil Transaction)) with 0.
    pose proof (Z.div_pos (max_bytes - cur) 240). cbn. lia. }
  cbn [pack_loop]. change sizeof_Transaction with 240. cbv zeta. rewrite zlen_cons.
  pose proof (zlen_nonneg l).
  destruct (Z.ltb_spec max_bytes (cur + 240)).
  - rewrite Z.div_small by lia. lia.
  - rewrite IH by lia.
    replace (max_bytes - cur) with (max_bytes - (cur + 240) + 1 * 240) by lia.
    rewrite Z.div_add by lia. lia.
Qed.

Lemma zlen_take {A} n (l : list A) : 0 ≤ n → zlen (take (Z.to_nat n) l) = Z.min n (zlen l).
Proof. unfold zlen. rewrite length_take. lia. Qed.

Lemma PackTxs_length n p :
  0 ≤ n → zlen (PackTxs n p).1 = Z.min n (zlen (TxQueue p)).
Proof.
  intros Hn. unfold PackTxs, cut. cbv zeta. cbn [fst].
  pose proof (zlen_nonneg (TxQueue p)).
  destruct (Z.ltb_spec (zlen (TxQueue p)) n); rewrite zlen_take by lia; lia.
Qed.

(** The transfer loop over one list keeps every transaction. *)
Lemma transfer_relay_perm addr sid l acc T N :
  acc = (T, N) →
  let r := foldl (transfer_relay addr sid) acc l in
  r.1 = T ++ filter (λ tx, Sender tx = addr) l ∧
  ∀ s, default [] (r.2 !! s) =
       default [] (N !! s) ++
       (if decide (sid = s) then filter (λ tx, Sender tx ≠ addr) l else []).
Proof.
  intros ->. revert T N. induction l as [|tx l IH]; intros T N; cbn [foldl fst snd].
  { split; [by rewrite app_nil_r|]. intros s. by case_decide; rewrite app_nil_r. }
  unfold transfer_relay at 2 4. cbn [fst snd].
  destruct (decide (Sender tx = addr)) as [Htx|Htx];
    edestruct IH as [-> IH2]; (split; [|intros s; rewrite IH2]).
  - by rewrite filter_cons_True, <-app_assoc by done.
  - case_decide; [|done]. rewrite (filter_cons_False (λ tx, Sender tx ≠ addr)); [done|].
    intros Hn; by apply Hn.
  - by rewrite filter_cons_False.
  - rewrite lookup_map_append. case_decide; [|by rewrite !app_nil_r].
    rewrite filter_cons_True, <-app_assoc by done. done.
Qed.

Lemma transfer_queue addr l T N :
  foldl (λ acc tx, if decide (Sender tx = addr) then (acc.1 ++ [tx], acc.2)
                   else (acc.1, acc.2 ++ [tx])) (T, N) l =
  (T ++ filter (λ tx, Sender tx = addr) l, N ++ filter (λ tx, Sender tx ≠ addr) l).
Proof.
  revert T N. induction l as [|tx l IH]; intros T N; cbn [foldl fst snd].
  { by rewrite !app_nil_r. }
  destruct (decide (Sender tx = addr)) as [Htx|Htx]; rewrite IH.
  - rewrite filter_cons_True by done.
    rewrite (filter_cons_False (λ tx, Sender tx ≠ addr)) by (intros Hn; by apply Hn).
    by rewrite <-app_assoc.
  - rewrite filter_cons_False by done.
    rewrite (filter_cons_True (λ tx, Sender tx ≠ addr)) by done.
    by rewrite <-app_assoc.
Qed.

Lemma transfer_relays addr p order T N :
  NoDup order →
  let r := foldl (λ acc sid, foldl (transfer_relay addr sid) acc (relay_of p sid))
             (T, N) order in
  r.1 = T ++ (order ≫= λ sid, filter (λ tx, Sender tx = addr) (relay_of p sid)) ∧
  ∀ s, default [] (r.2 !! s) =
       default [] (N !! s) ++
       (if decide (s ∈ order) then filter (λ tx, Sender tx ≠ addr) (relay_of p s) else []).
Proof.
  intros Hnd. revert T N. induction Hnd as [|sid order Hsid Hnd IH]; intros T N; cbn.
  { split; [by rewrite app_nil_r|]. intros s. by rewrite decide_False, app_nil_r by set_solver. }
  destruct (transfer_relay_perm addr sid (relay_of p sid) (T, N) T N eq_refl) as [E1 E2].
  destruct (foldl (transfer_relay addr sid) (T, N) (relay_of p sid)) as [T' N'] eqn:E.
  cbn in E1, E2. subst T'. edestruct IH as [-> IH2]. split; [by rewrite <-app_assoc|].
  intros s. rewrite IH2, E2, <-app_assoc. f_equal.
  destruct (decide (sid = s)) as [->|Hne].
  - rewrite (decide_True _ _ (list_elem_of_here s order)).
    by rewrite decide_False, app_nil_r by done.
  - cbn. destruct (decide (s ∈ order)).
    + rewrite decide_True; [done|]. by right.
    + rewrite decide_False; [done|]. by intros [?|?]%elem_of_cons.
Qed.

(** [PackTxs] takes the [min(max_txs, len)] oldest transactions
    and leaves the others in order: the packed list followed by the new queue is
    the old queue, and the relay pool is unchanged. *)
Lemma PackTxs_correct max_txs p :
  0 ≤ max_txs →
  let '(packed, p') := PackTxs max_txs p in
  packed ++ TxQueue p' = TxQueue p ∧
  zlen packed = Z.min max_txs (zlen (TxQueue p)) ∧
  RelayPool p' = RelayPool p.
Proof.
  intros Hn. pose proof (PackTxs_length max_txs p Hn) as Hl.
  destruct (PackTxs max_txs p) as [packed p'] eqn:E. unfold PackTxs, cut in E.
  simplify_eq. split_and!; [apply take_drop|exact Hl|done].
Qed.

(** [PackTxsWithBytes] packs exactly [max_bytes / 240]
    transactions (or the whole queue when it is shorter): the size it sums is
    that of the Go struct, not of the transaction's content. *)
Theorem PackTxsWithBytes_correct max_bytes p :
  0 ≤ max_bytes →
  let '(packed, p') := PackTxsWithBytes max_bytes p in
  packed ++ TxQueue p' = TxQueue p ∧
  zlen packed = Z.min (zlen (TxQueue p)) (max_bytes / sizeof_Transaction) ∧
  RelayPool p' = RelayPool p.
Proof.
  intros Hn. unfold PackTxsWithBytes, cut. split_and!; [apply take_drop| |done].
  rewrite pack_loop_value, Z.sub_0_r by lia.
  pose proof (Z.div_pos max_bytes sizeof_Transaction Hn ltac:(done)).
  pose proof (zlen_nonneg (TxQueue p)). rewrite zlen_take; lia.
Qed.

Lemma PackTxsWithBytes_correct_witness :
  0 ≤ 500 ∧
  let p := mkPool (replicate 3 (mkTx "a" "b" 0 "" 1 "h" 1 false false false
                                  "" "" None false "" 0 0 0)) None in
  let '(packed, p') := PackTxsWithBytes 500 p in
  packed ++ TxQueue p' = TxQueue p ∧
  zlen packed = Z.min (zlen (TxQueue p)) (500 / sizeof_Transaction) ∧
  RelayPool p' = RelayPool p.
Proof. split; [lia|]. apply (PackTxsWithBytes_correct 500). lia. Defined.


(** [TransferTxs] splits the pool by sender: it returns exactly
    the transactions of [addr] from the queue and from every relay list, keeps the
    others in their order, and the result does not depend on the order in which
    the map is visited beyond the order of the returned list. *)
Theorem TransferTxs_correct order addr p :
  order ≡ₚ elements (dom (default ∅ (RelayPool p))) →
  let '(moved, p') := TransferTxs order addr p in
  moved = filter (λ tx, Sender tx = addr) (TxQueue p) ++
          (order ≫= λ sid, filter (λ tx, Sender tx = addr) (relay_of p sid)) ∧
  TxQueue p' = filter (λ tx, Sender tx ≠ addr) (TxQueue p) ∧
  ∀ sid, relay_of p' sid = filter (λ tx, Sender tx ≠ addr) (relay_of p sid).
Proof.
  intros Ho. assert (NoDup order) as Hnd by (rewrite Ho; apply NoDup_elements).
  unfold TransferTxs. rewrite transfer_queue. cbn [app].
  destruct (transfer_relays addr p order
    (filter (λ tx, Sender tx = addr) (TxQueue p)) ∅ Hnd) as [E1 E2].
  destruct (foldl _ _ order) as [T N]. cbn in E1, E2. subst T. cbv beta iota.
  split_and!; [done..|].
  intros sid. unfold relay_of at 1. cbn. rewrite E2, lookup_empty. cbn.
  case_decide as Hin; [done|]. rewrite Ho, elem_of_elements in Hin.
  apply not_elem_of_dom in Hin. unfold relay_of. by rewrite Hin.
Qed.

Lemma TransferTxs_correct_witness :
  let tx s := mkTx s "b" 0 "" 1 "h" 1 false false false "" "" None false "" 0 0 0 in
  let p := mkPool [tx "a"; tx "c"] (Some {[1 := [tx "c"; tx "a"]; 2 := [tx "a"]]}) in
  [2; 1] ≡ₚ elements (dom (default ∅ (RelayPool p))) ∧
  let '(moved, p') := TransferTxs [2; 1] "a" p in
  moved = filter (λ tx, Sender tx = "a") (TxQueue p) ++
          ([2; 1] ≫= λ sid, filter (λ tx, Sender tx = "a") (relay_of p sid)) ∧
  TxQueue p' = filter (λ tx, Sender tx ≠ "a") (TxQueue p) ∧
  ∀ sid, relay_of p' sid = filter (λ tx, Sender tx ≠ "a") (relay_of p sid).
Proof.
  cbv zeta. match goal with |- ?H ∧ _ => assert H as Hp end.
  { vm_compute. reflexivity. }
  split; [exact Hp|]. apply (TransferTxs_correct [2; 1]). exact Hp.
Defined.
