(* ===== verification/Storage.v ===== *)
(** * Package [storage]: the block database

    Models src/storage/storage.go: three buckets of a bolt database hold the
    encoded blocks, the encoded headers and the hash of the newest block.  A Go
    result [(value, error)] is a sum: [inl value] or [inr message].  Creating the
    directory of the database file is not modelled; [bolt.Open] is the argument
    of [NewStorage]. *)

From S2P Require Import Prelude Params Utils Interfaces Core Instances.

Section Storage.
Context {BS : BitSetOps} {G : GobOps} {BO : BoltOps}.

Record Storage := mkStorage {
  dbFilePath : string;
  blockBucket : string;
  blockHeaderBucket : string;
  newestBlockHashBucket : string;
  DataBase : BoltDB
}.

Definition set_DataBase (s : Storage) (db : BoltDB) : Storage :=
  mkStorage (dbFilePath s) (blockBucket s) (blockHeaderBucket s)
    (newestBlockHashBucket s) db.

(** [NewStorage]: [opened] is the database [bolt.Open] returns for the path. *)
Definition NewStorage (dbFp : string) (opened : option BoltDB) : outcome Storage :=
  db ← or_panic "bolt.Open" opened;
  db ← or_panic "create blocksBucket failed" (bolt_CreateBucket "block" db);
  db ← or_panic "create blockHeaderBucket failed" (bolt_CreateBucket "blockHeader" db);
  db ← or_panic "create newestBlockHashBucket failed"
         (bolt_CreateBucket "newestBlockHash" db);
  Ret (mkStorage dbFp "block" "blockHeader" "newestBlockHash" db).

(** [tx.Bucket(name).Put(key, value)] inside [DataBase.Update]; a missing bucket
    is a nil pointer. *)
Definition bucket_put (s : Storage) (bucket : string) (k v : bytes) : outcome Storage :=
  if bolt_HasBucket bucket (DataBase s) then
    db ← or_panic "bolt put" (bolt_Put bucket k v (DataBase s));
    Ret (set_DataBase s db)
  else Panic "nil bucket".

(** [tx.Bucket(name).Get(key)] inside [DataBase.View]. *)
Definition bucket_get (s : Storage) (bucket : string) (k : bytes) : outcome (option bytes) :=
  if bolt_HasBucket bucket (DataBase s) then Ret (bolt_Get bucket k (DataBase s))
  else Panic "nil bucket".

Definition UpdateNewestBlock (s : Storage) (newestbhash : bytes) : outcome Storage :=
  bucket_put s (newestBlockHashBucket s) "OnlyNewestBlock" newestbhash.

Definition AddBlockHeader (s : Storage) (blockhash : bytes) (bh : BlockHeader) :
    outcome Storage :=
  bucket_put s (blockHeaderBucket s) blockhash (BlockHeader_Encode bh).

Definition Storage_AddBlock (s : Storage) (b : Block) : outcome Storage :=
  s ← bucket_put s (blockBucket s) (b_Hash b) (Block_Encode b);
  s ← AddBlockHeader s (b_Hash b) (Header b);
  UpdateNewestBlock s (b_Hash b).

Definition GetBlockHeader (s : Storage) (bhash : bytes) : outcome (BlockHeader + string) :=
  e ← bucket_get s (blockHeaderBucket s) bhash;
  match e with
  | None => Ret (inr "the block is not existed")
  | Some enc => bh ← DecodeBH enc; Ret (inl bh)
  end.

Definition GetBlock (s : Storage) (bhash : bytes) : outcome (Block + string) :=
  e ← bucket_get s (blockBucket s) bhash;
  match e with
  | None => Ret (inr "the block is not existed")
  | Some enc => b ← DecodeB enc; Ret (inl b)
  end.

Definition GetNewestBlockHash (s : Storage) : outcome (bytes + string) :=
  e ← bucket_get s (newestBlockHashBucket s) "OnlyNewestBlock";
  match e with
  | None => Ret (inr "cannot find the newest block hash")
  | Some h => Ret (inl h)
  end.

(** ** Well-formed storages

    The bucket names are those [NewStorage] sets and the buckets exist. *)
Definition storage_ok (s : Storage) : Prop :=
  blockBucket s = "block" ∧ blockHeaderBucket s = "blockHeader" ∧
  newestBlockHashBucket s = "newestBlockHash" ∧
  bolt_HasBucket "block" (DataBase s) = true ∧
  bolt_HasBucket "blockHeader" (DataBase s) = true ∧
  bolt_HasBucket "newestBlockHash" (DataBase s) = true.

(** A block that fits the database and survives its encoding. *)
Definition storable (b : Block) : Prop :=
  bolt_key_ok (b_Hash b) ∧ bolt_value_ok (Block_Encode b) ∧
  bolt_value_ok (BlockHeader_Encode (Header b)) ∧ Forall gob_tx_ok (Body b).

Context {GL : GobLaws G} {BL : BoltLaws BO}.

Lemma NewStorage_ok dbFp db :
  ∃ s, NewStorage dbFp (Some db) = Ret s ∧ storage_ok s ∧
       ∀ b k, bolt_Get b k (DataBase s) = bolt_Get b k db.
Proof.
  unfold NewStorage. cbn.
  destruct (bolt_Create_ok "block" db) as [db1 H1]; [done|]. rewrite H1. cbn.
  destruct (bolt_Create_ok "blockHeader" db1) as [db2 H2]; [done|]. rewrite H2. cbn.
  destruct (bolt_Create_ok "newestBlockHash" db2) as [db3 H3]; [done|]. rewrite H3. cbn.
  eexists. split; [done|]. unfold storage_ok. cbn. split.
  - rewrite !(bolt_Create_has _ _ _ _ H3), !(bolt_Create_has _ _ _ _ H2),
      !(bolt_Create_has _ _ _ _ H1). done.
  - intros b k. by rewrite (bolt_Create_get _ _ _ _ _ H3), (bolt_Create_get _ _ _ _ _ H2),
      (bolt_Create_get _ _ _ _ _ H1).
Qed.

Lemma bucket_put_ok s bucket k v :
  bolt_HasBucket bucket (DataBase s) = true → bolt_key_ok k → bolt_value_ok v →
  ∃ db, bucket_put s bucket k v = Ret (set_DataBase s db) ∧
    (∀ b, bolt_HasBucket b db = bolt_HasBucket b (DataBase s)) ∧
    ∀ b' k', bolt_Get b' k' db =
      if decide (bucket = b' ∧ k = k') then Some v else bolt_Get b' k' (DataBase s).
Proof.
  intros Hb Hk Hv. unfold bucket_put. rewrite Hb.
  destruct (bolt_Put_ok bucket k v (DataBase s)) as [db Hdb]; [done..|].
  rewrite Hdb. exists db. cbn. split; [done|]. split; intros.
  - by apply (bolt_Put_has _ _ _ _ _ _ Hdb).
  - apply (bolt_Get_Put _ _ _ _ _ _ _ Hdb).
Qed.

(** What [AddBlock] leaves in the three buckets. *)
Lemma AddBlock_effect s b :
  storage_ok s → storable b →
  ∃ s', Storage_AddBlock s b = Ret s' ∧ storage_ok s' ∧
    (∀ h, bolt_Get "block" h (DataBase s') =
       if decide (b_Hash b = h) then Some (Block_Encode b)
       else bolt_Get "block" h (DataBase s)) ∧
    (∀ h, bolt_Get "blockHeader" h (DataBase s') =
       if decide (b_Hash b = h) then Some (BlockHeader_Encode (Header b))
       else bolt_Get "blockHeader" h (DataBase s)) ∧
    bolt_Get "newestBlockHash" "OnlyNewestBlock" (DataBase s') = Some (b_Hash b).
Proof.
  intros (N1 & N2 & N3 & B1 & B2 & B3) (Hk & Hv & Hvh & Hok).
  unfold Storage_AddBlock, AddBlockHeader, UpdateNewestBlock.
  destruct (bucket_put_ok s (blockBucket s) (b_Hash b) (Block_Encode b))
    as (db1 & -> & Hh1 & Hg1); [by rewrite N1|assumption..|]. cbn.
  destruct (bucket_put_ok (set_DataBase s db1) (blockHeaderBucket s) (b_Hash b)
    (BlockHeader_Encode (Header b))) as (db2 & -> & Hh2 & Hg2);
    [rewrite N2; cbn; by rewrite Hh1|assumption..|]. cbn in Hg2, Hh2 |- *.
  destruct (bucket_put_ok (set_DataBase (set_DataBase s db1) db2)
    (newestBlockHashBucket s) "OnlyNewestBlock" (b_Hash b)) as (db3 & -> & Hh3 & Hg3);
    [rewrite N3; cbn; rewrite Hh2, Hh1; done|split; [done|cbn; lia]| |].
  { destruct Hk. unfold bolt_value_ok. lia. }
  cbn in Hg3, Hh3. eexists. split; [done|].
  split; [unfold storage_ok; cbn; rewrite !Hh3, !Hh2, !Hh1; done|]. cbn.
  rewrite N1 in Hg1. rewrite N2 in Hg2. rewrite N3 in Hg3.
  split_and!; intros; rewrite Hg3.
  - rewrite decide_False by (by intros [? _]).
    rewrite Hg2, decide_False by (by intros [? _]). rewrite Hg1.
    repeat case_decide; tauto.
  - rewrite decide_False by (by intros [? _]). rewrite Hg2, Hg1.
    rewrite (decide_False (P := "block" = "blockHeader" ∧ _)) by (by intros [? _]).
    repeat case_decide; tauto.
  - by rewrite decide_True by done.
Qed.

(** Reading a block of a well-formed storage. *)
Lemma GetBlock_bolt s h :
  storage_ok s →
  GetBlock s h = match bolt_Get "block" h (DataBase s) with
                 | None => Ret (inr "the block is not existed")
                 | Some enc => b ← DecodeB enc; Ret (inl b)
                 end.
Proof.
  intros (N1 & N2 & N3 & B1 & B2 & B3). unfold GetBlock, bucket_get.
  rewrite N1, B1. done.
Qed.

Lemma GetNewestBlockHash_bolt s :
  storage_ok s →
  GetNewestBlockHash s =
    match bolt_Get "newestBlockHash" "OnlyNewestBlock" (DataBase s) with
    | None => Ret (inr "cannot find the newest block hash")
    | Some h => Ret (inl h)
    end.
Proof.
  intros (N1 & N2 & N3 & B1 & B2 & B3). unfold GetNewestBlockHash, bucket_get.
  rewrite N3, B3. done.
Qed.

Lemma GetBlockHeader_bolt s h :
  storage_ok s →
  GetBlockHeader s h = match bolt_Get "blockHeader" h (DataBase s) with
                       | None => Ret (inr "the block is not existed")
                       | Some enc => b ← DecodeBH enc; Ret (inl b)
                       end.
Proof.
  intros (N1 & N2 & N3 & B1 & B2 & B3). unfold GetBlockHeader, bucket_get.
  rewrite N2, B2. done.
Qed.

(** The reads after [AddBlock], for clients of the storage. *)
Lemma AddBlock_reads s b :
  storage_ok s → storable b →
  ∃ s', Storage_AddBlock s b = Ret s' ∧ storage_ok s' ∧
    GetNewestBlockHash s' = Ret (inl (b_Hash b)) ∧
    (∀ h, GetBlock s' h = if decide (b_Hash b = h) then Ret (inl b) else GetBlock s h) ∧
    (∀ h, GetBlockHeader s' h =
       if decide (b_Hash b = h) then Ret (inl (Header b)) else GetBlockHeader s h).
Proof.
  intros Hs Hb. destruct (AddBlock_effect s b Hs Hb) as (s' & E & Hs' & Hg & Hgh & Hn).
  exists s'. split_and!; [done..| | |].
  - by rewrite GetNewestBlockHash_bolt, Hn.
  - intros h. rewrite !GetBlock_bolt, Hg by done. case_decide; [|done].
    rewrite DecodeB_Encode by apply Hb. done.
  - intros h. rewrite !GetBlockHeader_bolt, Hgh by done. case_decide; [|done].
    by rewrite DecodeBH_Encode.
Qed.

(** Later additions leave the headers of other hashes and, when there are none,
    the newest hash. *)
Lemma AddBlocks_headers bs s s' :
  storage_ok s → Forall storable bs → foldM Storage_AddBlock s bs = Ret s' →
  (∀ h, h ∉ b_Hash <$> bs → GetBlockHeader s' h = GetBlockHeader s h) ∧
  (bs = [] → GetNewestBlockHash s' = GetNewestBlockHash s).
Proof.
  intros Hs Hbs. revert s Hs. induction Hbs as [|b bs Hb Hbs IH]; intros s Hs; cbn.
  { intros [= ->]. done. }
  destruct (AddBlock_reads s b Hs Hb) as (s1 & E1 & Hs1 & Hn & Hg & Hgh).
  rewrite E1. cbn. intros E. destruct (IH s1 Hs1 E) as [Hh _]. split; [|done].
  intros h [Hh1 Hh2]%not_elem_of_cons. rewrite Hh, Hgh by done. by rewrite decide_False.
Qed.

(** Blocks added to the storage are read back unchanged: after any
    sequence of [AddBlock]s of blocks with distinct hashes, none of which panics,
    [GetBlock] and [GetBlockHeader] return every added block and its header, the
    newest hash is that of the last one, and every other hash reads as before. *)
Theorem AddBlocks_roundtrip s bs :
  storage_ok s → Forall storable bs → NoDup (b_Hash <$> bs) →
  ∃ s', foldM Storage_AddBlock s bs = Ret s' ∧ storage_ok s' ∧
    (∀ b, b ∈ bs → GetBlock s' (b_Hash b) = Ret (inl b) ∧
                   GetBlockHeader s' (b_Hash b) = Ret (inl (Header b))) ∧
    (∀ b, last bs = Some b → GetNewestBlockHash s' = Ret (inl (b_Hash b))) ∧
    (∀ h, h ∉ b_Hash <$> bs → GetBlock s' h = GetBlock s h).
Proof.
  intros Hs Hbs Hnd. revert s Hs.
  induction Hbs as [|b bs Hb Hbs IH]; intros s Hs; cbn.
  { eexists. split_and!; [done..|set_solver|done|done]. }
  apply NoDup_cons in Hnd as [Hnin Hnd].
  destruct (AddBlock_reads s b Hs Hb) as (s1 & E1 & Hs1 & Hn & Hg & Hgh).
  rewrite E1. cbn. destruct (IH Hnd s1 Hs1) as (s' & E & Hs' & Hin & Hlast & Hrest).
  destruct (AddBlocks_headers bs s1 s' Hs1 Hbs E) as [Hhdr Hnew].
  exists s'. split_and!; [done..| | |].
  - intros b' [->|Hb']%elem_of_cons; [|by apply Hin].
    rewrite Hrest, Hg, Hhdr, Hgh, !decide_True by done. done.
  - intros b' Hl. destruct bs as [|b2 bs]; [|by apply Hlast].
    cbn in Hl. simplify_eq. by rewrite Hnew, Hn.
  - intros h [Hh1 Hh2]%not_elem_of_cons. rewrite Hrest, Hg by done.
    by rewrite decide_False.
Qed.

End Storage.

Lemma AddBlocks_roundtrip_witness :
  let bh n := mkBH "parent" "state" "txs" (∅ : @BitSet SetBits) n 0 0 in
  let bs := [mkBlock (bh 1) [] "h1"; mkBlock (bh 2) [] "h2"] in
  let s := mkStorage "chainDB/S0_N0" "block" "blockHeader" "newestBlockHash"
             (empty_bolt.1, {["block"; "blockHeader"; "newestBlockHash"]}) in
    ∃ s', foldM Storage_AddBlock s bs = Ret s' ∧ storage_ok s' ∧
    (∀ b, b ∈ bs → GetBlock s' (b_Hash b) = Ret (inl b) ∧
                   GetBlockHeader s' (b_Hash b) = Ret (inl (Header b))) ∧
    (∀ b, last bs = Some b → GetNewestBlockHash s' = Ret (inl (b_Hash b))) ∧
    (∀ h, h ∉ b_Hash <$> bs → GetBlock s' h = GetBlock s h).
Proof.
  cbv zeta.
  apply AddBlocks_roundtrip.
  - split_and!; vm_compute; reflexivity.
  - apply Forall_cons; split; [|apply Forall_cons; split; [|apply Forall_nil, I]];
      (split; [split; [discriminate|vm_compute; discriminate]|]);
      (split; [vm_compute; discriminate|]); (split; [vm_compute; discriminate|]);
      apply Forall_nil, I.
  - apply NoDup_cons; split; [|apply NoDup_cons; split; [|apply NoDup_nil, I]];
      apply (bool_decide_unpack _); vm_compute; exact I.
Defined.
