(* ===== verification/G2E.v ===== *)
(** * The Game2Earn bet book

    Models src/chain/g2e_book.go and, from src/chain/blockchain.go, the choice of
    the winning pair and the sums of the settlement.  A bet names a target block
    height and a pair of numbers; the book keeps, per target height, the bets and
    the staked sum of every pair.  A loop over a Go map is a loop over a list of
    its keys in some order; the results are shown not to depend on that order. *)

From S2P Require Import Prelude Params Utils Interfaces Core Instances.

Definition BetPair : Type := Z * Z.

Record betEntry := mkBet { Player : Address; Pair : BetPair; Amount : Z }.

Record g2eEpochBook := mkEpoch {
  ByPair : gmap BetPair (list betEntry);
  SumByPair : gmap BetPair Z
}.

Record G2EBook := mkBook { bk_data : gmap Z g2eEpochBook }.

Definition NewG2EBook : G2EBook := mkBook ∅.

Definition appendBet (targetH : Z) (pair : BetPair) (player : Address) (amt : Z)
    (bk : G2EBook) : G2EBook :=
  let eb := default (mkEpoch ∅ ∅) (bk_data bk !! targetH) in
  let eb' := mkEpoch (map_append (ByPair eb) pair (mkBet player pair amt))
               (<[pair := default 0 (SumByPair eb !! pair) + amt]> (SumByPair eb)) in
  mkBook (<[targetH := eb']> (bk_data bk)).

Definition getEpoch (targetH : Z) (bk : G2EBook) : option g2eEpochBook :=
  bk_data bk !! targetH.

Definition cleanup (targetH : Z) (bk : G2EBook) : G2EBook :=
  mkBook (delete targetH (bk_data bk)).

(** ** The winning pair

    The comparison passed to [sort.Slice], as the order "not greater". *)
Definition pair_le (a b : BetPair) : Prop :=
  a.1 < b.1 ∨ (a.1 = b.1 ∧ a.2 ≤ b.2).

#[export] Instance pair_le_dec : RelDecision pair_le.
Proof. intros a b. unfold pair_le. apply _. Defined.
#[export] Instance pair_le_total : Total pair_le.
Proof. intros [a1 a2] [b1 b2]. unfold pair_le. cbn. lia. Qed.
#[export] Instance pair_le_trans : Transitive pair_le.
Proof. intros [a1 a2] [b1 b2] [c1 c2]. unfold pair_le. cbn. lia. Qed.
#[export] Instance pair_le_antisymm : AntiSymm eq pair_le.
Proof. intros [a1 a2] [b1 b2]. unfold pair_le. cbn. intros. f_equal; lia. Qed.

(** [chooseWinningPair], the keys being collected in the order [keys]. *)
Definition choose_from (h : Z) (keys : list BetPair) : outcome BetPair :=
  let keys := merge_sort pair_le keys in
  match keys with
  | [] => Ret (0, 0)
  | _ => slice_at keys (Z.rem (i64 h) (zlen keys))
  end.

Definition chooseWinningPair (h : Z) (eb : g2eEpochBook) : outcome BetPair :=
  choose_from h (map_to_list (SumByPair eb)).*1.

(** ** The sums of the settlement *)

(** The loop computing [W] and [L] over the entries of [SumByPair]. *)
Definition split_pools (star : BetPair) (entries : list (BetPair * Z)) : Z * Z :=
  foldl (λ '(W, L) '(p, sum),
           if decide (p = star) then (W + sum, L) else (W, L + sum)) (0, 0) entries.

Definition pools (star : BetPair) (eb : g2eEpochBook) : Z * Z :=
  split_pools star (map_to_list (SumByPair eb)).

(** [q = L / W], 0 when nothing was staked on the winning pair.  ([big.Int.Div]
    is Euclidean division, which for a positive divisor is [Z.div].) *)
Definition odds (W L : Z) : Z := if 0 <? W then L / W else 0.

(** The winning bets in order with the gain [e.Amount * q] of each. *)
Definition gains (star : BetPair) (eb : g2eEpochBook) : list (Address * Z) :=
  let '(W, L) := pools star eb in
  if 0 <? W then
    (λ e, (Player e, Amount e * odds W L)) <$> default [] (ByPair eb !! star)
  else [].

(** ** Invariant of the book

    The two maps of an epoch have the same pairs, a sum is the total of its bets,
    every bet is filed under its pair and no pair is empty. *)
Definition epoch_ok (eb : g2eEpochBook) : Prop :=
  ∀ pair,
    SumByPair eb !! pair = (λ l, zsum (Amount <$> l)) <$> (ByPair eb !! pair) ∧
    ∀ l, ByPair eb !! pair = Some l → l ≠ [] ∧ Forall (λ e, Pair e = pair) l.

Definition book_ok (bk : G2EBook) : Prop :=
  ∀ h eb, bk_data bk !! h = Some eb → epoch_ok eb.

(** Every stake is non-negative. *)
Definition stakes_nonneg (eb : g2eEpochBook) : Prop :=
  ∀ pair l, ByPair eb !! pair = Some l → Forall (λ e, 0 ≤ Amount e) l.

(** All that is staked in an epoch, and in the book. *)
Definition epoch_total (eb : g2eEpochBook) : Z := zsum (map_to_list (SumByPair eb)).*2.
Definition held (bk : G2EBook) : Z := zsum (epoch_total <$> (map_to_list (bk_data bk)).*2).

(** ** Lemmas *)
Lemma epoch_ok_empty : epoch_ok (mkEpoch ∅ ∅).
Proof. intros pair. cbn. rewrite !lookup_empty. done. Qed.

Lemma appendBet_epoch_ok pair player amt eb :
  epoch_ok eb →
  epoch_ok (mkEpoch (map_append (ByPair eb) pair (mkBet player pair amt))
              (<[pair := default 0 (SumByPair eb !! pair) + amt]> (SumByPair eb))).
Proof.
  intros Heb p. unfold map_append. cbn. rewrite !lookup_insert.
  destruct (Heb p) as [Hs Hl]. case_decide; [subst p|by split]. split.
  - rewrite Hs. cbn. f_equal. rewrite fmap_app, zsum_app. cbn.
    destruct (ByPair eb !! pair); cbn; lia.
  - intros l [= <-]. split; [by destruct (default [] _)|].
    apply Forall_app. split; [|by constructor].
    destruct (ByPair eb !! pair) as [l|]; cbn; [by apply Hl|constructor].
Qed.

Lemma book_ok_appendBet h pair player amt bk :
  book_ok bk → book_ok (appendBet h pair player amt bk).
Proof.
  intros Hbk h' eb. unfold appendBet. cbn. rewrite lookup_insert. case_decide; [|by apply Hbk].
  intros [= <-]. apply appendBet_epoch_ok.
  destruct (bk_data bk !! h) eqn:E; cbn; [by apply (Hbk h)|apply epoch_ok_empty].
Qed.

Lemma book_ok_cleanup h bk : book_ok bk → book_ok (cleanup h bk).
Proof.
  intros Hbk h' eb. unfold cleanup. cbn. rewrite lookup_delete. case_decide; [done|apply Hbk].
Qed.

Lemma book_ok_new : book_ok NewG2EBook.
Proof. intros h eb. cbn. by rewrite lookup_empty. Qed.
#[export] Hint Resolve book_ok_appendBet book_ok_cleanup book_ok_new : emu.

(** Sums over the entries of a map. *)
Lemma zsum_map_insert {K A} `{Countable K} (f : A → Z) (m : gmap K A) k v :
  zsum (f <$> (map_to_list (<[k := v]> m)).*2) =
  zsum (f <$> (map_to_list m).*2) + f v - default 0 (f <$> m !! k).
Proof.
  destruct (m !! k) as [w|] eqn:E; cbn.
  - rewrite <-(insert_id m k w E) at 2.
    rewrite <-(insert_delete_eq m k v), <-(insert_delete_eq m k w).
    rewrite !map_to_list_insert by apply lookup_delete_eq. cbn. lia.
  - rewrite map_to_list_insert by done. cbn. lia.
Qed.

Lemma epoch_total_insert eb pair v B :
  epoch_total (mkEpoch B (<[pair := v]> (SumByPair eb))) =
  epoch_total eb + v - default 0 (SumByPair eb !! pair).
Proof.
  unfold epoch_total. cbn.
  pose proof (zsum_map_insert (λ z : Z, z) (SumByPair eb) pair v) as Hz.
  rewrite !list_fmap_id in Hz. rewrite Hz. by destruct (SumByPair eb !! pair).
Qed.

(** A recorded bet raises the held stakes by its amount. *)
Lemma held_appendBet h pair player amt bk :
  held (appendBet h pair player amt bk) = held bk + amt.
Proof.
  unfold held, appendBet. cbv zeta. cbn [bk_data].
  rewrite zsum_map_insert, epoch_total_insert.
  destruct (bk_data bk !! h) as [eb|]; cbn; [lia|].
  rewrite lookup_empty. cbn. unfold epoch_total. cbn. rewrite map_to_list_empty. cbn. lia.
Qed.

(** A settled epoch releases its stakes. *)
Lemma held_cleanup h bk :
  held (cleanup h bk) = held bk - default 0 (epoch_total <$> getEpoch h bk).
Proof.
  unfold held, cleanup, getEpoch. cbn.
  destruct (bk_data bk !! h) as [eb|] eqn:E; cbn.
  - rewrite <-(insert_id _ _ _ E) at 2. rewrite <-insert_delete_eq.
    rewrite map_to_list_insert by apply lookup_delete_eq. cbn. lia.
  - rewrite delete_id by done. lia.
Qed.

(** The two pools are the sums of the matching and of the other entries. *)
Lemma split_pools_spec star l :
  split_pools star l =
  (zsum (filter (λ e, e.1 = star) l).*2, zsum (filter (λ e, e.1 ≠ star) l).*2).
Proof.
  unfold split_pools.
  assert (∀ W L, foldl (λ '(W, L) '(p, sum),
             if decide (p = star) then (W + sum, L) else (W, L + sum)) (W, L) l =
    (W + zsum (filter (λ e, e.1 = star) l).*2,
     L + zsum (filter (λ e, e.1 ≠ star) l).*2)) as Hgen.
  { induction l as [|[p s] l IH]; intros W L; cbn [foldl].
    { rewrite !filter_nil. cbn. f_equal; lia. }
    destruct (decide (p = star)) as [Hp|Hp]; rewrite IH.
    - rewrite (filter_cons_True (λ e, e.1 = star)) by done.
      rewrite (filter_cons_False (λ e, e.1 ≠ star)) by (intros Hn; by apply Hn).
      cbn. f_equal; lia.
    - rewrite (filter_cons_False (λ e, e.1 = star)) by done.
      rewrite (filter_cons_True (λ e, e.1 ≠ star)) by done. cbn. f_equal; lia. }
  rewrite Hgen. f_equal; lia.
Qed.

Lemma split_pools_perm star l1 l2 : l1 ≡ₚ l2 → split_pools star l1 = split_pools star l2.
Proof. intros Hp. rewrite !split_pools_spec. by rewrite Hp. Qed.

Lemma split_pools_sum star l :
  (split_pools star l).1 + (split_pools star l).2 = zsum l.*2.
Proof.
  rewrite split_pools_spec. cbn. induction l as [|[p s] l IH]; [done|].
  rewrite !filter_cons. cbn -[decide]. destruct (decide (p = star)); cbn -[decide];
    (rewrite decide_False by naive_solver) || (rewrite decide_True by naive_solver);
    cbn; lia.
Qed.

Lemma pools_spec star eb :
  pools star eb =
  (default 0 (SumByPair eb !! star), epoch_total eb - default 0 (SumByPair eb !! star)).
Proof.
  assert ((pools star eb).1 = default 0 (SumByPair eb !! star)) as HW.
  { unfold pools. destruct (SumByPair eb !! star) as [s|] eqn:E; cbn.
    - rewrite <-(insert_id _ _ _ E), <-insert_delete_eq.
      rewrite (split_pools_perm _ _ _ (map_to_list_insert _ star s (lookup_delete_eq _ _))).
      rewrite split_pools_spec. cbn [fst]. rewrite filter_cons_True by done. cbn.
      rewrite list_filter_none; [cbn; lia|]. intros [p z] Hin. cbn.
      intros ->. by apply elem_of_map_to_list in Hin; simplify_map_eq.
    - rewrite split_pools_spec. cbn [fst]. rewrite list_filter_none; [done|].
      intros [p z] Hin. cbn. intros ->. apply elem_of_map_to_list in Hin. congruence. }
  pose proof (split_pools_sum star (map_to_list (SumByPair eb))) as Hsum.
  unfold epoch_total. unfold pools in *. destruct (split_pools _ _) as [W L]. cbn in *.
  f_equal; lia.
Qed.

Lemma stakes_sums_nonneg eb p s :
  epoch_ok eb → stakes_nonneg eb → SumByPair eb !! p = Some s → 0 ≤ s.
Proof.
  intros Hok Hnn Hp. destruct (Hok p) as [Hs _]. rewrite Hp in Hs.
  destruct (ByPair eb !! p) as [l|] eqn:E; cbn in Hs; [|done]. simplify_eq.
  apply zsum_nonneg, Forall_fmap. eapply Forall_impl; [by apply (Hnn p)|done].
Qed.

Lemma epoch_total_ge eb p :
  epoch_ok eb → stakes_nonneg eb → 0 ≤ default 0 (SumByPair eb !! p) ≤ epoch_total eb.
Proof.
  intros Hok Hnn. split.
  { destruct (SumByPair eb !! p) eqn:E; [by eapply stakes_sums_nonneg|done]. }
  pose proof (pools_spec p eb) as Hp. unfold pools in Hp. rewrite split_pools_spec in Hp.
  injection Hp as _ HL. enough (0 ≤ zsum (filter (λ e, e.1 ≠ p) (map_to_list (SumByPair eb))).*2)
    by lia.
  apply zsum_nonneg, Forall_fmap, Forall_forall. intros [p' s] Hin.
  apply list_elem_of_filter in Hin as [_ Hin]. apply elem_of_map_to_list in Hin. cbn.
  by eapply stakes_sums_nonneg.
Qed.

(** The gains of the winners sum up to the winning pool times the odds. *)
Lemma gains_total star eb :
  epoch_ok eb →
  zsum (gains star eb).*2 =
    let '(W, L) := pools star eb in if 0 <? W then W * (L / W) else 0.
Proof.
  intros Hok. unfold gains. rewrite pools_spec. cbv beta iota.
  destruct (Z.ltb_spec 0 (default 0 (SumByPair eb !! star))); [|done].
  unfold odds. destruct (Z.ltb_spec 0 (default 0 (SumByPair eb !! star))); [|lia].
  set (q := _ / _). destruct (Hok star) as [-> _].
  destruct (ByPair eb !! star) as [l|]; cbn; [|done].
  rewrite <-zsum_mul_r, <-!list_fmap_compose. done.
Qed.

(** The winning pair does not depend on the order in which Go
    visits the map: whatever order the keys are collected in, every node picks the
    same pair, and it is one somebody bet on. *)
Theorem chooseWinningPair_deterministic h eb order :
  order ≡ₚ (map_to_list (SumByPair eb)).*1 → 0 ≤ h < 2 ^ 63 → SumByPair eb ≠ ∅ →
  ∃ pair, chooseWinningPair h eb = Ret pair ∧ choose_from h order = Ret pair ∧
          is_Some (SumByPair eb !! pair).
Proof.
  intros Ho Hh Hne. unfold chooseWinningPair, choose_from.
  set (ks := (map_to_list (SumByPair eb)).*1) in *.
  assert (merge_sort pair_le order = merge_sort pair_le ks) as ->.
  { apply (Sorted_unique pair_le); [apply Sorted_merge_sort, _..|].
    by rewrite !merge_sort_Permutation. }
  pose proof (merge_sort_Permutation pair_le ks) as Hp.
  set (sk := merge_sort pair_le ks) in *. destruct sk as [|k0 sk'] eqn:Esk.
  { exfalso. apply Hne. apply map_to_list_empty_iff. apply fmap_nil_inv with fst.
    exact (Permutation_nil Hp). }
  rewrite <-Esk in *. rewrite i64_id by lia.
  assert (0 < zlen sk) by (rewrite Esk, zlen_cons; pose proof (zlen_nonneg sk'); lia).
  rewrite Z.rem_mod_nonneg by lia.
  destruct (slice_at_ok sk (h mod zlen sk)) as [p Hp1]; [by apply Z.mod_pos_bound|].
  exists p. split_and!; [done..|]. apply slice_at_lookup in Hp1 as [_ Hlk].
  apply list_elem_of_lookup_2 in Hlk. rewrite Hp in Hlk.
  apply list_elem_of_fmap in Hlk as ([p' s] & -> & Hin).
  apply elem_of_map_to_list in Hin. eauto.
Qed.

(** C34 (safety) The settlement is solvent: in a well-formed epoch with
    non-negative stakes the gains paid to the winners sum up to
    [W * (L / W)], which is at most the losers' pool [L], and the two pools
    together are everything staked in the epoch. *)
Theorem settlement_solvent star eb W L :
  epoch_ok eb → stakes_nonneg eb → pools star eb = (W, L) →
  W + L = epoch_total eb ∧
  zsum (gains star eb).*2 = (if 0 <? W then W * (L / W) else 0) ∧
  0 ≤ zsum (gains star eb).*2 ≤ L.
Proof.
  intros Hok Hnn HWL. pose proof (gains_total star eb Hok) as Hg.
  rewrite HWL in Hg. rewrite pools_spec in HWL.
  pose proof (epoch_total_ge eb star Hok Hnn). simplify_eq.
  set (W := default 0 _) in *. set (L := epoch_total eb - W) in *.
  rewrite Hg. split_and!; [lia|done|destruct (Z.ltb_spec 0 W); [|lia]..].
  - pose proof (Z.div_pos L W). nia.
  - apply Z.mul_div_le. lia.
Qed.

(** Two bets on the pair (1,2) and one on (3,4), all for height 7. *)
Definition sample_book : G2EBook :=
  appendBet 7 (3, 4) "bob" 50 (appendBet 7 (1, 2) "carol" 30
    (appendBet 7 (1, 2) "alice" 10 NewG2EBook)).
Definition sample_epoch : g2eEpochBook :=
  default (mkEpoch ∅ ∅) (getEpoch 7 sample_book).

Lemma sample_epoch_ok : epoch_ok sample_epoch.
Proof.
  assert (book_ok sample_book) as Hb by (unfold sample_book; auto with emu).
  unfold sample_epoch. destruct (getEpoch 7 sample_book) eqn:E; cbn.
  - by apply (Hb 7).
  - apply epoch_ok_empty.
Qed.

Lemma sample_epoch_nonneg : stakes_nonneg sample_epoch.
Proof.
  intros p l Hp.
  assert (map_Forall (λ _ l, Forall (λ e, 0 ≤ Amount e) l) (ByPair sample_epoch)) as Hall.
  { apply (bool_decide_unpack _). vm_compute. exact I. }
  by apply (Hall p).
Qed.

Lemma chooseWinningPair_deterministic_witness :
  [(3, 4); (1, 2)] ≡ₚ (map_to_list (SumByPair sample_epoch)).*1 ∧
  ∃ pair, chooseWinningPair 7 sample_epoch = Ret pair ∧
          choose_from 7 [(3, 4); (1, 2)] = Ret pair ∧
          is_Some (SumByPair sample_epoch !! pair).
Proof.
  assert ([(3, 4); (1, 2)] ≡ₚ (map_to_list (SumByPair sample_epoch)).*1) as Hp.
  { apply (bool_decide_unpack _). vm_compute. exact I. }
  split; [exact Hp|]. apply chooseWinningPair_deterministic.
  - exact Hp.
  - lia.
  - intros E. apply (f_equal size) in E. vm_compute in E. discriminate.
Defined.

Lemma settlement_solvent_witness :
  pools (1, 2) sample_epoch = (40, 50) ∧
  40 + 50 = epoch_total sample_epoch ∧
  zsum (gains (1, 2) sample_epoch).*2 = (if 0 <? 40 then 40 * (50 / 40) else 0) ∧
  0 ≤ zsum (gains (1, 2) sample_epoch).*2 ≤ 50.
Proof.
  split; [vm_compute; reflexivity|].
  apply settlement_solvent; [exact sample_epoch_ok|exact sample_epoch_nonneg|].
  vm_compute. reflexivity.
Defined.
