(* ===== verification/BlockChain.v ===== *)
(** * Package [chain]: the blockchain of a node

    Models src/chain/blockchain.go: the partition map, the execution of a block's
    transactions on the state trie with the Game2Earn bets and their settlement,
    block generation, the genesis block, the addition of blocks and of transferred
    accounts, and the reading of accounts.  [time.Now] is an argument; printing and
    [CloseBlockChain] are not modelled. *)

From S2P Require Import Prelude Params Utils Interfaces Core Instances.
From S2P Require Import TxPool Storage G2E.

Section Chain.
Context {PR : Params} {BS : BitSetOps} {G : GobOps} {BO : BoltOps} {T : TrieOps}.

Record BlockChain := mkBC {
  bc_db : EthDB;
  triedb : TrieDB;
  bc_ChainConfig : ChainConfig;
  CurrentBlock : Block;
  bc_Storage : Storage;
  Txpool : TxPool;
  PartitionMap : gmap Address Z;
  bc_G2EBook : G2EBook
}.

Definition set_PartitionMap (bc : BlockChain) (m : gmap Address Z) : BlockChain :=
  mkBC (bc_db bc) (triedb bc) (bc_ChainConfig bc) (CurrentBlock bc) (bc_Storage bc)
    (Txpool bc) m (bc_G2EBook bc).
Definition set_Txpool (bc : BlockChain) (p : TxPool) : BlockChain :=
  mkBC (bc_db bc) (triedb bc) (bc_ChainConfig bc) (CurrentBlock bc) (bc_Storage bc)
    p (PartitionMap bc) (bc_G2EBook bc).
Definition set_state (bc : BlockChain) (db : TrieDB) (bk : G2EBook) : BlockChain :=
  mkBC (bc_db bc) db (bc_ChainConfig bc) (CurrentBlock bc) (bc_Storage bc)
    (Txpool bc) (PartitionMap bc) bk.
Definition set_tip (bc : BlockChain) (b : Block) (s : Storage) : BlockChain :=
  mkBC (bc_db bc) (triedb bc) (bc_ChainConfig bc) b s
    (Txpool bc) (PartitionMap bc) (bc_G2EBook bc).

Definition ShardID (bc : BlockChain) : Z := cc_ShardID (bc_ChainConfig bc).
Definition tip (bc : BlockChain) : BlockHeader := Header (CurrentBlock bc).

(** ** Transaction root and bloom filter *)

(** The one-byte slice [[]byte{0}]. *)
Definition zero_byte : bytes := String Ascii.zero EmptyString.

(** The trie of the transactions' hashes in a memory database. *)
Definition tx_trie (txs : list Transaction) : Trie :=
  foldl (λ t tx, trie_Update t (TxHash tx) zero_byte)
    (trie_NewEmpty (trie_NewDatabase memory_db)) txs.

Definition GetTxTreeRoot (txs : list Transaction) : bytes := trie_Hash (tx_trie txs).

Definition GetBloomFilter (txs : list Transaction) : outcome BitSet :=
  foldM (λ bs tx, i ← ModBytes (TxHash tx) 2048; Ret (bs_Set bs i)) (bs_New 2048) txs.

(** ** The partition map *)
Definition Update_PartitionMap (key : Address) (val : Z) (bc : BlockChain) : BlockChain :=
  set_PartitionMap bc (<[key := val]> (PartitionMap bc)).

Definition Get_PartitionMap (bc : BlockChain) (key : Address) : outcome Z :=
  match PartitionMap bc !! key with
  | None => s ← Addr2Shard key; Ret (u64 s)
  | Some v => Ret v
  end.

Definition SendTx2Pool (clock : nat → Time) (txs : list Transaction) (bc : BlockChain) :
    BlockChain :=
  set_Txpool bc (AddTxs2Pool clock txs (Txpool bc)).

(** ** Execution of transactions *)

(** [st.Get] and [DecodeAS], or a new account with the initial balance. *)
Definition load_account (st : Trie) (addr : Address) (nonce : Z) : outcome AccountState :=
  match trie_Get st addr with
  | None => Ret (new_AccountState nonce Init_Balance)
  | Some enc => DecodeAS enc
  end.

Definition store_account (st : Trie) (addr : Address) (s : AccountState) : Trie :=
  trie_Update st addr (AccountState_Encode s).

(** The variables of the loop: the trie, the counter and the bet book. *)
Record exec_state := mkExec { ex_st : Trie; ex_cnt : Z; ex_book : G2EBook }.

(** Is the account [addr] handled by this shard for [tx]?
    [bc.Get_PartitionMap(addr) == ShardID || tx.HasBroker] *)
Definition handles (bc : BlockChain) (addr : Address) (tx : Transaction) : outcome bool :=
  s ← Get_PartitionMap bc addr; Ret ((s =? ShardID bc) || HasBroker tx).

(** The second half of the loop body: crediting the recipient. *)
Definition credit_recipient (bc : BlockChain) (i : Z) (e : exec_state) (tx : Transaction) :
    outcome exec_state :=
  inR ← handles bc (Recipient tx) tx;
  if (inR : bool) then
    r ← load_account (ex_st e) (Recipient tx) (u64 i);
    Ret (mkExec (store_account (ex_st e) (Recipient tx) (Deposit r (Value tx)))
           (ex_cnt e + 1) (ex_book e))
  else Ret e.

(** The body of the loop over the transactions. *)
Definition exec_tx (bc : BlockChain) (e : exec_state) (i : Z) (tx : Transaction) :
    outcome exec_state :=
  inS ← (if Relayed tx then Ret false else handles bc (Sender tx) tx);
  if (inS : bool) then
    s ← load_account (ex_st e) (Sender tx) (u64 i);
    if as_Balance s <? Value tx then Ret e
    else
      let s1 := (Deduct s (Value tx)).1 in
      let st1 := store_account (ex_st e) (Sender tx) s1 in
      let e1 := mkExec st1 (ex_cnt e + 1) (ex_book e) in
      if G2EEnabled tx then
        if Height tx <? u64 (Number (tip bc) + u64 G2E_Beta) then
          (* too close: the stake is given back *)
          Ret (mkExec (store_account st1 (Sender tx) (Deposit s1 (Value tx)))
                 (ex_cnt e1 - 1) (ex_book e))
        else
          Ret (mkExec st1 (ex_cnt e1)
                 (appendBet (Height tx) (PairI tx, PairJ tx) (Sender tx) (Value tx)
                    (ex_book e)))
      else credit_recipient bc i e1 tx
  else credit_recipient bc i e tx.

(** Crediting one winner in the settlement. *)
Definition pay_winner (e : exec_state) (w : Address * Z) : outcome exec_state :=
  r ← load_account (ex_st e) w.1 0;
  Ret (mkExec (store_account (ex_st e) w.1 (Deposit r w.2)) (ex_cnt e + 1) (ex_book e)).

(** The settlement of the epoch whose target is the next block. *)
Definition settle (bc : BlockChain) (e : exec_state) : outcome exec_state :=
  let nextBlockH := u64 (Number (tip bc) + 1) in
  match getEpoch nextBlockH (ex_book e) with
  | None => Ret e
  | Some eb =>
      pairStar ← chooseWinningPair nextBlockH eb;
      e ← foldM pay_winner e (gains pairStar eb);
      Ret (mkExec (ex_st e) (ex_cnt e) (cleanup nextBlockH (ex_book e)))
  end.

(** [st.Commit(false)] and the update of the trie database. *)
Definition commit_trie (st : Trie) (db : TrieDB) : outcome (bytes * TrieDB) :=
  let '(rt, ns) := trie_Commit st in
  match ns with
  | None => Ret (rt, db)
  | Some ns =>
      db ← or_panic "triedb.Update" (triedb_Update ns db);
      db ← or_panic "triedb.Commit" (triedb_Commit rt db);
      Ret (rt, db)
  end.

(** [GetUpdateStatusTrie]: the new root and the chain with its updated trie
    database and bet book. *)
Definition GetUpdateStatusTrie (bc : BlockChain) (txs : list Transaction) :
    outcome (bytes * BlockChain) :=
  match txs with
  | [] => Ret (BytesToHash (StateRoot (tip bc)), bc)
  | _ =>
      st ← or_panic "trie.New" (trie_New (BytesToHash (StateRoot (tip bc))) (triedb bc));
      e ← foldMi (exec_tx bc) (mkExec st 0 (bc_G2EBook bc)) 0 txs;
      if ex_cnt e =? 0 then
        Ret (BytesToHash (StateRoot (tip bc)), set_state bc (triedb bc) (ex_book e))
      else
        e ← settle bc e;
        '(rt, db) ← commit_trie (ex_st e) (triedb bc);
        Ret (rt, set_state bc db (ex_book e))
  end.

(** ** Blocks *)

(** The transactions [GenerateBlock] packs. *)
Definition pack_txs (bc : BlockChain) : list Transaction * TxPool :=
  if UseBlocksizeInBytes =? 1 then PackTxsWithBytes BlocksizeInBytes (Txpool bc)
  else PackTxs (BlockSize (bc_ChainConfig bc)) (Txpool bc).

(** [GenerateBlock]: a block on top of the current one, not added to the chain. *)
Definition GenerateBlock (miner : Z) (now : Time) (bc : BlockChain) :
    outcome (Block * BlockChain) :=
  let '(txs, pool) := pack_txs bc in
  let bc := set_Txpool bc pool in
  let parent := b_Hash (CurrentBlock bc) in
  let number := u64 (Number (tip bc) + 1) in
  '(rt, bc) ← GetUpdateStatusTrie bc txs;
  bloom ← GetBloomFilter txs;
  let b := NewBlock (mkBH parent rt (GetTxTreeRoot txs) bloom number now miner) txs in
  Ret (set_Hash b (BlockHeader_Hash (Header b)), bc).

(** [NewGenisisBlock]: the genesis block and the fresh trie database. *)
Definition NewGenisisBlock (db : EthDB) : outcome (Block * TrieDB) :=
  let tdb := trie_NewDatabase db in
  bloom ← GetBloomFilter [];
  let bh := mkBH "" (trie_Hash (trie_NewEmpty tdb)) (GetTxTreeRoot []) bloom 0 0 0 in
  let b := NewBlock bh [] in
  Ret (set_Hash b (BlockHeader_Hash bh), tdb).

(** [AddGenisisBlock]: stores the block and reads it back as the current one. *)
Definition AddGenisisBlock (s : Storage) (gb : Block) : outcome (Storage * Block) :=
  s ← Storage_AddBlock s gb;
  newest ← GetNewestBlockHash s;
  match newest with
  | inr _ => Panic "GetNewestBlockHash"
  | inl h =>
      curb ← GetBlock s h;
      match curb with inr _ => Panic "GetBlock" | inl curb => Ret (s, curb) end
  end.

(** [AddBlock]; a block with a wrong height or parent is ignored. *)
Definition AddBlock (b : Block) (bc : BlockChain) : outcome BlockChain :=
  if negb (Number (Header b) =? u64 (Number (tip bc) + 1)) then Ret bc
  else if negb (bool_decide (ParentBlockHash (Header b) = b_Hash (CurrentBlock bc)))
  then Ret bc
  else
    bc ← match trie_New (BytesToHash (StateRoot (Header b))) (triedb bc) with
         | Some _ => Ret bc
         | None => '(_, bc) ← GetUpdateStatusTrie bc (Body b); Ret bc
         end;
    s ← Storage_AddBlock (bc_Storage bc) b;
    Ret (set_tip bc b s).

(** [NewBlockChain]: [opened] is the block database [bolt.Open] returns. *)
Definition NewBlockChain (cc : ChainConfig) (db : EthDB) (dbFp : string)
    (opened : option BoltDB) : outcome BlockChain :=
  s ← NewStorage dbFp opened;
  curHash ← GetNewestBlockHash s;
  match curHash with
  | inr err =>
      if bool_decide (err = "cannot find the newest block hash") then
        '(gb, tdb) ← NewGenisisBlock db;
        '(s, curb) ← AddGenisisBlock s gb;
        Ret (mkBC db tdb cc curb s NewTxPool ∅ NewG2EBook)
      else Panic "GetNewestBlockHash"
  | inl h =>
      curb ← GetBlock s h;
      match curb with
      | inr _ => Panic "GetBlock"
      | inl curb =>
          let tdb := trie_NewDatabase db in
          _ ← or_panic "trie.New" (trie_New (BytesToHash (StateRoot (Header curb))) tdb);
          Ret (mkBC db tdb cc curb s NewTxPool ∅ NewG2EBook)
      end
  end.

(** [IsValidBlock]: nil or an error. *)
Definition IsValidBlock (bc : BlockChain) (b : Block) : option string :=
  if negb (bool_decide (ParentBlockHash (Header b) = b_Hash (CurrentBlock bc))) then
    Some "the parentblock hash is not equal to the current block hash"
  else if negb (bool_decide (GetTxTreeRoot (Body b) = TxRoot (Header b))) then
    Some "the transaction root is wrong"
  else None.

(** One account of the loop of [AddAccounts]. *)
Definition add_account (bc : BlockChain) (as_ : list AccountState) (st : Trie) (i : Z)
    (addr : Address) : outcome Trie :=
  s ← Get_PartitionMap bc addr;
  if s =? ShardID bc then
    a ← slice_at as_ i;
    Ret (store_account st addr (new_AccountState (as_Nonce a) (as_Balance a)))
  else Ret st.

(** The block [AddAccounts] appends, which writes the accounts of this shard, and
    the updated trie database. *)
Definition accounts_block (ac : list Address) (as_ : list AccountState) (bc : BlockChain) :
    outcome (Block * TrieDB) :=
  '(rt, db) ←
    match ac with
    | [] => Ret (StateRoot (tip bc), triedb bc)
    | _ =>
        st ← or_panic "trie.New" (trie_New (BytesToHash (StateRoot (tip bc))) (triedb bc));
        st ← foldMi (add_account bc as_) st 0 ac;
        match (trie_Commit st).2 with
        | None => Ret (StateRoot (tip bc), triedb bc)
        | Some _ => commit_trie st (triedb bc)
        end
    end;
  bloom ← GetBloomFilter [];
  let bh := mkBH (b_Hash (CurrentBlock bc)) rt (GetTxTreeRoot []) bloom
              (u64 (Number (tip bc) + 1)) 0 0 in
  let b := NewBlock bh [] in
  Ret (set_Hash b (BlockHeader_Hash bh), db).

(** [AddAccounts] *)
Definition AddAccounts (ac : list Address) (as_ : list AccountState) (bc : BlockChain) :
    outcome BlockChain :=
  '(b, db) ← accounts_block ac as_ bc;
  s ← Storage_AddBlock (bc_Storage bc) b;
  Ret (set_tip (set_state bc db (bc_G2EBook bc)) b s).

(** [FetchAccounts]. *)
Definition FetchAccounts (bc : BlockChain) (addrs : list Address) :
    outcome (list AccountState) :=
  st ← or_panic "trie.New" (trie_New (BytesToHash (StateRoot (tip bc))) (triedb bc));
  foldM (λ res addr, a ← load_account st addr 0; Ret (res ++ [a])) [] addrs.

End Chain.
