(* ===== verification/Ledger.v ===== *)
(** * The ledger a block's execution implements

    [GetUpdateStatusTrie] of src/chain/blockchain.go works on encoded accounts in
    a Merkle trie.  This file states what it promises in terms of balances: a
    ledger maps every address to its balance ([Init_Balance] when it was never
    written), a transaction debits, credits, is refused, or becomes a bet of the
    Game2Earn book, and the bets whose target is the block being built are paid at
    its end.  The execution on tries is shown to refine it, panics included, and
    the ledger to conserve funds up to what leaves and enters the shard and what
    the settlement keeps. *)

From S2P Require Import Prelude Params Utils Interfaces Core Instances.
From S2P Require Import TxPool Storage G2E BlockChain.

(** Two results related by [R], panicking for the same reason. *)
Definition outcome_rel {A B} (R : A → B → Prop) (m : outcome A) (n : outcome B) : Prop :=
  match m, n with
  | Ret a, Ret b => R a b
  | Panic w, Panic w' => w = w'
  | _, _ => False
  end.

(** ** The specification *)
Definition ledger : Type := Address → Z.

Definition credit (l : ledger) (a : Address) (v : Z) : ledger :=
  λ b, if decide (b = a) then l b + v else l b.

(** Balances, number of modifications and bets. *)
Record lstate := mkL { l_bal : ledger; l_cnt : Z; l_book : G2EBook }.

Section Spec.
Context {PR : Params} {BS : BitSetOps} {G : GobOps} {BO : BoltOps} {T : TrieOps}.

(** The bet's target is inside the closing window. *)
Definition bet_closed (bc : BlockChain) (tx : Transaction) : bool :=
  Height tx <? u64 (Number (tip bc) + u64 G2E_Beta).

Definition ledger_credit (bc : BlockChain) (s : lstate) (tx : Transaction) :
    outcome lstate :=
  inR ← handles bc (Recipient tx) tx;
  Ret (if inR : bool
       then mkL (credit (l_bal s) (Recipient tx) (Value tx)) (l_cnt s + 1) (l_book s)
       else s).

Definition ledger_tx (bc : BlockChain) (s : lstate) (tx : Transaction) : outcome lstate :=
  inS ← (if Relayed tx then Ret false else handles bc (Sender tx) tx);
  if inS : bool then
    if l_bal s (Sender tx) <? Value tx then Ret s
    else
      let debited := credit (l_bal s) (Sender tx) (- Value tx) in
      if G2EEnabled tx then
        Ret (if bet_closed bc tx then s
             else mkL debited (l_cnt s + 1)
                    (appendBet (Height tx) (PairI tx, PairJ tx) (Sender tx) (Value tx)
                       (l_book s)))
      else ledger_credit bc (mkL debited (l_cnt s + 1) (l_book s)) tx
  else ledger_credit bc s tx.

Definition pay (l : ledger) (w : Address * Z) : ledger := credit l w.1 w.2.

Definition next_height (bc : BlockChain) : Z := u64 (Number (tip bc) + 1).

Definition ledger_settle (bc : BlockChain) (s : lstate) : outcome lstate :=
  match getEpoch (next_height bc) (l_book s) with
  | None => Ret s
  | Some eb =>
      star ← chooseWinningPair (next_height bc) eb;
      Ret (mkL (foldl pay (l_bal s) (gains star eb)) (l_cnt s + zlen (gains star eb))
             (cleanup (next_height bc) (l_book s)))
  end.

(** A block: its transactions in order; the settlement only takes place when some
    transaction had an effect. *)
Definition ledger_block (bc : BlockChain) (l : ledger) (txs : list Transaction) :
    outcome lstate :=
  s ← foldM (ledger_tx bc) (mkL l 0 (bc_G2EBook bc)) txs;
  if l_cnt s =? 0 then Ret s else ledger_settle bc s.

(** ** The balances of a trie *)
Definition bal (st : Trie) : ledger := λ a,
  match trie_Get st a with
  | None => Init_Balance
  | Some enc => default 0 (as_Balance <$> ungob_AS enc)
  end.

(** Every value of the trie is an encoded account. *)
Definition trie_ok (st : Trie) : Prop :=
  ∀ a enc, trie_Get st a = Some enc → is_Some (ungob_AS enc).

(** The state of the chain's tip can be opened and holds accounts. *)
Definition opens (bc : BlockChain) (root : bytes) (st : Trie) : Prop :=
  trie_New (BytesToHash root) (triedb bc) = Some st ∧ trie_ok st.

Context {GL : GobLaws G} {TL : TrieLaws T}.

Definition sim (bc : BlockChain) (e : exec_state) (s : lstate) : Prop :=
  backed (ex_st e) (BytesToHash (StateRoot (tip bc))) (triedb bc) ∧ trie_ok (ex_st e) ∧
  (∀ a, bal (ex_st e) a = l_bal s a) ∧
  ex_cnt e = l_cnt s ∧ ex_book e = l_book s.

(** ** Reading and writing accounts *)
Lemma load_account_ok st a n :
  trie_ok st → ∃ s, load_account st a n = Ret s ∧ as_Balance s = bal st a.
Proof.
  intros Hok. unfold load_account, bal. destruct (trie_Get st a) as [enc|] eqn:E; [|by eexists].
  destruct (Hok _ _ E) as [s Hs]. exists s. unfold DecodeAS. by rewrite Hs.
Qed.

Lemma get_store st a s k :
  trie_Get (store_account st a s) k =
  if decide (a = k) then Some (gob_AS s) else trie_Get st k.
Proof. apply trie_Get_Update, gob_AS_nonempty. Qed.

Lemma store_ok st a s : trie_ok st → trie_ok (store_account st a s).
Proof.
  intros Hok k enc. rewrite get_store. case_decide; [|apply Hok].
  intros [= <-]. rewrite ungob_gob_AS. eauto.
Qed.

Lemma backed_store st r db a s : backed st r db → backed (store_account st a s) r db.
Proof. apply backed_Update, gob_AS_nonempty. Qed.

Lemma bal_store st a s k :
  bal (store_account st a s) k = if decide (k = a) then as_Balance s else bal st k.
Proof.
  unfold bal at 1. rewrite get_store.
  destruct (decide (a = k)) as [->|Hne]; [rewrite decide_True by done|by rewrite decide_False].
  by rewrite ungob_gob_AS.
Qed.

(** Depositing into a loaded account is crediting the ledger. *)
Lemma sim_deposit bc e s a acc v n bk :
  sim bc e s → as_Balance acc = l_bal s a →
  sim bc (mkExec (store_account (ex_st e) a (Deposit acc v)) n bk)
         (mkL (credit (l_bal s) a v) n bk).
Proof.
  intros (Hb & Hok & Hbal & _ & _) Ha. split_and!; cbn; [by apply backed_store|by apply store_ok| |done..].
  intros k. rewrite bal_store. unfold credit. case_decide; subst; [|by apply Hbal].
  cbn. by rewrite Ha.
Qed.

(** ** Simulation *)
Lemma sim_refl bc st :
  backed st (BytesToHash (StateRoot (tip bc))) (triedb bc) → trie_ok st →
  ∀ n bk, sim bc (mkExec st n bk) (mkL (bal st) n bk).
Proof. by repeat split. Qed.

Lemma credit_recipient_sim bc i e s tx :
  sim bc e s → outcome_rel (sim bc) (credit_recipient bc i e tx) (ledger_credit bc s tx).
Proof.
  intros Hs. unfold credit_recipient, ledger_credit.
  destruct (handles bc (Recipient tx) tx) as [[]|w]; cbn; [|done..].
  destruct (load_account_ok (ex_st e) (Recipient tx) (u64 i)) as (acc & -> & Ha); [apply Hs|].
  cbn. pose proof Hs as (_ & _ & Hbal & <- & <-).
  apply sim_deposit; [done|by rewrite Ha, Hbal].
Qed.

(** One transaction of the trie execution is one of the ledger. *)
Lemma exec_tx_sim bc e i s tx :
  sim bc e s → outcome_rel (sim bc) (exec_tx bc e i tx) (ledger_tx bc s tx).
Proof.
  intros Hs. unfold exec_tx, ledger_tx. pose proof Hs as (Hbk & Hok & Hbal & Hcnt & Hbook).
  destruct (if Relayed tx then _ else _) as [[]|w]; cbn;
    [|by apply credit_recipient_sim|done].
  destruct (load_account_ok (ex_st e) (Sender tx) (u64 i)) as (acc & -> & Ha); [done|]. cbn.
  rewrite <-Hbal, <-Ha. destruct (Z.ltb_spec (as_Balance acc) (Value tx)) as [|Hle]; [done|].
  rewrite Deduct_spec, decide_True by done. cbn [fst].
  assert (sim bc (mkExec (store_account (ex_st e) (Sender tx) (Deposit acc (- Value tx)))
                    (ex_cnt e + 1) (ex_book e))
            (mkL (credit (l_bal s) (Sender tx) (- Value tx)) (l_cnt s + 1) (l_book s))) as Hs1.
  { rewrite <-Hcnt, <-Hbook. apply sim_deposit; [done|by rewrite Ha, Hbal]. }
  destruct (G2EEnabled tx); [|by apply credit_recipient_sim].
  fold (bet_closed bc tx). destruct (bet_closed bc tx); cbn.
  - split_and!; cbn; [by apply backed_store, backed_store|by apply store_ok, store_ok
      | |lia|done].
    intros k. rewrite !bal_store. repeat case_decide; subst; [|done..].
    rewrite <-Hbal, <-Ha. cbn. lia.
  - destruct Hs1 as (? & ? & ? & ? & Hb1). cbn in *. rewrite Hb1. by split_and!.
Qed.

Lemma exec_txs_sim bc txs e i s :
  sim bc e s →
  outcome_rel (sim bc) (foldMi (exec_tx bc) e i txs) (foldM (ledger_tx bc) s txs).
Proof.
  revert e i s. induction txs as [|tx txs IH]; intros e i s Hs; [done|]. cbn.
  pose proof (exec_tx_sim bc e i s tx Hs) as Htx.
  destruct (exec_tx bc e i tx), (ledger_tx bc s tx); cbn in *; [by apply IH|done..].
Qed.

Lemma pay_winners_sim bc ws e s :
  sim bc e s →
  ∃ e', foldM pay_winner e ws = Ret e' ∧
    sim bc e' (mkL (foldl pay (l_bal s) ws) (l_cnt s + zlen ws) (l_book s)).
Proof.
  revert e s. induction ws as [|w ws IH]; intros e s Hs.
  { exists e. split; [done|]. unfold zlen. cbn. rewrite Z.add_0_r. by destruct s. }
  cbn [foldM foldl]. unfold pay_winner at 2.
  destruct (load_account_ok (ex_st e) w.1 0) as (acc & -> & Ha); [apply Hs|]. cbn.
  destruct (IH (mkExec (store_account (ex_st e) w.1 (Deposit acc w.2)) (ex_cnt e + 1) (ex_book e))
    (mkL (credit (l_bal s) w.1 w.2) (l_cnt s + 1) (l_book s))) as (e' & -> & He').
  { pose proof Hs as (_ & _ & Hbal & <- & <-). apply sim_deposit; [done|by rewrite Ha, Hbal]. }
  exists e'. split; [done|]. cbn in He'. rewrite zlen_cons.
  by replace (l_cnt s + (zlen ws + 1)) with (l_cnt s + 1 + zlen ws) by lia.
Qed.

Lemma settle_sim bc e s :
  sim bc e s → outcome_rel (sim bc) (settle bc e) (ledger_settle bc s).
Proof.
  intros Hs. unfold settle, ledger_settle. pose proof Hs as (_ & _ & _ & _ & ->).
  fold (next_height bc). destruct (getEpoch _ _) as [eb|]; [|done].
  destruct (chooseWinningPair _ _) as [star|w]; cbn; [|done].
  destruct (pay_winners_sim bc (gains star eb) e s Hs) as (e' & -> & He'). cbn.
  destruct He' as (? & ? & ? & ? & Hb). rewrite Hb. by split_and!.
Qed.

(** Committing a trie makes its root readable and keeps the old roots. *)
Lemma commit_trie_ok st r db :
  backed st r db →
  ∃ db' st', commit_trie st db = Ret (trie_Hash st, db') ∧ persists db db' ∧
    trie_New (trie_Hash st) db' = Some st' ∧ ∀ k, trie_Get st' k = trie_Get st k.
Proof.
  intros Hb. unfold commit_trie. pose proof (trie_Commit_root st) as Hrt.
  destruct (trie_Commit st) as [rt [ns|]] eqn:E; cbn in Hrt; subst rt.
  - destruct (trie_Commit_dirty st r db ns Hb) as (db1 & db2 & t' & -> & H2 & Hp & Ht' & Hg);
      [by rewrite E|]. cbn. rewrite H2. cbn. eauto 10.
  - destruct (trie_Commit_clean st r db Hb) as (_ & t' & Ht' & Hg); [by rewrite E|].
    exists db, t'. auto with emu.
Qed.

Lemma bal_ext st st' : (∀ k, trie_Get st' k = trie_Get st k) → ∀ a, bal st' a = bal st a.
Proof. intros H a. unfold bal. by rewrite H. Qed.

Lemma trie_ok_ext st st' : (∀ k, trie_Get st' k = trie_Get st k) → trie_ok st → trie_ok st'.
Proof. intros H Hok a enc. rewrite H. apply Hok. Qed.

(** ** The counter

    It counts the effective modifications: when it is zero nothing happened. *)
Definition idle (s0 s : lstate) : Prop :=
  (∀ a, l_bal s a = l_bal s0 a) ∧ l_book s = l_book s0.

Lemma ledger_tx_count bc s tx s' :
  ledger_tx bc s tx = Ret s' → l_cnt s < l_cnt s' ∨ s' = s.
Proof.
  unfold ledger_tx, ledger_credit. intros E.
  repeat (inv_ret; try split_match; cbn in *); first [by right | left; lia].
Qed.

Lemma ledger_txs_count bc txs s s' :
  foldM (ledger_tx bc) s txs = Ret s' → l_cnt s < l_cnt s' ∨ s' = s.
Proof.
  revert s. induction txs as [|tx txs IH]; intros s E; cbn in E; inv_ret; [by right|].
  apply ledger_tx_count in E0. apply IH in E. destruct E0, E; subst; auto with lia.
Qed.

(** ** Blocks *)

(** The block's outcome on the chain implements the ledger state [s]. *)
Definition implements (bc : BlockChain) (r : bytes * BlockChain) (s : lstate) : Prop :=
  r.2 = set_state bc (triedb r.2) (l_book s) ∧ persists (triedb bc) (triedb r.2) ∧
  ∃ st', opens r.2 r.1 st' ∧ ∀ a, bal st' a = l_bal s a.

Lemma implements_unchanged bc st bk s :
  opens bc (StateRoot (tip bc)) st → (∀ a, bal st a = l_bal s a) → l_book s = bk →
  implements bc (BytesToHash (StateRoot (tip bc)), set_state bc (triedb bc) bk) s.
Proof.
  intros [Hst Hok] Hbal <-. unfold implements, opens. cbn. split_and!; [done|auto with emu|].
  exists st. by rewrite BytesToHash_idemp.
Qed.

Lemma implements_commit bc e s :
  sim bc e s →
  outcome_rel (implements bc)
    ('(rt, db) ← commit_trie (ex_st e) (triedb bc); Ret (rt, set_state bc db (ex_book e)))
    (Ret s).
Proof.
  intros (Hb & Hok & Hbal & _ & Hbk).
  destruct (commit_trie_ok (ex_st e) _ (triedb bc) Hb) as (db' & st' & -> & Hp & Hst' & Hg).
  cbn. unfold implements, opens. cbn. rewrite Hbk. split_and!; [done..|].
  exists st'. rewrite BytesToHash_Hash. split_and!; [done|by eapply trie_ok_ext|].
  intros a. by rewrite (bal_ext (ex_st e) st' Hg), Hbal.
Qed.

(** The execution of a block, from the opened trie on. *)
Lemma GetUpdateStatusTrie_sim bc txs st :
  opens bc (StateRoot (tip bc)) st →
  outcome_rel (implements bc) (GetUpdateStatusTrie bc txs) (ledger_block bc (bal st) txs).
Proof.
  intros Hst. unfold GetUpdateStatusTrie, ledger_block. destruct txs as [|tx txs].
  { cbn. pose proof (implements_unchanged bc st (bc_G2EBook bc)
      (mkL (bal st) 0 (bc_G2EBook bc)) Hst) as H. destruct bc. by apply H. }
  pose proof Hst as [Hnew Hok]. rewrite Hnew. cbn [or_panic]. rewrite bind_ret.
  pose proof (exec_txs_sim bc (tx :: txs) _ 0 _
    (sim_refl _ st (backed_New _ _ _ Hnew) Hok 0 (bc_G2EBook bc))) as Hsim.
  destruct (foldMi _ _ _ _) as [e|w], (foldM _ _ (tx :: txs)) as [s|w'] eqn:Ef; cbn in Hsim;
    [|done..]. rewrite !bind_ret.
  pose proof Hsim as (_ & _ & _ & -> & Hbk). destruct (Z.eqb_spec (l_cnt s) 0) as [Hz|_].
  - apply ledger_txs_count in Ef as [Hlt| ->]; [cbn in Hlt; lia|].
    cbn in Hbk. rewrite Hbk. by apply (implements_unchanged bc st).
  - apply (settle_sim bc) in Hsim.
    destruct (settle bc e) as [e'|w], (ledger_settle bc s) as [s'|w']; cbn in Hsim; [|done..].
    rewrite bind_ret. by apply implements_commit.
Qed.

(** ** Totality *)

(** The accounts a transaction may touch have a shard. *)
Definition resolvable (bc : BlockChain) (a : Address) : bool :=
  match Get_PartitionMap bc a with Ret _ => true | Panic _ => false end.
Definition tx_resolvable (bc : BlockChain) (tx : Transaction) : bool :=
  resolvable bc (Sender tx) && resolvable bc (Recipient tx).

(** [handles] as a boolean. *)
Definition in_shard (bc : BlockChain) (a : Address) (tx : Transaction) : bool :=
  match handles bc a tx with Ret b => b | Panic _ => false end.

Lemma handles_in_shard bc a tx :
  resolvable bc a = true → handles bc a tx = Ret (in_shard bc a tx).
Proof.
  unfold resolvable, in_shard, handles. by destruct (Get_PartitionMap bc a).
Qed.

Lemma ledger_credit_eq bc s tx :
  resolvable bc (Recipient tx) = true →
  ledger_credit bc s tx =
  Ret (if in_shard bc (Recipient tx) tx
       then mkL (credit (l_bal s) (Recipient tx) (Value tx)) (l_cnt s + 1) (l_book s) else s).
Proof. intros Hr. unfold ledger_credit. by rewrite handles_in_shard. Qed.

(** Is the sender debited here? *)
Definition debits (bc : BlockChain) (tx : Transaction) : bool :=
  negb (Relayed tx) && in_shard bc (Sender tx) tx.

Lemma ledger_tx_eq bc s tx :
  tx_resolvable bc tx = true →
  ledger_tx bc s tx =
  if debits bc tx then
    if l_bal s (Sender tx) <? Value tx then Ret s
    else if G2EEnabled tx then
      Ret (if bet_closed bc tx then s
           else mkL (credit (l_bal s) (Sender tx) (- Value tx)) (l_cnt s + 1)
                  (appendBet (Height tx) (PairI tx, PairJ tx) (Sender tx) (Value tx)
                     (l_book s)))
    else ledger_credit bc
           (mkL (credit (l_bal s) (Sender tx) (- Value tx)) (l_cnt s + 1) (l_book s)) tx
  else ledger_credit bc s tx.
Proof.
  intros [Hs _]%andb_true_iff. unfold ledger_tx, debits.
  destruct (Relayed tx); cbn [negb andb]; [done|]. by rewrite handles_in_shard.
Qed.

Lemma ledger_tx_ret bc s tx : tx_resolvable bc tx = true → is_ret (ledger_tx bc s tx).
Proof.
  intros Hr. rewrite ledger_tx_eq by done. apply andb_true_iff in Hr as [_ Hr].
  rewrite !ledger_credit_eq by done. repeat split_match; by eexists.
Qed.

Lemma chooseWinningPair_ret h eb : 0 ≤ h < 2 ^ 63 → is_ret (chooseWinningPair h eb).
Proof.
  intros Hh. destruct (decide (SumByPair eb = ∅)) as [He|Hne].
  - unfold chooseWinningPair, choose_from. rewrite He, map_to_list_empty. by eexists.
  - unfold chooseWinningPair, choose_from.
    set (ks := merge_sort _ _). destruct ks as [|k ks'] eqn:E; [by eexists|]. rewrite <-E.
    assert (0 < zlen ks) by (rewrite E, zlen_cons; pose proof (zlen_nonneg ks'); lia).
    rewrite i64_id, Z.rem_mod_nonneg by lia. apply slice_at_ok, Z.mod_pos_bound. done.
Qed.

Lemma ledger_block_ret bc l txs :
  forallb (tx_resolvable bc) txs = true → next_height bc < 2 ^ 63 →
  is_ret (ledger_block bc l txs).
Proof.
  intros Hr Hh. unfold ledger_block.
  destruct (foldM_ret (ledger_tx bc) txs (mkL l 0 (bc_G2EBook bc))) as [s ->].
  { intros s tx Htx. apply ledger_tx_ret. apply (proj1 (forallb_forall _ _) Hr).
    by apply list_elem_of_In. }
  cbn. destruct (l_cnt s =? 0); [by eexists|]. unfold ledger_settle.
  destruct (getEpoch _ _) as [eb|]; [|by eexists].
  destruct (chooseWinningPair_ret (next_height bc) eb) as [star ->].
  { pose proof (u64_range (Number (tip bc) + 1)) as []. done. }
  by eexists.
Qed.

(** ** Conservation *)

(** The funds of a list of accounts. *)
Definition total (A : list Address) (l : ledger) : Z := zsum (l <$> A).

Lemma total_ext A l l' : (∀ a, l a = l' a) → total A l = total A l'.
Proof. intros H. unfold total. f_equal. by apply list_fmap_ext. Qed.

Lemma total_credit A l a v :
  NoDup A → a ∈ A → total A (credit l a v) = total A l + v.
Proof.
  unfold total. intros Hnd. induction Hnd as [|b A Hb Hnd IH]; intros Ha; [by apply not_elem_of_nil in Ha|].
  cbn. unfold credit at 1. destruct (decide (b = a)) as [->|Hne].
  - assert (zsum (credit l a v <$> A) = zsum (l <$> A)) as ->; [|lia].
    f_equal. apply list_fmap_ext. intros k x Hx. unfold credit. rewrite decide_False; [done|].
    intros ->. by apply Hb, list_elem_of_lookup_2 with k.
  - rewrite IH by (by apply elem_of_cons in Ha as [->|]). lia.
Qed.

(** What a transaction brings into the shard: a relayed or broker transaction
    credits without debiting, an outgoing one debits without crediting. *)
Definition tx_inflow (bc : BlockChain) (s : lstate) (tx : Transaction) : Z :=
  if debits bc tx then
    if (l_bal s (Sender tx) <? Value tx) || G2EEnabled tx then 0
    else if in_shard bc (Recipient tx) tx then 0 else - Value tx
  else if in_shard bc (Recipient tx) tx then Value tx else 0.

Fixpoint inflow (bc : BlockChain) (s : lstate) (txs : list Transaction) : Z :=
  match txs with
  | [] => 0
  | tx :: txs' =>
      tx_inflow bc s tx +
      match ledger_tx bc s tx with Ret s' => inflow bc s' txs' | Panic _ => 0 end
  end.

(** All funds: those of the accounts and those staked. *)
Definition funds (A : list Address) (s : lstate) : Z := total A (l_bal s) + held (l_book s).

Lemma ledger_tx_funds A bc s tx s' :
  NoDup A → Sender tx ∈ A → Recipient tx ∈ A → tx_resolvable bc tx = true →
  ledger_tx bc s tx = Ret s' → funds A s' = funds A s + tx_inflow bc s tx.
Proof.
  intros Hnd HS HR Hr. rewrite ledger_tx_eq by done. apply andb_true_iff in Hr as [_ Hr].
  rewrite !ledger_credit_eq by done. unfold tx_inflow, funds.
  intros E. repeat (split_match; cbn [orb] in * ); inv_ret; cbn [l_bal l_book];
    rewrite ?held_appendBet, ?total_credit by done; lia.
Qed.

Lemma ledger_txs_funds A bc txs s s' :
  NoDup A → Forall (λ tx, Sender tx ∈ A ∧ Recipient tx ∈ A) txs →
  forallb (tx_resolvable bc) txs = true → foldM (ledger_tx bc) s txs = Ret s' →
  funds A s' = funds A s + inflow bc s txs.
Proof.
  intros Hnd HA. revert s. induction HA as [|tx txs [HS HR] HA IH]; intros s; cbn [foldM inflow forallb].
  { intros _ [= ->]. lia. }
  intros [Hr Hrs]%andb_true_iff E.
  apply bind_Ret_inv in E as (s1 & E1 & E). rewrite E1.
  rewrite (IH s1), (ledger_tx_funds A bc s tx s1) by done. lia.
Qed.

Lemma total_pay A l ws :
  NoDup A → Forall (λ w, w.1 ∈ A) ws → total A (foldl pay l ws) = total A l + zsum ws.*2.
Proof.
  intros Hnd Hws. revert l. induction Hws as [|w ws Hw Hws IH]; intros l; cbn; [lia|].
  rewrite IH. unfold pay. rewrite total_credit by done. lia.
Qed.

(** What the settlement of an epoch keeps of the stakes it releases. *)
Definition kept (h : Z) (bk : G2EBook) : Z :=
  match getEpoch h bk with
  | None => 0
  | Some eb =>
      match chooseWinningPair h eb with
      | Ret star => epoch_total eb - zsum (gains star eb).*2
      | Panic _ => 0
      end
  end.

(** The players of an epoch. *)
Definition players (eb : g2eEpochBook) : list Address :=
  map_to_list (ByPair eb) ≫= λ x, Player <$> x.2.

Lemma gains_players star eb : (gains star eb).*1 ⊆ players eb.
Proof.
  unfold gains, players. destruct (pools star eb) as [W L].
  destruct (0 <? W); [|set_solver]. destruct (ByPair eb !! star) as [l|] eqn:E; [|set_solver].
  cbn. rewrite <-list_fmap_compose. cbn. intros a. intros (e & -> & He)%list_elem_of_fmap.
  apply list_elem_of_bind. exists (star, l). split; [by apply list_elem_of_fmap_2|].
  by apply elem_of_map_to_list.
Qed.

Lemma ledger_settle_funds A bc s s' :
  NoDup A → ledger_settle bc s = Ret s' →
  (∀ eb, getEpoch (next_height bc) (l_book s) = Some eb → players eb ⊆ A) →
  funds A s' = funds A s - kept (next_height bc) (l_book s).
Proof.
  intros Hnd E HA. unfold ledger_settle in E. unfold kept.
  destruct (getEpoch _ _) as [eb|] eqn:Eb; [|inv_ret; lia].
  apply bind_Ret_inv in E as (star & -> & E). inv_ret. unfold funds. cbn [l_bal l_book].
  rewrite total_pay, held_cleanup, Eb; [cbn; lia|done|].
  apply Forall_forall. intros w Hw. apply (HA eb); [done|]. apply (gains_players star).
  by apply list_elem_of_fmap_2.
Qed.

(** The bets recorded during a block, with the book it starts from. *)
Definition book_after (bc : BlockChain) (l : ledger) (txs : list Transaction) : G2EBook :=
  match foldM (ledger_tx bc) (mkL l 0 (bc_G2EBook bc)) txs with
  | Ret s => l_book s | Panic _ => bc_G2EBook bc
  end.

(** Does the block settle the bets on its height? *)
Definition settles (bc : BlockChain) (l : ledger) (txs : list Transaction) : bool :=
  match foldM (ledger_tx bc) (mkL l 0 (bc_G2EBook bc)) txs with
  | Ret s => negb (l_cnt s =? 0) | Panic _ => false
  end.

Lemma ledger_block_funds A bc l txs s :
  NoDup A → Forall (λ tx, Sender tx ∈ A ∧ Recipient tx ∈ A) txs →
  forallb (tx_resolvable bc) txs = true →
  (∀ eb, getEpoch (next_height bc) (book_after bc l txs) = Some eb → players eb ⊆ A) →
  ledger_block bc l txs = Ret s →
  funds A s = funds A (mkL l 0 (bc_G2EBook bc)) + inflow bc (mkL l 0 (bc_G2EBook bc)) txs
    - (if settles bc l txs then kept (next_height bc) (book_after bc l txs) else 0).
Proof.
  intros Hnd HA Hr HP E. unfold ledger_block, book_after, settles in *.
  destruct (foldM _ _ txs) as [s1|] eqn:Ef; cbn in E; [|done].
  pose proof (ledger_txs_funds A bc txs _ s1 Hnd HA Hr Ef).
  destruct (Z.eqb_spec (l_cnt s1) 0); cbn [negb].
  - inv_ret. lia.
  - rewrite (ledger_settle_funds A bc s1 s) by done. lia.
Qed.

(** ** Non-negative balances *)
Definition book_nonneg (bk : G2EBook) : Prop :=
  ∀ h eb, bk_data bk !! h = Some eb → stakes_nonneg eb.

Definition lstate_ok (s : lstate) : Prop :=
  (∀ a, 0 ≤ l_bal s a) ∧ book_ok (l_book s) ∧ book_nonneg (l_book s).

Lemma book_nonneg_appendBet h pair a v bk :
  0 ≤ v → book_nonneg bk → book_nonneg (appendBet h pair a v bk).
Proof.
  intros Hv Hbk h' eb. unfold appendBet. cbn. rewrite lookup_insert. case_decide; [|by apply Hbk].
  intros [= <-] p l. cbn. unfold map_append. rewrite lookup_insert.
  assert (∀ p l, ByPair (default (mkEpoch ∅ ∅) (bk_data bk !! h)) !! p = Some l →
    Forall (λ e, 0 ≤ Amount e) l) as Hold.
  { intros p' l'. destruct (bk_data bk !! h) eqn:E; cbn; [by apply (Hbk h)|by rewrite lookup_empty]. }
  case_decide as Hp; [|by apply Hold].
  intros [= <-]. apply Forall_app. split; [|by constructor].
  destruct (ByPair _ !! pair) eqn:E; cbn; [by eapply Hold|constructor].
Qed.

Lemma book_nonneg_cleanup h bk : book_nonneg bk → book_nonneg (cleanup h bk).
Proof.
  intros Hbk h' eb. unfold cleanup. cbn. rewrite lookup_delete. case_decide; [done|apply Hbk].
Qed.

Lemma credit_nonneg l a v :
  (∀ b, 0 ≤ l b) → 0 ≤ l a + v → ∀ b, 0 ≤ credit l a v b.
Proof. intros Hl Ha b. unfold credit. case_decide; [by subst|apply Hl]. Qed.

Lemma ledger_tx_nonneg bc s tx s' :
  0 ≤ Value tx → lstate_ok s → ledger_tx bc s tx = Ret s' → lstate_ok s'.
Proof.
  intros Hv (Hb & Hbk & Hbn). unfold ledger_tx, ledger_credit. intros E.
  assert (∀ l a, (∀ b, 0 ≤ l b) → ∀ b, 0 ≤ credit l a (Value tx) b) as Hc.
  { intros l a Hl. apply credit_nonneg; [done|]. specialize (Hl a). lia. }
  assert ((l_bal s (Sender tx) <? Value tx) = false →
    ∀ b, 0 ≤ credit (l_bal s) (Sender tx) (- Value tx) b) as Hd.
  { intros. apply credit_nonneg; [done|lia]. }
  repeat (inv_ret; try split_match; cbn in * ); split_and!; cbn;
    auto using book_nonneg_appendBet with emu.
Qed.

Lemma gains_nonneg star eb :
  epoch_ok eb → stakes_nonneg eb → Forall (λ w, 0 ≤ w.2) (gains star eb).
Proof.
  intros Hok Hnn. unfold gains. destruct (pools star eb) as [W L] eqn:E.
  destruct (Z.ltb_spec 0 W); [|constructor]. rewrite pools_spec in E.
  pose proof (epoch_total_ge eb star Hok Hnn). simplify_eq.
  apply Forall_fmap. destruct (ByPair eb !! star) as [l|] eqn:El; cbn; [|constructor].
  eapply Forall_impl; [by apply (Hnn star)|]. intros e He. cbn. unfold odds.
  set (W := default 0 _) in *. destruct (Z.ltb_spec 0 W); [|lia].
  apply Z.mul_nonneg_nonneg; [done|]. apply Z.div_pos; lia.
Qed.

Lemma pays_nonneg ws l :
  Forall (λ w : Address * Z, 0 ≤ w.2) ws → (∀ a, 0 ≤ l a) → ∀ a, 0 ≤ foldl pay l ws a.
Proof.
  intros Hws. revert l. induction Hws as [|w ws Hw Hws IH]; intros l Hl; [done|].
  cbn. apply IH. apply credit_nonneg; [done|]. specialize (Hl w.1). lia.
Qed.

Lemma ledger_block_nonneg bc l txs s :
  Forall (λ tx, 0 ≤ Value tx) txs → lstate_ok (mkL l 0 (bc_G2EBook bc)) →
  ledger_block bc l txs = Ret s → lstate_ok s.
Proof.
  intros Hv Hl E. unfold ledger_block in E. apply bind_Ret_inv in E as (s1 & E1 & E).
  assert (lstate_ok s1) as Hs1.
  { eapply foldM_inv; [|exact Hl|exact E1]. intros. eapply ledger_tx_nonneg; [|done..].
    by eapply Forall_forall in Hv. }
  destruct (l_cnt s1 =? 0); [by inv_ret|]. unfold ledger_settle in E.
  destruct (getEpoch _ _) as [eb|] eqn:Eb; [|by inv_ret].
  apply bind_Ret_inv in E as (star & _ & E). inv_ret.
  destruct Hs1 as (Hb & Hbk & Hbn). split_and!; cbn;
    [|auto using book_nonneg_cleanup with emu..].
  apply pays_nonneg; [|done]. apply gains_nonneg; [by eapply Hbk|by eapply Hbn].
Qed.

(** ** Properties *)

(** The result of [GetUpdateStatusTrie] on a block whose accounts have a shard. *)
Lemma GetUpdateStatusTrie_returns bc txs st :
  opens bc (StateRoot (tip bc)) st →
  forallb (tx_resolvable bc) txs = true → next_height bc < 2 ^ 63 →
  ∃ rt bc' s, GetUpdateStatusTrie bc txs = Ret (rt, bc') ∧
    ledger_block bc (bal st) txs = Ret s ∧ implements bc (rt, bc') s.
Proof.
  intros Hst Hr Hh. pose proof (GetUpdateStatusTrie_sim bc txs st Hst) as Hsim.
  destruct (ledger_block_ret bc (bal st) txs Hr Hh) as [s Hs]. rewrite Hs in Hsim.
  destruct (GetUpdateStatusTrie bc txs) as [[rt bc']|]; [|done]. eauto 10.
Qed.

(** C1 (refinement) Executing a block on the state trie implements the ledger:
    [GetUpdateStatusTrie] panics exactly when the ledger does and for the same
    reason; otherwise the returned root can be opened in the updated trie database
    and holds exactly the ledger's balances, the bet book is the ledger's, every
    older root stays readable with its content and nothing else of the chain
    changes. *)
Theorem GetUpdateStatusTrie_refines_ledger bc txs st :
  opens bc (StateRoot (tip bc)) st →
  outcome_rel
    (λ '(rt, bc') s,
       bc' = set_state bc (triedb bc') (l_book s) ∧
       persists (triedb bc) (triedb bc') ∧
       ∃ st', opens bc' rt st' ∧ ∀ a, bal st' a = l_bal s a)
    (GetUpdateStatusTrie bc txs) (ledger_block bc (bal st) txs).
Proof.
  intros Hst. pose proof (GetUpdateStatusTrie_sim bc txs st Hst) as H.
  destruct (GetUpdateStatusTrie bc txs) as [[rt bc']|], (ledger_block _ _ _); exact H.
Qed.

(** C6 (safety) Funds are conserved by a block: the balances of all touched
    accounts and the stakes of the book after the block are those before it, plus
    what entered the shard ([inflow]: credits without a local debit minus debits
    without a local credit), minus what the settlement of the block's height keeps.
    The block returns whenever its addresses have a shard and the height is below
    2^63. *)
Theorem block_conserves_funds bc txs st A :
  opens bc (StateRoot (tip bc)) st →
  forallb (tx_resolvable bc) txs = true → next_height bc < 2 ^ 63 →
  NoDup A → Forall (λ tx, Sender tx ∈ A ∧ Recipient tx ∈ A) txs →
  (∀ eb, getEpoch (next_height bc) (book_after bc (bal st) txs) = Some eb → players eb ⊆ A) →
  ∃ rt bc' st', GetUpdateStatusTrie bc txs = Ret (rt, bc') ∧ opens bc' rt st' ∧
    total A (bal st') + held (bc_G2EBook bc') =
      total A (bal st) + held (bc_G2EBook bc)
      + inflow bc (mkL (bal st) 0 (bc_G2EBook bc)) txs
      - (if settles bc (bal st) txs
         then kept (next_height bc) (book_after bc (bal st) txs) else 0).
Proof.
  intros Hst Hr Hh Hnd HA HP.
  destruct (GetUpdateStatusTrie_returns bc txs st Hst Hr Hh) as (rt & bc' & s & E & Es & Hi).
  destruct Hi as (Hbc & _ & st' & Hst' & Hbal). exists rt, bc', st'. split_and!; [done..|].
  pose proof (ledger_block_funds A bc (bal st) txs s Hnd HA Hr HP Es) as Hf.
  unfold funds in Hf. cbn [l_bal l_book] in Hf.
  rewrite (total_ext A (bal st') (l_bal s)) by done. cbn in Hbc. rewrite Hbc. cbn. lia.
Qed.

(** C29 (invariant) Balances never become negative: if the values of the
    transactions are not negative, a block takes a chain with non-negative
    balances and a well-formed book of non-negative stakes to such a chain. *)
Theorem block_keeps_balances_nonneg bc txs st :
  opens bc (StateRoot (tip bc)) st →
  forallb (tx_resolvable bc) txs = true → next_height bc < 2 ^ 63 →
  Forall (λ tx, 0 ≤ Value tx) txs →
  (∀ a, 0 ≤ bal st a) → book_ok (bc_G2EBook bc) → book_nonneg (bc_G2EBook bc) →
  ∃ rt bc' st', GetUpdateStatusTrie bc txs = Ret (rt, bc') ∧ opens bc' rt st' ∧
    (∀ a, 0 ≤ bal st' a) ∧ book_ok (bc_G2EBook bc') ∧ book_nonneg (bc_G2EBook bc').
Proof.
  intros Hst Hr Hh Hv Hb Hbk Hbn.
  destruct (GetUpdateStatusTrie_returns bc txs st Hst Hr Hh) as (rt & bc' & s & E & Es & Hi).
  destruct Hi as (Hbc & _ & st' & Hst' & Hbal). exists rt, bc', st'.
  destruct (ledger_block_nonneg bc (bal st) txs s) as (H1 & H2 & H3); [done..|].
  cbn in Hbc. rewrite Hbc. split_and!; [by rewrite <-Hbc|by rewrite <-Hbc| |done..].
  intros a. rewrite Hbal. apply H1.
Qed.

(** A block none of whose transactions has an effect, an empty
    block for example, leaves the whole chain unchanged, the bets on its height
    included: the settlement is skipped and those bets stay in the book. *)
Theorem idle_block_skips_settlement bc txs st :
  opens bc (StateRoot (tip bc)) st →
  forallb (tx_resolvable bc) txs = true → settles bc (bal st) txs = false →
  GetUpdateStatusTrie bc txs = Ret (BytesToHash (StateRoot (tip bc)), bc).
Proof.
  intros [Hst Hok] Hr Hs. unfold GetUpdateStatusTrie. destruct txs as [|tx txs]; [done|].
  rewrite Hst. cbn [or_panic]. rewrite bind_ret.
  pose proof (exec_txs_sim bc (tx :: txs) _ 0 _
    (sim_refl _ st (backed_New _ _ _ Hst) Hok 0 (bc_G2EBook bc))) as Hsim.
  destruct (foldM_ret (ledger_tx bc) (tx :: txs) (mkL (bal st) 0 (bc_G2EBook bc))) as [s Ef].
  { intros s tx' Htx. apply ledger_tx_ret. apply (proj1 (forallb_forall _ _) Hr).
    by apply list_elem_of_In. }
  unfold settles in Hs. rewrite Ef in Hs, Hsim.
  destruct (foldMi _ _ _ _) as [e|w]; [|done]. rewrite bind_ret.
  destruct Hsim as (_ & _ & _ & -> & Hbk). apply negb_false_iff in Hs. rewrite Hs.
  apply Z.eqb_eq in Hs. apply ledger_txs_count in Ef as [Hlt| ->]; [cbn in Hlt; lia|].
  cbn in Hbk. rewrite Hbk. by destruct bc.
Qed.

(** What the settlement keeps: with a positive winning pool [W]
    and a losers' pool [L], the winners are not given their stakes back and the
    remainder of [L / W] is lost, so [W + L mod W] leaves circulation. *)
Theorem settlement_keeps_winning_stakes h bk eb star W L :
  getEpoch h bk = Some eb → epoch_ok eb → chooseWinningPair h eb = Ret star →
  pools star eb = (W, L) → 0 < W → kept h bk = W + L mod W.
Proof.
  intros Heb Hok Hstar HWL HW. unfold kept. rewrite Heb, Hstar.
  pose proof (gains_total star eb Hok) as Hg. rewrite HWL in Hg. rewrite Hg.
  pose proof (split_pools_sum star (map_to_list (SumByPair eb))) as Hsum.
  fold (pools star eb) in Hsum. rewrite HWL in Hsum. cbn in Hsum.
  fold (epoch_total eb) in Hsum. destruct (Z.ltb_spec 0 W); [|lia].
  rewrite Z.mod_eq by lia. lia.
Qed.

End Spec.

(** ** A sample chain for the witnesses

    Shard 0 of four at block 6 with the empty state and the three bets of
    [sample_book] on block 7. *)
Definition sample_config (shard : Z) : ChainConfig :=
  {| ChainID := shard; cc_NodeID := 0; cc_ShardID := shard; Nodes_perShard := 4;
     ShardNums := 4; BlockSize := 2000; BlockInterval := 5000; cc_InjectSpeed := 2000;
     MaxRelayBlockSize := 10 |}.

Definition sample_storage : Storage :=
  mkStorage "chainDB/S0_N0" "block" "blockHeader" "newestBlockHash"
    (empty_bolt.1, {["block"; "blockHeader"; "newestBlockHash"]}).

Definition sample_chain (bk : G2EBook) (queue : list Transaction) : BlockChain :=
  mkBC (∅ : @EthDB MapTrie) (∅ : @TrieDB MapTrie) (sample_config 0)
    (mkBlock (mkBH "" (map_root ∅) "" (∅ : @BitSet SetBits) 6 0 0) [] "tip")
    sample_storage (mkPool queue (Some ∅)) ∅ bk.

Definition sample_tx (s r : Address) (v : Z) (bet : bool) (h : Z) : Transaction :=
  mkTx s r 0 "" v (s +:+ r) 1 false false false "" "" None bet "" h 1 2.

(** A transfer inside the shard, one that leaves it, a bet that is too late and one
    in time; the last eight digits give the shards 0, 0, 1. *)
Definition sample_txs : list Transaction :=
  [sample_tx "0x00000004" "0x00000008" 5 false 0;
   sample_tx "0x00000004" "0x00000005" 7 false 0;
   sample_tx "0x00000004" "0x00000008" 9 true 7;
   sample_tx "0x00000008" "0x00000004" 11 true 9].

Definition sample_accounts : list Address :=
  ["0x00000004"; "0x00000005"; "0x00000008"; "alice"; "bob"; "carol"].

Lemma sample_opens bk queue :
  opens (sample_chain bk queue) (StateRoot (tip (sample_chain bk queue))) (∅ : gmap string string).
Proof.
  split; [cbn -[map_root]; by rewrite decide_True|].
  intros a enc. cbn. by rewrite lookup_empty.
Qed.

Lemma sample_book_ok : book_ok sample_book.
Proof. unfold sample_book. auto with emu. Qed.

Lemma sample_book_nonneg : book_nonneg sample_book.
Proof.
  unfold sample_book. repeat (apply book_nonneg_appendBet; [lia|]).
  intros h eb. cbn. by rewrite lookup_empty.
Qed.

#[local] Instance sample_params : Params := default_params 2.

Lemma GetUpdateStatusTrie_refines_ledger_witness :
  let bc := sample_chain sample_book [] in
  outcome_rel
    (λ '(rt, bc') s,
       bc' = set_state bc (triedb bc') (l_book s) ∧
       persists (triedb bc) (triedb bc') ∧
       ∃ st', opens bc' rt st' ∧ ∀ a, bal st' a = l_bal s a)
    (GetUpdateStatusTrie bc sample_txs)
    (ledger_block bc (bal (∅ : gmap string string)) sample_txs).
Proof.
  intros bc. apply (GetUpdateStatusTrie_refines_ledger bc). exact (sample_opens _ _).
Defined.

Lemma block_conserves_funds_witness :
  let bc := sample_chain sample_book [] in
  let st := (∅ : gmap string string) in
  let A := sample_accounts in
  ∃ rt bc' st', GetUpdateStatusTrie bc sample_txs = Ret (rt, bc') ∧ opens bc' rt st' ∧
    total A (bal st') + held (bc_G2EBook bc') =
      total A (bal st) + held (bc_G2EBook bc)
      + inflow bc (mkL (bal st) 0 (bc_G2EBook bc)) sample_txs
      - (if settles bc (bal st) sample_txs
         then kept (next_height bc) (book_after bc (bal st) sample_txs) else 0).
Proof.
  intros bc st A. apply block_conserves_funds.
  - exact (sample_opens _ _).
  - vm_compute. reflexivity.
  - vm_compute. reflexivity.
  - apply (bool_decide_unpack _). vm_compute. exact I.
  - apply (bool_decide_unpack _). vm_compute. exact I.
  - intros eb Heb.
    assert (match getEpoch (next_height bc) (book_after bc (bal st) sample_txs) with
            | Some eb => forallb (λ a, bool_decide (a ∈ A)) (players eb)
            | None => true end = true) as H by (vm_compute; reflexivity).
    rewrite Heb in H. intros a Ha. apply list_elem_of_In in Ha.
    apply (proj1 (forallb_forall _ _) H) in Ha. exact (bool_decide_eq_true_1 _ Ha).
Defined.

Lemma block_keeps_balances_nonneg_witness :
  let bc := sample_chain sample_book [] in
  ∃ rt bc' st', GetUpdateStatusTrie bc sample_txs = Ret (rt, bc') ∧ opens bc' rt st' ∧
    (∀ a, 0 ≤ bal st' a) ∧ book_ok (bc_G2EBook bc') ∧ book_nonneg (bc_G2EBook bc').
Proof.
  intros bc. apply (block_keeps_balances_nonneg bc _ (∅ : gmap string string)).
  - exact (sample_opens _ _).
  - vm_compute. reflexivity.
  - vm_compute. reflexivity.
  - apply (bool_decide_unpack _). vm_compute. exact I.
  - intros a. unfold bal. cbn. rewrite lookup_empty. discriminate.
  - exact sample_book_ok.
  - exact sample_book_nonneg.
Defined.

(** The block holds one transfer the sender cannot pay: the three bets on its
    height stay in the book. *)
Lemma idle_block_skips_settlement_witness :
  let bc := sample_chain sample_book [] in
  let txs := [sample_tx "0x00000004" "0x00000008" (Init_Balance + 1) false 0] in
  is_Some (getEpoch (next_height bc) (bc_G2EBook bc)) ∧
  GetUpdateStatusTrie bc txs = Ret (BytesToHash (StateRoot (tip bc)), bc).
Proof.
  intros bc txs. split.
  - change (is_Some (getEpoch 7 sample_book)). rewrite <-not_eq_None_Some.
    intros E. apply (f_equal (from_option (λ _, true) false)) in E. vm_compute in E. discriminate.
  - apply (idle_block_skips_settlement bc txs (∅ : gmap string string)).
    + exact (sample_opens _ _).
    + vm_compute. reflexivity.
    + vm_compute. reflexivity.
Defined.

Lemma sample_getEpoch : getEpoch 7 sample_book = Some sample_epoch.
Proof.
  unfold sample_epoch. destruct (getEpoch 7 sample_book) eqn:E; [done|].
  apply (f_equal (from_option (λ _, true) false)) in E. vm_compute in E. discriminate.
Qed.

Lemma settlement_keeps_winning_stakes_witness :
  pools (3, 4) sample_epoch = (50, 40) ∧ kept 7 sample_book = 50 + 40 mod 50.
Proof.
  assert (pools (3, 4) sample_epoch = (50, 40)) as Hp by (vm_compute; reflexivity).
  split; [exact Hp|].
  apply (settlement_keeps_winning_stakes 7 sample_book sample_epoch (3, 4)).
  - exact sample_getEpoch.
  - exact sample_epoch_ok.
  - vm_compute. reflexivity.
  - exact Hp.
  - reflexivity.
Defined.
