(* ===== verification/ChainProps.v ===== *)
(** * The chain as a whole

    What the operations of src/chain/blockchain.go guarantee together: replicas
    compute the same root, a generated block is accepted by its generator and by
    every replica, stored blocks stay linked back to the genesis block whatever the
    interleaving of operations, a restarted node resumes at its tip, and accounts
    moved between shards are read back. *)

From S2P Require Import Prelude Params Utils Interfaces Core Instances Sha256.
From S2P Require Import TxPool Storage G2E BlockChain Ledger.

Section ChainProps.
Context {PR : Params} {BS : BitSetOps} {G : GobOps} {BO : BoltOps} {T : TrieOps}.
Context {BSL : BitSetLaws BS} {GL : GobLaws G} {BL : BoltLaws BO} {TL : TrieLaws T}.

(** ** Replicas *)
Definition same_content (t1 t2 : Trie) : Prop := ∀ k, trie_Get t1 k = trie_Get t2 k.

#[export] Instance same_content_equiv : Equivalence same_content.
Proof.
  split; [by intros t k|by intros t1 t2 H k|].
  intros t1 t2 t3 H1 H2 k. by rewrite H1.
Qed.

#[export] Instance trie_Hash_proper : Proper (same_content ==> (=)) trie_Hash.
Proof. intros t1 t2 Ht. by apply trie_Hash_ext. Qed.

#[export] Instance load_account_proper :
  Proper (same_content ==> (=) ==> (=) ==> (=)) load_account.
Proof. intros t1 t2 Ht a ? <- n ? <-. unfold load_account. by rewrite (Ht a). Qed.

#[export] Instance store_account_proper :
  Proper (same_content ==> (=) ==> (=) ==> same_content) store_account.
Proof. intros t1 t2 Ht a ? <- s ? <- k. rewrite !get_store. by case_decide. Qed.

(** Two chains with the same newest header, under the same hash. *)
Definition same_tip (bc1 bc2 : BlockChain) : Prop :=
  tip bc1 = tip bc2 ∧ b_Hash (CurrentBlock bc1) = b_Hash (CurrentBlock bc2).

(** Two nodes that hold the same chain: same tip, partition, shard and bets, and
    state tries of the same content, in databases that may differ.  The transactions of
    the two current blocks may differ: the leader marks those it relays. *)
Definition replica (bc1 bc2 : BlockChain) : Prop :=
  same_tip bc1 bc2 ∧ PartitionMap bc1 = PartitionMap bc2 ∧
  ShardID bc1 = ShardID bc2 ∧ bc_G2EBook bc1 = bc_G2EBook bc2 ∧
  ∃ st1 st2, opens bc1 (StateRoot (tip bc1)) st1 ∧ opens bc2 (StateRoot (tip bc2)) st2 ∧
    same_content st1 st2.

(** Loop states with the same content. *)
Definition same_exec (e1 e2 : exec_state) : Prop :=
  same_content (ex_st e1) (ex_st e2) ∧ ex_cnt e1 = ex_cnt e2 ∧ ex_book e1 = ex_book e2.

Lemma handles_replica bc1 bc2 a tx :
  PartitionMap bc1 = PartitionMap bc2 → ShardID bc1 = ShardID bc2 →
  handles bc1 a tx = handles bc2 a tx.
Proof. unfold handles, Get_PartitionMap. by intros -> ->. Qed.

Lemma outcome_rel_bind {A B A' B'} (R : A → B → Prop) (S : A' → B' → Prop) m n f g :
  outcome_rel R m n → (∀ a b, R a b → outcome_rel S (f a) (g b)) →
  outcome_rel S (m ≫= f) (n ≫= g).
Proof. intros Hmn Hfg. destruct m, n; cbn in *; try done. by apply Hfg. Qed.

Lemma credit_recipient_same bc1 bc2 i e1 e2 tx :
  PartitionMap bc1 = PartitionMap bc2 → ShardID bc1 = ShardID bc2 → same_exec e1 e2 →
  outcome_rel same_exec (credit_recipient bc1 i e1 tx) (credit_recipient bc2 i e2 tx).
Proof.
  intros HP HS (Hst & Hcnt & Hbk). unfold credit_recipient.
  rewrite (handles_replica bc1 bc2) by done.
  destruct (handles bc2 (Recipient tx) tx) as [[]|]; cbn; [|done..].
  rewrite (load_account_proper _ _ Hst (Recipient tx) _ eq_refl (u64 i) _ eq_refl).
  destruct (load_account _ _ _); cbn; [|done].
  split_and!; cbn; [by apply store_account_proper|by rewrite Hcnt|done].
Qed.

Lemma exec_tx_same bc1 bc2 i e1 e2 tx :
  PartitionMap bc1 = PartitionMap bc2 → ShardID bc1 = ShardID bc2 → tip bc1 = tip bc2 →
  same_exec e1 e2 → outcome_rel same_exec (exec_tx bc1 e1 i tx) (exec_tx bc2 e2 i tx).
Proof.
  intros HP HS HT He. pose proof He as (Hst & Hcnt & Hbk). unfold exec_tx.
  rewrite (handles_replica bc1 bc2 (Sender tx)) by done.
  destruct (if Relayed tx then _ else _) as [[]|]; cbn;
    [|by apply credit_recipient_same|done].
  rewrite (load_account_proper _ _ Hst (Sender tx) _ eq_refl (u64 i) _ eq_refl).
  destruct (load_account _ _ _) as [s|]; cbn; [|done].
  destruct (_ <? _); [done|]. destruct (G2EEnabled tx).
  - rewrite HT, Hcnt, Hbk. destruct (_ <? _); cbn;
      (split_and!; cbn; [by repeat apply store_account_proper|done..]).
  - apply credit_recipient_same; [done..|].
    split_and!; cbn; [by apply store_account_proper|by rewrite Hcnt|done].
Qed.

Lemma exec_txs_same bc1 bc2 txs i e1 e2 :
  PartitionMap bc1 = PartitionMap bc2 → ShardID bc1 = ShardID bc2 → tip bc1 = tip bc2 →
  same_exec e1 e2 →
  outcome_rel same_exec (foldMi (exec_tx bc1) e1 i txs) (foldMi (exec_tx bc2) e2 i txs).
Proof.
  intros HP HS HT. revert i e1 e2. induction txs as [|tx txs IH]; intros i e1 e2 He; [done|].
  cbn. eapply outcome_rel_bind; [by apply exec_tx_same|]. intros. by apply IH.
Qed.

Lemma pay_winners_same ws e1 e2 :
  same_exec e1 e2 → outcome_rel same_exec (foldM pay_winner e1 ws) (foldM pay_winner e2 ws).
Proof.
  revert e1 e2. induction ws as [|w ws IH]; intros e1 e2 He; [done|]. cbn.
  eapply outcome_rel_bind; [|intros; by apply IH]. destruct He as (Hst & Hcnt & Hbk).
  unfold pay_winner. rewrite (load_account_proper _ _ Hst w.1 _ eq_refl 0 _ eq_refl).
  destruct (load_account _ _ _); cbn; [|done].
  split_and!; cbn; [by apply store_account_proper|by rewrite Hcnt|done].
Qed.

Lemma settle_same bc1 bc2 e1 e2 :
  tip bc1 = tip bc2 → same_exec e1 e2 →
  outcome_rel same_exec (settle bc1 e1) (settle bc2 e2).
Proof.
  intros HT He. pose proof He as (Hst & Hcnt & Hbk). unfold settle. rewrite HT, Hbk.
  destruct (getEpoch _ _) as [eb|]; [|done]. destruct (chooseWinningPair _ _); cbn; [|done].
  eapply outcome_rel_bind; [by apply pay_winners_same|]. intros e1' e2' (? & ? & Hb').
  cbn. rewrite Hb'. by split_and!.
Qed.

(** What two replicas hold after a block. *)
Definition same_result (r1 r2 : bytes * BlockChain) : Prop :=
  r1.1 = r2.1 ∧ bc_G2EBook r1.2 = bc_G2EBook r2.2 ∧
  ∃ st1 st2, opens r1.2 r1.1 st1 ∧ opens r2.2 r2.1 st2 ∧ same_content st1 st2.

Lemma sim_unsim bc e (st : Trie) : 
  opens bc (StateRoot (tip bc)) st → ∀ txs,
  foldMi (exec_tx bc) (mkExec st 0 (bc_G2EBook bc)) 0 txs = Ret e →
  ∃ s, sim bc e s.
Proof.
  intros [Hst Hok] txs E.
  pose proof (exec_txs_sim bc txs _ 0 _
    (sim_refl bc st (backed_New _ _ _ Hst) Hok 0 (bc_G2EBook bc))) as H.
  rewrite E in H. destruct (foldM _ _ _) as [s|]; [by exists s|done].
Qed.

Lemma commit_same bc1 bc2 e1 e2 s1 s2 :
  sim bc1 e1 s1 → sim bc2 e2 s2 → same_exec e1 e2 →
  outcome_rel same_result
    ('(rt, db) ← commit_trie (ex_st e1) (triedb bc1); Ret (rt, set_state bc1 db (ex_book e1)))
    ('(rt, db) ← commit_trie (ex_st e2) (triedb bc2); Ret (rt, set_state bc2 db (ex_book e2))).
Proof.
  intros (Hb1 & Hok1 & _) (Hb2 & Hok2 & _) (Hst & _ & Hbk).
  destruct (commit_trie_ok _ _ _ Hb1) as (db1 & t1 & -> & _ & Ht1 & Hg1).
  destruct (commit_trie_ok _ _ _ Hb2) as (db2 & t2 & -> & _ & Ht2 & Hg2). cbn.
  unfold same_result, opens. cbn. rewrite (trie_Hash_proper _ _ Hst) in *.
  split_and!; [done..|]. exists t1, t2. rewrite BytesToHash_Hash.
  split_and!; [done|by eapply trie_ok_ext|done|by eapply trie_ok_ext|].
  intros k. by rewrite Hg1, Hg2.
Qed.

Lemma settle_sim_ret bc e s e' : sim bc e s → settle bc e = Ret e' → ∃ s', sim bc e' s'.
Proof.
  intros Hs E. apply (settle_sim bc) in Hs. rewrite E in Hs.
  destruct (ledger_settle bc s) as [s'|]; [by exists s'|done].
Qed.

(** Replicas compute the same block results. *)
Lemma GetUpdateStatusTrie_same bc1 bc2 txs :
  replica bc1 bc2 →
  outcome_rel same_result (GetUpdateStatusTrie bc1 txs) (GetUpdateStatusTrie bc2 txs).
Proof.
  intros (HB & HP & HS & HK & st1 & st2 & Ho1 & Ho2 & Hc).
  assert (tip bc1 = tip bc2) as HT by apply HB.
  assert (same_result (BytesToHash (StateRoot (tip bc1)), bc1)
            (BytesToHash (StateRoot (tip bc2)), bc2)) as Hsame.
  { destruct Ho1, Ho2. unfold same_result, opens. cbn. rewrite !BytesToHash_idemp.
    split_and!; [by rewrite HT|done|]. by exists st1, st2. }
  unfold GetUpdateStatusTrie. destruct txs as [|tx txs]; [exact Hsame|].
  rewrite (proj1 Ho1), (proj1 Ho2). cbn [or_panic]. rewrite !bind_ret.
  pose proof (exec_txs_same bc1 bc2 (tx :: txs) 0 (mkExec st1 0 (bc_G2EBook bc1))
    (mkExec st2 0 (bc_G2EBook bc2)) HP HS HT ltac:(by split_and!)) as He.
  destruct (foldMi (exec_tx bc1) _ _ _) as [e1|] eqn:E1,
    (foldMi (exec_tx bc2) _ _ _) as [e2|] eqn:E2; cbn in He; [|done..].
  destruct (sim_unsim bc1 e1 st1 Ho1 _ E1) as [s1 Hs1].
  destruct (sim_unsim bc2 e2 st2 Ho2 _ E2) as [s2 Hs2].
  rewrite !bind_ret. pose proof He as (_ & -> & Hbk). destruct (ex_cnt e2 =? 0).
  - destruct Hsame as (? & _ & st & st' & ?). split_and!; cbn; [done..|]. by exists st, st'.
  - pose proof (settle_same bc1 bc2 e1 e2 HT He) as He'.
    destruct (settle bc1 e1) as [e1'|] eqn:E1', (settle bc2 e2) as [e2'|] eqn:E2';
      cbn in He'; [|done..].
    destruct (settle_sim_ret _ _ _ _ Hs1 E1') as [s1' ?].
    destruct (settle_sim_ret _ _ _ _ Hs2 E2') as [s2' ?].
    rewrite !bind_ret. by eapply commit_same.
Qed.

(** ** Blocks that fit the database *)
Definition block_fits (b : Block) : bool :=
  (Z.of_nat (String.length (Block_Encode b)) <=? 2147483646) &&
  (Z.of_nat (String.length (BlockHeader_Encode (Header b))) <=? 2147483646) &&
  forallb (λ tx, bool_decide (RawTxHash tx ≠ Some "")) (Body b).

(** The hash of the block is the digest of its header. *)
Definition hashed (b : Block) : Prop := b_Hash b = BlockHeader_Hash (Header b).

Lemma hashed_storable b : hashed b → block_fits b = true → storable b.
Proof.
  intros Hh [[H1 H2]%andb_true_iff H3]%andb_true_iff. unfold storable, bolt_key_ok.
  rewrite Hh. unfold BlockHeader_Hash. split_and!.
  - intros E. pose proof (Sha256.sum256_length (BlockHeader_Encode (Header b))) as HL.
    by rewrite E in HL.
  - rewrite Sha256.sum256_length. lia.
  - unfold bolt_value_ok. lia.
  - unfold bolt_value_ok. lia.
  - apply Forall_forall. intros tx Htx%list_elem_of_In.
    apply (proj1 (forallb_forall _ _) H3) in Htx. by apply bool_decide_eq_true in Htx.
Qed.

Lemma GetBloomFilter_ret txs : is_ret (GetBloomFilter txs).
Proof.
  apply foldM_ret. intros bs tx _. destruct (ModBytes_range (TxHash tx) 2048) as (r & -> & _); [lia|].
  by eexists.
Qed.

(** ** Adding a block *)

(** The height and the parent of the block match the tip. *)
Definition extends_tip (bc : BlockChain) (b : Block) : bool :=
  (Number (Header b) =? u64 (Number (tip bc) + 1)) &&
  bool_decide (ParentBlockHash (Header b) = b_Hash (CurrentBlock bc)).

Lemma AddBlock_rejects b bc : extends_tip bc b = false → AddBlock b bc = Ret bc.
Proof.
  unfold extends_tip, AddBlock. destruct (_ =? _); cbn; [|done]. by intros ->.
Qed.

Lemma AddBlock_extends b bc :
  extends_tip bc b = true →
  AddBlock b bc =
    (bc ← match trie_New (BytesToHash (StateRoot (Header b))) (triedb bc) with
          | Some _ => Ret bc
          | None => '(_, bc) ← GetUpdateStatusTrie bc (Body b); Ret bc
          end;
     s ← Storage_AddBlock (bc_Storage bc) b; Ret (set_tip bc b s)).
Proof.
  unfold extends_tip, AddBlock. intros [-> ->]%andb_true_iff. done.
Qed.

(** Storing the block and moving the tip. *)
Lemma store_tip bc b :
  storage_ok (bc_Storage bc) → storable b →
  ∃ s, (s ← Storage_AddBlock (bc_Storage bc) b; Ret (set_tip bc b s)) = Ret (set_tip bc b s) ∧
    storage_ok s ∧ GetNewestBlockHash s = Ret (inl (b_Hash b)) ∧
    ∀ h, GetBlock s h = if decide (b_Hash b = h) then Ret (inl b)
                        else GetBlock (bc_Storage bc) h.
Proof.
  intros Hs Hb. destruct (AddBlock_reads _ b Hs Hb) as (s & -> & ? & ? & ? & _). eauto.
Qed.

(** ** Generating a block *)
Lemma GenerateBlock_eq miner now bc b bc' :
  GenerateBlock miner now bc = Ret (b, bc') →
  GetUpdateStatusTrie (set_Txpool bc (pack_txs bc).2) (Body b) =
    Ret (StateRoot (Header b), bc') ∧
  Body b = (pack_txs bc).1 ∧ hashed b ∧ extends_tip bc b = true ∧ IsValidBlock bc b = None.
Proof.
  unfold GenerateBlock. destruct (pack_txs bc) as [txs pool] eqn:Ep. intros E.
  apply bind_Ret_inv in E as ([rt bc1] & E1 & E).
  apply bind_Ret_inv in E as (bloom & _ & E). inv_ret. cbn.
  unfold hashed, extends_tip, IsValidBlock. cbn. rewrite Z.eqb_refl, !bool_decide_eq_true_2 by done.
  done.
Qed.

Lemma pack_txs_queue bc :
  (pack_txs bc).1 ++ TxQueue (pack_txs bc).2 = TxQueue (Txpool bc).
Proof. unfold pack_txs, PackTxs, PackTxsWithBytes. destruct (_ =? _); apply cut_app. Qed.

Lemma GetUpdateStatusTrie_frame bc txs rt bc' st :
  opens bc (StateRoot (tip bc)) st → GetUpdateStatusTrie bc txs = Ret (rt, bc') →
  bc' = set_state bc (triedb bc') (bc_G2EBook bc') ∧ persists (triedb bc) (triedb bc') ∧
  ∃ st', opens bc' rt st'.
Proof.
  intros Hst E. pose proof (GetUpdateStatusTrie_sim bc txs st Hst) as H. rewrite E in H.
  destruct (ledger_block _ _ _) as [s|]; [|done].
  destruct H as (Hbc & Hp & st' & Ho & _). cbn in *.
  assert (bc_G2EBook bc' = l_book s) as -> by (by rewrite Hbc). eauto.
Qed.

(** Packing transactions does not matter to the execution of a block. *)
Lemma replica_pool bc1 bc2 p : replica bc1 bc2 → replica (set_Txpool bc1 p) bc2.
Proof. done. Qed.


(** The block the generator builds, when its pool holds addresses with a shard. *)
Lemma GenerateBlock_returns miner now bc st :
  opens bc (StateRoot (tip bc)) st →
  forallb (tx_resolvable bc) (pack_txs bc).1 = true → next_height bc < 2 ^ 63 →
  ∃ b bc', GenerateBlock miner now bc = Ret (b, bc').
Proof.
  intros Hst Hr Hh. unfold GenerateBlock. destruct (pack_txs bc) as [txs pool]. cbn in Hr.
  destruct (GetUpdateStatusTrie_returns (set_Txpool bc pool) txs st)
    as (rt & bc' & s & -> & _); [done..|]. cbn.
  destruct (GetBloomFilter_ret txs) as [bloom ->]. cbn. eauto.
Qed.

(** A node that adds a block whose state it can already open. *)
Lemma AddBlock_known b bc st :
  extends_tip bc b = true → storage_ok (bc_Storage bc) → storable b →
  opens bc (StateRoot (Header b)) st →
  ∃ s, AddBlock b bc = Ret (set_tip bc b s) ∧ storage_ok s.
Proof.
  intros He Hs Hb [Hst _]. rewrite AddBlock_extends, Hst by done. rewrite bind_ret.
  destruct (store_tip bc b Hs Hb) as (s & -> & Hs' & _). eauto.
Qed.

(** The root is already in the node's trie database. *)
Definition known_root (bc : BlockChain) (root : bytes) : bool :=
  match trie_New (BytesToHash root) (triedb bc) with Some _ => true | None => false end.

(** A replica of the generator that adds the generated block. *)
Lemma AddBlock_replica miner now L F b L' :
  replica L F → GenerateBlock miner now L = Ret (b, L') →
  storage_ok (bc_Storage F) → storable b →
  ∃ F' s, AddBlock b F = Ret (set_tip F' b s) ∧ storage_ok s ∧
    F' = set_state F (triedb F') (bc_G2EBook F') ∧
    (∃ st1 st2, opens L' (StateRoot (Header b)) st1 ∧ opens F' (StateRoot (Header b)) st2 ∧
       same_content st1 st2) ∧
    bc_G2EBook F' = (if known_root F (StateRoot (Header b)) then bc_G2EBook F
                     else bc_G2EBook L').
Proof.
  intros Hr Eg Hs Hb. apply GenerateBlock_eq in Eg as (Eu & _ & _ & He & _).
  assert (extends_tip F b = true) as HeF.
  { destruct Hr as ([HT HH] & _). unfold extends_tip in *. by rewrite <-HT, <-HH. }
  pose proof (GetUpdateStatusTrie_same _ _ (Body b) (replica_pool _ _ (pack_txs L).2 Hr)) as Hsame.
  rewrite Eu in Hsame.
  destruct (GetUpdateStatusTrie F (Body b)) as [[rt F']|] eqn:EF; [|done].
  pose proof Hr as (_ & _ & _ & _ & _ & stF & _ & HoF & _).
  destruct (GetUpdateStatusTrie_frame F (Body b) rt F' stF HoF EF) as (HF' & Hp & _).
  destruct Hsame as (Hrt & Hbk & st1 & st2 & Ho1 & Ho2 & Hc). cbn in Hrt, Hbk, Ho1, Ho2. subst rt.
  rewrite AddBlock_extends by done. unfold known_root.
  destruct (trie_New _ (triedb F)) as [t|] eqn:Et.
  - rewrite bind_ret. destruct (store_tip F b Hs Hb) as (s & -> & Hs' & _).
    destruct (Hp _ _ Et) as (t' & Et' & Hg). destruct Ho2 as [Et2 Hok2].
    assert (t' = st2) as -> by congruence.
    exists F, s. split_and!; [done..|by destruct F| |done]. exists st1, t. split_and!; [done| |].
    + split; [done|]. eapply trie_ok_ext; [|exact Hok2]. intros k. by rewrite Hg.
    + intros k. by rewrite Hc, Hg.
  - rewrite EF. cbn [mbind outcome_bind].
    assert (bc_Storage F' = bc_Storage F) as HsF by (by rewrite HF').
    destruct (store_tip F' b ltac:(by rewrite HsF) Hb) as (s & -> & Hs' & _).
    exists F', s. eauto 10.
Qed.

(** C5 (safety) A generated block is accepted: in a chain whose pool holds
    addresses with a shard, [GenerateBlock] returns a block made of the oldest
    transactions of the pool, which stays in the pool's order; the block passes
    [IsValidBlock] at every replica and [AddBlock] makes it the tip of the generator
    and of every replica, which can then open its state root with the same content.
    Their bet books agree again, unless the replica already knew the state root: it
    then skips the execution and keeps its old book. *)
Theorem generated_block_accepted miner now L F st :
  replica L F → opens L (StateRoot (tip L)) st →
  forallb (tx_resolvable L) (pack_txs L).1 = true → next_height L < 2 ^ 63 →
  storage_ok (bc_Storage L) → storage_ok (bc_Storage F) →
  match GenerateBlock miner now L with Ret (b, _) => block_fits b | Panic _ => true end = true →
  ∃ b L', GenerateBlock miner now L = Ret (b, L') ∧
    Body b ++ TxQueue (Txpool L') = TxQueue (Txpool L) ∧ IsValidBlock F b = None ∧
    ∃ L'' F' st1 st2, AddBlock b L' = Ret L'' ∧ AddBlock b F = Ret F' ∧
      CurrentBlock L'' = b ∧ CurrentBlock F' = b ∧
      opens L'' (StateRoot (Header b)) st1 ∧ opens F' (StateRoot (Header b)) st2 ∧
      same_content st1 st2 ∧ bc_G2EBook L'' = bc_G2EBook L' ∧
      bc_G2EBook F' = (if known_root F (StateRoot (Header b)) then bc_G2EBook F
                       else bc_G2EBook L').
Proof.
  intros Hr Hst Hres Hh HsL HsF Hfit.
  destruct (GenerateBlock_returns miner now L st Hst Hres Hh) as (b & L' & Eg).
  rewrite Eg in Hfit. pose proof Eg as (Eu & Hbody & Hhash & He & Hv)%GenerateBlock_eq.
  assert (storable b) as Hb by (by apply hashed_storable).
  destruct (GetUpdateStatusTrie_frame (set_Txpool L (pack_txs L).2) _ _ _ st Hst Eu)
    as (HL' & _ & st' & Hst').
  destruct (AddBlock_replica miner now L F b L' Hr Eg HsF Hb)
    as (F' & sF & EF & _ & _ & (st1 & st2 & Ho1 & Ho2 & Hc) & HbkF).
  destruct (AddBlock_known b L' st') as (sL & EL & _); [by rewrite HL'|by rewrite HL'|done..|].
  exists b, L'. split_and!; [done| | |].
  - rewrite HL', Hbody. cbn. apply pack_txs_queue.
  - destruct Hr as ([_ HH] & _). unfold IsValidBlock in *. by rewrite <-HH.
  - exists (set_tip L' b sL), (set_tip F' b sF), st1, st2. by split_and!.
Qed.

(** [AddBlock] does not compare the state root of the block with
    the one it computes: a block with the right height and parent but a state root
    nobody can open becomes the tip, and the node panics on its next transaction. *)
Theorem AddBlock_adopts_wrong_root b bc :
  extends_tip bc b = true → storage_ok (bc_Storage bc) → storable b → Body b = [] →
  known_root bc (StateRoot (Header b)) = false →
  ∃ bc', AddBlock b bc = Ret bc' ∧ CurrentBlock bc' = b ∧
    ∀ tx txs, GetUpdateStatusTrie bc' (tx :: txs) = Panic "trie.New".
Proof.
  intros He Hs Hb Hbody Hk. unfold known_root in Hk. rewrite AddBlock_extends, Hbody by done.
  destruct (trie_New _ _) eqn:Et; [done|]. cbn [GetUpdateStatusTrie mbind outcome_bind].
  destruct (store_tip bc b Hs Hb) as (s & Es & _).
  exists (set_tip bc b s). split_and!; [exact Es|done|]. intros tx txs.
  unfold GetUpdateStatusTrie, tip. cbn. by rewrite Et.
Qed.

(** ** Linked chains *)

(** The block is connected to a genesis block through its stored ancestors. *)
Inductive linked (s : Storage) : Block → Prop :=
| linked_genesis b :
    Number (Header b) = 0 → ParentBlockHash (Header b) = "" → linked s b
| linked_parent b p :
    GetBlock s (ParentBlockHash (Header b)) = Ret (inl p) →
    b_Hash p = ParentBlockHash (Header b) →
    Number (Header b) = u64 (Number (Header p) + 1) →
    linked s p → linked s b.

Definition chain_inv (bc : BlockChain) : Prop :=
  storage_ok (bc_Storage bc) ∧
  GetNewestBlockHash (bc_Storage bc) = Ret (inl (b_Hash (CurrentBlock bc))) ∧
  GetBlock (bc_Storage bc) (b_Hash (CurrentBlock bc)) = Ret (inl (CurrentBlock bc)) ∧
  linked (bc_Storage bc) (CurrentBlock bc).

(** The hash is not in use. *)
Definition fresh_hash (bc : BlockChain) (h : bytes) : Prop :=
  GetBlock (bc_Storage bc) h = Ret (inr "the block is not existed").

(** The operations of a node on its chain, in any order. *)
Inductive chain_step : BlockChain → BlockChain → Prop :=
| step_AddBlock bc b bc' :
    AddBlock b bc = Ret bc' → storable b → fresh_hash bc (b_Hash b) → chain_step bc bc'
| step_AddAccounts bc ac as_ bc' :
    AddAccounts ac as_ bc = Ret bc' → storable (CurrentBlock bc') →
    fresh_hash bc (b_Hash (CurrentBlock bc')) → chain_step bc bc'
| step_GenerateBlock bc miner now b bc' :
    GenerateBlock miner now bc = Ret (b, bc') → chain_step bc bc'
| step_SendTx2Pool bc clock txs : chain_step bc (SendTx2Pool clock txs bc)
| step_Update_PartitionMap bc key val : chain_step bc (Update_PartitionMap key val bc).

Lemma GetUpdateStatusTrie_keeps bc txs rt bc' :
  GetUpdateStatusTrie bc txs = Ret (rt, bc') →
  bc_Storage bc' = bc_Storage bc ∧ CurrentBlock bc' = CurrentBlock bc.
Proof.
  unfold GetUpdateStatusTrie. intros E. destruct txs as [|tx txs]; [by inv_ret|].
  apply bind_Ret_inv in E as (st & _ & E). apply bind_Ret_inv in E as (e & _ & E).
  destruct (_ =? _); [by inv_ret|].
  apply bind_Ret_inv in E as (e' & _ & E). apply bind_Ret_inv in E as ([rt' db] & _ & E).
  by inv_ret.
Qed.

Lemma linked_mono s s' b :
  (∀ h p, GetBlock s h = Ret (inl p) → GetBlock s' h = Ret (inl p)) →
  linked s b → linked s' b.
Proof. intros Hmono. induction 1; [by left|]. eright; eauto. Qed.

(** Moving the tip to a fresh block that extends it keeps the invariant. *)
Lemma store_tip_inv bc b s :
  chain_inv bc → Number (Header b) = u64 (Number (tip bc) + 1) →
  ParentBlockHash (Header b) = b_Hash (CurrentBlock bc) →
  storable b → fresh_hash bc (b_Hash b) → Storage_AddBlock (bc_Storage bc) b = Ret s →
  chain_inv (set_tip bc b s).
Proof.
  intros (Hs & Hn & Hg & Hl) Hnum Hpar Hb Hf E.
  destruct (AddBlock_reads _ b Hs Hb) as (s' & E' & Hs' & Hn' & Hg' & _).
  assert (s' = s) as -> by congruence. split_and!; cbn; [done..| |].
  - by rewrite Hg', decide_True.
  - assert (∀ h p, GetBlock (bc_Storage bc) h = Ret (inl p) → GetBlock s h = Ret (inl p)) as Hm.
    { intros h p Hh. rewrite Hg', decide_False; [done|]. intros <-.
      unfold fresh_hash in Hf. congruence. }
    apply (linked_parent s b (CurrentBlock bc)); [|done..|by eapply linked_mono].
    rewrite Hpar. by apply Hm.
Qed.

Lemma chain_inv_ext bc bc' :
  bc_Storage bc' = bc_Storage bc → CurrentBlock bc' = CurrentBlock bc →
  chain_inv bc → chain_inv bc'.
Proof. unfold chain_inv. by intros -> ->. Qed.

Lemma AddBlock_keeps_inv b bc bc' :
  chain_inv bc → AddBlock b bc = Ret bc' → storable b → fresh_hash bc (b_Hash b) →
  chain_inv bc'.
Proof.
  intros Hi E Hb Hf. destruct (extends_tip bc b) eqn:He;
    [|rewrite AddBlock_rejects in E by done; by inv_ret].
  rewrite AddBlock_extends in E by done. apply bind_Ret_inv in E as (bc1 & E1 & E).
  assert (bc_Storage bc1 = bc_Storage bc ∧ CurrentBlock bc1 = CurrentBlock bc) as [Hs1 Hc1].
  { destruct (trie_New _ _); [by inv_ret|].
    apply bind_Ret_inv in E1 as ([rt bc2] & E1 & E2). inv_ret.
    by eapply GetUpdateStatusTrie_keeps. }
  apply bind_Ret_inv in E as (s & Es & E). inv_ret.
  apply andb_true_iff in He as [Hn%Z.eqb_eq Hp%bool_decide_eq_true].
  apply store_tip_inv; [by eapply chain_inv_ext| | |done| |done].
  - unfold tip in *. by rewrite Hc1.
  - by rewrite Hc1.
  - unfold fresh_hash. by rewrite Hs1.
Qed.

Lemma AddAccounts_eq ac as_ bc bc' :
  AddAccounts ac as_ bc = Ret bc' →
  ∃ rt db bloom s,
    let bh := mkBH (b_Hash (CurrentBlock bc)) rt (GetTxTreeRoot []) bloom
                (u64 (Number (tip bc) + 1)) 0 0 in
    let b := mkBlock bh [] (BlockHeader_Hash bh) in
    Storage_AddBlock (bc_Storage bc) b = Ret s ∧
    bc' = set_tip (set_state bc db (bc_G2EBook bc)) b s.
Proof.
  unfold AddAccounts, accounts_block. intros E.
  apply bind_Ret_inv in E as ([b db'] & Eb & E). apply bind_Ret_inv in E as (s & Es & E).
  apply bind_Ret_inv in Eb as ([rt db] & _ & Eb). apply bind_Ret_inv in Eb as (bloom & _ & Eb).
  inv_ret. by exists rt, db', bloom, s.
Qed.

Lemma chain_step_inv bc bc' : chain_step bc bc' → chain_inv bc → chain_inv bc'.
Proof.
  intros Hstep Hi. destruct Hstep as [bc b bc' E Hb Hf|bc ac as_ bc' E Hb Hf|bc m now b bc' E|bc|bc];
    [by eapply AddBlock_keeps_inv| | |done|done].
  - apply AddAccounts_eq in E as (rt & db & bloom & s & Es & ->).
    by apply (store_tip_inv (set_state bc db (bc_G2EBook bc))).
  - apply GenerateBlock_eq in E as (E & _). apply GetUpdateStatusTrie_keeps in E as [].
    by eapply chain_inv_ext.
Qed.

(** ** The genesis block and restarts *)

(** The genesis block a fresh node creates. *)
Definition genesis (db : EthDB) : Block :=
  let bh := mkBH "" (trie_Hash (trie_NewEmpty (trie_NewDatabase db))) (GetTxTreeRoot [])
              (bs_New 2048) 0 0 0 in
  mkBlock bh [] (BlockHeader_Hash bh).

Lemma NewBlockChain_fresh cc db dbFp bolt :
  bolt_Get "newestBlockHash" "OnlyNewestBlock" bolt = None → block_fits (genesis db) = true →
  ∃ s, NewBlockChain cc db dbFp (Some bolt) =
         Ret (mkBC db (trie_NewDatabase db) cc (genesis db) s NewTxPool ∅ NewG2EBook) ∧
       storage_ok s ∧ GetNewestBlockHash s = Ret (inl (b_Hash (genesis db))) ∧
       GetBlock s (b_Hash (genesis db)) = Ret (inl (genesis db)).
Proof.
  intros Hb Hfit. unfold NewBlockChain.
  destruct (NewStorage_ok dbFp bolt) as (s0 & -> & Hs0 & Hg0). rewrite bind_ret.
  rewrite GetNewestBlockHash_bolt, Hg0, Hb by done. rewrite bind_ret.
  rewrite bool_decide_eq_true_2 by done. unfold NewGenisisBlock. cbn [GetBloomFilter foldM].
  rewrite !bind_ret. fold (genesis db). change (set_Hash _ _) with (genesis db).
  assert (storable (genesis db)) as Hst by (by apply hashed_storable).
  destruct (AddBlock_reads s0 (genesis db) Hs0 Hst) as (s & Es & Hs & Hn & Hg & _).
  unfold AddGenisisBlock. rewrite Es, bind_ret, Hn, bind_ret, Hg, decide_True by done.
  rewrite !bind_ret. exists s. split_and!; [done..|]. by rewrite Hg, decide_True.
Qed.


(** A restarted node resumes at its tip: reopening the block
    database of a chain in a state database that holds the tip's root returns a
    chain with the same tip, still linked; the pool, the partition map and the bet
    book, which are not stored, start empty. *)
Theorem restart_resumes_at_tip cc db dbFp bc :
  chain_inv bc →
  is_Some (trie_New (BytesToHash (StateRoot (tip bc))) (trie_NewDatabase db)) →
  ∃ bc', NewBlockChain cc db dbFp (Some (DataBase (bc_Storage bc))) = Ret bc' ∧
    CurrentBlock bc' = CurrentBlock bc ∧ chain_inv bc' ∧
    Txpool bc' = NewTxPool ∧ PartitionMap bc' = ∅ ∧ bc_G2EBook bc' = NewG2EBook.
Proof.
  intros (Hs & Hn & Hg & Hl) [t Ht]. unfold NewBlockChain.
  destruct (NewStorage_ok dbFp (DataBase (bc_Storage bc))) as (s & -> & Hs' & Hget).
  assert (∀ h, GetBlock s h = GetBlock (bc_Storage bc) h) as HgB.
  { intros h. by rewrite !GetBlock_bolt, Hget. }
  assert (GetNewestBlockHash s = GetNewestBlockHash (bc_Storage bc)) as HgN.
  { by rewrite !GetNewestBlockHash_bolt, Hget. }
  rewrite bind_ret, HgN, Hn, bind_ret, HgB, Hg, bind_ret. unfold tip in Ht. rewrite Ht. cbn.
  eexists. split_and!; [done|done| |done..]. unfold chain_inv. cbn. rewrite HgN, HgB.
  split_and!; [done..|]. eapply linked_mono; [|done]. intros h p. by rewrite HgB.
Qed.

(** ** Transferred accounts *)

(** The state the loop of [AddAccounts] leaves. *)
Lemma add_accounts_get bc as_ ac st i st' :
  NoDup ac → 0 ≤ i → foldMi (add_account bc as_) st i ac = Ret st' →
  ∀ a, trie_Get st' a =
    match list_find (λ x, x = a) ac with
    | Some (j, _) =>
        if decide (Get_PartitionMap bc a = Ret (ShardID bc)) then
          (λ s, gob_AS (new_AccountState (as_Nonce s) (as_Balance s))) <$>
            as_ !! (Z.to_nat i + j)%nat
        else trie_Get st a
    | None => trie_Get st a
    end.
Proof.
  intros Hnd Hi E a. revert st i Hi E.
  induction Hnd as [|x ac Hx Hnd IH]; intros st i Hi E; [by cbn in E; inv_ret|].
  cbn [foldMi] in E. apply bind_Ret_inv in E as (st1 & E1 & E).
  specialize (IH st1 (i + 1) ltac:(lia) E). rewrite IH. clear IH.
  unfold add_account in E1. apply bind_Ret_inv in E1 as (sh & Esh & E1).
  cbn [list_find]. destruct (decide (x = a)) as [->|Hne].
  - assert (list_find (λ x, x = a) ac = None) as ->.
    { apply list_find_None, Forall_forall. intros y Hy ->. done. }
    rewrite Nat.add_0_r. destruct (Z.eqb_spec sh (ShardID bc)) as [Hsh|Hsh].
    + rewrite decide_True by congruence. apply bind_Ret_inv in E1 as (s & Es & E1). inv_ret.
      rewrite get_store, decide_True by done.
      apply slice_at_lookup in Es as [_ ->]. done.
    + inv_ret. rewrite decide_False by congruence. done.
  - assert (trie_Get st1 a = trie_Get st a) as ->.
    { destruct (Z.eqb_spec sh (ShardID bc)); [|by inv_ret].
      apply bind_Ret_inv in E1 as (s & Es & E1). inv_ret. by rewrite get_store, decide_False. }
    destruct (list_find _ ac) as [[j y]|]; cbn; [|done].
    by replace (Z.to_nat (i + 1) + j)%nat with (Z.to_nat i + S j)%nat by lia.
Qed.

Lemma add_accounts_ret bc as_ ac st i :
  0 ≤ i → zlen ac + i ≤ zlen as_ → forallb (resolvable bc) ac = true →
  is_ret (foldMi (add_account bc as_) st i ac).
Proof.
  revert st i. induction ac as [|x ac IH]; intros st i Hi Hlen; [by eexists|].
  cbn [forallb foldMi]. intros [Hx Hac]%andb_true_iff. rewrite zlen_cons in Hlen.
  pose proof (zlen_nonneg ac). unfold add_account at 2. unfold resolvable in Hx.
  destruct (Get_PartitionMap bc x) as [sh|]; [|done]. rewrite bind_ret.
  destruct (sh =? ShardID bc); [|rewrite bind_ret; apply IH; [lia|lia|done]].
  destruct (slice_at_ok as_ i) as [s ->]; [lia|]. rewrite !bind_ret. apply IH; [lia|lia|done].
Qed.

Lemma add_accounts_backed bc as_ ac st i st' r db :
  backed st r db → foldMi (add_account bc as_) st i ac = Ret st' → backed st' r db.
Proof.
  revert st i. induction ac as [|x ac IH]; intros st i Hb E; cbn in E; [by inv_ret|].
  apply bind_Ret_inv in E as (st1 & E1 & E). eapply IH; [|exact E].
  unfold add_account in E1. apply bind_Ret_inv in E1 as (sh & _ & E1).
  destruct (sh =? _); [|by inv_ret]. apply bind_Ret_inv in E1 as (s & _ & E1). inv_ret.
  by apply backed_store.
Qed.

(** The state of the block [AddAccounts] appends. *)
Lemma accounts_block_state ac as_ bc st :
  trie_New (BytesToHash (StateRoot (tip bc))) (triedb bc) = Some st →
  zlen ac = zlen as_ → forallb (resolvable bc) ac = true →
  ∃ b db st1 st', accounts_block ac as_ bc = Ret (b, db) ∧ hashed b ∧
    Number (Header b) = u64 (Number (tip bc) + 1) ∧
    foldMi (add_account bc as_) st 0 ac = Ret st1 ∧
    trie_New (BytesToHash (StateRoot (Header b))) db = Some st' ∧ same_content st' st1.
Proof.
  intros Hst Hlen Hres. unfold accounts_block.
  destruct (add_accounts_ret bc as_ ac st 0) as [st1 E1]; [lia|lia|done|].
  assert (∃ rt db st',
    match ac with
    | [] => Ret (StateRoot (tip bc), triedb bc)
    | _ :: _ =>
        st ← or_panic "trie.New" (trie_New (BytesToHash (StateRoot (tip bc))) (triedb bc));
        st ← foldMi (add_account bc as_) st 0 ac;
        match (trie_Commit st).2 with
        | None => Ret (StateRoot (tip bc), triedb bc)
        | Some _ => commit_trie st (triedb bc)
        end
    end = Ret (rt, db) ∧ trie_New (BytesToHash rt) db = Some st' ∧ same_content st' st1)
    as (rt & db & st' & -> & Hst' & Hc).
  { destruct ac as [|x ac]; [cbn in E1; inv_ret; by eexists _, _, _|].
    rewrite Hst. cbn [or_panic]. rewrite bind_ret, E1, bind_ret.
    pose proof (add_accounts_backed _ _ _ _ _ _ _ _ (backed_New _ _ _ Hst) E1) as Hb.
    destruct (commit_trie_ok st1 _ _ Hb) as (db & st' & Ec & _ & Hst' & Hc).
    destruct ((trie_Commit st1).2) eqn:En.
    - exists (trie_Hash st1), db, st'. by rewrite BytesToHash_Hash.
    - destruct (trie_Commit_clean st1 _ _ Hb En) as (Hh & t' & Ht' & Hg).
      rewrite BytesToHash_idemp in Hh. rewrite Hh in Ht'. by eexists _, _, t'. }
  rewrite bind_ret. cbn [GetBloomFilter foldM]. rewrite bind_ret.
  by eexists _, db, st1, st'.
Qed.

Lemma AddAccounts_reads ac as_ bc st :
  opens bc (StateRoot (tip bc)) st → storage_ok (bc_Storage bc) →
  NoDup ac → zlen ac = zlen as_ → forallb (resolvable bc) ac = true →
  match accounts_block ac as_ bc with Ret (b, _) => block_fits b | Panic _ => true end = true →
  ∃ bc', AddAccounts ac as_ bc = Ret bc' ∧
    Number (tip bc') = u64 (Number (tip bc) + 1) ∧
    (∀ i a s, ac !! i = Some a → as_ !! i = Some s →
       Get_PartitionMap bc a = Ret (ShardID bc) →
       FetchAccounts bc' [a] = Ret [new_AccountState (as_Nonce s) (as_Balance s)]) ∧
    (∀ a, a ∉ ac ∨ Get_PartitionMap bc a ≠ Ret (ShardID bc) →
       FetchAccounts bc' [a] = FetchAccounts bc [a]).
Proof.
  intros [Hst Hok] Hs Hnd Hlen Hres Hfit.
  destruct (accounts_block_state ac as_ bc st Hst Hlen Hres)
    as (b & db & st1 & st' & Eb & Hh & Hn & E1 & Hst' & Hc).
  unfold AddAccounts. rewrite Eb in *. rewrite bind_ret.
  destruct (AddBlock_reads _ b Hs (hashed_storable b Hh Hfit)) as (s & -> & _).
  eexists. split; [done|]. split; [exact Hn|].
  pose proof (add_accounts_get bc as_ ac st 0 st1 Hnd ltac:(lia) E1) as Hget.
  assert (∀ a, FetchAccounts (set_tip (set_state bc db (bc_G2EBook bc)) b s) [a] =
               (x ← load_account st1 a 0; Ret [x])) as Hf.
  { intros a. unfold FetchAccounts, tip. cbn. rewrite Hst'. cbn.
    rewrite (load_account_proper _ _ Hc a _ eq_refl 0 _ eq_refl).
    by destruct (load_account st1 a 0). }
  split.
  - intros i a x Ha Hx Hpm. rewrite Hf. unfold load_account. rewrite Hget.
    assert (list_find (λ x, x = a) ac = Some (i, a)) as ->.
    { apply list_find_Some. split_and!; [done..|]. intros j y Hj Hji ->.
      pose proof (NoDup_lookup ac _ _ _ Hnd Ha Hj). lia. }
    rewrite decide_True by done. change (Z.to_nat 0 + i)%nat with i. rewrite Hx. cbn.
    unfold DecodeAS. by rewrite ungob_gob_AS.
  - intros a Ha. rewrite Hf. unfold FetchAccounts. rewrite Hst. cbn.
    assert (trie_Get st1 a = trie_Get st a) as Hga.
    { rewrite Hget. destruct (list_find _ ac) as [[j y]|] eqn:Ef; [|done].
      apply list_find_Some in Ef as (Hj & -> & _). apply list_elem_of_lookup_2 in Hj.
      rewrite decide_False; [done|]. by destruct Ha. }
    unfold load_account. rewrite Hga. by destruct (trie_Get st a) as [enc|]; [destruct (DecodeAS enc)|].
Qed.

(** C30 (roundtrip) Transferred accounts are read back: after [AddAccounts] of
    distinct accounts, [FetchAccounts] returns for every account that the partition
    assigns to this shard the transferred nonce and balance (its other fields are
    dropped), and for every other address what it returned before; the accounts are
    in a new tip one block higher. *)
Theorem AddAccounts_FetchAccounts ac as_ bc st :
  opens bc (StateRoot (tip bc)) st → storage_ok (bc_Storage bc) →
  NoDup ac → zlen ac = zlen as_ → forallb (resolvable bc) ac = true →
  match accounts_block ac as_ bc with Ret (b, _) => block_fits b | Panic _ => true end = true →
  ∃ bc', AddAccounts ac as_ bc = Ret bc' ∧
    Number (tip bc') = u64 (Number (tip bc) + 1) ∧
    (∀ i a s, ac !! i = Some a → as_ !! i = Some s →
       Get_PartitionMap bc a = Ret (ShardID bc) →
       FetchAccounts bc' [a] = Ret [new_AccountState (as_Nonce s) (as_Balance s)]) ∧
    (∀ a, a ∉ ac ∨ Get_PartitionMap bc a ≠ Ret (ShardID bc) →
       FetchAccounts bc' [a] = FetchAccounts bc [a]).
Proof. apply AddAccounts_reads. Qed.

End ChainProps.

(** ** Witnesses *)
#[local] Instance chain_params : Params := default_params 2.

Lemma sample_replica bk q1 q2 : replica (sample_chain bk q1) (sample_chain bk q2).
Proof.
  split_and!; [by split|done..|]. exists (∅ : gmap string string), (∅ : gmap string string).
  split_and!; [exact (sample_opens _ _)..|done].
Qed.

Lemma sample_storage_ok : storage_ok sample_storage.
Proof. split_and!; vm_compute; reflexivity. Qed.


Lemma generated_block_accepted_witness :
  let L := sample_chain sample_book sample_txs in
  let F := sample_chain sample_book [] in
  ∃ b L', GenerateBlock 0 1 L = Ret (b, L') ∧
    Body b ++ TxQueue (Txpool L') = TxQueue (Txpool L) ∧ IsValidBlock F b = None ∧
    ∃ L'' F' st1 st2, AddBlock b L' = Ret L'' ∧ AddBlock b F = Ret F' ∧
      CurrentBlock L'' = b ∧ CurrentBlock F' = b ∧
      opens L'' (StateRoot (Header b)) st1 ∧ opens F' (StateRoot (Header b)) st2 ∧
      same_content st1 st2 ∧ bc_G2EBook L'' = bc_G2EBook L' ∧
      bc_G2EBook F' = (if known_root F (StateRoot (Header b)) then bc_G2EBook F
                       else bc_G2EBook L').
Proof.
  intros L F. apply (generated_block_accepted 0 1 L F (∅ : gmap string string)).
  - exact (sample_replica _ _ _).
  - exact (sample_opens _ _).
  - vm_compute. reflexivity.
  - vm_compute. reflexivity.
  - exact sample_storage_ok.
  - exact sample_storage_ok.
  - vm_compute. reflexivity.
Defined.

Lemma AddBlock_adopts_wrong_root_witness :
  let bc := sample_chain sample_book [] in
  let b := mkBlock (mkBH "tip" "no such root" "" (∅ : @BitSet SetBits) 7 0 0) [] "hash" in
  ∃ bc', AddBlock b bc = Ret bc' ∧ CurrentBlock bc' = b ∧
    ∀ tx txs, GetUpdateStatusTrie bc' (tx :: txs) = Panic "trie.New".
Proof.
  intros bc b. apply (AddBlock_adopts_wrong_root b bc).
  - vm_compute. reflexivity.
  - exact sample_storage_ok.
  - split; [split; [discriminate|vm_compute; discriminate]|].
    split; [vm_compute; discriminate|]. split; [vm_compute; discriminate|].
    apply Forall_nil, I.
  - reflexivity.
  - vm_compute. reflexivity.
Defined.


(** A chain at its genesis block. *)
Lemma sample_chain_inv :
  ∃ bc : @BlockChain SetBits MapBolt MapTrie,
    chain_inv bc ∧ StateRoot (tip bc) = map_root ∅.
Proof.
  destruct (NewBlockChain_fresh (sample_config 0) (∅ : @EthDB MapTrie) "chainDB/S0_N0" empty_bolt)
    as (s & _ & Hs & Hn & Hg); [vm_compute; reflexivity..|].
  exists (mkBC (∅ : @EthDB MapTrie) (∅ : @TrieDB MapTrie) (sample_config 0) (genesis ∅) s
    NewTxPool ∅ NewG2EBook). split; [|done]. split_and!; [done..|by left].
Qed.

Lemma restart_resumes_at_tip_witness :
  ∃ bc : @BlockChain SetBits MapBolt MapTrie, chain_inv bc ∧
  ∃ bc', NewBlockChain (sample_config 0) (∅ : @EthDB MapTrie) "chainDB/S0_N0"
           (Some (DataBase (bc_Storage bc))) = Ret bc' ∧
    CurrentBlock bc' = CurrentBlock bc ∧ chain_inv bc' ∧
    Txpool bc' = NewTxPool ∧ PartitionMap bc' = ∅ ∧ bc_G2EBook bc' = NewG2EBook.
Proof.
  destruct sample_chain_inv as (bc & Hi & Hr). exists bc. split; [exact Hi|].
  apply restart_resumes_at_tip; [exact Hi|]. rewrite Hr. exists (∅ : gmap string string).
  cbn -[map_root]. by rewrite decide_True.
Defined.

Lemma AddAccounts_FetchAccounts_witness :
  let bc := sample_chain sample_book [] in
  let ac := ["0x00000004"; "0x00000005"] in
  let as_ := [mkAS "0x00000004" 3 40 "root" "code"; mkAS "0x00000005" 1 2 "" ""] in
  ∃ bc', AddAccounts ac as_ bc = Ret bc' ∧
    Number (tip bc') = u64 (Number (tip bc) + 1) ∧
    (∀ i a s, ac !! i = Some a → as_ !! i = Some s →
       Get_PartitionMap bc a = Ret (ShardID bc) →
       FetchAccounts bc' [a] = Ret [new_AccountState (as_Nonce s) (as_Balance s)]) ∧
    (∀ a, a ∉ ac ∨ Get_PartitionMap bc a ≠ Ret (ShardID bc) →
       FetchAccounts bc' [a] = FetchAccounts bc [a]).
Proof.
  intros bc ac as_. apply (AddAccounts_FetchAccounts ac as_ bc (∅ : gmap string string)).
  - exact (sample_opens _ _).
  - exact sample_storage_ok.
  - apply (bool_decide_unpack _). vm_compute. exact I.
  - reflexivity.
  - vm_compute. reflexivity.
  - vm_compute. reflexivity.
Defined.
