(* ===== verification/MerkleProof.v ===== *)
(** * Merkle proofs of transactions

    Models src/chain/merkleproof.go: the generation of a proof that a transaction is
    in a block (or in some block of the chain), the generation of several proofs at
    once, and their verification.  A Go result [(bool, error)] is a pair with an
    optional message.  The search through the chain recurses on the height. *)

From S2P Require Import Prelude Params Utils Interfaces Core Instances.
From S2P Require Import TxPool Storage G2E BlockChain Ledger ChainProps.

Record TxProofResult := mkProof {
  Found : bool;
  BlockHash : bytes;
  pf_TxHash : bytes;
  pf_TxRoot : bytes;
  BlockHeight : Z;
  KeyList : list bytes;
  ValueList : list bytes;
  Error : string
}.

(** [TxProofResult{Found: false, TxHash: h, Error: err}] *)
Definition not_found (h : bytes) (err : string) : TxProofResult :=
  mkProof false "" h "" 0 [] [] err.

Section Proofs.
Context {PR : Params} {BS : BitSetOps} {G : GobOps} {BO : BoltOps} {T : TrieOps}.

(** The proof of [txHash] in the transaction trie [t] of [block]. *)
Definition prove_in (t : Trie) (txHash : bytes) (block : Block) : TxProofResult :=
  match trie_Prove t txHash with
  | Some kvs =>
      mkProof true (b_Hash block) txHash (TxRoot (Header block)) (Number (Header block))
        kvs.*1 kvs.*2 ""
  | None => not_found txHash "cannot find this tx"
  end.

Definition mismatch (block : Block) : string :=
  "tx root mismatch in height " +:+ pretty (Number (Header block)).
Definition no_such_tx (block : Block) : string :=
  "this tx cannot be found in this block (height=" +:+ pretty (Number (Header block)) +:+ ")".

Definition TxProofGenerateOnTheBlock (txHash : bytes) (block : Block) :
    outcome TxProofResult :=
  bitMapIdxofTx ← ModBytes txHash 2048;
  if negb (bs_Test (Bloom (Header block)) bitMapIdxofTx) then
    Ret (not_found txHash "cannot find this tx")
  else
    let '(txExist, transactionTree) :=
      foldl (λ acc tx, (acc.1 || bool_decide (txHash = TxHash tx),
                        trie_Update acc.2 (TxHash tx) zero_byte))
        (false, trie_NewEmpty (trie_NewDatabase memory_db)) (Body block) in
    if negb txExist then Ret (not_found txHash (no_such_tx block))
    else if negb (bool_decide (trie_Hash transactionTree = TxRoot (Header block))) then
      Ret (not_found txHash (mismatch block))
    else Ret (prove_in transactionTree txHash block).

(** The loop of [TxProofGenerate] at height [nowheight]. *)
Fixpoint proof_loop (bc : BlockChain) (txHash nowblockHash : bytes) (nowheight : nat) :
    outcome TxProofResult :=
  match nowheight with
  | O => Ret (not_found txHash "cannot find this tx")
  | S nowheight' =>
      blk ← GetBlock (bc_Storage bc) nowblockHash;
      match blk with
      | inr err1 => Ret (not_found txHash err1)
      | inl block =>
          ret ← TxProofGenerateOnTheBlock txHash block;
          if Found ret then Ret ret
          else proof_loop bc txHash (ParentBlockHash (Header block)) nowheight'
      end
  end.

Definition TxProofGenerate (bc : BlockChain) (txHash : bytes) : outcome TxProofResult :=
  proof_loop bc txHash (b_Hash (CurrentBlock bc)) (Z.to_nat (Number (tip bc))).

(** The entry of [txProofs] for one hash. *)
Definition batch_entry (t : Trie) (block : Block) (txHash : bytes) : outcome TxProofResult :=
  bitMapIdxofTx ← ModBytes txHash 2048;
  if negb (bs_Test (Bloom (Header block)) bitMapIdxofTx) then
    Ret (not_found txHash "cannot find this tx")
  else Ret (prove_in t txHash block).

Definition TxProofBatchGenerateOnBlock (txHashes : list bytes) (block : Block) :
    outcome (list TxProofResult) :=
  let transactionTree := tx_trie (Body block) in
  if negb (bool_decide (trie_Hash transactionTree = TxRoot (Header block))) then
    Ret ((λ h, not_found h (mismatch block)) <$> txHashes)
  else
    foldM (λ res h, r ← batch_entry transactionTree block h; Ret (res ++ [r])) [] txHashes.

(** The loop that refills the proof database. *)
Fixpoint refill (keys values : list bytes) : outcome (list (bytes * bytes)) :=
  match keys with
  | [] => Ret []
  | k :: keys' =>
      match values with
      | [] => Panic "index out of range"
      | v :: values' => kvs ← refill keys' values'; Ret ((k, v) :: kvs)
      end
  end.

Definition TxProofVerify (txHash : bytes) (proof : TxProofResult) :
    outcome (bool * option string) :=
  if negb (Found proof) then Ret (false, Some "the result shows not found")
  else
    kvs ← refill (KeyList proof) (ValueList proof);
    match trie_VerifyProof (BytesToHash (pf_TxRoot proof)) (pf_TxHash proof) kvs with
    | Some (Some _) => Ret (true, None)
    | _ => Ret (false, Some "wrong proof")
    end.

(** ** Lemmas *)
Context {BSL : BitSetLaws BS} {GL : GobLaws G} {BL : BoltLaws BO} {TL : TrieLaws T}.

(** The header describes the body, as in every generated block. *)
Definition consistent (b : Block) : Prop :=
  GetBloomFilter (Body b) = Ret (Bloom (Header b)) ∧ TxRoot (Header b) = GetTxTreeRoot (Body b).

Lemma refill_pairs kvs : refill kvs.*1 kvs.*2 = Ret kvs.
Proof. induction kvs as [|[k v] kvs IH]; [done|]. cbn. by rewrite IH. Qed.

Lemma exist_trie_fold h l ex t :
  foldl (λ acc tx, (acc.1 || bool_decide (h = TxHash tx), trie_Update acc.2 (TxHash tx) zero_byte))
    (ex, t) l =
  (ex || bool_decide (h ∈ TxHash <$> l), foldl (λ t tx, trie_Update t (TxHash tx) zero_byte) t l).
Proof.
  revert ex t. induction l as [|tx l IH]; intros ex t; cbn [foldl fst snd].
  - rewrite bool_decide_eq_false_2; [by rewrite orb_false_r|]. by apply not_elem_of_nil.
  - rewrite IH. f_equal. rewrite <-orb_assoc. f_equal. apply eq_true_iff_eq.
    rewrite orb_true_iff, !bool_decide_eq_true. cbn. by rewrite elem_of_cons.
Qed.

Lemma tx_trie_get l k :
  trie_Get (tx_trie l) k = if decide (k ∈ TxHash <$> l) then Some zero_byte else None.
Proof.
  unfold tx_trie. induction l as [|tx l IH] using rev_ind.
  { cbn. rewrite trie_Get_NewEmpty, decide_False; [done|]. by apply not_elem_of_nil. }
  rewrite foldl_snoc, trie_Get_Update, IH by done. rewrite fmap_app. cbn.
  destruct (decide (TxHash tx = k)) as [->|Hne].
  - rewrite decide_True by set_solver. done.
  - destruct (decide (k ∈ TxHash <$> l)).
    + rewrite decide_True by set_solver. done.
    + rewrite decide_False by set_solver. done.
Qed.

(** Every bit of the filter that belongs to a transaction is set. *)
Lemma bloom_sets l bs bs' :
  foldM (λ bs tx, i ← ModBytes (TxHash tx) 2048; Ret (bs_Set bs i)) bs l = Ret bs' →
  (∀ i, bs_Test bs i = true → bs_Test bs' i = true) ∧
  ∀ tx i, tx ∈ l → ModBytes (TxHash tx) 2048 = Ret i → bs_Test bs' i = true.
Proof.
  revert bs. induction l as [|tx l IH]; intros bs E; cbn in E.
  { inv_ret. split; [done|]. intros tx i Htx. by apply not_elem_of_nil in Htx. }
  apply bind_Ret_inv in E as (bs1 & E1 & E). apply bind_Ret_inv in E1 as (i & Ei & E1). inv_ret.
  destruct (IH _ E) as [Hmono Hset]. split.
  - intros j Hj. apply Hmono. rewrite bs_Test_Set, Hj. apply orb_true_r.
  - intros tx' j [->|Hin]%elem_of_cons Ej; [|by eapply Hset].
    assert (i = j) as -> by congruence. apply Hmono. rewrite bs_Test_Set.
    by rewrite bool_decide_eq_true_2.
Qed.

Lemma ModBytes_2048 h : ∃ i, ModBytes h 2048 = Ret i.
Proof. destruct (ModBytes_range h 2048) as (i & ? & _); [lia|eauto]. Qed.

(** The bloom filter has no false negatives. *)
Lemma bloom_complete b h i :
  consistent b → h ∈ TxHash <$> Body b → ModBytes h 2048 = Ret i →
  bs_Test (Bloom (Header b)) i = true.
Proof.
  intros [Hb _] (tx & -> & Hin)%list_elem_of_fmap Hi.
  destruct (bloom_sets _ _ _ Hb) as [_ Hs]. by eapply Hs.
Qed.

(** Proofs in the transaction trie of a consistent block. *)
Lemma prove_in_verifies b h h' :
  consistent b →
  Found (prove_in (tx_trie (Body b)) h b) = true ∧
  TxProofVerify h' (prove_in (tx_trie (Body b)) h b) =
    Ret (if decide (h ∈ TxHash <$> Body b) then (true, None) else (false, Some "wrong proof")).
Proof.
  intros [_ Hr]. unfold prove_in, TxProofVerify. pose proof (tx_trie_get (Body b) h) as Hg.
  destruct (decide (h ∈ TxHash <$> Body b)) as [Hin|Hout].
  - destruct (trie_Prove_present _ _ _ Hg) as (pf & -> & Hv). cbn. split; [done|].
    rewrite refill_pairs. cbn. rewrite Hr. unfold GetTxTreeRoot.
    by rewrite BytesToHash_Hash, Hv.
  - destruct (trie_Prove_absent _ _ Hg) as (pf & -> & Hv). cbn. split; [done|].
    rewrite refill_pairs. cbn. rewrite Hr. unfold GetTxTreeRoot. rewrite BytesToHash_Hash.
    destruct (trie_VerifyProof _ _ _) as [[v|]|]; [by destruct (Hv v)|done..].
Qed.

Lemma generate_on_block b h :
  consistent b →
  ∃ r, TxProofGenerateOnTheBlock h b = Ret r ∧
    r = (if decide (h ∈ TxHash <$> Body b) then prove_in (tx_trie (Body b)) h b
         else not_found h (Error r)).
Proof.
  intros Hc. unfold TxProofGenerateOnTheBlock. destruct (ModBytes_2048 h) as [i Hi].
  rewrite Hi, bind_ret, exist_trie_fold. cbn [orb].
  destruct (decide (h ∈ TxHash <$> Body b)) as [Hin|Hout].
  - rewrite (bloom_complete b h i) by done. cbn [negb].
    rewrite bool_decide_eq_true_2 by done. cbn [negb].
    fold (tx_trie (Body b)). fold (GetTxTreeRoot (Body b)).
    rewrite <-(proj2 Hc), bool_decide_eq_true_2 by done. cbn. eauto.
  - destruct (bs_Test _ i); cbn [negb]; [|by eexists].
    rewrite bool_decide_eq_false_2 by done. by eexists.
Qed.

(** The [n] blocks from the hash [h] back through their parents. *)
Inductive stored_path (s : Storage) : nat → bytes → list Block → Prop :=
| path_nil h : stored_path s 0 h []
| path_cons n h b bs :
    GetBlock s h = Ret (inl b) → stored_path s n (ParentBlockHash (Header b)) bs →
    stored_path s (S n) h (b :: bs).

(** The newest block of the path with the transaction. *)
Definition block_of (h : bytes) (bs : list Block) : option Block :=
  snd <$> list_find (λ b, h ∈ TxHash <$> Body b) bs.

(** C32 (roundtrip) On a block whose header describes its body, the proof generator
    finds exactly the transactions of the block: for a hash of the body it returns a
    found proof for this block, which [TxProofVerify] accepts; for any other hash it
    returns a result that is not found and that [TxProofVerify] refuses.  Neither
    panics. *)
Theorem TxProof_roundtrip b h :
  consistent b →
  ∃ r, TxProofGenerateOnTheBlock h b = Ret r ∧ pf_TxHash r = h ∧
    (Found r = true ↔ h ∈ TxHash <$> Body b) ∧
    (Found r = true → BlockHash r = b_Hash b ∧ BlockHeight r = Number (Header b) ∧
                      pf_TxRoot r = TxRoot (Header b)) ∧
    TxProofVerify h r =
      Ret (if Found r then (true, None) else (false, Some "the result shows not found")).
Proof.
  intros Hc. destruct (generate_on_block b h Hc) as (r & -> & Hr). exists r. split; [done|].
  destruct (prove_in_verifies b h h Hc) as [Hf Hv].
  destruct (decide (h ∈ TxHash <$> Body b)) as [Hin|Hout].
  - rewrite Hr, Hf, Hv. unfold prove_in in *. destruct (trie_Prove _ _); [by split_and!|done].
  - rewrite Hr. by split_and!.
Qed.

(** The search through the chain returns the proof of the newest
    block that holds the transaction, if some block above the genesis block does,
    and is not found otherwise. *)
Theorem TxProofGenerate_newest bc h bs :
  stored_path (bc_Storage bc) (Z.to_nat (Number (tip bc))) (b_Hash (CurrentBlock bc)) bs →
  Forall consistent bs →
  TxProofGenerate bc h =
    match block_of h bs with
    | Some b => TxProofGenerateOnTheBlock h b
    | None => Ret (not_found h "cannot find this tx")
    end.
Proof.
  unfold TxProofGenerate. generalize (b_Hash (CurrentBlock bc)) as bh.
  generalize (Z.to_nat (Number (tip bc))) as n. intros n bh Hp Hc. unfold block_of.
  induction Hp as [bh|n bh b bs Hb Hp IH]; [done|].
  apply Forall_cons in Hc as [Hcb Hcs]. cbn [proof_loop list_find]. rewrite Hb, bind_ret.
  destruct (generate_on_block b h Hcb) as (r & Er & Hr). rewrite Er, bind_ret.
  destruct (decide (h ∈ TxHash <$> Body b)) as [Hin|Hout].
  - rewrite Hr at 1. rewrite (proj1 (prove_in_verifies b h h Hcb)). by rewrite <-Er.
  - rewrite Hr. cbn. rewrite IH by done. by destruct (list_find _ bs) as [[]|].
Qed.

(** The batch generator gives one result per hash: the hashes of the
    block get the proof of the single generator; a hash outside the block is not
    found when the bloom filter excludes it, and otherwise, a false positive of the
    filter, gets a result marked found whose proof [TxProofVerify] refuses. *)
Theorem TxProofBatch_correct b hs :
  consistent b →
  ∃ rs, TxProofBatchGenerateOnBlock hs b = Ret rs ∧
    Forall2 (λ h r,
      if decide (h ∈ TxHash <$> Body b) then
        TxProofGenerateOnTheBlock h b = Ret r ∧ TxProofVerify h r = Ret (true, None)
      else
        ∃ i, ModBytes h 2048 = Ret i ∧ Found r = bs_Test (Bloom (Header b)) i ∧
             ∃ err, TxProofVerify h r = Ret (false, Some err)) hs rs.
Proof.
  intros Hc. unfold TxProofBatchGenerateOnBlock. fold (GetTxTreeRoot (Body b)).
  rewrite <-(proj2 Hc), bool_decide_eq_true_2 by done. cbn [negb].
  destruct (foldM_collect (batch_entry (tx_trie (Body b)) b) (λ h r,
      if decide (h ∈ TxHash <$> Body b) then
        TxProofGenerateOnTheBlock h b = Ret r ∧ TxProofVerify h r = Ret (true, None)
      else
        ∃ i, ModBytes h 2048 = Ret i ∧ Found r = bs_Test (Bloom (Header b)) i ∧
             ∃ err, TxProofVerify h r = Ret (false, Some err)) hs []) as (rs & -> & Hrs);
    [|by exists rs].
  intros h _. unfold batch_entry. destruct (ModBytes_2048 h) as [i Hi]. rewrite Hi, bind_ret.
  destruct (prove_in_verifies b h h Hc) as [Hf Hv].
  destruct (generate_on_block b h Hc) as (r & Er & Hr).
  destruct (decide (h ∈ TxHash <$> Body b)) as [Hin|Hout].
  - rewrite (bloom_complete b h i) by done. cbn [negb].
    eexists. split; [done|]. by rewrite Er, Hr, Hv.
  - destruct (bs_Test _ i) eqn:Et; cbn [negb]; eexists; (split; [done|]); exists i;
      (split_and!; [done|by rewrite Et|]); [by rewrite Hv; eexists|by eexists].
Qed.

(** The batch for hashes that are all in the block. *)
Lemma batch_all b hs :
  consistent b → (∀ h, h ∈ hs → h ∈ TxHash <$> Body b) →
  ∃ rs, TxProofBatchGenerateOnBlock hs b = Ret rs ∧
        Forall2 (λ h r, TxProofVerify h r = Ret (true, None)) hs rs.
Proof.
  intros Hc Hin. unfold TxProofBatchGenerateOnBlock. fold (GetTxTreeRoot (Body b)).
  rewrite <-(proj2 Hc), bool_decide_eq_true_2 by done. cbn [negb].
  destruct (foldM_collect (batch_entry (tx_trie (Body b)) b)
    (λ h r, TxProofVerify h r = Ret (true, None)) hs []) as (rs & -> & Hrs); [|by exists rs].
  intros h Hh. unfold batch_entry. destruct (ModBytes_2048 h) as [i Hi]. rewrite Hi, bind_ret.
  rewrite (bloom_complete b h i) by auto. cbn [negb]. eexists. split; [done|].
  rewrite (proj2 (prove_in_verifies b h h Hc)). by rewrite decide_True by auto.
Qed.

(** [TxProofVerify] does not look at the hash it is given: a proof of one
    transaction of a block is accepted as a proof of any other hash. *)
Theorem TxProofVerify_accepts_any_hash b h h' :
  consistent b → h ∈ TxHash <$> Body b →
  ∃ r, TxProofGenerateOnTheBlock h b = Ret r ∧ TxProofVerify h' r = Ret (true, None).
Proof.
  intros Hc Hin. destruct (generate_on_block b h Hc) as (r & Er & Hr). exists r. split; [done|].
  rewrite decide_True in Hr by done. rewrite Hr.
  rewrite (proj2 (prove_in_verifies b h h' Hc)). by rewrite decide_True.
Qed.

End Proofs.

(** ** Witnesses *)
#[local] Instance proof_params : Params := default_params 2.

(** A block of two transactions with their filter and root. *)
Definition proof_txs : list Transaction :=
  [sample_tx "0x00000004" "0x00000008" 5 false 0; sample_tx "0x00000004" "0x00000005" 7 false 0].

Definition proof_block : Block :=
  mkBlock (mkBH "" "" (GetTxTreeRoot proof_txs)
    (match GetBloomFilter proof_txs with Ret b => b | Panic _ => (∅ : @BitSet SetBits) end)
    1 0 0) proof_txs "block1".

Lemma proof_block_consistent : consistent proof_block.
Proof.
  split; [|done]. change (Body proof_block) with proof_txs. cbn [proof_block Header Bloom].
  destruct (GetBloomFilter proof_txs) as [bs|w] eqn:E; [done|].
  destruct (GetBloomFilter_ret proof_txs) as [bs Hbs]. congruence.
Qed.

Lemma TxProof_roundtrip_witness :
  let b := proof_block in
  let h := "0x000000040x00000008" in
  ∃ r, TxProofGenerateOnTheBlock h b = Ret r ∧ pf_TxHash r = h ∧
    (Found r = true ↔ h ∈ TxHash <$> Body b) ∧
    (Found r = true → BlockHash r = b_Hash b ∧ BlockHeight r = Number (Header b) ∧
                      pf_TxRoot r = TxRoot (Header b)) ∧
    TxProofVerify h r =
      Ret (if Found r then (true, None) else (false, Some "the result shows not found")).
Proof. intros b h. apply (TxProof_roundtrip b h). exact proof_block_consistent. Defined.

Lemma TxProofBatch_correct_witness :
  let b := proof_block in
  let hs := ["0x000000040x00000008"; "unknown"] in
  ∃ rs, TxProofBatchGenerateOnBlock hs b = Ret rs ∧
    Forall2 (λ h r,
      if decide (h ∈ TxHash <$> Body b) then
        TxProofGenerateOnTheBlock h b = Ret r ∧ TxProofVerify h r = Ret (true, None)
      else
        ∃ i, ModBytes h 2048 = Ret i ∧ Found r = bs_Test (Bloom (Header b)) i ∧
             ∃ err, TxProofVerify h r = Ret (false, Some err)) hs rs.
Proof. intros b hs. apply (TxProofBatch_correct b hs). exact proof_block_consistent. Defined.

Lemma TxProofVerify_accepts_any_hash_witness :
  ∃ r, TxProofGenerateOnTheBlock "0x000000040x00000008" proof_block = Ret r ∧
       TxProofVerify "another hash" r = Ret (true, None).
Proof.
  apply TxProofVerify_accepts_any_hash; [exact proof_block_consistent|].
  apply (bool_decide_unpack _). vm_compute. exact I.
Defined.

(** A chain of one block on top of the genesis block. *)
Lemma TxProofGenerate_newest_witness :
  ∃ bc : @BlockChain SetBits MapBolt MapTrie,
    stored_path (bc_Storage bc) (Z.to_nat (Number (tip bc))) (b_Hash (CurrentBlock bc))
      [proof_block] ∧
    TxProofGenerate bc "0x000000040x00000008" =
      match block_of "0x000000040x00000008" [proof_block] with
      | Some b => TxProofGenerateOnTheBlock "0x000000040x00000008" b
      | None => Ret (not_found "0x000000040x00000008" "cannot find this tx")
      end.
Proof.
  destruct (AddBlock_reads sample_storage proof_block sample_storage_ok)
    as (s & _ & _ & _ & Hg & _).
  { split; [split; [discriminate|vm_compute; discriminate]|].
    split; [vm_compute; discriminate|]. split; [vm_compute; discriminate|].
    apply (bool_decide_unpack _). vm_compute. exact I. }
  exists (set_tip (sample_chain sample_book []) proof_block s).
  match goal with |- ?H ∧ _ => assert H as Hp end.
  { apply path_cons; [|apply path_nil]. cbn [bc_Storage set_tip CurrentBlock].
    rewrite Hg. rewrite decide_True by reflexivity. reflexivity. }
  split; [exact Hp|]. apply TxProofGenerate_newest; [exact Hp|].
  apply Forall_cons. split; [exact proof_block_consistent|apply Forall_nil, I].
Defined.
