(* ===== verification/Messages.v ===== *)
(** * Package [message]: the messages between nodes

    Models src/message: the message types, the messages, and the framing of a
    message by a 30-byte prefix that holds its type.  JSON is the class [Json].
    A pointer to a [shard.Node] (src/shard/nodes.go) that may be nil is an option. *)

From S2P Require Import Prelude Params Utils Interfaces Core Instances.
From S2P Require Import TxPool Storage G2E BlockChain MerkleProof Networks.
From Stdlib Require Import Ascii.

(** [encoding/json] on one type. *)
Class Json (A : Type) := {
  marshal : A → bytes;
  unmarshal : bytes → option A
}.

(** A value is read back from its encoding, also when white space follows: a receiver
    hands on a line with its end. *)
Class JsonLaws {A : Type} (J : Json A) := {
  unmarshal_marshal (a : A) : unmarshal (marshal a) = Some a;
  unmarshal_line (a : A) : unmarshal (wire (marshal a)) = Some a
}.

(** [shard.Node] *)
Record Node := mkNode { node_NodeID : Z; node_ShardID : Z; IPaddr : string }.

(** ** Types *)
Abbreviation MessageType := string (only parsing).
Abbreviation RequestType := string (only parsing).

Definition CPrePrepare : MessageType := "preprepare".
Definition CPrepare : MessageType := "prepare".
Definition CCommit : MessageType := "commit".
Definition CRequestOldrequest : MessageType := "requestOldrequest".
Definition CSendOldrequest : MessageType := "sendOldrequest".
Definition CStop : MessageType := "stop".
Definition CRelay : MessageType := "relay".
Definition CRelayWithProof : MessageType := "CRelay&Proof".
Definition CInject : MessageType := "inject".
Definition CBlockInfo : MessageType := "BlockInfo".
Definition CSeqIDinfo : MessageType := "SequenceID".
Definition BlockRequest : RequestType := "Block".

Definition AccountState_and_TX : MessageType := "AccountState&txs".
Definition PartitionReq : RequestType := "PartitionReq".
Definition CPartitionMsg : MessageType := "PartitionModifiedMap".
Definition CPartitionReady : MessageType := "ready for partition".

Definition BrokerRawTx : MessageType := "brokerRawTx".
Definition BrokerConfirm1 : MessageType := "brokerConfirm1".
Definition BrokerConfirm2 : MessageType := "brokerConfirm2".
Definition BrokerType1 : MessageType := "brokerType1".
Definition BrokerType2 : MessageType := "brokerType2".
Definition CInjectBroker : MessageType := "InjectTx_Broker".
Definition CBrokerTxMap : MessageType := "BrokerTxMap".
Definition CAccountTransferMsg_broker : MessageType := "BrokerAS_transfer".
Definition CInner2CrossTx : MessageType := "innerShardTx_be_crossShard".

Definition ViewChangePropose : MessageType := "ViewChangePropose".
Definition NewChange : MessageType := "NewChange".

(** Every message type the package declares. *)
Definition message_types : list MessageType :=
  [CPrePrepare; CPrepare; CCommit; CRequestOldrequest; CSendOldrequest; CStop;
   CRelay; CRelayWithProof; CInject; CBlockInfo; CSeqIDinfo;
   AccountState_and_TX; CPartitionMsg; CPartitionReady;
   BrokerRawTx; BrokerConfirm1; BrokerConfirm2; BrokerType1; BrokerType2;
   CInjectBroker; CBrokerTxMap; CAccountTransferMsg_broker; CInner2CrossTx;
   ViewChangePropose; NewChange].

(** ** Consensus messages *)
Record Request := mkRequest {
  RequestType_ : RequestType;
  Msg_Content : bytes;
  ReqTime : Time
}.

Record PrePrepare := mkPP { RequestMsg : Request; pp_Digest : bytes; pp_SeqID : Z }.
Record Prepare := mkPrepare { pr_Digest : bytes; pr_SeqID : Z; pr_SenderNode : option Node }.
Record Commit := mkCommit { cm_Digest : bytes; cm_SeqID : Z; cm_SenderNode : option Node }.
Record Reply := mkReply { MessageID : Z; rp_SenderNode : option Node; Result : bool }.

Record RequestOldMessage := mkROM {
  ro_SeqStartHeight : Z;
  ro_SeqEndHeight : Z;
  ServerNode : option Node;
  ro_SenderNode : option Node
}.

Record SendOldMessage := mkSOM {
  so_SeqStartHeight : Z;
  so_SeqEndHeight : Z;
  OldRequest : list Request;
  so_SenderNode : option Node
}.

Record InjectTxs := mkInject { it_Txs : list Transaction; ToShardID : Z }.

Record BlockInfoMsg := mkBIM {
  BlockBodyLength : Z;
  InnerShardTxs : list Transaction;
  Epoch : Z;
  ProposeTime : Time;
  CommitTime : Time;
  bi_SenderShardID : Z;
  Relay1Txs : list Transaction;
  Relay2Txs : list Transaction;
  Broker1Txs : list Transaction;
  Broker2Txs : list Transaction
}.

Record SeqIDinfo := mkSeqID { si_SenderShardID : Z; si_SenderSeq : Z }.

(** ** Relay messages *)
Record Relay := mkRelay { rl_Txs : list Transaction; rl_SenderShardID : Z; rl_SenderSeq : Z }.
Record RelayWithProof := mkRWP {
  rw_Txs : list Transaction;
  TxProofs : list TxProofResult;
  rw_SenderShardID : Z;
  rw_SenderSeq : Z
}.

(** ** View change messages *)
Record ViewChangeMsg := mkVC { vc_CurView : Z; vc_NextView : Z; vc_SeqID : Z; vc_FromNode : Z }.
Record NewViewMsg := mkNV { nv_CurView : Z; nv_NextView : Z; NewSeqID : Z; nv_FromNode : Z }.

(** ** Repartition messages *)
Record PartitionModifiedMap := mkPM { PartitionModified : gmap Address Z }.
Record AccountTransferMsg := mkATM {
  ModifiedMap : gmap Address Z;
  at_Addrs : list Address;
  at_AccountState : list AccountState;
  ATid : Z
}.
Record PartitionReady := mkPReady { FromShard : Z; NowSeqID : Z }.
Record AccountStateAndTx := mkAST {
  ast_Addrs : list Address;
  ast_AccountState : list AccountState;
  ast_Txs : list Transaction;
  ast_FromShard : Z
}.

(** [AccountTransferMsg.Encode] and [DecodeAccountTransferMsg], over [encoding/gob]. *)
Definition AccountTransferMsg_Encode (gob : AccountTransferMsg → bytes) (m : AccountTransferMsg) :
    bytes := gob m.
Definition DecodeAccountTransferMsg (ungob : bytes → option AccountTransferMsg) (b : bytes) :
    outcome AccountTransferMsg := or_panic "gob: AccountTransferMsg" (ungob b).

(** ** Broker messages *)
Record BrokerRawMeg := mkBrokerRaw {
  br_Tx : Transaction;
  br_Broker : Address;
  Hlock : Z;
  Snonce : Z;
  Bnonce : Z;
  br_Signature : bytes
}.
Record BrokerType1Meg := mkBT1 { b1_RawMeg : BrokerRawMeg; Hcurrent : Z; b1_Broker : Address }.
Record Mag1Confirm := mkM1 { Tx1Hash : bytes; m1_RawMeg : BrokerRawMeg }.
Record BrokerType2Meg := mkBT2 { b2_RawMeg : BrokerRawMeg; b2_Broker : Address }.
Record Mag2Confirm := mkM2 { Tx2Hash : bytes; m2_RawMeg : BrokerRawMeg }.
Record BrokerTxMap := mkBTM { BrokerTx2Broker12 : gmap string (list string) }.
Record InnerTx2CrossTx := mkI2C { ic_Txs : list Transaction }.

(** ** Framing *)
Definition prefixMSGtypeLen : nat := 30.

Definition MergeMessage (msgType : MessageType) (content : bytes) : outcome bytes :=
  b ← foldMi slice_set (replicate prefixMSGtypeLen Ascii.zero) 0
        (String.list_ascii_of_string msgType);
  Ret (String.string_of_list_ascii b +:+ content).

Definition SplitMessage (message : bytes) : outcome (MessageType * bytes) :=
  let l := String.list_ascii_of_string message in
  if decide (prefixMSGtypeLen ≤ length l)%nat then
    Ret (String.string_of_list_ascii
           (base.filter (λ v, v ≠ Ascii.zero) (take prefixMSGtypeLen l)),
         String.string_of_list_ascii (drop prefixMSGtypeLen l))
  else Panic "slice bounds out of range".

(** A type that fits the prefix and holds no zero byte. *)
Definition type_ok (t : MessageType) : bool :=
  (String.length t <=? prefixMSGtypeLen)%nat &&
  forallb (λ c, bool_decide (c ≠ Ascii.zero)) (String.list_ascii_of_string t).

(** ** Lemmas *)
Lemma set_prefix {A} (l b pre : list A) :
  (length pre + length l ≤ length b)%nat → take (length pre) b = pre →
  ∃ b', foldMi slice_set b (zlen pre) l = Ret b' ∧
    b' = pre ++ l ++ drop (length pre + length l) b.
Proof.
  revert b pre. induction l as [|x l IH]; intros b pre Hlen Hpre.
  { exists b. split; [done|]. rewrite <-Hpre at 1. cbn. rewrite Nat.add_0_r. by rewrite take_drop. }
  cbn in Hlen. cbn [foldMi]. unfold slice_set at 2.
  destruct (Z.leb_spec 0 (zlen pre)); [|unfold zlen in *; lia].
  destruct (Z.ltb_spec (zlen pre) (zlen b)); [|unfold zlen in *; lia]. cbn [andb].
  rewrite bind_ret. unfold zlen at 1. rewrite Nat2Z.id.
  destruct (IH (<[length pre := x]> b) (pre ++ [x])) as (b' & E & Hb').
  - rewrite length_app, length_insert. cbn. lia.
  - rewrite length_app. cbn. rewrite Nat.add_1_r.
    rewrite (take_S_r _ _ x) by (apply list_lookup_insert_eq; lia).
    rewrite take_insert_ge by lia. by rewrite Hpre.
  - exists b'. rewrite zlen_app in E. split; [exact E|].
    rewrite Hb', length_app. cbn. rewrite <-app_assoc. cbn. do 3 f_equal.
    rewrite drop_insert_lt by lia. f_equal. lia.
Qed.

Lemma list_of_string_app a b :
  String.list_ascii_of_string (a +:+ b) =
  String.list_ascii_of_string a ++ String.list_ascii_of_string b.
Proof. induction a as [|c a IH]; [done|]. change (String c a +:+ b) with (String c (a +:+ b)). cbn. by rewrite IH. Qed.

Lemma length_list_of_string a : length (String.list_ascii_of_string a) = String.length a.
Proof. induction a; cbn; auto. Qed.

Lemma MergeMessage_bytes t c :
  (String.length t ≤ 30)%nat →
  ∃ m, MergeMessage t c = Ret m ∧
    String.list_ascii_of_string m =
      String.list_ascii_of_string t ++ replicate (30 - String.length t) Ascii.zero ++
      String.list_ascii_of_string c.
Proof.
  intros Ht. unfold MergeMessage.
  destruct (set_prefix (String.list_ascii_of_string t) (replicate prefixMSGtypeLen Ascii.zero) [])
    as (b' & E & Hb').
  - rewrite length_replicate, length_list_of_string. done.
  - done.
  - change (zlen []) with 0 in E. rewrite E. cbn [mbind outcome_bind].
    eexists. split; [done|]. rewrite list_of_string_app, String.list_ascii_of_string_of_list_ascii.
    rewrite Hb'. cbn [app length Nat.add]. rewrite <-app_assoc. do 2 f_equal.
    rewrite drop_replicate, length_list_of_string. done.
Qed.

Lemma SplitMessage_prefix l p c :
  length p = 30%nat →
  String.list_ascii_of_string l = p ++ String.list_ascii_of_string c →
  SplitMessage l = Ret (String.string_of_list_ascii (base.filter (λ v, v ≠ Ascii.zero) p), c).
Proof.
  intros Hp Hl. unfold SplitMessage. rewrite Hl.
  rewrite decide_True by (rewrite length_app, Hp; unfold prefixMSGtypeLen; lia).
  unfold prefixMSGtypeLen. rewrite take_app_length', drop_app_length' by done.
  by rewrite String.string_of_list_ascii_of_string.
Qed.

(** Framing and splitting, for the properties below. *)
Lemma split_merge t c :
  type_ok t = true → ∃ m, MergeMessage t c = Ret m ∧ SplitMessage m = Ret (t, c).
Proof.
  intros [Hlen%Nat.leb_le Hz]%andb_true_iff. unfold prefixMSGtypeLen in Hlen.
  destruct (MergeMessage_bytes t c Hlen) as (m & Em & Hm). exists m. split; [done|].
  rewrite app_assoc in Hm. erewrite SplitMessage_prefix; [| |exact Hm];
    [|rewrite length_app, length_replicate, length_list_of_string; lia].
  do 2 f_equal. rewrite filter_app. rewrite list_filter_all, list_filter_none, app_nil_r.
  - apply String.string_of_list_ascii_of_string.
  - intros x Hx. apply elem_of_replicate in Hx as [-> _]. by intros [].
  - intros x Hx%list_elem_of_In. apply (proj1 (forallb_forall _ _) Hz) in Hx.
    by apply bool_decide_eq_true in Hx.
Qed.

(** A frame of a message type, which [MergeMessage] always makes. *)
Definition frame (t : MessageType) (c : bytes) : bytes :=
  match MergeMessage t c with Ret m => m | Panic _ => "" end.

Lemma frame_ok t c :
  type_ok t = true → MergeMessage t c = Ret (frame t c) ∧ SplitMessage (frame t c) = Ret (t, c).
Proof.
  intros Ht. destruct (split_merge t c Ht) as (m & Em & Es). unfold frame. by rewrite Em.
Qed.

(** The line end of a framed message ends up in its content. *)
Lemma SplitMessage_wire t c :
  type_ok t = true → SplitMessage (wire (frame t c)) = Ret (t, wire c).
Proof.
  intros Ht. assert (wire (frame t c) = frame t (wire c)) as ->; [|by apply frame_ok].
  unfold frame, MergeMessage, wire. destruct (foldMi _ _ _ _) as [b|] eqn:E; cbn.
  - by rewrite str_app_assoc.
  - destruct (frame_ok t c Ht) as [Em _]. unfold MergeMessage in Em. by rewrite E in Em.
Qed.

(** A framed message is split into the type and the content it was
    made from, for every type of at most 30 bytes without a zero byte and every
    content. *)
Theorem SplitMessage_MergeMessage t c :
  type_ok t = true →
  ∃ m, MergeMessage t c = Ret m ∧ SplitMessage m = Ret (t, c).
Proof. apply split_merge. Qed.

Lemma SplitMessage_MergeMessage_witness :
  type_ok CRelayWithProof = true ∧
  ∃ m, MergeMessage CRelayWithProof "{}" = Ret m ∧ SplitMessage m = Ret (CRelayWithProof, "{}").
Proof. split; [reflexivity|]. apply SplitMessage_MergeMessage. reflexivity. Defined.

(** All message types of the protocol can be framed and none is mistaken
    for another: they are pairwise different and each, with any content, is split
    back into itself; a type longer than the prefix makes [MergeMessage] panic. *)
Theorem message_types_framed :
  NoDup message_types ∧
  (∀ t c, t ∈ message_types → ∃ m, MergeMessage t c = Ret m ∧ SplitMessage m = Ret (t, c)) ∧
  MergeMessage "a message type of more than thirty bytes" "" = Panic "index out of range".
Proof.
  split_and!.
  - apply (bool_decide_unpack _). vm_compute. exact I.
  - assert (forallb type_ok message_types = true) as Hall by reflexivity.
    intros t c Ht%list_elem_of_In. apply (proj1 (forallb_forall _ _) Hall) in Ht.
    by apply split_merge.
  - vm_compute. reflexivity.
Qed.
