(* ===== verification/PbftNode.v ===== *)
(** * The state of a consensus node

    Models the node of src/consensus_shard/pbft_all/pbft.go ([PbftConsensusNode],
    [NewPbftNode]), the helpers of toolFuncs.go, and the interface
    [ExtraOpInConsensus] of pbftMod_interface.go, through which the consensus calls
    the module that makes and executes its requests.

    A mutex is a boolean; [Unlock] of an unlocked one panics.  The maps keyed by
    [*shard.Node] are keyed by the address of the node: decoding a message allocates
    a new [shard.Node] ([next_ptr] counts the allocations), and address 0 is nil.
    What the node hands to [networks] is recorded in [sent], oldest first, as pairs
    of an address and a framed message; the order within a broadcast is that of the
    node table.  [cdm] is the data of the module.  The CSV file is in [Report];
    logging is not modelled. *)

From S2P Require Import Prelude Params Utils Interfaces Core Instances Sha256.
From S2P Require Import TxPool Storage G2E BlockChain MerkleProof Messages.

(** [ViewChangeData]: the next view and the sequence id. *)
Definition ViewChangeData : Type := Z * Z.

Section Node.
Context {PR : Params} {BS : BitSetOps} {G : GobOps} {BO : BoltOps} {T : TrieOps}.
Context {D : Type}.

Record PbftConsensusNode := mkPbft {
  RunningNode : Node;
  p_ShardID : Z;
  p_NodeID : Z;
  CurChain : BlockChain;
  pbftChainConfig : ChainConfig;
  ip_nodeTable : gmap Z (gmap Z string);
  node_nums : Z;
  malicious_nums : Z;
  view : Z;
  lastCommitTime : Z;
  viewChangeMap : gmap ViewChangeData (gset Z);
  newViewMap : gmap ViewChangeData (gset Z);
  sequenceID : Z;
  stopSignal : bool;
  requestPool : gmap bytes Request;
  cntPrepareConfirm : gmap bytes (gset Z);
  cntCommitConfirm : gmap bytes (gset Z);
  isCommitBordcast : gmap bytes bool;
  isReply : gmap bytes bool;
  height2Digest : gmap Z bytes;
  pbftStage : Z;
  sequenceLock : bool;
  askForLock : bool;
  seqIDMap : gmap Z Z;
  cdm : D;
  next_ptr : Z;
  sent : list (string * bytes)
}.

Definition set_CurChain (v : BlockChain) (p : PbftConsensusNode) : PbftConsensusNode :=
  mkPbft (RunningNode p) (p_ShardID p) (p_NodeID p) v (pbftChainConfig p)
    (ip_nodeTable p) (node_nums p) (malicious_nums p) (view p) (lastCommitTime p)
    (viewChangeMap p) (newViewMap p) (sequenceID p) (stopSignal p) (requestPool p)
    (cntPrepareConfirm p) (cntCommitConfirm p) (isCommitBordcast p) (isReply p)
    (height2Digest p) (pbftStage p) (sequenceLock p) (askForLock p) (seqIDMap p) (cdm p)
    (next_ptr p) (sent p).
Definition set_view (v : Z) (p : PbftConsensusNode) : PbftConsensusNode :=
  mkPbft (RunningNode p) (p_ShardID p) (p_NodeID p) (CurChain p) (pbftChainConfig p)
    (ip_nodeTable p) (node_nums p) (malicious_nums p) v (lastCommitTime p)
    (viewChangeMap p) (newViewMap p) (sequenceID p) (stopSignal p) (requestPool p)
    (cntPrepareConfirm p) (cntCommitConfirm p) (isCommitBordcast p) (isReply p)
    (height2Digest p) (pbftStage p) (sequenceLock p) (askForLock p) (seqIDMap p) (cdm p)
    (next_ptr p) (sent p).
Definition set_lastCommitTime (v : Z) (p : PbftConsensusNode) : PbftConsensusNode :=
  mkPbft (RunningNode p) (p_ShardID p) (p_NodeID p) (CurChain p) (pbftChainConfig p)
    (ip_nodeTable p) (node_nums p) (malicious_nums p) (view p) v (viewChangeMap p)
    (newViewMap p) (sequenceID p) (stopSignal p) (requestPool p) (cntPrepareConfirm p)
    (cntCommitConfirm p) (isCommitBordcast p) (isReply p) (height2Digest p)
    (pbftStage p) (sequenceLock p) (askForLock p) (seqIDMap p) (cdm p) (next_ptr p)
    (sent p).
Definition set_viewChangeMap (v : gmap ViewChangeData (gset Z)) (p : PbftConsensusNode) : PbftConsensusNode :=
  mkPbft (RunningNode p) (p_ShardID p) (p_NodeID p) (CurChain p) (pbftChainConfig p)
    (ip_nodeTable p) (node_nums p) (malicious_nums p) (view p) (lastCommitTime p) v
    (newViewMap p) (sequenceID p) (stopSignal p) (requestPool p) (cntPrepareConfirm p)
    (cntCommitConfirm p) (isCommitBordcast p) (isReply p) (height2Digest p)
    (pbftStage p) (sequenceLock p) (askForLock p) (seqIDMap p) (cdm p) (next_ptr p)
    (sent p).
Definition set_newViewMap (v : gmap ViewChangeData (gset Z)) (p : PbftConsensusNode) : PbftConsensusNode :=
  mkPbft (RunningNode p) (p_ShardID p) (p_NodeID p) (CurChain p) (pbftChainConfig p)
    (ip_nodeTable p) (node_nums p) (malicious_nums p) (view p) (lastCommitTime p)
    (viewChangeMap p) v (sequenceID p) (stopSignal p) (requestPool p)
    (cntPrepareConfirm p) (cntCommitConfirm p) (isCommitBordcast p) (isReply p)
    (height2Digest p) (pbftStage p) (sequenceLock p) (askForLock p) (seqIDMap p) (cdm p)
    (next_ptr p) (sent p).
Definition set_sequenceID (v : Z) (p : PbftConsensusNode) : PbftConsensusNode :=
  mkPbft (RunningNode p) (p_ShardID p) (p_NodeID p) (CurChain p) (pbftChainConfig p)
    (ip_nodeTable p) (node_nums p) (malicious_nums p) (view p) (lastCommitTime p)
    (viewChangeMap p) (newViewMap p) v (stopSignal p) (requestPool p)
    (cntPrepareConfirm p) (cntCommitConfirm p) (isCommitBordcast p) (isReply p)
    (height2Digest p) (pbftStage p) (sequenceLock p) (askForLock p) (seqIDMap p) (cdm p)
    (next_ptr p) (sent p).
Definition set_stopSignal (v : bool) (p : PbftConsensusNode) : PbftConsensusNode :=
  mkPbft (RunningNode p) (p_ShardID p) (p_NodeID p) (CurChain p) (pbftChainConfig p)
    (ip_nodeTable p) (node_nums p) (malicious_nums p) (view p) (lastCommitTime p)
    (viewChangeMap p) (newViewMap p) (sequenceID p) v (requestPool p)
    (cntPrepareConfirm p) (cntCommitConfirm p) (isCommitBordcast p) (isReply p)
    (height2Digest p) (pbftStage p) (sequenceLock p) (askForLock p) (seqIDMap p) (cdm p)
    (next_ptr p) (sent p).
Definition set_requestPool (v : gmap bytes Request) (p : PbftConsensusNode) : PbftConsensusNode :=
  mkPbft (RunningNode p) (p_ShardID p) (p_NodeID p) (CurChain p) (pbftChainConfig p)
    (ip_nodeTable p) (node_nums p) (malicious_nums p) (view p) (lastCommitTime p)
    (viewChangeMap p) (newViewMap p) (sequenceID p) (stopSignal p) v
    (cntPrepareConfirm p) (cntCommitConfirm p) (isCommitBordcast p) (isReply p)
    (height2Digest p) (pbftStage p) (sequenceLock p) (askForLock p) (seqIDMap p) (cdm p)
    (next_ptr p) (sent p).
Definition set_cntPrepareConfirm (v : gmap bytes (gset Z)) (p : PbftConsensusNode) : PbftConsensusNode :=
  mkPbft (RunningNode p) (p_ShardID p) (p_NodeID p) (CurChain p) (pbftChainConfig p)
    (ip_nodeTable p) (node_nums p) (malicious_nums p) (view p) (lastCommitTime p)
    (viewChangeMap p) (newViewMap p) (sequenceID p) (stopSignal p) (requestPool p) v
    (cntCommitConfirm p) (isCommitBordcast p) (isReply p) (height2Digest p)
    (pbftStage p) (sequenceLock p) (askForLock p) (seqIDMap p) (cdm p) (next_ptr p)
    (sent p).
Definition set_cntCommitConfirm (v : gmap bytes (gset Z)) (p : PbftConsensusNode) : PbftConsensusNode :=
  mkPbft (RunningNode p) (p_ShardID p) (p_NodeID p) (CurChain p) (pbftChainConfig p)
    (ip_nodeTable p) (node_nums p) (malicious_nums p) (view p) (lastCommitTime p)
    (viewChangeMap p) (newViewMap p) (sequenceID p) (stopSignal p) (requestPool p)
    (cntPrepareConfirm p) v (isCommitBordcast p) (isReply p) (height2Digest p)
    (pbftStage p) (sequenceLock p) (askForLock p) (seqIDMap p) (cdm p) (next_ptr p)
    (sent p).
Definition set_isCommitBordcast (v : gmap bytes bool) (p : PbftConsensusNode) : PbftConsensusNode :=
  mkPbft (RunningNode p) (p_ShardID p) (p_NodeID p) (CurChain p) (pbftChainConfig p)
    (ip_nodeTable p) (node_nums p) (malicious_nums p) (view p) (lastCommitTime p)
    (viewChangeMap p) (newViewMap p) (sequenceID p) (stopSignal p) (requestPool p)
    (cntPrepareConfirm p) (cntCommitConfirm p) v (isReply p) (height2Digest p)
    (pbftStage p) (sequenceLock p) (askForLock p) (seqIDMap p) (cdm p) (next_ptr p)
    (sent p).
Definition set_isReply (v : gmap bytes bool) (p : PbftConsensusNode) : PbftConsensusNode :=
  mkPbft (RunningNode p) (p_ShardID p) (p_NodeID p) (CurChain p) (pbftChainConfig p)
    (ip_nodeTable p) (node_nums p) (malicious_nums p) (view p) (lastCommitTime p)
    (viewChangeMap p) (newViewMap p) (sequenceID p) (stopSignal p) (requestPool p)
    (cntPrepareConfirm p) (cntCommitConfirm p) (isCommitBordcast p) v (height2Digest p)
    (pbftStage p) (sequenceLock p) (askForLock p) (seqIDMap p) (cdm p) (next_ptr p)
    (sent p).
Definition set_height2Digest (v : gmap Z bytes) (p : PbftConsensusNode) : PbftConsensusNode :=
  mkPbft (RunningNode p) (p_ShardID p) (p_NodeID p) (CurChain p) (pbftChainConfig p)
    (ip_nodeTable p) (node_nums p) (malicious_nums p) (view p) (lastCommitTime p)
    (viewChangeMap p) (newViewMap p) (sequenceID p) (stopSignal p) (requestPool p)
    (cntPrepareConfirm p) (cntCommitConfirm p) (isCommitBordcast p) (isReply p) v
    (pbftStage p) (sequenceLock p) (askForLock p) (seqIDMap p) (cdm p) (next_ptr p)
    (sent p).
Definition set_pbftStage (v : Z) (p : PbftConsensusNode) : PbftConsensusNode :=
  mkPbft (RunningNode p) (p_ShardID p) (p_NodeID p) (CurChain p) (pbftChainConfig p)
    (ip_nodeTable p) (node_nums p) (malicious_nums p) (view p) (lastCommitTime p)
    (viewChangeMap p) (newViewMap p) (sequenceID p) (stopSignal p) (requestPool p)
    (cntPrepareConfirm p) (cntCommitConfirm p) (isCommitBordcast p) (isReply p)
    (height2Digest p) v (sequenceLock p) (askForLock p) (seqIDMap p) (cdm p)
    (next_ptr p) (sent p).
Definition set_sequenceLock (v : bool) (p : PbftConsensusNode) : PbftConsensusNode :=
  mkPbft (RunningNode p) (p_ShardID p) (p_NodeID p) (CurChain p) (pbftChainConfig p)
    (ip_nodeTable p) (node_nums p) (malicious_nums p) (view p) (lastCommitTime p)
    (viewChangeMap p) (newViewMap p) (sequenceID p) (stopSignal p) (requestPool p)
    (cntPrepareConfirm p) (cntCommitConfirm p) (isCommitBordcast p) (isReply p)
    (height2Digest p) (pbftStage p) v (askForLock p) (seqIDMap p) (cdm p) (next_ptr p)
    (sent p).
Definition set_askForLock (v : bool) (p : PbftConsensusNode) : PbftConsensusNode :=
  mkPbft (RunningNode p) (p_ShardID p) (p_NodeID p) (CurChain p) (pbftChainConfig p)
    (ip_nodeTable p) (node_nums p) (malicious_nums p) (view p) (lastCommitTime p)
    (viewChangeMap p) (newViewMap p) (sequenceID p) (stopSignal p) (requestPool p)
    (cntPrepareConfirm p) (cntCommitConfirm p) (isCommitBordcast p) (isReply p)
    (height2Digest p) (pbftStage p) (sequenceLock p) v (seqIDMap p) (cdm p) (next_ptr p)
    (sent p).
Definition set_seqIDMap (v : gmap Z Z) (p : PbftConsensusNode) : PbftConsensusNode :=
  mkPbft (RunningNode p) (p_ShardID p) (p_NodeID p) (CurChain p) (pbftChainConfig p)
    (ip_nodeTable p) (node_nums p) (malicious_nums p) (view p) (lastCommitTime p)
    (viewChangeMap p) (newViewMap p) (sequenceID p) (stopSignal p) (requestPool p)
    (cntPrepareConfirm p) (cntCommitConfirm p) (isCommitBordcast p) (isReply p)
    (height2Digest p) (pbftStage p) (sequenceLock p) (askForLock p) v (cdm p)
    (next_ptr p) (sent p).
Definition set_cdm (v : D) (p : PbftConsensusNode) : PbftConsensusNode :=
  mkPbft (RunningNode p) (p_ShardID p) (p_NodeID p) (CurChain p) (pbftChainConfig p)
    (ip_nodeTable p) (node_nums p) (malicious_nums p) (view p) (lastCommitTime p)
    (viewChangeMap p) (newViewMap p) (sequenceID p) (stopSignal p) (requestPool p)
    (cntPrepareConfirm p) (cntCommitConfirm p) (isCommitBordcast p) (isReply p)
    (height2Digest p) (pbftStage p) (sequenceLock p) (askForLock p) (seqIDMap p) v
    (next_ptr p) (sent p).
Definition set_next_ptr (v : Z) (p : PbftConsensusNode) : PbftConsensusNode :=
  mkPbft (RunningNode p) (p_ShardID p) (p_NodeID p) (CurChain p) (pbftChainConfig p)
    (ip_nodeTable p) (node_nums p) (malicious_nums p) (view p) (lastCommitTime p)
    (viewChangeMap p) (newViewMap p) (sequenceID p) (stopSignal p) (requestPool p)
    (cntPrepareConfirm p) (cntCommitConfirm p) (isCommitBordcast p) (isReply p)
    (height2Digest p) (pbftStage p) (sequenceLock p) (askForLock p) (seqIDMap p) (cdm p)
    v (sent p).
Definition set_sent (v : list (string * bytes)) (p : PbftConsensusNode) : PbftConsensusNode :=
  mkPbft (RunningNode p) (p_ShardID p) (p_NodeID p) (CurChain p) (pbftChainConfig p)
    (ip_nodeTable p) (node_nums p) (malicious_nums p) (view p) (lastCommitTime p)
    (viewChangeMap p) (newViewMap p) (sequenceID p) (stopSignal p) (requestPool p)
    (cntPrepareConfirm p) (cntCommitConfirm p) (isCommitBordcast p) (isReply p)
    (height2Digest p) (pbftStage p) (sequenceLock p) (askForLock p) (seqIDMap p) (cdm p)
    (next_ptr p) v.


(** ** Reading maps with Go's zero values *)
Definition flag_of (m : gmap bytes bool) (k : bytes) : bool := default false (m !! k).
Definition votes_of (m : gmap bytes (gset Z)) (k : bytes) : gset Z := default ∅ (m !! k).
Definition ip_of (p : PbftConsensusNode) (sid nid : Z) : string :=
  default "" (default ∅ (ip_nodeTable p !! sid) !! nid).

(** ** [networks.TcpDial] and [networks.Broadcast] *)
Definition TcpDial (msg : bytes) (addr : string) (p : PbftConsensusNode) : PbftConsensusNode :=
  set_sent (sent p ++ [(addr, msg)]) p.

Definition Broadcast (sender : string) (receivers : list string) (msg : bytes)
    (p : PbftConsensusNode) : PbftConsensusNode :=
  foldl (λ p ip, if decide (ip = sender) then p else TcpDial msg ip p) p receivers.

(** ** Tools *)
Definition set2DMap (isPrePareConfirm : bool) (key : bytes) (val : Z) (p : PbftConsensusNode) :
    PbftConsensusNode :=
  if isPrePareConfirm then
    set_cntPrepareConfirm
      (<[key := {[val]} ∪ votes_of (cntPrepareConfirm p) key]> (cntPrepareConfirm p)) p
  else
    set_cntCommitConfirm
      (<[key := {[val]} ∪ votes_of (cntCommitConfirm p) key]> (cntCommitConfirm p)) p.

(** The address of a decoded [*shard.Node]: nil, or newly allocated. *)
Definition alloc (n : option Node) (p : PbftConsensusNode) : Z * PbftConsensusNode :=
  match n with
  | None => (0, p)
  | Some _ => (next_ptr p, set_next_ptr (next_ptr p + 1) p)
  end.

Definition getNodeIpsWithinShard (p : PbftConsensusNode) (shardID : Z) : list string :=
  (map_to_list (default ∅ (ip_nodeTable p !! shardID))).*2.

Definition getNeighborNodes (p : PbftConsensusNode) : list string :=
  getNodeIpsWithinShard p (p_ShardID p).

(** [networks.Broadcast] to the neighbours and [networks.TcpDial] to oneself. *)
Definition send_all (msg : bytes) (p : PbftConsensusNode) : PbftConsensusNode :=
  TcpDial msg (IPaddr (RunningNode p))
    (Broadcast (IPaddr (RunningNode p)) (getNeighborNodes p) msg p).

Definition getDigest {JR : Json Request} (r : Request) : bytes := Sha256.sum256 (marshal r).

(** [computeTCL]: the sum of the latencies in milliseconds, as an [int64]. *)
Definition computeTCL (txs : list Transaction) (commitTS : Time) : Z :=
  foldl (λ ret tx, i64 (ret + sub_ms commitTS (tx_Time tx))) 0 txs.

(** [DeleteElementsInList]; the loop moves the kept transactions to the front. *)
Definition DeleteElementsInList (l elements : list Transaction) : outcome (list Transaction) :=
  let hashes : gset bytes := list_to_set (TxHash <$> elements) in
  let kept := base.filter (λ tx, TxHash tx ∉ hashes) l in
  let removedCnt := zlen l - zlen kept in
  let moved := kept ++ drop (length kept) l in
  (* list[:-removedCnt] *)
  if (- removedCnt <? 0) then Panic "slice bounds out of range"
  else Ret (take (Z.to_nat (- removedCnt)) moved).

(** ** [NewPbftNode]

    [chain] is the result of [chain.NewBlockChain], [ips] the address table of
    package [params], [now] the clock and [data] the module's initial data. *)
Definition NewPbftNode (shardID nodeID : Z) (pcc : ChainConfig) (chain : outcome BlockChain)
    (ips : gmap Z (gmap Z string)) (now : Z) (data : D) : outcome PbftConsensusNode :=
  bc ← chain;
  Ret (mkPbft (mkNode nodeID shardID (default "" (default ∅ (ips !! shardID) !! nodeID)))
         shardID nodeID bc pcc ips (Nodes_perShard pcc) (u64 (Nodes_perShard pcc - 1) / 3)
         0 (now + 5000) ∅ ∅ (u64 (Number (tip bc) + 1)) false ∅ ∅ ∅ ∅ ∅ ∅ 1 false false ∅
         data 1 []).

(** ** The interface [ExtraOpInConsensus] *)
Class ExtraOpInConsensus := {
  HandleinPropose :
    (nat → Time) → PbftConsensusNode → outcome (PbftConsensusNode * (bool * Request));
  HandleinPrePrepare : PrePrepare → PbftConsensusNode → outcome (PbftConsensusNode * bool);
  HandleinPrepare : Prepare → PbftConsensusNode → outcome (PbftConsensusNode * bool);
  HandleinCommit : Time → Commit → PbftConsensusNode → outcome (PbftConsensusNode * bool);
  HandleReqestforOldSeq :
    RequestOldMessage → PbftConsensusNode → outcome (PbftConsensusNode * bool);
  HandleforSequentialRequest :
    SendOldMessage → PbftConsensusNode → outcome (PbftConsensusNode * bool)
}.

(** The votes and flags of the consensus, which a module leaves alone. *)
Definition same_votes (p p' : PbftConsensusNode) : Prop :=
  cntPrepareConfirm p' = cntPrepareConfirm p ∧ cntCommitConfirm p' = cntCommitConfirm p ∧
  isCommitBordcast p' = isCommitBordcast p ∧ isReply p' = isReply p ∧
  malicious_nums p' = malicious_nums p ∧ node_nums p' = node_nums p ∧
  next_ptr p' = next_ptr p.

(** The position of the node in the protocol. *)
Definition same_round (p p' : PbftConsensusNode) : Prop :=
  sequenceID p' = sequenceID p ∧ view p' = view p ∧ pbftStage p' = pbftStage p ∧
  sequenceLock p' = sequenceLock p ∧ askForLock p' = askForLock p ∧
  p_NodeID p' = p_NodeID p.

(** What the consensus relies on: the operations keep votes and round, except that
    blocks fetched from another node may advance the sequence id. *)
Class ExtraOpLaws (X : ExtraOpInConsensus) := {
  propose_votes clock p p' r :
    HandleinPropose clock p = Ret (p', r) → same_votes p p' ∧ same_round p p';
  preprepare_votes m p p' b :
    HandleinPrePrepare m p = Ret (p', b) → same_votes p p' ∧ same_round p p';
  prepare_votes m p p' b :
    HandleinPrepare m p = Ret (p', b) → same_votes p p' ∧ same_round p p';
  commit_votes now m p p' b :
    HandleinCommit now m p = Ret (p', b) → same_votes p p' ∧ same_round p p';
  oldseq_votes m p p' b :
    HandleReqestforOldSeq m p = Ret (p', b) → same_votes p p' ∧ same_round p p';
  sequential_votes m p p' b :
    HandleforSequentialRequest m p = Ret (p', b) → same_votes p p'
}.

(** ** The interface [OpInterShards] *)
Class OpInterShards := {
  HandleMessageOutsidePBFT :
    (nat → Time) → MessageType → bytes → PbftConsensusNode → outcome (PbftConsensusNode * bool)
}.

Class OpInterShardsLaws (O : OpInterShards) := {
  outside_votes clock t c p p' b :
    HandleMessageOutsidePBFT clock t c p = Ret (p', b) → same_votes p p' ∧ same_round p p'
}.

#[export] Instance same_votes_preorder : PreOrder same_votes.
Proof.
  split; [by intros p|]. intros p q r (A1 & A2 & A3 & A4 & A5 & A6 & A7) (B1 & B2 & B3 & B4 & B5 & B6 & B7).
  unfold same_votes. by rewrite B1, B2, B3, B4, B5, B6, B7.
Qed.

#[export] Instance same_round_preorder : PreOrder same_round.
Proof.
  split; [by intros p|]. intros p q r (A1 & A2 & A3 & A4 & A5 & A6) (B1 & B2 & B3 & B4 & B5 & B6).
  unfold same_round. by rewrite B1, B2, B3, B4, B5, B6.
Qed.

(** Sending changes neither votes nor round. *)
Lemma Broadcast_sent sender ips msg p : ∃ l, Broadcast sender ips msg p = set_sent l p.
Proof.
  unfold Broadcast. revert p. induction ips as [|ip ips IH]; intros p; cbn.
  { exists (sent p). by destruct p. }
  destruct (decide (ip = sender)); [apply IH|].
  destruct (IH (TcpDial msg ip p)) as [l ->]. by exists l.
Qed.

Lemma send_all_sent msg p : ∃ l, send_all msg p = set_sent l p.
Proof.
  unfold send_all. destruct (Broadcast_sent (IPaddr (RunningNode p)) (getNeighborNodes p) msg p) as [l ->].
  by eexists.
Qed.

Lemma send_all_self msg p : (IPaddr (RunningNode p), msg) ∈ sent (send_all msg p).
Proof.
  unfold send_all. destruct (Broadcast_sent (IPaddr (RunningNode p)) (getNeighborNodes p) msg p) as [l ->].
  cbn. apply elem_of_app. right. by left.
Qed.

End Node.
Arguments PbftConsensusNode {BS BO T} D : assert.
