(* ===== verification/Pbft.v ===== *)
(** * The PBFT consensus of a shard

    Models the handlers of src/consensus_shard/pbft_all/messageHandle.go and
    view_change.go and the dispatch of pbft.go, over the module interface of
    [PbftNode].  A handler that waits for a stage is a thread with the view it loaded;
    it runs, as one atomic step, when its wait condition no longer holds.  A handler
    that blocks on a mutex returns [Ret None].  The periodic checks of [Propose] are
    steps that may happen at any time.  Running a handler atomically is what
    [pbftLock] ensures for the three phase handlers; the others take it as a
    simplification. *)

From S2P Require Import Prelude Params Utils Interfaces Core Instances Sha256.
From S2P Require Import TxPool Storage G2E BlockChain MerkleProof Messages PbftNode.

Section Pbft.
Context {PR : Params} {BS : BitSetOps} {G : GobOps} {BO : BoltOps} {T : TrieOps}.
Context {D : Type} {X : ExtraOpInConsensus (D := D)}.
Context {JReq : Json Request} {JPP : Json PrePrepare} {JP : Json Prepare} {JC : Json Commit}.
Context {JRO : Json RequestOldMessage} {JSO : Json SendOldMessage}.
Context {JVC : Json ViewChangeMsg} {JNV : Json NewViewMsg}.

Implicit Type p : PbftConsensusNode D.

(** [2*p.malicious_nums + 1] *)
Definition quorum p : Z := u64 (2 * malicious_nums p + 1).

Definition is_leader p : bool := u64 (view p) =? p_NodeID p.

(** [string(getDigest(r))] enters the request pool and the index of heights. *)
Definition record_request (r : Request) (seq : Z) p : PbftConsensusNode D :=
  set_height2Digest (<[seq := getDigest r]> (height2Digest p))
    (set_requestPool (<[getDigest r := r]> (requestPool p)) p).

(** The round of [Propose] that starts with the signal of the timer. *)
Definition propose (clock : nat → Time) p : outcome (option (PbftConsensusNode D)) :=
  if negb (is_leader p) then Ret (Some p)
  else if sequenceLock p then Ret None
  else
    '(p, (_, r)) ← HandleinPropose clock (set_sequenceLock true p);
    let digest := getDigest r in
    let ppmsg := mkPP r digest (sequenceID p) in
    let p := record_request r (sequenceID p) p in
    msg_send ← MergeMessage CPrePrepare (marshal ppmsg);
    Ret (Some (set_pbftStage 2 (send_all msg_send p))).

(** The loop conditions of the three phases: the thread keeps waiting. *)
Definition waits (stage seq curView : Z) p : bool :=
  (pbftStage p <? stage) && (sequenceID p <=? seq) && (view p =? curView).

(** [SeqID < p.sequenceID || p.view.Load() != curView] *)
Definition outdated (seq curView : Z) p : bool :=
  (seq <? sequenceID p) || negb (view p =? curView).

(** Broadcasting the prepare message for a request. *)
Definition prepare_bytes (digest : bytes) (seq : Z) p : outcome bytes :=
  MergeMessage CPrepare (marshal (mkPrepare digest seq (Some (RunningNode p)))).

Definition handlePrePrepare (curView : Z) (ppmsg : PrePrepare) p :
    outcome (PbftConsensusNode D) :=
  if outdated (pp_SeqID ppmsg) curView p then Ret p
  else
    '(p, flag) ←
      (if negb (bool_decide (getDigest (RequestMsg ppmsg) = pp_Digest ppmsg)) then Ret (p, false)
       else if sequenceID p <? pp_SeqID ppmsg then
         Ret (record_request (RequestMsg ppmsg) (pp_SeqID ppmsg) p, false)
       else
         '(p, flag) ← HandleinPrePrepare ppmsg p;
         Ret (record_request (RequestMsg ppmsg) (pp_SeqID ppmsg) p, flag));
    if flag : bool then
      msg_send ← prepare_bytes (pp_Digest ppmsg) (pp_SeqID ppmsg) p;
      let p := send_all msg_send p in
      Ret (set_pbftStage (i32 (pbftStage p + 1)) p)
    else Ret p.

Definition handlePrepare (curView : Z) (pmsg : Prepare) p : outcome (PbftConsensusNode D) :=
  if outdated (pr_SeqID pmsg) curView p then Ret p
  else match requestPool p !! pr_Digest pmsg with
  | None => Ret p
  | Some _ =>
      if sequenceID p <? pr_SeqID pmsg then Ret p
      else
        '(p, _) ← HandleinPrepare pmsg p;
        let '(a, p) := alloc (pr_SenderNode pmsg) p in
        let p := set2DMap true (pr_Digest pmsg) a p in
        let cnt := Z.of_nat (size (votes_of (cntPrepareConfirm p) (pr_Digest pmsg))) in
        if (quorum p <=? cnt) && negb (flag_of (isCommitBordcast p) (pr_Digest pmsg)) then
          msg_send ← MergeMessage CCommit
            (marshal (mkCommit (pr_Digest pmsg) (pr_SeqID pmsg) (Some (RunningNode p))));
          let p := send_all msg_send p in
          let p := set_isCommitBordcast
                     (<[pr_Digest pmsg := true]> (isCommitBordcast p)) p in
          Ret (set_pbftStage (i32 (pbftStage p + 1)) p)
        else Ret p
  end.

Definition set_replied (d : bytes) p : PbftConsensusNode D :=
  set_isReply (<[d := true]> (isReply p)) p.

(** The branch of [handleCommit] for a request that is not in the pool. *)
Definition ask_for_blocks (cmsg : Commit) p : outcome (option (PbftConsensusNode D)) :=
  let p := set_replied (cm_Digest cmsg) p in
  if askForLock p then Ret None
  else
    let p := set_askForLock true p in
    let v := u64 (view p) in
    let sn := mkNode v (p_ShardID p) (ip_of p (p_ShardID p) v) in
    let orequest := mkROM (u64 (sequenceID p + 1)) (cm_SeqID cmsg) (Some sn)
                      (Some (RunningNode p)) in
    msg_send ← MergeMessage CRequestOldrequest (marshal orequest);
    Ret (Some (TcpDial msg_send (IPaddr sn) p)).

(** The branch for a request in the pool: it is executed. *)
Definition execute_request (now : Time) (cmsg : Commit) p :
    outcome (option (PbftConsensusNode D)) :=
  '(p, _) ← HandleinCommit now cmsg p;
  let p := set_replied (cm_Digest cmsg) p in
  Ret (Some (set_sequenceID (u64 (sequenceID p + 1)) p)).

(** [sequenceLock.Unlock()] *)
Definition unlock_sequence p : outcome (PbftConsensusNode D) :=
  if sequenceLock p then Ret (set_sequenceLock false p)
  else Panic "unlock of unlocked mutex".

(** [nowMs] is the clock in milliseconds. *)
Definition handleCommit (now : Time) (nowMs curView : Z) (cmsg : Commit) p :
    outcome (option (PbftConsensusNode D)) :=
  if outdated (cm_SeqID cmsg) curView p then Ret (Some p)
  else match cm_SenderNode cmsg with
  | None => Panic "nil pointer dereference"
  | Some _ =>
      let '(a, p) := alloc (cm_SenderNode cmsg) p in
      let p := set2DMap false (cm_Digest cmsg) a p in
      let cnt := Z.of_nat (size (votes_of (cntCommitConfirm p) (cm_Digest cmsg))) in
      if (quorum p <=? cnt) && negb (flag_of (isReply p) (cm_Digest cmsg)) then
        o ← match requestPool p !! cm_Digest cmsg with
            | None => ask_for_blocks cmsg p
            | Some _ => execute_request now cmsg p
            end;
        match o with
        | None => Ret None
        | Some p =>
            let p := set_lastCommitTime nowMs (set_pbftStage 1 p) in
            if is_leader p then p ← unlock_sequence p; Ret (Some p) else Ret (Some p)
        end
      else Ret (Some p)
  end.

(** The requests for the heights from [height] on, up to the first one missing. *)
Fixpoint old_requests p (n : nat) (height : Z) : list Request :=
  match n with
  | O => []
  | S n' =>
      match height2Digest p !! height with
      | None => []
      | Some d =>
          match requestPool p !! d with
          | None => []
          | Some r => r :: old_requests p n' (height + 1)
          end
      end
  end.

Definition handleRequestOldSeq (rom : RequestOldMessage) p : outcome (PbftConsensusNode D) :=
  if negb (is_leader p) then Ret p
  else match ro_SenderNode rom with
  | None => Panic "nil pointer dereference"
  | Some sender =>
      let oldR := old_requests p
                    (Z.to_nat (ro_SeqEndHeight rom - ro_SeqStartHeight rom + 1))
                    (ro_SeqStartHeight rom) in
      '(p, _) ← HandleReqestforOldSeq rom p;
      let sb := mkSOM (ro_SeqStartHeight rom) (ro_SeqEndHeight rom) oldR
                  (Some (RunningNode p)) in
      msg_send ← MergeMessage CSendOldrequest (marshal sb);
      Ret (TcpDial msg_send (IPaddr sender) p)
  end.

(** The loop of [handleSendOldSeq] over the fetched requests. *)
Definition adopt_request (beginSeq : Z) p (idx : Z) (r : Request) :
    outcome (PbftConsensusNode D) :=
  Ret (set_replied (getDigest r) (record_request r (u64 (idx + beginSeq)) p)).

Definition handleSendOldSeq (som : SendOldMessage) p : outcome (PbftConsensusNode D) :=
  '(p, _) ← HandleforSequentialRequest som p;
  p ← foldMi (adopt_request (so_SeqStartHeight som)) p 0 (OldRequest som);
  let p := set_sequenceID (u64 (so_SeqEndHeight som + 1)) p in
  p ← match height2Digest p !! sequenceID p with
      | None => Ret p
      | Some rDigest =>
          match requestPool p !! rDigest with
          | None => Ret p
          | Some r =>
              let ppmsg := mkPP r (getDigest r) (sequenceID p) in
              '(p, flag) ← HandleinPrePrepare ppmsg p;
              if flag : bool then
                msg_send ← prepare_bytes (pp_Digest ppmsg) (pp_SeqID ppmsg) p;
                Ret (Broadcast (IPaddr (RunningNode p)) (getNeighborNodes p) msg_send p)
              else Ret p
          end
      end;
  if askForLock p then Ret (set_askForLock false p)
  else Panic "unlock of unlocked mutex".

(** ** View change *)

(** [int(p.view.Load()+1) % int(p.node_nums)] *)
Definition next_view p : outcome Z :=
  if i64 (node_nums p) =? 0 then Panic "integer divide by zero"
  else Ret (Z.rem (i32 (view p + 1)) (i64 (node_nums p))).

Definition viewChangePropose p : outcome (PbftConsensusNode D) :=
  let p := set_pbftStage 5 p in
  nv ← next_view p;
  msg_send ← MergeMessage ViewChangePropose
    (marshal (mkVC (view p) nv (i64 (sequenceID p)) (p_NodeID p)));
  Ret (send_all msg_send p).

Definition voters (m : gmap ViewChangeData (gset Z)) (k : ViewChangeData) : gset Z :=
  default ∅ (m !! k).

(** [2*int(p.malicious_nums) + 1] *)
Definition quorum_int p : Z := i64 (2 * i64 (malicious_nums p) + 1).

Definition handleViewChangeMsg (vcmsg : ViewChangeMsg) p : outcome (PbftConsensusNode D) :=
  let vcData := (vc_NextView vcmsg, vc_SeqID vcmsg) in
  let p := set_viewChangeMap
             (<[vcData := {[vc_FromNode vcmsg]} ∪ voters (viewChangeMap p) vcData]>
                (viewChangeMap p)) p in
  if Z.of_nat (size (voters (viewChangeMap p) vcData)) =? quorum_int p then
    nv ← next_view p;
    msg_send ← MergeMessage NewChange
      (marshal (mkNV (view p) nv (i64 (sequenceID p)) (p_NodeID p)));
    Ret (send_all msg_send p)
  else Ret p.

Definition handleNewViewMsg (nowMs : Z) (nvmsg : NewViewMsg) p : outcome (PbftConsensusNode D) :=
  let vcData := (nv_NextView nvmsg, NewSeqID nvmsg) in
  let p := set_newViewMap
             (<[vcData := {[nv_FromNode nvmsg]} ∪ voters (newViewMap p) vcData]>
                (newViewMap p)) p in
  if Z.of_nat (size (voters (newViewMap p) vcData)) =? quorum_int p then
    Ret (set_lastCommitTime nowMs (set_pbftStage 1
           (set_sequenceID (u64 (NewSeqID nvmsg)) (set_view (i32 (vcData.1)) p))))
  else Ret p.

(** The check of the timer: [timeout] milliseconds without a commit. *)
Definition check_view_change (nowMs : Z) p : outcome (PbftConsensusNode D) :=
  if PbftViewChangeTimeOut <? nowMs - lastCommitTime p then
    viewChangePropose (set_lastCommitTime nowMs p)
  else Ret p.

(** [WaitToStop]: closing connections and databases is not modelled. *)
Definition WaitToStop p : PbftConsensusNode D := set_stopSignal true p.

(** ** Dispatch *)

(** The goroutines [handleMessage] starts. *)
Inductive task :=
| go_PrePrepare (content : bytes)
| go_Prepare (content : bytes)
| go_Commit (content : bytes)
| go_Outside (msgType : MessageType) (content : bytes).

Definition decode {A} {J : Json A} (content : bytes) : outcome A :=
  or_panic "json.Unmarshal" (unmarshal content).

Definition handleMessage (nowMs : Z) (msg : bytes) p :
    outcome (PbftConsensusNode D * option task) :=
  '(msgType, content) ← SplitMessage msg;
  if decide (msgType = CPrePrepare) then Ret (p, Some (go_PrePrepare content))
  else if decide (msgType = CPrepare) then Ret (p, Some (go_Prepare content))
  else if decide (msgType = CCommit) then Ret (p, Some (go_Commit content))
  else if decide (msgType = ViewChangePropose) then
    m ← decode content; p ← handleViewChangeMsg m p; Ret (p, None)
  else if decide (msgType = NewChange) then
    m ← decode content; p ← handleNewViewMsg nowMs m p; Ret (p, None)
  else if decide (msgType = CRequestOldrequest) then
    if negb (is_leader p) then Ret (p, None)
    else m ← decode content; p ← handleRequestOldSeq m p; Ret (p, None)
  else if decide (msgType = CSendOldrequest) then
    m ← decode content; p ← handleSendOldSeq m p; Ret (p, None)
  else if decide (msgType = CStop) then Ret (WaitToStop p, None)
  else Ret (p, Some (go_Outside msgType content)).

(** ** The node as a transition system *)
Context {OI : OpInterShards (D := D)}.

(** A handler that has decoded its message and loaded the view. *)
Inductive thread :=
| in_PrePrepare (m : PrePrepare) (curView : Z)
| in_Prepare (m : Prepare) (curView : Z)
| in_Commit (m : Commit) (curView : Z).

Definition start (t : task) p : outcome (option thread) :=
  match t with
  | go_PrePrepare c => m ← decode c; Ret (Some (in_PrePrepare m (view p)))
  | go_Prepare c => m ← decode c; Ret (Some (in_Prepare m (view p)))
  | go_Commit c => m ← decode c; Ret (Some (in_Commit m (view p)))
  | go_Outside _ _ => Ret None
  end.

Definition thread_waits (th : thread) p : bool :=
  match th with
  | in_PrePrepare m v => waits 1 (pp_SeqID m) v p
  | in_Prepare m v => waits 2 (pr_SeqID m) v p
  | in_Commit m v => waits 3 (cm_SeqID m) v p
  end.

Definition run (now : Time) (nowMs : Z) (th : thread) p : outcome (option (PbftConsensusNode D)) :=
  match th with
  | in_PrePrepare m v => p ← handlePrePrepare v m p; Ret (Some p)
  | in_Prepare m v => p ← handlePrepare v m p; Ret (Some p)
  | in_Commit m v => handleCommit now nowMs v m p
  end.

(** The votes for a digest after one more commit message. *)
Definition commit_count (d : bytes) p : Z := Z.of_nat (size (votes_of (cntCommitConfirm p) d)).
Definition prepare_count (d : bytes) p : Z := Z.of_nat (size (votes_of (cntPrepareConfirm p) d)).

(** The commit message makes the node execute its request: it is current, completes
    the quorum, and the request is in the pool and was not replied to. *)
Definition executes (curView : Z) (m : Commit) p : bool :=
  negb (outdated (cm_SeqID m) curView p) &&
  (quorum p <=? Z.of_nat (size ({[(alloc (cm_SenderNode m) p).1]} ∪
                                 votes_of (cntCommitConfirm p) (cm_Digest m)))) &&
  negb (flag_of (isReply p) (cm_Digest m)) &&
  match requestPool p !! cm_Digest m with Some _ => true | None => false end.

(** The digest a thread executes. *)
Definition executed (th : thread) p : list bytes :=
  match th with
  | in_Commit m v => if executes v m p then [cm_Digest m] else []
  | _ => []
  end.

(** The node, the messages being dispatched, the waiting handlers, and the digests
    executed so far, in order. *)
Record sys := mkSys {
  nd : PbftConsensusNode D;
  tasks : list task;
  threads : list thread;
  history : list bytes
}.

Inductive pstep : sys → sys → Prop :=
| step_receive p ts ths hs nowMs msg p' t :
    handleMessage nowMs msg p = Ret (p', t) →
    pstep (mkSys p ts ths hs) (mkSys p' (ts ++ option_list t) ths hs)
| step_start p ts1 t ts2 ths hs th :
    start t p = Ret (Some th) →
    pstep (mkSys p (ts1 ++ t :: ts2) ths hs) (mkSys p (ts1 ++ ts2) (th :: ths) hs)
| step_outside p ts1 ty c ts2 ths hs clock p' b :
    HandleMessageOutsidePBFT clock ty c p = Ret (p', b) →
    pstep (mkSys p (ts1 ++ go_Outside ty c :: ts2) ths hs) (mkSys p' (ts1 ++ ts2) ths hs)
| step_run p ts ths1 th ths2 hs now nowMs p' :
    thread_waits th p = false → run now nowMs th p = Ret (Some p') →
    pstep (mkSys p ts (ths1 ++ th :: ths2) hs)
          (mkSys p' ts (ths1 ++ ths2) (hs ++ executed th p))
| step_propose p ts ths hs now p' :
    propose now p = Ret (Some p') → pstep (mkSys p ts ths hs) (mkSys p' ts ths hs)
| step_timer p ts ths hs nowMs p' :
    check_view_change nowMs p = Ret p' → pstep (mkSys p ts ths hs) (mkSys p' ts ths hs).

(** The node before its first message. *)
Definition fresh_node p : Prop :=
  cntPrepareConfirm p = ∅ ∧ cntCommitConfirm p = ∅ ∧ isCommitBordcast p = ∅ ∧ isReply p = ∅ ∧
  0 < next_ptr p.

(** ** The invariant of the votes *)
Definition ptrs_ok (m : gmap bytes (gset Z)) (n : Z) : Prop :=
  ∀ d a, a ∈ votes_of m d → 0 ≤ a < n.

Definition vote_inv p (hs : list bytes) : Prop :=
  0 < next_ptr p ∧
  ptrs_ok (cntPrepareConfirm p) (next_ptr p) ∧ ptrs_ok (cntCommitConfirm p) (next_ptr p) ∧
  (∀ d, flag_of (isCommitBordcast p) d = true → quorum p ≤ prepare_count d p) ∧
  (∀ d, d ∈ hs → flag_of (isReply p) d = true ∧ quorum p ≤ commit_count d p) ∧
  NoDup hs.

(** The invariant only depends on votes and flags. *)
Lemma vote_inv_same p p' hs : same_votes p p' → vote_inv p hs → vote_inv p' hs.
Proof.
  intros (H1 & H2 & H3 & H4 & H5 & H6 & H7). unfold vote_inv, quorum, prepare_count, commit_count.
  by rewrite H1, H2, H3, H4, H5, H7.
Qed.

(** More replies do not break it. *)
Lemma vote_inv_reply p hs d : vote_inv p hs → vote_inv (set_replied d p) hs.
Proof.
  intros (H1 & H2 & H3 & H4 & H5 & H6). split_and!; [done..| |done].
  intros d' Hd'. destruct (H5 d' Hd') as [Hf Hq]. split; [|exact Hq].
  unfold flag_of, set_replied in *. cbn. rewrite lookup_insert. by case_decide.
Qed.

Lemma votes_of_insert m k s d : votes_of (<[k := s]> m) d = if decide (k = d) then s else votes_of m d.
Proof. unfold votes_of. rewrite lookup_insert. by case_decide. Qed.

Lemma flag_of_insert m k b d : flag_of (<[k := b]> m) d = if decide (k = d) then b else flag_of m d.
Proof. unfold flag_of. rewrite lookup_insert. by case_decide. Qed.

Context {XL : ExtraOpLaws X} {OL : OpInterShardsLaws OI}.

Lemma send_all_votes msg p : same_votes p (send_all msg p) ∧ same_round p (send_all msg p).
Proof. destruct (send_all_sent msg p) as [l ->]. done. Qed.

Lemma handlePrePrepare_votes v m p p' : handlePrePrepare v m p = Ret p' → same_votes p p'.
Proof.
  unfold handlePrePrepare. intros E. destruct (outdated _ _ _); [by inv_ret|].
  apply bind_Ret_inv in E as ([p1 flag] & E1 & E).
  assert (same_votes p p1) as H1.
  { destruct (negb _); [by inv_ret|]. destruct (_ <? _); [by inv_ret|].
    apply bind_Ret_inv in E1 as ([p2 f2] & E2 & E1).
    apply preprepare_votes in E2 as [H2 _]. inv_ret. by etransitivity; [exact H2|]. }
  destruct flag; [|by inv_ret]. apply bind_Ret_inv in E as (msg & _ & E). inv_ret.
  etransitivity; [exact H1|]. apply (send_all_votes msg p1).
Qed.

Lemma propose_votes_ok now p p' : propose now p = Ret (Some p') → same_votes p p'.
Proof.
  unfold propose. intros E. destruct (negb _); [by inv_ret|]. destruct (sequenceLock p); [by inv_ret|].
  apply bind_Ret_inv in E as ([p1 [b r]] & E1 & E). apply propose_votes in E1 as [H1 _].
  apply bind_Ret_inv in E as (msg & _ & E). inv_ret.
  etransitivity; [exact H1|]. apply (send_all_votes msg (record_request r (sequenceID p1) p1)).
Qed.

Lemma viewChangePropose_votes p p' : viewChangePropose p = Ret p' → same_votes p p'.
Proof.
  unfold viewChangePropose. intros E. apply bind_Ret_inv in E as (nv & _ & E).
  apply bind_Ret_inv in E as (msg & _ & E). inv_ret. apply (send_all_votes msg (set_pbftStage 5 p)).
Qed.

Lemma check_view_change_votes nowMs p p' : check_view_change nowMs p = Ret p' → same_votes p p'.
Proof.
  unfold check_view_change. intros E. destruct (_ <? _); [|by inv_ret].
  by apply viewChangePropose_votes in E.
Qed.

Lemma handleViewChangeMsg_votes m p p' : handleViewChangeMsg m p = Ret p' → same_votes p p'.
Proof.
  unfold handleViewChangeMsg. cbv zeta. intros E. destruct (_ =? _); [|by inv_ret].
  apply bind_Ret_inv in E as (nv & _ & E). apply bind_Ret_inv in E as (msg & _ & E). inv_ret.
  match goal with |- same_votes p (send_all msg ?q) => apply (send_all_votes msg q) end.
Qed.

Lemma handleNewViewMsg_votes nowMs m p p' : handleNewViewMsg nowMs m p = Ret p' → same_votes p p'.
Proof.
  unfold handleNewViewMsg. cbv zeta. intros E. destruct (_ =? _); by inv_ret.
Qed.

Lemma handleRequestOldSeq_votes m p p' : handleRequestOldSeq m p = Ret p' → same_votes p p'.
Proof.
  unfold handleRequestOldSeq. intros E. destruct (negb _); [by inv_ret|].
  destruct (ro_SenderNode m) as [n|]; [|done].
  apply bind_Ret_inv in E as ([p1 b] & E1 & E). apply oldseq_votes in E1 as [H1 _].
  apply bind_Ret_inv in E as (msg & _ & E). inv_ret. by etransitivity; [exact H1|].
Qed.

Lemma adopt_requests_inv hs beginSeq l p i p' :
  foldMi (adopt_request beginSeq) p i l = Ret p' → vote_inv p hs → vote_inv p' hs.
Proof.
  revert p i. induction l as [|r l IH]; intros p i E Hp; cbn in E; [by inv_ret|].
  eapply IH; [exact E|]. apply vote_inv_reply. by eapply vote_inv_same.
Qed.

Lemma handleSendOldSeq_inv m p p' hs :
  handleSendOldSeq m p = Ret p' → vote_inv p hs → vote_inv p' hs.
Proof.
  unfold handleSendOldSeq. intros E Hp.
  apply bind_Ret_inv in E as ([p1 b] & E1 & E). apply sequential_votes in E1.
  apply bind_Ret_inv in E as (p2 & E2 & E).
  apply (adopt_requests_inv hs) in E2; [|by eapply vote_inv_same].
  apply bind_Ret_inv in E as (p3 & E3 & E).
  assert (vote_inv p3 hs) as H3.
  { set (p2' := set_sequenceID _ p2) in *.
    assert (vote_inv p2' hs) as H2 by (by eapply vote_inv_same). clearbody p2'.
    destruct (height2Digest p2' !! _); [|by inv_ret]. destruct (requestPool p2' !! _); [|by inv_ret].
    apply bind_Ret_inv in E3 as ([p4 flag] & E4 & E3). apply preprepare_votes in E4 as [H4 _].
    destruct flag; [|inv_ret; by eapply vote_inv_same].
    apply bind_Ret_inv in E3 as (msg & _ & E3). inv_ret.
    destruct (Broadcast_sent (IPaddr (RunningNode p4)) (getNeighborNodes p4) msg p4) as [l' ->].
    eapply vote_inv_same; [|exact H2]. by etransitivity; [exact H4|]. }
  destruct (askForLock p3); [|done]. inv_ret. by eapply vote_inv_same.
Qed.

(** One more vote. *)
Lemma size_add_vote (a : Z) (s : gset Z) : (size s ≤ size ({[a]} ∪ s))%nat.
Proof. apply subseteq_size. set_solver. Qed.

Lemma handlePrepare_inv v m p p' hs :
  handlePrepare v m p = Ret p' → vote_inv p hs → vote_inv p' hs.
Proof.
  unfold handlePrepare. intros E Hp. destruct (outdated _ _ _); [by inv_ret|].
  destruct (requestPool p !! _); [|by inv_ret]. destruct (_ <? _); [by inv_ret|].
  apply bind_Ret_inv in E as ([p0 b] & E0 & E). apply prepare_votes in E0 as [H0 _].
  apply (vote_inv_same _ _ hs H0) in Hp. clear H0.
  destruct (alloc (pr_SenderNode m) p0) as [a p1] eqn:Ea.
  set (p2 := set2DMap true (pr_Digest m) a p1) in *. cbv beta in E.
  assert (vote_inv p2 hs) as H2.
  { destruct Hp as (Hn & HP & HC & HB & HH & HD).
    assert (0 < next_ptr p1 ∧ next_ptr p0 ≤ next_ptr p1 ∧ 0 ≤ a < next_ptr p1 ∧
      cntPrepareConfirm p1 = cntPrepareConfirm p0 ∧ cntCommitConfirm p1 = cntCommitConfirm p0 ∧
      isCommitBordcast p1 = isCommitBordcast p0 ∧ isReply p1 = isReply p0 ∧
      malicious_nums p1 = malicious_nums p0) as (B1 & B2 & B3 & B4 & B5 & B6 & B7 & B8).
    { unfold alloc in Ea. destruct (pr_SenderNode m); simplify_eq; cbn; split_and!; try done; lia. }
    unfold vote_inv, quorum, prepare_count, commit_count, p2, set2DMap. cbn.
    rewrite B4, B5, B6, B7, B8. split_and!; [done| | | |done|done].
    - intros d x. rewrite votes_of_insert. case_decide.
      + rewrite elem_of_union, elem_of_singleton. intros [->|Hx]; [lia|]. apply HP in Hx. lia.
      + intros Hx%HP. lia.
    - intros d x Hx%HC. lia.
    - intros d Hd. specialize (HB d Hd). unfold quorum, prepare_count in HB.
      rewrite votes_of_insert. case_decide; [|done]. subst d.
      pose proof (size_add_vote a (votes_of (cntPrepareConfirm p0) (pr_Digest m))). lia. }
  clearbody p2. destruct (_ && _) eqn:Eq in E; [|by inv_ret].
  apply andb_true_iff in Eq as [Hq _]. apply bind_Ret_inv in E as (msg & _ & E).
  destruct (send_all_sent msg p2) as [l El]. rewrite El in E. cbv zeta in E. inv_ret.
  destruct H2 as (Hn & HP & HC & HB & HH & HD).
  split_and!; [done..| |done|done]. intros d. cbn. rewrite flag_of_insert.
  case_decide; [subst; intros _|exact (HB d)]. unfold prepare_count, quorum in *. cbn. lia.
Qed.

Lemma ask_for_blocks_inv m p p' hs :
  ask_for_blocks m p = Ret (Some p') → vote_inv p hs → vote_inv p' hs.
Proof.
  unfold ask_for_blocks. cbv zeta. intros E Hp. destruct (askForLock _); [done|].
  apply bind_Ret_inv in E as (msg & _ & E). inv_ret.
  eapply vote_inv_same; [|by apply (vote_inv_reply p hs (cm_Digest m))]. done.
Qed.

(** Executing a request whose commit votes form a quorum. *)
Lemma execute_request_inv now m p p' hs :
  execute_request now m p = Ret (Some p') → vote_inv p hs →
  quorum p ≤ commit_count (cm_Digest m) p → flag_of (isReply p) (cm_Digest m) = false →
  vote_inv p' (hs ++ [cm_Digest m]).
Proof.
  unfold execute_request. cbv zeta. intros E Hp Hq Hf.
  apply bind_Ret_inv in E as ([p1 b] & E1 & E). apply commit_votes in E1 as [H1 _]. inv_ret.
  pose proof (vote_inv_same _ _ hs H1 Hp) as Hp1.
  apply (vote_inv_reply p1 hs (cm_Digest m)) in Hp1.
  eapply (vote_inv_same (set_replied (cm_Digest m) p1)); [done|].
  destruct Hp as (_ & _ & _ & _ & HH & _). destruct Hp1 as (Hn & HP & HC & HB & HH1 & HD).
  split_and!; [done..| |].
  - intros d [Hd|Hd%list_elem_of_singleton]%elem_of_app; [by apply HH1|]. subst d. split.
    + unfold set_replied. cbn. by rewrite flag_of_insert, decide_True.
    + destruct H1 as (_ & H2 & _ & _ & H5 & _).
      unfold quorum, commit_count in *. cbn. by rewrite H2, H5.
  - apply NoDup_app. split_and!; [done| |apply NoDup_singleton].
    intros d Hd Hd2%list_elem_of_singleton. subst d. apply HH in Hd as [Hd _]. congruence.
Qed.

(** The vote of a commit message. *)
Lemma commit_vote_inv m p a p1 hs :
  cm_SenderNode m ≠ None → alloc (cm_SenderNode m) p = (a, p1) → vote_inv p hs →
  let p2 := set2DMap false (cm_Digest m) a p1 in
  vote_inv p2 hs ∧ isReply p2 = isReply p ∧ requestPool p2 = requestPool p ∧
  quorum p2 = quorum p ∧
  commit_count (cm_Digest m) p2 = commit_count (cm_Digest m) p + 1 ∧
  votes_of (cntCommitConfirm p2) (cm_Digest m) =
    {[a]} ∪ votes_of (cntCommitConfirm p) (cm_Digest m).
Proof.
  intros Hs Ea (Hn & HP & HC & HB & HH & HD). unfold alloc in Ea.
  destruct (cm_SenderNode m); [|done]. simplify_eq. unfold set2DMap. cbn.
  assert (∀ d, commit_count d p ≤ Z.of_nat (size (votes_of
    (<[cm_Digest m := {[next_ptr p]} ∪ votes_of (cntCommitConfirm p) (cm_Digest m)]>
       (cntCommitConfirm p)) d))) as Hmono.
  { intros d. rewrite votes_of_insert. unfold commit_count. case_decide; [subst d|done].
    pose proof (size_add_vote (next_ptr p) (votes_of (cntCommitConfirm p) (cm_Digest m))). lia. }
  split_and!; try done.
  - unfold vote_inv. cbn. split_and!; [lia| | |done| |done].
    + intros d x Hx%HP. lia.
    + intros d x. rewrite votes_of_insert. case_decide.
      * rewrite elem_of_union, elem_of_singleton. intros [->|Hx]; [lia|]. apply HC in Hx. lia.
      * intros Hx%HC. lia.
    + intros d Hd. destruct (HH d Hd) as [Hf Hq]. split; [done|].
      specialize (Hmono d). unfold quorum, commit_count in *. cbn. lia.
  - unfold commit_count at 1. cbn. rewrite votes_of_insert, decide_True by done.
    rewrite size_union, size_singleton; [unfold commit_count; lia|].
    intros x. rewrite elem_of_singleton. intros -> Hx%HC. lia.
  - cbn. by rewrite votes_of_insert, decide_True.
Qed.

Lemma handleCommit_inv now nowMs v m p p' hs :
  handleCommit now nowMs v m p = Ret (Some p') → vote_inv p hs →
  vote_inv p' (hs ++ executed (in_Commit m v) p).
Proof.
  unfold handleCommit, executed, executes. intros E Hp. destruct (outdated _ _ _).
  { inv_ret. cbn. by rewrite app_nil_r. }
  destruct (cm_SenderNode m) as [n|] eqn:Es; [|done]. rewrite <-Es in *.
  destruct (alloc (cm_SenderNode m) p) as [a p1] eqn:Ea.
  destruct (commit_vote_inv m p a p1 hs ltac:(by rewrite Es) Ea Hp) as (H2 & Hr & Hpool & Hqe & _ & Hv).
  set (p2 := set2DMap false (cm_Digest m) a p1) in *. cbv beta in E. cbn [negb andb fst].
  rewrite <-Hr, <-Hpool, <-Hqe, <-Hv. clearbody p2.
  destruct (quorum p2 <=? _) eqn:Hq; cbn [andb] in E |- *; [|inv_ret; by rewrite app_nil_r].
  destruct (flag_of (isReply p2) (cm_Digest m)) eqn:Hf; cbn [negb andb] in E |- *;
    [inv_ret; by rewrite app_nil_r|].
  apply bind_Ret_inv in E as (o & Eo & E). destruct o as [p3|]; [|done]. cbv zeta in E.
  assert (vote_inv p3 (hs ++ if match requestPool p2 !! cm_Digest m with Some _ => true | None => false end
    then [cm_Digest m] else [])) as H3.
  { destruct (requestPool p2 !! _).
    - eapply execute_request_inv; [done..| |done]. unfold commit_count. lia.
    - rewrite app_nil_r. by eapply ask_for_blocks_inv. }
  destruct (is_leader _); [|inv_ret; by eapply vote_inv_same].
  apply bind_Ret_inv in E as (p4 & E4 & E). inv_ret.
  unfold unlock_sequence in E4. destruct (sequenceLock _); [|done]. inv_ret. by eapply vote_inv_same.
Qed.

Lemma handleMessage_inv nowMs msg p p' t hs :
  handleMessage nowMs msg p = Ret (p', t) → vote_inv p hs → vote_inv p' hs.
Proof.
  unfold handleMessage. intros E Hp. apply bind_Ret_inv in E as ([ty c] & _ & E).
  repeat (case_decide; [first [by inv_ret|idtac]|]); [..|by inv_ret].
  - apply bind_Ret_inv in E as (m & _ & E). apply bind_Ret_inv in E as (p1 & E1 & E). inv_ret.
    apply handleViewChangeMsg_votes in E1. by eapply vote_inv_same.
  - apply bind_Ret_inv in E as (m & _ & E). apply bind_Ret_inv in E as (p1 & E1 & E). inv_ret.
    apply handleNewViewMsg_votes in E1. by eapply vote_inv_same.
  - destruct (negb _); [by inv_ret|].
    apply bind_Ret_inv in E as (m & _ & E). apply bind_Ret_inv in E as (p1 & E1 & E). inv_ret.
    apply handleRequestOldSeq_votes in E1. by eapply vote_inv_same.
  - apply bind_Ret_inv in E as (m & _ & E). apply bind_Ret_inv in E as (p1 & E1 & E). inv_ret.
    by eapply handleSendOldSeq_inv.
Qed.

Lemma pstep_inv s s' : pstep s s' → vote_inv (nd s) (history s) → vote_inv (nd s') (history s').
Proof.
  destruct 1 as [p ts ths hs nowMs msg p' t E|p ts1 t ts2 ths hs th E|p ts1 ty c ts2 ths hs cl p' b E
    |p ts ths1 th ths2 hs now nowMs p' Hw E|p ts ths hs now p' E|p ts ths hs nowMs p' E];
    cbn; intros Hp.
  - by eapply handleMessage_inv.
  - done.
  - apply outside_votes in E as [E _]. by eapply vote_inv_same.
  - destruct th as [m v|m v|m v]; cbn [run] in E; cbn [executed]; rewrite ?app_nil_r.
    + apply bind_Ret_inv in E as (p1 & E1 & E). inv_ret.
      apply handlePrePrepare_votes in E1. by eapply vote_inv_same.
    + apply bind_Ret_inv in E as (p1 & E1 & E). inv_ret. by eapply handlePrepare_inv.
    + by eapply handleCommit_inv in E.
  - apply propose_votes_ok in E. by eapply vote_inv_same.
  - apply check_view_change_votes in E. by eapply vote_inv_same.
Qed.

Lemma fresh_node_inv p : fresh_node p → vote_inv p [].
Proof.
  intros (H1 & H2 & H3 & H4 & H5). unfold vote_inv, prepare_count, commit_count, ptrs_ok.
  rewrite H1, H2, H3, H4. unfold votes_of, flag_of.
  split_and!; [done|..|constructor]; intros d; rewrite ?lookup_empty; try done; set_solver.
Qed.

(** ** Properties *)


(** The votes after one commit message, when it does not complete a quorum. *)
Lemma handleCommit_below now nowMs v m p hs :
  vote_inv p hs → outdated (cm_SeqID m) v p = false → cm_SenderNode m ≠ None →
  commit_count (cm_Digest m) p + 1 < quorum p →
  ∃ p', handleCommit now nowMs v m p = Ret (Some p') ∧ vote_inv p' hs ∧
    commit_count (cm_Digest m) p' = commit_count (cm_Digest m) p + 1 ∧
    quorum p' = quorum p ∧ outdated (cm_SeqID m) v p' = false ∧
    isReply p' = isReply p ∧ requestPool p' = requestPool p.
Proof.
  intros Hp Ho Hs Hq. unfold handleCommit. rewrite Ho.
  destruct (cm_SenderNode m) as [n|] eqn:Es; [|done]. rewrite <-Es in *.
  destruct (alloc (cm_SenderNode m) p) as [a p1] eqn:Ea.
  destruct (commit_vote_inv m p a p1 hs ltac:(by rewrite Es) Ea Hp) as (H2 & Hr & Hpool & Hqe & Hc & _).
  assert (outdated (cm_SeqID m) v (set2DMap false (cm_Digest m) a p1) = false) as Ho2.
  { unfold alloc in Ea. rewrite Es in Ea. simplify_eq. exact Ho. }
  set (p2 := set2DMap false (cm_Digest m) a p1) in *. clearbody p2.
  fold (commit_count (cm_Digest m) p2).
  destruct (Z.leb_spec (quorum p2) (commit_count (cm_Digest m) p2)); [lia|]. cbn [andb].
  exists p2. by split_and!.
Qed.

(** Handling the same commit message [n] times. *)
Fixpoint repeat_commit (now : Time) (nowMs v : Z) (m : Commit) (n : nat) p :
    outcome (option (PbftConsensusNode D)) :=
  match n with
  | O => Ret (Some p)
  | S n' =>
      o ← repeat_commit now nowMs v m n' p;
      match o with None => Ret None | Some p => handleCommit now nowMs v m p end
  end.

(** The quorum counts messages, not senders: [2f] copies of one commit
    message from one sender, for a request in the pool of a fresh node, leave the
    node one message short of executing it, and the next copy executes it. *)
Theorem one_sender_reaches_quorum now nowMs v m p :
  fresh_node p → outdated (cm_SeqID m) v p = false → cm_SenderNode m ≠ None →
  is_Some (requestPool p !! cm_Digest m) → 0 < quorum p →
  ∃ p', repeat_commit now nowMs v m (Z.to_nat (quorum p - 1)) p = Ret (Some p') ∧
        executes v m p' = true.
Proof.
  intros Hf Ho Hs Hpool Hq.
  assert (∀ n, Z.of_nat n < quorum p → ∃ p',
    repeat_commit now nowMs v m n p = Ret (Some p') ∧ vote_inv p' [] ∧
    commit_count (cm_Digest m) p' = Z.of_nat n ∧ quorum p' = quorum p ∧
    outdated (cm_SeqID m) v p' = false ∧ isReply p' = isReply p ∧
    requestPool p' = requestPool p) as Hrep.
  { induction n as [|n IH]; intros Hn.
    - exists p. split_and!; [done|by apply fresh_node_inv| |done..].
      destruct Hf as (_ & H2 & _). unfold commit_count. rewrite H2. done.
    - destruct IH as (p1 & E1 & H1 & Hc & Hqe & Ho1 & Hr & Hp1); [lia|].
      destruct (handleCommit_below now nowMs v m p1 []) as (p2 & E2 & H2 & Hc2 & Hq2 & Ho2 & Hr2 & Hp2);
        [done..|lia|]. exists p2. cbn [repeat_commit]. rewrite E1. cbn [mbind outcome_bind].
      split_and!; [done|done|lia|congruence|done|congruence|congruence]. }
  destruct (Hrep (Z.to_nat (quorum p - 1))) as (p' & E & Hi & Hc & Hqe & Ho' & Hr & Hp'); [lia|].
  exists p'. split; [done|]. unfold executes. rewrite Ho', Hqe, Hr, Hp'. cbn [negb andb].
  destruct (alloc (cm_SenderNode m) p') as [a p1] eqn:Ea.
  destruct (commit_vote_inv m p' a p1 [] Hs Ea Hi) as (_ & _ & _ & _ & Hc2 & Hv2).
  cbn [fst]. unfold commit_count in Hc2 at 1. rewrite Hv2 in Hc2. rewrite Hc2, Hc.
  destruct Hf as (_ & _ & _ & H4 & _). rewrite H4. destruct Hpool as [r ->].
  unfold flag_of. rewrite lookup_empty. cbn. destruct (Z.leb_spec (quorum p) (Z.of_nat (Z.to_nat (quorum p - 1)) + 1)); [done|lia].
Qed.

(** The node after counting a commit message. *)
Definition voted (m : Commit) p : PbftConsensusNode D :=
  let '(a, q) := alloc (cm_SenderNode m) p in set2DMap false (cm_Digest m) a q.

(** A commit message that executes its request. *)
Lemma handleCommit_quorum now nowMs v m p :
  executes v m p = true → cm_SenderNode m ≠ None →
  handleCommit now nowMs v m p =
    (o ← execute_request now m (voted m p);
     match o with
     | None => Ret None
     | Some p =>
         let p := set_lastCommitTime nowMs (set_pbftStage 1 p) in
         if is_leader p then p ← unlock_sequence p; Ret (Some p) else Ret (Some p)
     end).
Proof.
  unfold executes, handleCommit, voted. intros He Hs.
  apply andb_true_iff in He as [He Hpool]. apply andb_true_iff in He as [He Hr].
  apply andb_true_iff in He as [Ho Hq]. apply negb_true_iff in Ho. rewrite Ho.
  unfold alloc in *. destruct (cm_SenderNode m) as [n|] eqn:Es; [|done]. cbn [fst] in Hq.
  unfold set2DMap in *. set (p2 := set_cntCommitConfirm _ _) in *.
  assert (votes_of (cntCommitConfirm p2) (cm_Digest m) =
    {[next_ptr p]} ∪ votes_of (cntCommitConfirm p) (cm_Digest m)) as Hv.
  { unfold p2. cbn. by rewrite votes_of_insert, decide_True. }
  rewrite Hv. change (quorum p2) with (quorum p). change (isReply p2) with (isReply p).
  change (requestPool p2) with (requestPool p). rewrite Hq, Hr. cbn [andb].
  by destruct (requestPool p !! cm_Digest m).
Qed.

Lemma voted_round m p : same_round p (voted m p).
Proof. unfold voted, alloc. by destruct (cm_SenderNode m). Qed.

(** A commit message that completes the quorum of a request in the
    pool executes it: if the module executes the request, the node answers it,
    advances its sequence id by one, returns to stage 1, holds the chain the module
    left, and, if it is the leader and holds the sequence lock, releases the lock. *)
Theorem handleCommit_executes now nowMs v m p p1 b :
  executes v m p = true → cm_SenderNode m ≠ None →
  HandleinCommit now m (voted m p) = Ret (p1, b) →
  is_leader p = false ∨ sequenceLock p = true →
  ∃ p', handleCommit now nowMs v m p = Ret (Some p') ∧
    sequenceID p' = u64 (sequenceID p + 1) ∧ pbftStage p' = 1 ∧ CurChain p' = CurChain p1 ∧
    flag_of (isReply p') (cm_Digest m) = true ∧ lastCommitTime p' = nowMs ∧
    sequenceLock p' = (if is_leader p then false else sequenceLock p).
Proof.
  intros He Hs Hm Hl. rewrite handleCommit_quorum by done. unfold execute_request.
  rewrite Hm. cbn [mbind outcome_bind]. apply commit_votes in Hm as [_ HR].
  pose proof (transitivity (voted_round m p) HR) as (R1 & R2 & R3 & R4 & R5 & R6).
  unfold is_leader in *. cbn. rewrite R2, R6. destruct (u64 (view p) =? p_NodeID p).
  - unfold unlock_sequence. cbn. destruct Hl as [?|Hl]; [done|]. rewrite R4, Hl. cbn.
    eexists. split; [done|]. cbn. rewrite R1. split_and!; try done.
    by rewrite flag_of_insert, decide_True.
  - eexists. split; [done|]. cbn. rewrite R1, R4. split_and!; try done.
    by rewrite flag_of_insert, decide_True.
Qed.

(** A node that became leader by a view change without having proposed
    panics when it commits the request of the previous leader: [handleCommit]
    unlocks a sequence lock that only [Propose] locks. *)
Theorem new_leader_commit_panics now nowMs v m p p1 b :
  executes v m p = true → cm_SenderNode m ≠ None →
  HandleinCommit now m (voted m p) = Ret (p1, b) →
  is_leader p = true → sequenceLock p = false →
  handleCommit now nowMs v m p = Panic "unlock of unlocked mutex".
Proof.
  intros He Hs Hm Hl Hk. rewrite handleCommit_quorum by done. unfold execute_request.
  rewrite Hm. cbn [mbind outcome_bind]. apply commit_votes in Hm as [_ HR].
  pose proof (transitivity (voted_round m p) HR) as (R1 & R2 & R3 & R4 & R5 & R6).
  unfold is_leader in *. cbn. rewrite R2, R6, Hl. unfold unlock_sequence. cbn. by rewrite R4, Hk.
Qed.

(** ** Fetching old requests *)
Lemma old_requests_lookup p n h i r :
  old_requests p n h !! i = Some r →
  ∃ d, height2Digest p !! (h + Z.of_nat i) = Some d ∧ requestPool p !! d = Some r.
Proof.
  revert h i. induction n as [|n IH]; intros h i; cbn; [done|].
  destruct (height2Digest p !! h) as [d|] eqn:Ed; [|done].
  destruct (requestPool p !! d) as [r'|] eqn:Er; [|done]. destruct i as [|i]; cbn.
  - intros [= <-]. rewrite Z.add_0_r. eauto.
  - intros Hi. apply IH in Hi. by replace (h + Z.of_nat (S i)) with (h + 1 + Z.of_nat i) by lia.
Qed.

Lemma old_requests_stop p n h :
  (length (old_requests p n h) ≤ n)%nat ∧
  ((length (old_requests p n h) < n)%nat →
   height2Digest p !! (h + zlen (old_requests p n h)) ≫= (λ d, requestPool p !! d) = None).
Proof.
  revert h. induction n as [|n IH]; intros h; cbn; [lia|].
  destruct (height2Digest p !! h) as [d|] eqn:Ed; cbn.
  2:{ split; [lia|]. intros _. unfold zlen. cbn. by rewrite Z.add_0_r, Ed. }
  destruct (requestPool p !! d) as [r|] eqn:Er; cbn.
  2:{ split; [lia|]. intros _. unfold zlen. cbn. rewrite Z.add_0_r, Ed. cbn. done. }
  destruct (IH (h + 1)) as [H1 H2]. split; [lia|]. intros Hlt. rewrite zlen_cons.
  replace (h + (zlen (old_requests p n (h + 1)) + 1)) with
    (h + 1 + zlen (old_requests p n (h + 1))) by lia. apply H2. lia.
Qed.

(** The leader answers a request for old blocks with the requests
    committed at consecutive heights from the first one asked for: the [i]-th
    answer is the request stored for that height, and the answer is complete or ends
    right before the first height the leader does not know. *)
Theorem handleRequestOldSeq_answers rom p sender :
  is_leader p = true → ro_SenderNode rom = Some sender →
  let n := Z.to_nat (ro_SeqEndHeight rom - ro_SeqStartHeight rom + 1) in
  let oldR := old_requests p n (ro_SeqStartHeight rom) in
  (∀ i r, oldR !! i = Some r →
     ∃ d, height2Digest p !! (ro_SeqStartHeight rom + Z.of_nat i) = Some d ∧
          requestPool p !! d = Some r) ∧
  (length oldR = n ∨
   height2Digest p !! (ro_SeqStartHeight rom + zlen oldR) ≫= (λ d, requestPool p !! d) = None) ∧
  ∀ p1 b, HandleReqestforOldSeq rom p = Ret (p1, b) →
    ∃ msg, MergeMessage CSendOldrequest
             (marshal (mkSOM (ro_SeqStartHeight rom) (ro_SeqEndHeight rom) oldR
                         (Some (RunningNode p1)))) = Ret msg ∧
           handleRequestOldSeq rom p = Ret (TcpDial msg (IPaddr sender) p1).
Proof.
  intros Hl Hs n oldR. split_and!.
  - intros i r. apply old_requests_lookup.
  - destruct (old_requests_stop p n (ro_SeqStartHeight rom)) as [H1 H2].
    destruct (decide (length oldR = n)); [by left|right]. apply H2. unfold oldR in *. lia.
  - intros p1 b E. unfold handleRequestOldSeq. rewrite Hl, Hs, E. cbn [negb mbind outcome_bind].
    destruct (split_merge CSendOldrequest (marshal (mkSOM (ro_SeqStartHeight rom)
      (ro_SeqEndHeight rom) oldR (Some (RunningNode p1)))) eq_refl) as (msg & Em & _).
    exists msg. split; [done|]. fold n. fold oldR. rewrite Em. done.
Qed.

(** ** View change *)

(** A node enters a view exactly when the message makes the distinct
    senders that announced this view and sequence id exactly [2f+1]; it then adopts
    the announced view and sequence id, whatever its own are.  In particular a
    repeated message from a counted sender, while the count is still [2f+1], sets the
    node back to that view and sequence id. *)
Theorem handleNewViewMsg_enters nowMs nv p :
  let k := (nv_NextView nv, NewSeqID nv) in
  let senders := {[nv_FromNode nv]} ∪ voters (newViewMap p) k in
  ∃ p', handleNewViewMsg nowMs nv p = Ret p' ∧ voters (newViewMap p') k = senders ∧
    (if Z.of_nat (size senders) =? quorum_int p
     then view p' = i32 (nv_NextView nv) ∧ sequenceID p' = u64 (NewSeqID nv) ∧ pbftStage p' = 1
     else view p' = view p ∧ sequenceID p' = sequenceID p ∧ pbftStage p' = pbftStage p) ∧
    (nv_FromNode nv ∈ voters (newViewMap p) k →
     Z.of_nat (size (voters (newViewMap p) k)) = quorum_int p →
     view p' = i32 (nv_NextView nv) ∧ sequenceID p' = u64 (NewSeqID nv)).
Proof.
  intros k senders. unfold handleNewViewMsg. cbv zeta. fold k. fold senders.
  assert (∀ m, voters (<[k := senders]> m) k = senders) as Hv.
  { intros m. unfold voters. by rewrite lookup_insert_eq. }
  set (q := set_newViewMap _ p). change (voters (newViewMap q) k) with
    (voters (<[k := senders]> (newViewMap p)) k). rewrite Hv. change (quorum_int q) with (quorum_int p).
  assert (nv_FromNode nv ∈ voters (newViewMap p) k → senders = voters (newViewMap p) k) as Hdup.
  { intros Hin. unfold senders. set_solver. }
  destruct (Z.eqb_spec (Z.of_nat (size senders)) (quorum_int p)) as [Heq|Hne];
    eexists; (split_and!; [done|apply Hv|done..|]); [done|].
  intros Hin Hq. exfalso. apply Hne. by rewrite Hdup.
Qed.

(** ** Quorums *)

(** The identifiers of the nodes of a shard. *)
Definition node_ids (n : Z) : gset Z := list_to_set (seqZ 0 n).

Lemma size_node_ids n : 0 ≤ n → size (node_ids n) = Z.to_nat n.
Proof.
  intros Hn. unfold node_ids. rewrite size_list_to_set by apply NoDup_seqZ.
  by rewrite length_seqZ.
Qed.

(** The overlap of two sets of nodes. *)
Lemma overlap n (A B : gset Z) :
  0 ≤ n → A ⊆ node_ids n → B ⊆ node_ids n →
  Z.of_nat (size A) + Z.of_nat (size B) - n ≤ Z.of_nat (size (A ∩ B)).
Proof.
  intros Hn HA HB.
  assert (size (A ∪ B) ≤ Z.to_nat n)%nat as HU.
  { rewrite <-size_node_ids by done. apply subseteq_size. set_solver. }
  assert (size (A ∪ B) = size A + size (B ∖ A))%nat by apply size_union_alt.
  assert (size B = size (B ∩ A) + size (B ∖ A))%nat.
  { rewrite <-size_union by set_solver. f_equal. apply set_eq. intros x.
    destruct (decide (x ∈ A)); set_solver. }
  assert (A ∩ B = B ∩ A) as -> by set_solver. lia.
Qed.

Lemma NewPbftNode_quorum shardID nodeID pcc bc ips now (data : D) :
  1 ≤ Nodes_perShard pcc < 2 ^ 62 →
  ∃ p, NewPbftNode shardID nodeID pcc (Ret bc) ips now data = Ret p ∧
       quorum p = 2 * ((Nodes_perShard pcc - 1) / 3) + 1.
Proof.
  intros Hn. eexists. split; [done|]. unfold quorum. cbn [malicious_nums].
  rewrite (u64_id (Nodes_perShard pcc - 1)) by (unfold is_u64, u64_mod; lia).
  pose proof (Z.div_lt_upper_bound (Nodes_perShard pcc - 1) 3 (2 ^ 62)).
  pose proof (Z.div_pos (Nodes_perShard pcc - 1) 3).
  apply u64_id. unfold is_u64, u64_mod. lia.
Qed.

(** With [N = 3f+1] nodes per shard two quorums of a new node's size
    share at least [f+1] nodes, hence a correct one when at most [f] are faulty. *)
Theorem quorums_intersect shardID nodeID pcc bc ips now (data : D) f A B :
  0 ≤ f < 2 ^ 60 → Nodes_perShard pcc = 3 * f + 1 →
  A ⊆ node_ids (Nodes_perShard pcc) → B ⊆ node_ids (Nodes_perShard pcc) →
  ∃ p, NewPbftNode shardID nodeID pcc (Ret bc) ips now data = Ret p ∧
    quorum p = 2 * f + 1 ∧
    (quorum p ≤ Z.of_nat (size A) → quorum p ≤ Z.of_nat (size B) →
     f + 1 ≤ Z.of_nat (size (A ∩ B))).
Proof.
  intros Hf HN HA HB.
  destruct (NewPbftNode_quorum shardID nodeID pcc bc ips now data) as (p & E & Hq); [lia|].
  assert ((Nodes_perShard pcc - 1) / 3 = f) as Hdiv.
  { rewrite HN. replace (3 * f + 1 - 1) with (f * 3) by lia. by apply Z.div_mul. }
  exists p. split; [done|]. rewrite Hq, Hdiv. split; [done|]. intros H1 H2.
  pose proof (overlap (Nodes_perShard pcc) A B ltac:(lia) HA HB). lia.
Qed.

(** For other numbers of nodes the quorum is too small: with six nodes
    per shard a new node's quorum is three, and there are two quorums with no node in
    common, which can commit different requests. *)
Theorem quorums_disjoint_with_six_nodes shardID nodeID pcc bc ips now (data : D) :
  Nodes_perShard pcc = 6 →
  ∃ p A B, NewPbftNode shardID nodeID pcc (Ret bc) ips now data = Ret p ∧
    A ⊆ node_ids 6 ∧ B ⊆ node_ids 6 ∧ Z.of_nat (size A) = quorum p ∧
    Z.of_nat (size B) = quorum p ∧ A ∩ B = ∅.
Proof.
  intros HN. destruct (NewPbftNode_quorum shardID nodeID pcc bc ips now data) as (p & E & Hq); [lia|].
  rewrite HN in Hq. change (2 * ((6 - 1) / 3) + 1) with 3 in Hq.
  exists p, {[0; 1; 2]}, {[3; 4; 5]}. rewrite Hq.
  split_and!; [done|apply (bool_decide_unpack _); vm_compute; exact I..].
Qed.

End Pbft.
