(* ===== verification/Relay.v ===== *)
(** * Transaction relay between shards

    Models the default modules of a node: [RawRelayPbftExtraHandleMod] of
    src/consensus_shard/pbft_all/pbftInside_module.go, which proposes blocks, checks
    and adds them, and relays the cross-shard transactions of an added block; and
    [RawRelayOutsideModule] of pbftOutside_module.go, which receives relayed and
    injected transactions; with the sending functions of toolFuncs.go.

    The loop of [HandleinCommit] writes [tx.Relayed] through pointers shared with the
    decoded block, which [AddBlock] made the current block: the marks are visible in
    the current block (not in the stored one, encoded before). *)

From S2P Require Import Prelude Params Utils Interfaces Core Instances Sha256.
From S2P Require Import TxPool Storage G2E BlockChain Ledger ChainProps MerkleProof.
From S2P Require Import Messages PbftNode Pbft.

Section Relay.
Context {PR : Params} {BS : BitSetOps} {G : GobOps} {BO : BoltOps} {T : TrieOps}.
Context {JReq : Json Request} {JRl : Json Relay} {JRw : Json RelayWithProof}.
Context {JBI : Json BlockInfoMsg} {JIT : Json InjectTxs}.
Context {JP : Json Prepare} {JRO : Json RequestOldMessage}.

Context {D : Type}.

Abbreviation node := (PbftConsensusNode D).
Implicit Type p : node.

Definition set_pool (pool : TxPool) p : node := set_CurChain (set_Txpool (CurChain p) pool) p.

(** ** Sending relayed transactions *)

(** The loop over the shard ids: one message per other shard. *)
Definition send_to_shards (mk : node → Z → outcome bytes) (n : Z) p : outcome node :=
  foldM (λ p sid,
    if sid =? p_ShardID p then Ret p
    else msg_send ← mk p sid; Ret (TcpDial msg_send (ip_of p sid 0) p))
    p (seqZ 0 n).

Definition relay_bytes p (sid : Z) : outcome bytes :=
  MergeMessage CRelay
    (marshal (mkRelay (relay_of (Txpool (CurChain p)) sid) (p_ShardID p) (sequenceID p))).

Definition RelayMsgSend p : outcome node :=
  if negb (RelayWithMerkleProof =? 0) then Panic "Parameter Error"
  else
    p ← send_to_shards relay_bytes (ShardNums (pbftChainConfig p)) p;
    Ret (set_pool (ClearRelayPool (Txpool (CurChain p))) p).

Definition proof_bytes (block : Block) p (sid : Z) : outcome bytes :=
  let txs := relay_of (Txpool (CurChain p)) sid in
  txProofs ← TxProofBatchGenerateOnBlock (TxHash <$> txs) block;
  MergeMessage CRelayWithProof (marshal (mkRWP txs txProofs (p_ShardID p) (sequenceID p))).

Definition RelayWithProofSend (block : Block) p : outcome node :=
  if negb (RelayWithMerkleProof =? 1) then Panic "Parameter Error"
  else
    p ← send_to_shards (proof_bytes block) (ShardNums (pbftChainConfig p)) p;
    Ret (set_pool (ClearRelayPool (Txpool (CurChain p))) p).

(** ** [RawRelayPbftExtraHandleMod] *)
Definition Relay_HandleinPropose (clock : nat → Time) p : outcome (node * (bool * Request)) :=
  '(block, bc) ← GenerateBlock (i32 (p_NodeID p)) (clock 0%nat) (CurChain p);
  Ret (set_CurChain bc p, (true, mkRequest BlockRequest (Block_Encode block) (clock 1%nat))).

Definition Relay_HandleinPrePrepare (ppmsg : PrePrepare) p : outcome (node * bool) :=
  b ← DecodeB (Msg_Content (RequestMsg ppmsg));
  match IsValidBlock (CurChain p) b with
  | Some _ => Ret (p, false)
  | None =>
      Ret (set_requestPool (<[pp_Digest ppmsg := RequestMsg ppmsg]> (requestPool p)) p, true)
  end.

Definition Relay_HandleinPrepare (_ : Prepare) p : outcome (node * bool) := Ret (p, true).

(** The variables of the loop over the block: the pool, the three lists, and the
    transactions as the loop leaves them. *)
Record relay_state := mkRS {
  rs_pool : TxPool;
  rs_inner : list Transaction;
  rs_relay1 : list Transaction;
  rs_relay2 : list Transaction;
  rs_body : list Transaction
}.

Definition classify (bc : BlockChain) (shard : Z) (s : relay_state) (tx : Transaction) :
    outcome relay_state :=
  ssid ← Get_PartitionMap bc (Sender tx);
  rsid ← Get_PartitionMap bc (Recipient tx);
  if negb (Relayed tx) && negb (ssid =? shard) then Panic "incorrect tx"
  else if Relayed tx && negb (rsid =? shard) then Panic "incorrect tx"
  else if negb (rsid =? shard) then
    let tx := set_Relayed true tx in
    pool ← AddRelayTx tx rsid (rs_pool s);
    Ret (mkRS pool (rs_inner s) (rs_relay1 s ++ [tx]) (rs_relay2 s) (rs_body s ++ [tx]))
  else if Relayed tx then
    Ret (mkRS (rs_pool s) (rs_inner s) (rs_relay1 s) (rs_relay2 s ++ [tx]) (rs_body s ++ [tx]))
  else
    Ret (mkRS (rs_pool s) (rs_inner s ++ [tx]) (rs_relay1 s) (rs_relay2 s) (rs_body s ++ [tx])).

(** The main node's part of [HandleinCommit]; [adopted] tells whether [AddBlock] made
    [block] the current block, [epoch] is the epoch of the report. *)
Definition relay_block (epoch : Z) (now : Time) (r : Request) (block : Block) (adopted : bool) p :
    outcome node :=
  let pool := mkPool (TxQueue (Txpool (CurChain p))) (Some ∅) in
  s ← foldM (classify (CurChain p) (p_ShardID p)) (mkRS pool [] [] [] []) (Body block);
  let block := set_Body block (rs_body s) in
  let p := set_pool (rs_pool s) p in
  let p := if adopted
           then set_CurChain (set_tip (CurChain p) block (bc_Storage (CurChain p))) p else p in
  p ← (if RelayWithMerkleProof =? 1 then RelayWithProofSend block p else RelayMsgSend p);
  msg_send ← MergeMessage CBlockInfo
    (marshal (mkBIM (zlen (Body block)) (rs_inner s) epoch (ReqTime r) now (p_ShardID p)
                (rs_relay1 s) (rs_relay2 s) [] []));
  Ret (TcpDial msg_send (ip_of p SupervisorShard 0) p).

Definition Relay_HandleinCommit (now : Time) (cmsg : Commit) p : outcome (node * bool) :=
  r ← or_panic "nil pointer dereference" (requestPool p !! cm_Digest cmsg);
  block ← DecodeB (Msg_Content r);
  bc ← AddBlock block (CurChain p);
  let adopted := extends_tip (CurChain p) block in
  let p := set_CurChain bc p in
  if is_leader p then p ← relay_block 0 now r block adopted p; Ret (p, true)
  else Ret (p, true).

Definition Relay_HandleReqestforOldSeq (_ : RequestOldMessage) p : outcome (node * bool) :=
  Ret (p, true).

(** One request of the loop of [HandleforSequentialRequest]. *)
Definition add_old (p : node) (r : Request) : outcome node :=
  if decide (RequestType_ r = BlockRequest) then
    b ← DecodeB (Msg_Content r);
    bc ← AddBlock b (CurChain p);
    Ret (set_CurChain bc p)
  else Ret p.

Definition Relay_HandleforSequentialRequest (som : SendOldMessage) p : outcome (node * bool) :=
  if negb (i64 (u64 (so_SeqEndHeight som - so_SeqStartHeight som + 1)) =? zlen (OldRequest som))
  then Ret (p, true)
  else
    p ← foldM add_old p (OldRequest som);
    (* [height <= SeqEndHeight] never fails when the end is the largest height *)
    if so_SeqEndHeight som =? u64_mod - 1 then Panic "index out of range"
    else Ret (set_sequenceID (u64 (so_SeqEndHeight som + 1)) p, true).

#[export] Instance RawRelayPbftExtraHandleMod : ExtraOpInConsensus (D := D) := {|
  HandleinPropose := Relay_HandleinPropose;
  HandleinPrePrepare := Relay_HandleinPrePrepare;
  HandleinPrepare := Relay_HandleinPrepare;
  HandleinCommit := Relay_HandleinCommit;
  HandleReqestforOldSeq := Relay_HandleReqestforOldSeq;
  HandleforSequentialRequest := Relay_HandleforSequentialRequest
|}.

(** ** [RawRelayOutsideModule] *)
Definition set_seqID (sid seq : Z) p : node := set_seqIDMap (<[sid := seq]> (seqIDMap p)) p.

Definition handleRelay (clock : nat → Time) (relay : Relay) p : node :=
  set_seqID (rl_SenderShardID relay) (rl_SenderSeq relay)
    (set_pool (AddTxs2Pool clock (rl_Txs relay) (Txpool (CurChain p))) p).

(** The loop over the transactions and their proofs, which stops at the first wrong
    one. *)
Fixpoint check_proofs (txs : list Transaction) (proofs : list TxProofResult) : outcome bool :=
  match txs with
  | [] => Ret true
  | tx :: txs' =>
      match proofs with
      | [] => Panic "index out of range"
      | pf :: proofs' =>
          '(ok, _) ← TxProofVerify (TxHash tx) pf;
          if ok : bool then check_proofs txs' proofs' else Ret false
      end
  end.

Definition handleRelayWithProof (clock : nat → Time) (rwp : RelayWithProof) p : outcome node :=
  isAllCorrect ← check_proofs (rw_Txs rwp) (TxProofs rwp);
  let p := if isAllCorrect : bool
           then set_pool (AddTxs2Pool clock (rw_Txs rwp) (Txpool (CurChain p))) p else p in
  Ret (set_seqID (rw_SenderShardID rwp) (rw_SenderSeq rwp) p).

Definition handleInjectTx (clock : nat → Time) (it : InjectTxs) p : node :=
  set_pool (AddTxs2Pool clock (it_Txs it) (Txpool (CurChain p))) p.

Definition Relay_HandleMessageOutsidePBFT (clock : nat → Time) (msgType : MessageType)
    (content : bytes) p : outcome (node * bool) :=
  if decide (msgType = CRelay) then m ← decode content; Ret (handleRelay clock m p, true)
  else if decide (msgType = CRelayWithProof) then
    m ← decode content; p ← handleRelayWithProof clock m p; Ret (p, true)
  else if decide (msgType = CInject) then
    m ← decode content; Ret (handleInjectTx clock m p, true)
  else Ret (p, true).

#[export] Instance RawRelayOutsideModule : OpInterShards (D := D) := {|
  HandleMessageOutsidePBFT := Relay_HandleMessageOutsidePBFT
|}.

(** ** The modules keep votes and round *)
Lemma send_to_shards_sent mk n p p' :
  send_to_shards mk n p = Ret p' → ∃ l, p' = set_sent l p.
Proof.
  unfold send_to_shards. intros E.
  apply (foldM_inv (λ p', ∃ l, p' = set_sent l p)) in E; [done| |by exists (sent p); destruct p].
  intros q sid q' _ [l ->] Eq. destruct (_ =? _); [inv_ret; eauto|].
  apply bind_Ret_inv in Eq as (msg & _ & Eq). inv_ret. by eexists.
Qed.

Lemma RelayMsgSend_same p p' : RelayMsgSend p = Ret p' → same_votes p p' ∧ same_round p p'.
Proof.
  unfold RelayMsgSend. intros E. destruct (negb _); [done|].
  apply bind_Ret_inv in E as (p1 & E1 & E). apply send_to_shards_sent in E1 as [l ->]. by inv_ret.
Qed.

Lemma RelayWithProofSend_same b p p' :
  RelayWithProofSend b p = Ret p' → same_votes p p' ∧ same_round p p'.
Proof.
  unfold RelayWithProofSend. intros E. destruct (negb _); [done|].
  apply bind_Ret_inv in E as (p1 & E1 & E). apply send_to_shards_sent in E1 as [l ->]. by inv_ret.
Qed.

Lemma relay_block_same epoch now r b ad p p' :
  relay_block epoch now r b ad p = Ret p' → same_votes p p' ∧ same_round p p'.
Proof.
  unfold relay_block. cbv zeta. intros E. apply bind_Ret_inv in E as (s & _ & E).
  set (q := if ad then _ else _) in E.
  assert (same_votes p q ∧ same_round p q) as [Hv Hr] by (unfold q; by destruct ad).
  clearbody q. apply bind_Ret_inv in E as (q1 & E1 & E).
  assert (same_votes q q1 ∧ same_round q q1) as [Hv1 Hr1].
  { destruct (_ =? _); [by eapply RelayWithProofSend_same|by eapply RelayMsgSend_same]. }
  apply bind_Ret_inv in E as (msg & _ & E). inv_ret. split.
  - by etransitivity; [exact Hv|].
  - by etransitivity; [exact Hr|].
Qed.

Lemma HandleinCommit_same now m p p' b :
  Relay_HandleinCommit now m p = Ret (p', b) → same_votes p p' ∧ same_round p p'.
Proof.
  unfold Relay_HandleinCommit. cbv zeta. intros E. apply bind_Ret_inv in E as (r & _ & E).
  apply bind_Ret_inv in E as (blk & _ & E). apply bind_Ret_inv in E as (bc & _ & E).
  destruct (is_leader _); [|by inv_ret].
  apply bind_Ret_inv in E as (p1 & E1 & E). apply relay_block_same in E1. by inv_ret.
Qed.

Lemma add_olds_same l p p' :
  foldM add_old p l = Ret p' → same_votes p p' ∧ same_round p p'.
Proof.
  intros E. apply (foldM_inv (λ p', same_votes p p' ∧ same_round p p')) in E; [done| |done].
  intros q r q' _ [Hv Hr] Eq. unfold add_old in Eq. case_decide; [|by inv_ret].
  apply bind_Ret_inv in Eq as (b & _ & Eq). apply bind_Ret_inv in Eq as (bc & _ & Eq). inv_ret.
  exact (conj Hv Hr).
Qed.

#[export] Instance RawRelay_laws : ExtraOpLaws RawRelayPbftExtraHandleMod.
Proof.
  split; cbn.
  - intros cl p p' r E. unfold Relay_HandleinPropose in E.
    apply bind_Ret_inv in E as ([blk bc] & _ & E). by inv_ret.
  - intros m p p' b E. unfold Relay_HandleinPrePrepare in E.
    apply bind_Ret_inv in E as (blk & _ & E). destruct (IsValidBlock _ _); by inv_ret.
  - intros m p p' b E. unfold Relay_HandleinPrepare in E. by inv_ret.
  - intros now m p p' b E. by eapply HandleinCommit_same.
  - intros m p p' b E. unfold Relay_HandleReqestforOldSeq in E. by inv_ret.
  - intros m p p' b E. unfold Relay_HandleforSequentialRequest in E.
    destruct (negb _); [by inv_ret|]. apply bind_Ret_inv in E as (p1 & E1 & E).
    apply add_olds_same in E1 as [Hv _]. destruct (_ =? _); [done|]. by inv_ret.
Qed.

#[export] Instance RawRelayOutside_laws : OpInterShardsLaws RawRelayOutsideModule.
Proof.
  split. cbn. intros cl t c p p' b E. unfold Relay_HandleMessageOutsidePBFT in E.
  repeat case_decide; [..|by inv_ret].
  - apply bind_Ret_inv in E as (m & _ & E). by inv_ret.
  - apply bind_Ret_inv in E as (m & _ & E). apply bind_Ret_inv in E as (p1 & E1 & E). inv_ret.
    unfold handleRelayWithProof in E1. apply bind_Ret_inv in E1 as (ok & _ & E1). inv_ret.
    by destruct ok.
  - apply bind_Ret_inv in E as (m & _ & E). by inv_ret.
Qed.

(** ** Classification of a block's transactions *)

(** The shard of an address, -1 when it has none. *)
Definition shard_of (bc : BlockChain) (a : Address) : Z :=
  match Get_PartitionMap bc a with Ret s => s | Panic _ => -1 end.

(** The transaction belongs in a block of this shard. *)
Definition well_placed (bc : BlockChain) (shard : Z) (tx : Transaction) : bool :=
  tx_resolvable bc tx &&
  (if Relayed tx then shard_of bc (Recipient tx) =? shard else shard_of bc (Sender tx) =? shard).

Definition cross (bc : BlockChain) (shard : Z) (tx : Transaction) : bool :=
  negb (shard_of bc (Recipient tx) =? shard).

(** The transaction as the loop leaves it. *)
Definition marked (bc : BlockChain) (shard : Z) (tx : Transaction) : Transaction :=
  if cross bc shard tx then set_Relayed true tx else tx.

(** The transactions of the block for another shard. *)
Definition outgoing (bc : BlockChain) (shard sid : Z) (l : list Transaction) : list Transaction :=
  set_Relayed true <$>
    base.filter (λ tx, cross bc shard tx = true ∧ shard_of bc (Recipient tx) = sid) l.

Lemma classify_step bc shard s tx m :
  well_placed bc shard tx = true → RelayPool (rs_pool s) = Some m →
  classify bc shard s tx =
  Ret (if cross bc shard tx then
         mkRS (mkPool (TxQueue (rs_pool s))
                 (Some (map_append m (shard_of bc (Recipient tx)) (set_Relayed true tx))))
           (rs_inner s) (rs_relay1 s ++ [set_Relayed true tx]) (rs_relay2 s)
           (rs_body s ++ [set_Relayed true tx])
       else if Relayed tx then
         mkRS (rs_pool s) (rs_inner s) (rs_relay1 s) (rs_relay2 s ++ [tx]) (rs_body s ++ [tx])
       else
         mkRS (rs_pool s) (rs_inner s ++ [tx]) (rs_relay1 s) (rs_relay2 s) (rs_body s ++ [tx])).
Proof.
  unfold well_placed, tx_resolvable, resolvable, cross, shard_of, classify.
  intros [[HS HR]%andb_true_iff Hp]%andb_true_iff Hm.
  destruct (Get_PartitionMap bc (Sender tx)) as [ss|]; [|done].
  destruct (Get_PartitionMap bc (Recipient tx)) as [rs|]; [|done]. rewrite !bind_ret.
  unfold AddRelayTx. rewrite Hm. destruct (Relayed tx); cbn [negb andb]; rewrite Hp; cbn [negb andb].
  - done.
  - by destruct (rs =? shard).
Qed.

Lemma relay_of_append q m sid tx sid' :
  relay_of (mkPool q (Some (map_append m sid tx))) sid' =
  relay_of (mkPool q (Some m)) sid' ++ (if decide (sid = sid') then [tx] else []).
Proof. unfold relay_of. cbn. apply lookup_map_append. Qed.

(** The loop over the block, from any state. *)
Lemma classify_all bc shard l s m :
  forallb (well_placed bc shard) l = true → RelayPool (rs_pool s) = Some m →
  ∃ s', foldM (classify bc shard) s l = Ret s' ∧
    TxQueue (rs_pool s') = TxQueue (rs_pool s) ∧ is_Some (RelayPool (rs_pool s')) ∧
    rs_body s' = rs_body s ++ (marked bc shard <$> l) ∧
    rs_relay1 s' = rs_relay1 s ++ (set_Relayed true <$> base.filter (λ tx, cross bc shard tx = true) l) ∧
    rs_inner s' = rs_inner s ++ base.filter (λ tx, cross bc shard tx = false ∧ Relayed tx = false) l ∧
    rs_relay2 s' = rs_relay2 s ++ base.filter (λ tx, cross bc shard tx = false ∧ Relayed tx = true) l ∧
    ∀ sid, relay_of (rs_pool s') sid = relay_of (rs_pool s) sid ++ outgoing bc shard sid l.
Proof.
  revert s m. induction l as [|tx l IH]; intros s m Hl Hm.
  { exists s. unfold outgoing. rewrite !filter_nil. cbn. rewrite !app_nil_r, Hm.
    split_and!; try done. intros. by rewrite app_nil_r. }
  cbn [forallb] in Hl. apply andb_true_iff in Hl as [Htx Hl]. cbn [foldM].
  rewrite (classify_step bc shard s tx m Htx Hm), bind_ret. unfold marked, outgoing. cbn [fmap list_fmap].
  destruct (cross bc shard tx) eqn:Ec; [|destruct (Relayed tx) eqn:Er].
  - edestruct IH as (s' & -> & Hq & HP & Hb & H1 & Hi & H2 & Hr); [done|cbn; done|].
    exists s'. cbn [rs_pool rs_inner rs_relay1 rs_relay2 rs_body TxQueue RelayPool] in *. rewrite Hb, H1, Hi, H2, <-!app_assoc.
    rewrite filter_cons_True by done. rewrite !(filter_cons_False (λ tx, _ ∧ _)) by (intros [??]; congruence).
    split_and!; try done. intros sid. rewrite Hr, relay_of_append, <-app_assoc.
    replace (relay_of (mkPool (TxQueue (rs_pool s)) (Some m)) sid) with (relay_of (rs_pool s) sid)
      by (unfold relay_of; by rewrite Hm). f_equal. rewrite filter_cons.
    destruct (decide (shard_of bc (Recipient tx) = sid)).
    + by rewrite decide_True.
    + rewrite decide_False by (by intros [??]). done.
  - edestruct IH as (s' & -> & Hq & HP & Hb & H1 & Hi & H2 & Hr); [done|cbn; done|].
    exists s'. cbn [rs_pool rs_inner rs_relay1 rs_relay2 rs_body TxQueue RelayPool] in *. rewrite Hb, H1, Hi, H2, <-!app_assoc.
    rewrite (filter_cons_False (λ tx, cross bc shard tx = true)) by congruence.
    rewrite (filter_cons_False (λ tx, _ ∧ Relayed tx = false)) by (intros [??]; congruence).
    rewrite (filter_cons_True (λ tx, _ ∧ Relayed tx = true)) by done.
    split_and!; try done. intros sid. rewrite Hr. f_equal. f_equal.
    by rewrite filter_cons_False by (intros [??]; congruence).
  - edestruct IH as (s' & -> & Hq & HP & Hb & H1 & Hi & H2 & Hr); [done|cbn; done|].
    exists s'. cbn [rs_pool rs_inner rs_relay1 rs_relay2 rs_body TxQueue RelayPool] in *. rewrite Hb, H1, Hi, H2, <-!app_assoc.
    rewrite (filter_cons_False (λ tx, cross bc shard tx = true)) by congruence.
    rewrite (filter_cons_True (λ tx, _ ∧ Relayed tx = false)) by done.
    rewrite (filter_cons_False (λ tx, _ ∧ Relayed tx = true)) by (intros [??]; congruence).
    split_and!; try done. intros sid. rewrite Hr. f_equal. f_equal.
    by rewrite filter_cons_False by (intros [??]; congruence).
Qed.

(** ** Sending *)

(** The messages of the loop over the shards, when [mk] frames [f sid]. *)
Lemma send_to_shards_eq mk f n p :
  (∀ l sid, mk (set_sent l p) sid = Ret (f sid)) →
  send_to_shards mk n p =
  Ret (set_sent (sent p ++ ((λ sid, (ip_of p sid 0, f sid)) <$>
                              base.filter (λ sid, sid ≠ p_ShardID p) (seqZ 0 n))) p).
Proof.
  intros Hmk. unfold send_to_shards.
  assert (∀ l acc, foldM (λ p sid, if sid =? p_ShardID p then Ret p
      else msg_send ← mk p sid; Ret (TcpDial msg_send (ip_of p sid 0) p)) (set_sent acc p) l =
    Ret (set_sent (acc ++ ((λ sid, (ip_of p sid 0, f sid)) <$>
                              base.filter (λ sid, sid ≠ p_ShardID p) l)) p)) as Hgen.
  { induction l as [|sid l IH]; intros acc; [by rewrite app_nil_r|].
    cbn [foldM]. change (p_ShardID (set_sent acc p)) with (p_ShardID p).
    destruct (Z.eqb_spec sid (p_ShardID p)) as [He|Hne].
    - rewrite bind_ret, IH. rewrite filter_cons_False; [done|]. intros Hn. by apply Hn.
    - rewrite Hmk, !bind_ret. unfold TcpDial.
      change (ip_of (set_sent acc p) sid 0) with (ip_of p sid 0).
      change (set_sent (sent (set_sent acc p) ++ [(ip_of p sid 0, f sid)]) (set_sent acc p))
        with (set_sent (acc ++ [(ip_of p sid 0, f sid)]) p).
      rewrite IH, filter_cons_True by done. cbn [fmap list_fmap]. by rewrite <-app_assoc. }
  specialize (Hgen (seqZ 0 n) (sent p)). by destruct p.
Qed.

Lemma relay_block_eq epoch now r block adopted p :
  RelayWithMerkleProof = 0 →
  forallb (well_placed (CurChain p) (p_ShardID p)) (Body block) = true →
  let bc := CurChain p in
  let me := p_ShardID p in
  let others := base.filter (λ sid, sid ≠ me) (seqZ 0 (ShardNums (pbftChainConfig p))) in
  let info := mkBIM (zlen (Body block))
    (base.filter (λ tx, cross bc me tx = false ∧ Relayed tx = false) (Body block)) epoch
    (ReqTime r) now me
    (set_Relayed true <$> base.filter (λ tx, cross bc me tx = true) (Body block))
    (base.filter (λ tx, cross bc me tx = false ∧ Relayed tx = true) (Body block)) [] [] in
  ∃ p', relay_block epoch now r block adopted p = Ret p' ∧
    sent p' = sent p ++
      ((λ sid, (ip_of p sid 0, frame CRelay
         (marshal (mkRelay (outgoing bc me sid (Body block)) me (sequenceID p))))) <$> others) ++
      [(ip_of p SupervisorShard 0, frame CBlockInfo (marshal info))] ∧
    Txpool (CurChain p') = mkPool (TxQueue (Txpool bc)) None.
Proof.
  intros Hm Hw bc me others info. unfold relay_block. cbv zeta.
  destruct (classify_all (CurChain p) (p_ShardID p) (Body block)
    (mkRS (mkPool (TxQueue (Txpool (CurChain p))) (Some ∅)) [] [] [] []) ∅ Hw eq_refl)
    as (s & -> & Hq & _ & Hb & H1 & Hi & H2 & Hr). rewrite bind_ret, Hm. fold bc me in Hb, H1, Hi, H2, Hr.
  cbn [rs_pool rs_body rs_relay1 rs_inner rs_relay2 TxQueue app] in Hq, Hb, H1, Hi, H2.
  change (0 =? 1) with false. cbv iota.
  set (q := if adopted then _ else _).
  assert (p_ShardID q = me ∧ sequenceID q = sequenceID p ∧ sent q = sent p ∧
    pbftChainConfig q = pbftChainConfig p ∧ ip_nodeTable q = ip_nodeTable p ∧
    Txpool (CurChain q) = rs_pool s) as (Q1 & Q2 & Q3 & Q4 & Q5 & Q6) by (by destruct adopted).
  clearbody q. unfold RelayMsgSend. rewrite Hm. cbn [negb Z.eqb].
  rewrite (send_to_shards_eq relay_bytes (λ sid, frame CRelay
    (marshal (mkRelay (outgoing bc me sid (Body block)) me (sequenceID p))))).
  2:{ intros l sid. unfold relay_bytes. cbn. rewrite Q1, Q2, Q6, Hr.
      destruct (frame_ok CRelay (marshal (mkRelay (outgoing bc me sid (Body block)) me
        (sequenceID p))) eq_refl) as [E _]. exact E. }
  rewrite !bind_ret. rewrite Q1, Q4. fold others. cbn [set_pool set_CurChain p_ShardID set_sent].
  rewrite Q1, H1, Hi, H2, Hb. cbn [Body set_Body]. rewrite (proj1 (frame_ok CBlockInfo _ eq_refl)).
  rewrite bind_ret. eexists. split; [reflexivity|]. split.
  - cbn. rewrite Q3, <-app_assoc. unfold ip_of. cbn. rewrite Q5.
    unfold info. replace (zlen (marked bc me <$> Body block)) with (zlen (Body block)); [done|].
    unfold zlen. by rewrite length_fmap.
  - cbn. unfold ClearRelayPool. by rewrite Q6, Hq.
Qed.

(** C9 (functional) After committing a block of its shard, the leader sends every
    cross-shard transaction of the block, marked as relayed and in the block's
    order, in exactly one message to the shard of its recipient (one message per
    other shard), reports the block's transactions to the supervisor split into
    inner-shard, outgoing and incoming ones, empties its relay pool and keeps its
    transaction queue. *)
Theorem relay_block_sends epoch now r block adopted p :
  RelayWithMerkleProof = 0 →
  forallb (well_placed (CurChain p) (p_ShardID p)) (Body block) = true →
  let bc := CurChain p in
  let me := p_ShardID p in
  let others := base.filter (λ sid, sid ≠ me) (seqZ 0 (ShardNums (pbftChainConfig p))) in
  let info := mkBIM (zlen (Body block))
    (base.filter (λ tx, cross bc me tx = false ∧ Relayed tx = false) (Body block)) epoch
    (ReqTime r) now me
    (set_Relayed true <$> base.filter (λ tx, cross bc me tx = true) (Body block))
    (base.filter (λ tx, cross bc me tx = false ∧ Relayed tx = true) (Body block)) [] [] in
  ∃ p', relay_block epoch now r block adopted p = Ret p' ∧
    sent p' = sent p ++
      ((λ sid, (ip_of p sid 0, frame CRelay
         (marshal (mkRelay (outgoing bc me sid (Body block)) me (sequenceID p))))) <$> others) ++
      [(ip_of p SupervisorShard 0, frame CBlockInfo (marshal info))] ∧
    Txpool (CurChain p') = mkPool (TxQueue (Txpool bc)) None.
Proof. apply relay_block_eq. Qed.

(** ** Funds across shards *)
Context {BSL : BitSetLaws BS} {GL : GobLaws G} {BL : BoltLaws BO} {TL : TrieLaws T}.

Lemma in_shard_eq bc a tx :
  resolvable bc a = true → in_shard bc a tx = (shard_of bc a =? ShardID bc) || HasBroker tx.
Proof.
  unfold resolvable, in_shard, handles, shard_of. by destruct (Get_PartitionMap bc a).
Qed.


(** ** Relayed proofs *)
Lemma hashes_marked bc shard (l : list Transaction) : TxHash <$> (marked bc shard <$> l) = TxHash <$> l.
Proof.
  rewrite <-list_fmap_compose. apply list_fmap_ext. intros k tx _. cbn. unfold marked.
  by destruct (cross bc shard tx).
Qed.

(** Filter and root only depend on the hashes. *)
Lemma GetBloomFilter_hashes (l l' : list Transaction) :
  TxHash <$> l = TxHash <$> l' → GetBloomFilter l = GetBloomFilter l'.
Proof.
  unfold GetBloomFilter. generalize (bs_New 2048) as b. revert l'.
  induction l as [|tx l IH]; intros [|tx' l'] b E; cbn in E; try done. injection E as E1 E2.
  cbn. rewrite E1. destruct (ModBytes _ _); cbn; [by apply IH|done].
Qed.

Lemma GetTxTreeRoot_hashes (l l' : list Transaction) :
  TxHash <$> l = TxHash <$> l' → GetTxTreeRoot l = GetTxTreeRoot l'.
Proof.
  unfold GetTxTreeRoot, tx_trie. intros E. f_equal.
  generalize (trie_NewEmpty (trie_NewDatabase memory_db)) as t. revert l' E.
  induction l as [|tx l IH]; intros [|tx' l'] E t; cbn in E; try done. injection E as E1 E2.
  cbn. rewrite E1. by apply IH.
Qed.

Lemma consistent_hashes b (l : list Transaction) :
  consistent b → TxHash <$> l = TxHash <$> Body b → consistent (set_Body b l).
Proof.
  intros [H1 H2] E. split; cbn [Body Header set_Body].
  - by rewrite (GetBloomFilter_hashes l (Body b)).
  - by rewrite (GetTxTreeRoot_hashes l (Body b)).
Qed.

Lemma check_proofs_ok (txs : list Transaction) proofs :
  Forall2 (λ h r, TxProofVerify h r = Ret (true, None)) (TxHash <$> txs) proofs →
  check_proofs txs proofs = Ret true.
Proof.
  revert proofs. induction txs as [|tx txs IH]; intros proofs H; cbn in H.
  { by apply Forall2_nil_inv_l in H as ->. }
  apply Forall2_cons_inv_l in H as (r & proofs' & Hr & H & ->). cbn. rewrite Hr. cbn. by apply IH.
Qed.

(** C31 (safety) The proofs a leader attaches to relayed transactions are accepted: for
    a block whose header describes its body, the batch of proofs of the transactions
    going to a shard, made from the block with its relay marks, passes the checks of
    the receiving node, which adds exactly these transactions to its queue and
    records the sender's sequence id. *)
Theorem relayed_proofs_accepted bc me sid seq block clock q :
  consistent block →
  let txs := outgoing bc me sid (Body block) in
  ∃ proofs q',
    TxProofBatchGenerateOnBlock (TxHash <$> txs)
      (set_Body block (marked bc me <$> Body block)) = Ret proofs ∧
    handleRelayWithProof clock (mkRWP txs proofs me seq) q = Ret q' ∧
    TxQueue (Txpool (CurChain q')) =
      TxQueue (Txpool (CurChain q)) ++ imap (λ i tx, stamp (clock i) tx) txs ∧
    seqIDMap q' = <[me := seq]> (seqIDMap q).
Proof.
  intros Hc txs.
  assert (consistent (set_Body block (marked bc me <$> Body block))) as Hc'.
  { apply consistent_hashes; [done|apply hashes_marked]. }
  destruct (batch_all (set_Body block (marked bc me <$> Body block)) (TxHash <$> txs) Hc')
    as (proofs & Ep & Hp).
  { cbn [Body set_Body]. rewrite hashes_marked. unfold txs, outgoing.
    rewrite <-list_fmap_compose. intros h (tx & -> & Htx)%list_elem_of_fmap.
    apply list_elem_of_filter in Htx as [_ Htx]. by apply list_elem_of_fmap_2. }
  exists proofs. unfold handleRelayWithProof. cbn [rw_Txs TxProofs].
  rewrite (check_proofs_ok _ _ Hp), bind_ret. eexists. by split_and!.
Qed.

(** ** From proposal to commit *)

(** A proposed block is prepared and committed by every replica: from
    nodes whose chains are replicas, the leader's proposal is a block request; a
    follower at that sequence id and view that receives it in a pre-prepare message
    stores it and sends a prepare message for its digest; and when it later commits
    that digest, the proposed block becomes its tip with a state it can open. *)
Theorem proposal_commits_at_replica clock v L F st :
  replica (CurChain L) (CurChain F) → opens (CurChain L) (StateRoot (tip (CurChain L))) st →
  forallb (tx_resolvable (CurChain L)) (pack_txs (CurChain L)).1 = true →
  next_height (CurChain L) < 2 ^ 63 → storage_ok (bc_Storage (CurChain F)) →
  match GenerateBlock (i32 (p_NodeID L)) (clock 0%nat) (CurChain L) with
  | Ret (b, _) => block_fits b | Panic _ => true end = true →
  view F = v → is_leader F = false →
  ∃ L' r b, Relay_HandleinPropose clock L = Ret (L', (true, r)) ∧
    DecodeB (Msg_Content r) = Ret b ∧
    ∃ F1 msg, handlePrePrepare v (mkPP r (getDigest r) (sequenceID F)) F = Ret F1 ∧
      requestPool F1 !! getDigest r = Some r ∧ (IPaddr (RunningNode F), msg) ∈ sent F1 ∧
      SplitMessage msg = Ret (CPrepare,
        marshal (mkPrepare (getDigest r) (sequenceID F) (Some (RunningNode F)))) ∧
      ∀ now cm, cm_Digest cm = getDigest r →
        ∃ F2 st2, Relay_HandleinCommit now cm F1 = Ret (F2, true) ∧
          CurrentBlock (CurChain F2) = b ∧ opens (CurChain F2) (StateRoot (Header b)) st2.
Proof.
  intros Hr Hst Hres Hh HsF Hfit Hv Hl.
  destruct (GenerateBlock_returns (i32 (p_NodeID L)) (clock 0%nat) (CurChain L) st Hst Hres Hh)
    as (b & bcL & Eg). rewrite Eg in Hfit.
  pose proof Eg as (_ & _ & Hhash & _ & Hval)%GenerateBlock_eq.
  assert (storable b) as Hb by (by apply hashed_storable).
  assert (IsValidBlock (CurChain F) b = None) as HvalF.
  { destruct Hr as ([_ HH] & _). unfold IsValidBlock in *. by rewrite <-HH. }
  unfold Relay_HandleinPropose. rewrite Eg, bind_ret.
  set (r := mkRequest _ _ _). exists (set_CurChain bcL L), r, b. split; [done|].
  assert (DecodeB (Msg_Content r) = Ret b) as Hdec by (apply DecodeB_Encode, Hb).
  split; [done|]. unfold handlePrePrepare, outdated. cbn [pp_SeqID pp_Digest RequestMsg].
  rewrite Z.ltb_irrefl, Hv, Z.eqb_refl. cbn [orb negb].
  rewrite bool_decide_eq_true_2 by done. cbn [negb HandleinPrePrepare RawRelayPbftExtraHandleMod].
  unfold Relay_HandleinPrePrepare. cbn [pp_SeqID pp_Digest RequestMsg].
  rewrite Hdec, bind_ret, HvalF, !bind_ret.
  set (F0 := record_request r (sequenceID F) _). unfold prepare_bytes.
  destruct (split_merge CPrepare (marshal (mkPrepare (getDigest r) (sequenceID F)
    (Some (RunningNode F0)))) eq_refl) as (msg & Em & Es). rewrite Em, bind_ret.
  exists (set_pbftStage (i32 (pbftStage (send_all msg F0) + 1)) (send_all msg F0)), msg.
  destruct (send_all_sent msg F0) as [l El]. split; [done|]. split; [|split; [|split; [exact Es|]]].
  - rewrite El. cbn. by rewrite lookup_insert_eq.
  - exact (send_all_self msg F0).
  - intros now cm Hcm. unfold Relay_HandleinCommit. rewrite El. cbn [requestPool set_pbftStage set_sent].
    assert (requestPool F0 !! cm_Digest cm = Some r) as ->.
    { rewrite Hcm. unfold F0, record_request. cbn. by rewrite lookup_insert_eq. }
    cbn [or_panic]. rewrite bind_ret, Hdec, bind_ret.
    destruct (AddBlock_replica _ _ (CurChain L) (CurChain F) b bcL Hr Eg HsF Hb)
      as (F' & s & EF & _ & _ & (st1 & st2 & _ & Ho2 & _) & _).
    change (CurChain (set_pbftStage _ _)) with (CurChain F). rewrite EF, bind_ret.
    change (is_leader (set_CurChain _ _)) with (is_leader F). rewrite Hl.
    eexists _, st2. split; [done|]. cbn. split; [done|]. exact Ho2.
Qed.

(** ** Nodes left behind *)
Lemma add_olds_rejected l p :
  Forall (λ r, ∃ b, DecodeB (Msg_Content r) = Ret b ∧
                    Number (Header b) ≠ u64 (Number (tip (CurChain p)) + 1)) l →
  foldM add_old p l = Ret p.
Proof.
  induction 1 as [|r l (b & Eb & Hn) Hl IH]; [done|]. cbn. unfold add_old at 2.
  case_decide; [|by rewrite bind_ret]. rewrite Eb, bind_ret.
  rewrite AddBlock_rejects; [rewrite !bind_ret; by destruct p|].
  unfold extends_tip. by destruct (Z.eqb_spec (Number (Header b)) (u64 (Number (tip (CurChain p)) + 1))).
Qed.

(** A node that misses a block never recovers it: it asks for the
    requests from the height after its sequence id on, so, when its chain ends right
    before that id, none of the blocks it is sent extends the chain; they are all
    ignored, yet the sequence id jumps past them and the chain stays behind. *)
Theorem left_behind_node_stays_behind m p som :
  askForLock p = false →
  sequenceID p = Number (tip (CurChain p)) + 1 → 0 ≤ Number (tip (CurChain p)) →
  so_SeqStartHeight som = sequenceID p + 1 → so_SeqEndHeight som < 2 ^ 63 - 1 →
  so_SeqEndHeight som - so_SeqStartHeight som + 1 = zlen (OldRequest som) →
  (∀ i r, OldRequest som !! i = Some r →
     ∃ b, DecodeB (Msg_Content r) = Ret b ∧
          Number (Header b) = so_SeqStartHeight som + Z.of_nat i) →
  (∃ p' addr msg, ask_for_blocks m p = Ret (Some p') ∧ sent p' = sent p ++ [(addr, msg)] ∧
     ∃ sn, SplitMessage msg = Ret (CRequestOldrequest, marshal
       (mkROM (so_SeqStartHeight som) (cm_SeqID m) sn (Some (RunningNode p))))) ∧
  ∃ p'', Relay_HandleforSequentialRequest som p = Ret (p'', true) ∧
    CurChain p'' = CurChain p ∧ sequenceID p'' = so_SeqEndHeight som + 1.
Proof.
  intros Hlock Hseq Hn0 Hstart Hend Hlen Hblocks.
  pose proof (zlen_nonneg (OldRequest som)). split.
  - unfold ask_for_blocks. cbv zeta. change (askForLock (set_replied _ p)) with (askForLock p).
    rewrite Hlock.
    match goal with |- context [MergeMessage CRequestOldrequest ?c] =>
      destruct (split_merge CRequestOldrequest c eq_refl) as (msg & Em & Es) end.
    rewrite Em, bind_ret. eexists _, _, msg. split; [done|]. split; [done|].
    rewrite Hstart. eexists. rewrite Es. cbn. do 4 f_equal.
    apply u64_id. unfold is_u64, u64_mod. lia.
  - unfold Relay_HandleforSequentialRequest.
    rewrite (u64_id (_ + 1)) by (unfold is_u64, u64_mod; lia). rewrite i64_id by lia.
    rewrite Hlen, Z.eqb_refl. cbn [negb]. rewrite add_olds_rejected.
    + rewrite bind_ret. destruct (Z.eqb_spec (so_SeqEndHeight som) (u64_mod - 1));
        [unfold u64_mod in *; lia|]. eexists. split; [done|]. cbn. split; [done|].
      apply u64_id. unfold is_u64, u64_mod. lia.
    + apply Forall_lookup. intros i r Hi. destruct (Hblocks i r Hi) as (b & Eb & Hb).
      exists b. split; [done|]. apply lookup_lt_Some in Hi. unfold zlen in *.
      rewrite u64_id by (unfold is_u64, u64_mod; lia). lia.
Qed.

End Relay.
