(* ===== verification/PbftRound.v ===== *)
(** * A round of consensus completes

    The handlers of src/consensus_shard/pbft_all/messageHandle.go wait for each other
    through the stage of the node.  This file shows that they do not block each other:
    once a replica has the pre-prepare message of a valid block and a quorum of prepare
    and of commit messages, its waiting handlers can only run in ways that execute the
    block, whatever the order in which the scheduler takes them. *)

From S2P Require Import Prelude Params Utils Interfaces Core Instances Sha256.
From S2P Require Import TxPool Storage G2E BlockChain Ledger ChainProps MerkleProof.
From S2P Require Import Messages PbftNode Pbft Relay.

(** ** The handlers of one digest *)
Section Handlers.
Context {PR : Params} {BS : BitSetOps} {G : GobOps} {BO : BoltOps} {T : TrieOps}.
Context {JRelay : Json Relay} {JRWP : Json RelayWithProof} {JBI : Json BlockInfoMsg}.
Context {JIT : Json InjectTxs} {JReq : Json Request} {JPP : Json PrePrepare}.
Context {JP : Json Prepare} {JC : Json Commit} {JRO : Json RequestOldMessage}.
Context {JSO : Json SendOldMessage} {JVC : Json ViewChangeMsg} {JNV : Json NewViewMsg}.
Context {D : Type}.

Abbreviation node := (PbftConsensusNode D).
Implicit Type p : node.

(** A step of the node in which a waiting handler finishes. *)
Definition serves (s s' : sys (D := D)) : Prop :=
  pstep s s' ∧ length (threads s) = S (length (threads s')).

Lemma serves_inv p ts ths hs s' :
  serves (mkSys p ts ths hs) s' →
  ∃ ths1 th ths2 now nowMs p', ths = ths1 ++ th :: ths2 ∧ thread_waits th p = false ∧
    run now nowMs th p = Ret (Some p') ∧
    s' = mkSys p' ts (ths1 ++ ths2) (hs ++ executed th p).
Proof.
  intros [Hs Hl]. inversion Hs; subst; cbn in Hl; try lia.
  eexists _, _, _, _, _, _. split; [done|]. split; [done|]. split; [done|]. done.
Qed.

Lemma serves_intro p ts ths1 th ths2 hs now nowMs p' :
  thread_waits th p = false → run now nowMs th p = Ret (Some p') →
  serves (mkSys p ts (ths1 ++ th :: ths2) hs) (mkSys p' ts (ths1 ++ ths2) (hs ++ executed th p)).
Proof.
  intros Hw Hr. split; [by eapply step_run|]. cbn. rewrite !length_app. cbn. lia.
Qed.

(** The votes for a digest were counted under addresses already given out. *)
Definition counted (d : bytes) p : Prop :=
  (∀ a, a ∈ votes_of (cntPrepareConfirm p) d → a < next_ptr p) ∧
  (∀ a, a ∈ votes_of (cntCommitConfirm p) d → a < next_ptr p).

Lemma size_new_vote (s : gset Z) n :
  (∀ a, a ∈ s → a < n) → Z.of_nat (size ({[n]} ∪ s)) = Z.of_nat (size s) + 1.
Proof.
  intros H. rewrite size_union, size_singleton; [lia|].
  intros x. rewrite elem_of_singleton. intros -> Hx%H. lia.
Qed.

Definition prepared (m : Prepare) p : node :=
  let '(a, q) := alloc (pr_SenderNode m) p in set2DMap true (pr_Digest m) a q.

(** What [send_all] sends: the message to every other node and to the node itself. *)
Definition bcast (msg : bytes) p : list (string * bytes) :=
  ((λ ip, (ip, msg)) <$> base.filter (λ ip, ip ≠ IPaddr (RunningNode p)) (getNeighborNodes p)) ++
  [(IPaddr (RunningNode p), msg)].

Lemma send_all_eq msg p : send_all msg p = set_sent (sent p ++ bcast msg p) p.
Proof.
  assert (∀ sender ips l, Broadcast sender ips msg (set_sent l p) =
    set_sent (l ++ ((λ ip, (ip, msg)) <$> base.filter (λ ip, ip ≠ sender) ips)) p) as HB.
  { intros sender ips. unfold Broadcast. induction ips as [|ip ips IH]; intros l.
    - by rewrite filter_nil, app_nil_r.
    - cbn [foldl]. rewrite filter_cons. destruct (decide (ip = sender)) as [->|Hne].
      + rewrite IH, decide_False by (intros Hn; by apply Hn). done.
      + rewrite decide_True by done. unfold TcpDial.
        etransitivity; [exact (IH (l ++ [(ip, msg)]))|]. by rewrite <-app_assoc. }
  unfold send_all, TcpDial, bcast. rewrite app_assoc.
  specialize (HB (IPaddr (RunningNode p)) (getNeighborNodes p) (sent p)).
  replace (set_sent (sent p) p) with p in HB by (by destruct p). by rewrite HB.
Qed.

(** The commit message of a node. *)
Definition commit_frame (d : bytes) (seq : Z) p : bytes :=
  frame CCommit (marshal (mkCommit d seq (Some (RunningNode p)))).

(** One prepare message of the round the node is in. *)
Lemma handlePrepare_eq v m p r d :
  pr_Digest m = d → outdated (pr_SeqID m) v p = false → requestPool p !! d = Some r →
  pr_SeqID m ≤ sequenceID p → pr_SenderNode m ≠ None → counted d p →
  handlePrepare v m p = Ret (
    if (quorum p <=? prepare_count d p + 1) && negb (flag_of (isCommitBordcast p) d)
    then set_pbftStage (i32 (pbftStage p + 1))
           (set_isCommitBordcast (<[d := true]> (isCommitBordcast p))
             (set_sent (sent p ++ bcast (commit_frame d (pr_SeqID m) p) p) (prepared m p)))
    else prepared m p).
Proof.
  intros <- Ho Hr Hs Hn [HP _]. unfold handlePrepare, prepared. rewrite Ho, Hr.
  destruct (Z.ltb_spec (sequenceID p) (pr_SeqID m)); [lia|].
  cbn [HandleinPrepare RawRelayPbftExtraHandleMod Relay_HandleinPrepare]. unfold Relay_HandleinPrepare.
  rewrite bind_ret. unfold alloc. destruct (pr_SenderNode m); [|done]. cbv zeta.
  unfold set2DMap. set (p2 := set_cntPrepareConfirm _ _).
  assert (Z.of_nat (size (votes_of (cntPrepareConfirm p2) (pr_Digest m))) =
    prepare_count (pr_Digest m) p + 1) as ->.
  { unfold p2. cbn. rewrite votes_of_insert, decide_True by done. by apply size_new_vote. }
  change (quorum p2) with (quorum p). change (isCommitBordcast p2) with (isCommitBordcast p).
  destruct (_ && _); [|done].
  rewrite (proj1 (frame_ok CCommit _ eq_refl)), bind_ret, send_all_eq. done.
Qed.

Lemma handlePrepare_current v m p r d :
  pr_Digest m = d → outdated (pr_SeqID m) v p = false → requestPool p !! d = Some r →
  pr_SeqID m ≤ sequenceID p → pr_SenderNode m ≠ None → counted d p →
  ∃ l, handlePrepare v m p = Ret (
    if (quorum p <=? prepare_count d p + 1) && negb (flag_of (isCommitBordcast p) d)
    then set_pbftStage (i32 (pbftStage p + 1))
           (set_isCommitBordcast (<[d := true]> (isCommitBordcast p)) (set_sent l (prepared m p)))
    else prepared m p).
Proof. intros. eexists. by eapply handlePrepare_eq. Qed.

(** One commit message that does not complete the quorum. *)
Lemma handleCommit_counts now nowMs v m p d :
  cm_Digest m = d → outdated (cm_SeqID m) v p = false → cm_SenderNode m ≠ None → counted d p →
  commit_count d p + 1 < quorum p →
  handleCommit now nowMs v m p = Ret (Some (voted m p)).
Proof.
  intros <- Ho Hn [_ HC] Hq. unfold handleCommit, voted. rewrite Ho. unfold alloc.
  destruct (cm_SenderNode m); [|done]. unfold set2DMap. set (p2 := set_cntCommitConfirm _ _).
  assert (Z.of_nat (size (votes_of (cntCommitConfirm p2) (cm_Digest m))) =
    commit_count (cm_Digest m) p + 1) as ->.
  { unfold p2. cbn. rewrite votes_of_insert, decide_True by done. by apply size_new_vote. }
  change (quorum p2) with (quorum p).
  destruct (Z.leb_spec (quorum p) (commit_count (cm_Digest m) p + 1)); [lia|done].
Qed.

End Handlers.

(** ** The round *)
Section Round.
Context {PR : Params} {BS : BitSetOps} {G : GobOps} {BO : BoltOps} {T : TrieOps}.
Context {JRelay : Json Relay} {JRWP : Json RelayWithProof} {JBI : Json BlockInfoMsg}.
Context {JIT : Json InjectTxs} {JReq : Json Request} {JPP : Json PrePrepare}.
Context {JP : Json Prepare} {JC : Json Commit} {JRO : Json RequestOldMessage}.
Context {JSO : Json SendOldMessage} {JVC : Json ViewChangeMsg} {JNV : Json NewViewMsg}.
Context {D : Type}.

Abbreviation node := (PbftConsensusNode D).
Implicit Type p : node.

(** The request of the round, its sequence id and view, the quorum, and the chain before
    and after its block. *)
Context (r : Request) (block : Block) (seq v Q : Z) (bc0 bc1 : BlockChain).
Context (Hseq : 0 ≤ seq < u64_mod - 1) (HQpos : 0 < Q) (Hdec : DecodeB (Msg_Content r) = Ret block)
  (Hval : IsValidBlock bc0 block = None) (Hadd : AddBlock block bc0 = Ret bc1).

Abbreviation d := (getDigest r).

(** The handlers of the round. *)
Definition of_round (th : thread) : Prop :=
  match th with
  | in_PrePrepare m w => m = mkPP r d seq ∧ w = v
  | in_Prepare m w => pr_Digest m = d ∧ pr_SeqID m = seq ∧ pr_SenderNode m ≠ None ∧ w = v
  | in_Commit m w => cm_Digest m = d ∧ cm_SeqID m = seq ∧ cm_SenderNode m ≠ None ∧ w = v
  end.

Definition is_pre (th : thread) : bool := match th with in_PrePrepare _ _ => true | _ => false end.
Definition is_prep (th : thread) : bool := match th with in_Prepare _ _ => true | _ => false end.
Definition is_comm (th : thread) : bool := match th with in_Commit _ _ => true | _ => false end.

(** How many handlers of a kind are waiting. *)
Definition number (f : thread → bool) (ths : list thread) : Z :=
  zlen (base.filter (λ th, f th = true) ths).

Lemma number_split f ths1 th ths2 :
  number f (ths1 ++ th :: ths2) = number f (ths1 ++ ths2) + if f th then 1 else 0.
Proof.
  unfold number. rewrite !filter_app, filter_cons, !zlen_app. destruct (f th).
  - rewrite decide_True by done. rewrite zlen_cons. lia.
  - rewrite decide_False by done. lia.
Qed.

Lemma number_pos f ths : 0 < number f ths → ∃ ths1 th ths2, ths = ths1 ++ th :: ths2 ∧ f th = true.
Proof.
  unfold number. intros H. destruct (base.filter _ ths) as [|th l] eqn:E; [done|].
  assert (th ∈ base.filter (λ th, f th = true) ths) as [Hf Hin]%list_elem_of_filter
    by (rewrite E; by left).
  apply list_elem_of_split in Hin as (ths1 & ths2 & ->). by eexists _, _, _.
Qed.

(** What holds until the block is executed. *)
Definition running (stage : Z) p : Prop :=
  view p = v ∧ is_leader p = false ∧ quorum p = Q ∧ counted d p ∧ sequenceID p = seq ∧
  CurChain p = bc0 ∧ pbftStage p = stage ∧ flag_of (isReply p) d = false.

(** The pre-prepare message waits; votes are collected; the commits are collected. *)
Definition pre_phase p (ths : list thread) : Prop :=
  running 1 p ∧ flag_of (isCommitBordcast p) d = false ∧
  prepare_count d p = 0 ∧ commit_count d p = 0 ∧
  number is_pre ths = 1 ∧ Q ≤ number is_prep ths ∧ Q ≤ number is_comm ths.

Definition prepare_phase p (ths : list thread) : Prop :=
  running 2 p ∧ flag_of (isCommitBordcast p) d = false ∧ requestPool p !! d = Some r ∧
  prepare_count d p < Q ∧ commit_count d p = 0 ∧
  number is_pre ths = 0 ∧ Q ≤ prepare_count d p + number is_prep ths ∧ Q ≤ number is_comm ths.

Definition commit_phase p (ths : list thread) : Prop :=
  running 3 p ∧ flag_of (isCommitBordcast p) d = true ∧ requestPool p !! d = Some r ∧
  commit_count d p < Q ∧ number is_pre ths = 0 ∧ Q ≤ commit_count d p + number is_comm ths.

Definition done_phase p : Prop :=
  sequenceID p = seq + 1 ∧ CurChain p = bc1 ∧ pbftStage p = 1 ∧ flag_of (isReply p) d = true.

Definition round_inv p (ths : list thread) : Prop :=
  Forall of_round ths ∧ (pre_phase p ths ∨ prepare_phase p ths ∨ commit_phase p ths ∨ done_phase p).

Lemma running_waits stage p k : running stage p → waits k seq v p = (stage <? k).
Proof.
  intros (Hv & _ & _ & _ & Hs & _ & Hst & _). unfold waits. rewrite Hv, Hs, Hst.
  by rewrite Z.leb_refl, Z.eqb_refl, !andb_true_r.
Qed.

Lemma running_current stage p : running stage p → outdated seq v p = false.
Proof.
  intros (Hv & _ & _ & _ & Hs & _). unfold outdated. by rewrite Hv, Hs, Z.ltb_irrefl, Z.eqb_refl.
Qed.

(** *** The steps *)
Lemma run_pre now nowMs p :
  running 1 p → ∃ p', run now nowMs (in_PrePrepare (mkPP r d seq) v) p = Ret (Some p') ∧
    running 2 p' ∧ requestPool p' !! d = Some r ∧ isCommitBordcast p' = isCommitBordcast p ∧
    cntPrepareConfirm p' = cntPrepareConfirm p ∧ cntCommitConfirm p' = cntCommitConfirm p.
Proof.
  intros Hr. pose proof (running_current _ _ Hr) as Ho.
  destruct Hr as (Hv & Hl & HQ & Hc & Hs & Hb & Hst & Hf).
  cbn [run]. unfold handlePrePrepare. cbn [pp_SeqID pp_Digest RequestMsg]. rewrite Ho.
  rewrite bool_decide_true by done. cbn [negb]. rewrite Hs, Z.ltb_irrefl.
  cbn [HandleinPrePrepare RawRelayPbftExtraHandleMod]. unfold Relay_HandleinPrePrepare.
  cbn [pp_SeqID pp_Digest RequestMsg]. rewrite Hdec, bind_ret, Hb, Hval, !bind_ret.
  unfold prepare_bytes. rewrite (proj1 (frame_ok CPrepare _ eq_refl)), bind_ret.
  match goal with |- context [send_all ?m ?q] => destruct (send_all_sent m q) as [l ->] end.
  cbv zeta. rewrite bind_ret. eexists. split; [reflexivity|]. cbn. rewrite Hst.
  split_and!; try done. by rewrite lookup_insert_eq.
Qed.

Lemma prepared_facts m p :
  pr_Digest m = d → pr_SenderNode m ≠ None → counted d p →
  counted d (prepared m p) ∧ prepare_count d (prepared m p) = prepare_count d p + 1 ∧
  commit_count d (prepared m p) = commit_count d p.
Proof.
  intros Hd Hn [HP HC]. unfold prepared, alloc. destruct (pr_SenderNode m); [|done].
  unfold set2DMap, counted, prepare_count. cbn. rewrite Hd, votes_of_insert, decide_True by done.
  split_and!; [| |by apply size_new_vote|done].
  - intros a. rewrite elem_of_union, elem_of_singleton. intros [->|Ha%HP]; lia.
  - intros a Ha%HC. lia.
Qed.

Lemma voted_facts m p :
  cm_Digest m = d → cm_SenderNode m ≠ None → counted d p →
  counted d (voted m p) ∧ commit_count d (voted m p) = commit_count d p + 1 ∧
  prepare_count d (voted m p) = prepare_count d p.
Proof.
  intros Hd Hn [HP HC]. unfold voted, alloc. destruct (cm_SenderNode m); [|done].
  unfold set2DMap, counted, commit_count. cbn. rewrite Hd, votes_of_insert, decide_True by done.
  split_and!; [| |by apply size_new_vote|done].
  - intros a Ha%HP. lia.
  - intros a. rewrite elem_of_union, elem_of_singleton. intros [->|Ha%HC]; lia.
Qed.

Lemma running_prepared stage m p :
  pr_Digest m = d → pr_SenderNode m ≠ None → running stage p → running stage (prepared m p).
Proof.
  intros Hd Hn (Hv & Hl & HQ & Hc & Hs & Hb & Hst & Hf).
  destruct (prepared_facts m p Hd Hn Hc) as [Hc' _]. revert Hc'. unfold running, prepared, alloc.
  destruct (pr_SenderNode m); [|done]. cbn. done.
Qed.

Lemma running_voted stage m p :
  cm_Digest m = d → cm_SenderNode m ≠ None → running stage p → running stage (voted m p).
Proof.
  intros Hd Hn (Hv & Hl & HQ & Hc & Hs & Hb & Hst & Hf).
  destruct (voted_facts m p Hd Hn Hc) as [Hc' _]. revert Hc'. unfold running, voted, alloc.
  destruct (cm_SenderNode m); [|done]. cbn. done.
Qed.

(** A prepare message while the votes are collected. *)
Lemma run_prepare stage now nowMs m p :
  stage = 2 ∨ stage = 3 → of_round (in_Prepare m v) → running stage p → requestPool p !! d = Some r →
  ∃ p', run now nowMs (in_Prepare m v) p = Ret (Some p') ∧ requestPool p' !! d = Some r ∧
    commit_count d p' = commit_count d p ∧ prepare_count d p' = prepare_count d p + 1 ∧
    if (Q <=? prepare_count d p + 1) && negb (flag_of (isCommitBordcast p) d)
    then running (stage + 1) p' ∧ flag_of (isCommitBordcast p') d = true
    else running stage p' ∧ isCommitBordcast p' = isCommitBordcast p.
Proof.
  intros Hst (Hd & Hs & Hn & _) Hr Hp. pose proof Hr as (Hv & Hl & HQ & Hc & Hsq & _ & Hstage & _).
  destruct (handlePrepare_current v m p r d) as [l E]; try done;
    [rewrite Hs; by eapply running_current|lia|].
  destruct (prepared_facts m p Hd Hn Hc) as (_ & F1 & F2).
  pose proof (running_prepared stage m p Hd Hn Hr) as Hr'.
  assert (requestPool (prepared m p) = requestPool p ∧ isCommitBordcast (prepared m p) = isCommitBordcast p)
    as [F3 F4] by (unfold prepared, alloc; by destruct (pr_SenderNode m)).
  rewrite HQ in E. cbn [run]. rewrite E, bind_ret. clear E.
  destruct ((Q <=? _) && _).
  - eexists. split; [reflexivity|]. split.
    { change (requestPool (prepared m p) !! d = Some r). by rewrite F3. }
    split; [exact F2|].
    split; [exact F1|]. split; [|cbn; by rewrite flag_of_insert, decide_True].
    unfold running in *. cbn. rewrite Hstage. destruct Hst as [-> | ->]; naive_solver.
  - eexists. split; [reflexivity|]. by rewrite F3.
Qed.

(** A commit message while the commits are collected. *)
Lemma run_commit now nowMs m p :
  of_round (in_Commit m v) → running 3 p → requestPool p !! d = Some r →
  ∃ p', run now nowMs (in_Commit m v) p = Ret (Some p') ∧
    if Q <=? commit_count d p + 1 then done_phase p'
    else running 3 p' ∧ requestPool p' !! d = Some r ∧
      isCommitBordcast p' = isCommitBordcast p ∧ commit_count d p' = commit_count d p + 1.
Proof.
  intros (Hd & Hs & Hn & _) Hr Hp. pose proof (running_current _ _ Hr) as Ho. rewrite <-Hs in Ho.
  pose proof Hr as (Hv & Hl & HQ & Hc & Hsq & Hb & _ & Hf).
  pose proof (running_voted 3 m p Hd Hn Hr) as Hr'.
  assert (requestPool (voted m p) = requestPool p ∧ isCommitBordcast (voted m p) = isCommitBordcast p)
    as [F1 F2] by (unfold voted, alloc; by destruct (cm_SenderNode m)).
  destruct (voted_facts m p Hd Hn Hc) as (_ & F3 & _). cbn [run].
  destruct (Z.leb_spec Q (commit_count d p + 1)) as [HQ1|HQ1].
  - assert (executes v m p = true) as He.
    { unfold executes. rewrite Ho, Hd, Hf, Hp, HQ. unfold alloc. destruct (cm_SenderNode m); [|done].
      cbn [fst negb andb]. rewrite size_new_vote by apply Hc. unfold commit_count in HQ1.
      rewrite (proj2 (Z.leb_le _ _) HQ1). done. }
    rewrite handleCommit_quorum by done. unfold execute_request.
    cbn [HandleinCommit RawRelayPbftExtraHandleMod]. unfold Relay_HandleinCommit.
    destruct Hr' as (Hv' & Hl' & _ & _ & Hs' & Hb' & _ & _).
    rewrite F1, Hd, Hp. cbn [or_panic]. rewrite bind_ret, Hdec, bind_ret, Hb', Hadd, bind_ret. cbv zeta.
    assert (∀ q : node, view q = view (voted m p) → p_NodeID q = p_NodeID (voted m p) → is_leader q = false)
      as Hlead by (intros q E1 E2; unfold is_leader in *; by rewrite E1, E2).
    rewrite !Hlead by done. rewrite !bind_ret. rewrite Hlead by done. eexists. split; [reflexivity|].
    unfold done_phase. cbn. rewrite Hs', u64_id by (unfold is_u64; lia). split_and!; try done.
    by rewrite flag_of_insert, decide_True.
  - rewrite (handleCommit_counts _ _ _ _ _ d) by (done || lia). eexists. split; [reflexivity|].
    by rewrite F1, F2.
Qed.

(** After the round its handlers do nothing. *)
Lemma run_done now nowMs th p :
  of_round th → done_phase p → thread_waits th p = false ∧ run now nowMs th p = Ret (Some p).
Proof.
  intros Ht (Hs & _).
  assert (∀ k w, waits k seq w p = false ∧ outdated seq w p = true) as H.
  { intros k w. unfold waits, outdated. rewrite Hs.
    rewrite (proj2 (Z.leb_gt _ _)), andb_false_r by lia.
    by rewrite (proj2 (Z.ltb_lt _ _)) by lia. }
  destruct th as [m w|m w|m w]; cbn [thread_waits run of_round] in *.
  - destruct Ht as [-> ->]. cbn [pp_SeqID]. split; [apply H|]. unfold handlePrePrepare. cbn [pp_SeqID].
    by rewrite (proj2 (H 1 v)).
  - destruct Ht as (_ & Hm & _). rewrite Hm. split; [apply H|]. unfold handlePrepare.
    by rewrite Hm, (proj2 (H 2 w)).
  - destruct Ht as (_ & Hm & _). rewrite Hm. split; [apply H|]. unfold handleCommit.
    by rewrite Hm, (proj2 (H 3 w)).
Qed.

(** A handler that does not wait returns and keeps the invariant. *)
Lemma round_step now nowMs p ths1 th ths2 :
  round_inv p (ths1 ++ th :: ths2) → thread_waits th p = false →
  ∃ p', run now nowMs th p = Ret (Some p') ∧ round_inv p' (ths1 ++ ths2).
Proof.
  intros [Hall Hph] Hw.
  assert (of_round th ∧ Forall of_round (ths1 ++ ths2)) as [Ht Hall'].
  { rewrite Forall_app, Forall_cons in Hall. rewrite Forall_app. tauto. }
  clear Hall. destruct Hph as [H|[H|[H|H]]].
  - destruct H as (Hr & Hf & HP & HC & N1 & N2 & N3). rewrite !number_split in *.
    destruct th as [m w|m w|m w]; cbn [is_pre is_prep is_comm] in *.
    + destruct Ht as [-> ->]. destruct (run_pre now nowMs p Hr) as (p' & E & Hr' & Hp & E1 & E2 & E3).
      exists p'. split; [done|]. split; [done|]. right; left.
      unfold prepare_phase, prepare_count, commit_count in *. rewrite E1, E2, E3.
      split_and!; try done; lia.
    + destruct Ht as (_ & Hm & _ & ->). cbn in Hw. by rewrite Hm, (running_waits 1) in Hw.
    + destruct Ht as (_ & Hm & _ & ->). cbn in Hw. by rewrite Hm, (running_waits 1) in Hw.
  - destruct H as (Hr & Hf & Hp & HP & HC & N1 & N2 & N3). rewrite !number_split in *.
    destruct th as [m w|m w|m w]; cbn [is_pre is_prep is_comm] in *.
    + unfold number in N1. pose proof (zlen_nonneg (base.filter (λ th, is_pre th = true) (ths1 ++ ths2))). lia.
    + pose proof Ht as (_ & _ & _ & ->).
      destruct (run_prepare 2 now nowMs m p (or_introl eq_refl) Ht Hr Hp) as (p' & E & Hp' & E1 & E2 & E3).
      exists p'. split; [done|]. split; [done|]. rewrite Hf in E3.
      destruct (Z.leb_spec Q (prepare_count d p + 1)); cbn [andb negb] in E3.
      * right; right; left. destruct E3. split_and!; try done; lia.
      * right; left. destruct E3 as [? E3]. rewrite <-E3 in Hf. split_and!; try done; lia.
    + destruct Ht as (_ & Hm & _ & ->). cbn in Hw. by rewrite Hm, (running_waits 2) in Hw.
  - destruct H as (Hr & Hf & Hp & HC & N1 & N3). rewrite !number_split in *.
    destruct th as [m w|m w|m w]; cbn [is_pre is_prep is_comm] in *.
    + unfold number in N1. pose proof (zlen_nonneg (base.filter (λ th, is_pre th = true) (ths1 ++ ths2))). lia.
    + pose proof Ht as (_ & _ & _ & ->).
      destruct (run_prepare 3 now nowMs m p (or_intror eq_refl) Ht Hr Hp) as (p' & E & Hp' & E1 & E2 & E3).
      exists p'. split; [done|]. split; [done|]. rewrite Hf, andb_false_r in E3. destruct E3 as [? E3].
      right; right; left. rewrite <-E3 in Hf. split_and!; try done; lia.
    + pose proof Ht as (_ & _ & _ & ->).
      destruct (run_commit now nowMs m p Ht Hr Hp) as (p' & E & E1). exists p'. split; [done|].
      split; [done|]. right; right. destruct (Z.leb_spec Q (commit_count d p + 1)); [by right|left].
      destruct E1 as (Hr' & Hp' & E1 & E2). rewrite <-E1 in Hf. split_and!; try done; lia.
  - destruct (run_done now nowMs th p Ht H) as [_ E]. exists p. split; [done|]. split; [done|]. by do 3 right.
Qed.

(** As long as a handler waits in the round, one can run. *)
Lemma round_progress p ths :
  round_inv p ths → ths ≠ [] → ∃ ths1 th ths2, ths = ths1 ++ th :: ths2 ∧ thread_waits th p = false.
Proof.
  intros [Hall Hph] Hne. rewrite Forall_forall in Hall.
  assert (∀ f, 0 < number f ths → (∀ th, of_round th → f th = true → thread_waits th p = false) →
    ∃ ths1 th ths2, ths = ths1 ++ th :: ths2 ∧ thread_waits th p = false) as Hany.
  { intros f Hn Hf. destruct (number_pos f ths Hn) as (ths1 & th & ths2 & E & Eth).
    exists ths1, th, ths2. split; [done|]. apply Hf; [|done]. apply Hall. rewrite E.
    apply elem_of_app. right. by left. }
  destruct Hph as [H|[H|[H|H]]].
  - destruct H as (Hr & _ & _ & _ & N1 & _). apply (Hany is_pre); [lia|].
    intros [m w|m w|m w]; [|done..]. intros [-> ->] _. cbn. by rewrite (running_waits 1).
  - destruct H as (Hr & _ & _ & HP & _ & _ & N2 & _). apply (Hany is_prep); [lia|].
    intros [m w|m w|m w]; [done| |done]. intros (_ & Hm & _ & ->) _. cbn.
    by rewrite Hm, (running_waits 2).
  - destruct H as (Hr & _ & _ & HC & _ & N3). apply (Hany is_comm); [lia|].
    intros [m w|m w|m w]; [done..|]. intros (_ & Hm & _ & ->) _. cbn. by rewrite Hm, (running_waits 3).
  - destruct ths as [|th ths]; [done|]. exists [], th, ths. split; [done|].
    apply (run_done 0 0); [|done]. apply Hall. by left.
Qed.

(** Every run of the handlers keeps the invariant and finishes one handler per step. *)
Lemma round_run n (s0 s : sys (D := D)) :
  nsteps serves n s0 s → round_inv (nd s0) (threads s0) →
  (n + length (threads s) = length (threads s0))%nat ∧ round_inv (nd s) (threads s).
Proof.
  induction 1 as [s0|n s0 s1 s2 Hs Hrun IH]; [done|]. intros Hi. destruct s0 as [p0 ts ths hs].
  apply serves_inv in Hs as (ths1 & th & ths2 & now & nowMs & p' & -> & Hw & Er & ->). cbn in *.
  destruct (round_step now nowMs p0 ths1 th ths2 Hi Hw) as (p1 & E1 & Hi1).
  rewrite Er in E1. injection E1 as <-. destruct (IH Hi1) as [Hlen Hinv]. split; [|done].
  rewrite !length_app in *. cbn. lia.
Qed.

Lemma number_perm f (l l' : list thread) : l ≡ₚ l' → number f l = number f l'.
Proof. intros H. unfold number, zlen. by rewrite H. Qed.

Lemma number_round f (ps : list Prepare) (cs : list Commit) :
  number f (in_PrePrepare (mkPP r d seq) v ::
    ((λ m, in_Prepare m v) <$> ps) ++ ((λ m, in_Commit m v) <$> cs)) =
  number f [in_PrePrepare (mkPP r d seq) v] +
  number f ((λ m, in_Prepare m v) <$> ps) + number f ((λ m, in_Commit m v) <$> cs).
Proof.
  set (th := in_PrePrepare _ _). set (l := _ <$> ps). set (l' := _ <$> cs).
  pose proof (number_split f [] th (l ++ l')) as E1. pose proof (number_split f [] th []) as E2.
  cbn [app] in E1, E2. rewrite E1, E2. unfold number. rewrite filter_app, zlen_app, filter_nil.
  change (zlen []) with 0. lia.
Qed.

Lemma number_fmap f {A} (g : A → thread) b l :
  (∀ x, f (g x) = b) → number f (g <$> l) = if b : bool then zlen l else 0.
Proof.
  intros Hf. induction l as [|x l IH]; [by destruct b|].
  pose proof (number_split f [] (g x) (g <$> l)) as E. cbn [app] in E. rewrite fmap_cons, E, IH, Hf.
  destruct b; [rewrite zlen_cons; lia|done].
Qed.

(** The invariant holds when the messages of the round have come in. *)
Lemma round_start p (ps : list Prepare) (cs : list Commit) ths :
  running 1 p → flag_of (isCommitBordcast p) d = false →
  prepare_count d p = 0 → commit_count d p = 0 →
  Forall (λ m, pr_Digest m = d ∧ pr_SeqID m = seq ∧ pr_SenderNode m ≠ None) ps →
  Forall (λ m, cm_Digest m = d ∧ cm_SeqID m = seq ∧ cm_SenderNode m ≠ None) cs →
  Q ≤ zlen ps → Q ≤ zlen cs →
  ths ≡ₚ in_PrePrepare (mkPP r d seq) v ::
         ((λ m, in_Prepare m v) <$> ps) ++ ((λ m, in_Commit m v) <$> cs) →
  round_inv p ths.
Proof.
  intros Hr Hf HP HC Hps Hcs NP NC Hths. split.
  - rewrite Hths. constructor; [done|]. apply Forall_app. split; apply Forall_fmap;
      (eapply Forall_impl; [eassumption|]); cbn; tauto.
  - left. unfold pre_phase. rewrite !(number_perm _ _ _ Hths), !number_round.
    rewrite !(number_fmap is_pre _ false), (number_fmap is_prep _ true), (number_fmap is_prep _ false),
      (number_fmap is_comm _ false), (number_fmap is_comm _ true) by done.
    change (number is_pre [_]) with 1. change (number is_prep [_]) with 0.
    change (number is_comm [_]) with 0. split_and!; (done || lia).
Qed.

End Round.

(** ** The round completes *)
Section Completion.
Context {PR : Params} {BS : BitSetOps} {G : GobOps} {BO : BoltOps} {T : TrieOps}.
Context {JRelay : Json Relay} {JRWP : Json RelayWithProof} {JBI : Json BlockInfoMsg}.
Context {JIT : Json InjectTxs} {JReq : Json Request} {JPP : Json PrePrepare}.
Context {JP : Json Prepare} {JC : Json Commit} {JRO : Json RequestOldMessage}.
Context {JSO : Json SendOldMessage} {JVC : Json ViewChangeMsg} {JNV : Json NewViewMsg}.
Context {D : Type}.

Implicit Type p : PbftConsensusNode D.

(** A round of consensus completes at a replica: when the pre-prepare message
    of a block it can add, at least a quorum of prepare and a quorum of commit messages
    for it have been received, then in whatever order the waiting handlers are run, as
    long as one is left one can run, and when all have run the block has been executed:
    the node is in stage 1 of the next sequence id with the block added.  Every step
    finishes a handler, so there are exactly as many steps as handlers. *)
Theorem replica_round_completes p ts hs (r : Request) (block : Block) bc1 (ps : list Prepare)
    (cs : list Commit) ths :
  let d := getDigest r in
  let seq := sequenceID p in
  DecodeB (Msg_Content r) = Ret block → IsValidBlock (CurChain p) block = None →
  AddBlock block (CurChain p) = Ret bc1 →
  0 ≤ seq < u64_mod - 1 → pbftStage p = 1 → is_leader p = false → 0 < quorum p →
  votes_of (cntPrepareConfirm p) d = ∅ → votes_of (cntCommitConfirm p) d = ∅ →
  flag_of (isCommitBordcast p) d = false → flag_of (isReply p) d = false →
  Forall (λ m, pr_Digest m = d ∧ pr_SeqID m = seq ∧ pr_SenderNode m ≠ None) ps →
  Forall (λ m, cm_Digest m = d ∧ cm_SeqID m = seq ∧ cm_SenderNode m ≠ None) cs →
  quorum p ≤ zlen ps → quorum p ≤ zlen cs →
  ths ≡ₚ in_PrePrepare (mkPP r d seq) (view p) ::
         ((λ m, in_Prepare m (view p)) <$> ps) ++ ((λ m, in_Commit m (view p)) <$> cs) →
  ∀ n s, nsteps serves n (mkSys p ts ths hs) s →
    (n + length (threads s) = length ths)%nat ∧
    (threads s ≠ [] → ∃ s', serves s s') ∧
    (threads s = [] → sequenceID (nd s) = seq + 1 ∧ pbftStage (nd s) = 1 ∧ CurChain (nd s) = bc1).
Proof.
  intros d seq Hdec Hval Hadd Hseq Hst Hl HQ V1 V2 F1 F2 Hps Hcs NP NC Hths n s Hrun.
  subst d. set (v := view p) in *. set (Q := quorum p) in *.
  assert (round_inv r seq v Q (CurChain p) bc1 p ths) as Hinv.
  { eapply round_start; try done.
    - unfold running, counted. rewrite V1, V2. split_and!; (done || set_solver).
    - unfold prepare_count. by rewrite V1, size_empty.
    - unfold commit_count. by rewrite V2, size_empty. }
  destruct (round_run r block seq v Q (CurChain p) bc1 Hseq HQ Hdec Hval Hadd n _ s Hrun Hinv) as [Hlen Hs]. split; [done|]. split.
  - intros Hne. destruct s as [p' ts' ths' hs']. cbn in *.
    destruct (round_progress r seq v Q (CurChain p) bc1 p' ths' Hs Hne) as (ths1 & th & ths2 & -> & Hw).
    destruct (round_step r block seq v Q (CurChain p) bc1 Hseq HQ Hdec Hval Hadd 0 0 p' ths1 th ths2 Hs Hw)
      as (p1 & E1 & _). eexists. by eapply serves_intro.
  - intros E. rewrite E in Hs. destruct Hs as [_ [H|[H|[H|H]]]].
    + by destruct H as (_ & _ & _ & _ & N & _).
    + destruct H as (_ & _ & _ & HP & _ & _ & N & _). change (number is_prep []) with 0 in N. lia.
    + destruct H as (_ & _ & _ & HP & _ & N). change (number is_comm []) with 0 in N. lia.
    + destruct H as (H1 & H2 & H3 & _). done.
Qed.

End Completion.
