(* ===== verification/Shard.v ===== *)
(** * A shard: all its nodes and the network between them

    Composes the nodes of [Pbft] with the relay modules of [Relay] and a network that
    holds the messages sent and not yet received.  A step of the network takes any
    message in flight to the node it is addressed to (src/networks writes every message
    as a line; the receiver of pbft.go hands the line to [handleMessage]), lets a node start
    a handler, or runs a handler that does not wait; what a handler sends is in flight
    afterwards.  Messages to other shards and to the supervisor stay in flight.

    The round of consensus that a leader starts is followed through all nodes: it ends
    after a bounded number of steps, whatever their order, with the block committed
    everywhere. *)

From S2P Require Import Prelude Params Utils Interfaces Core Instances Sha256.
From S2P Require Import TxPool Storage G2E BlockChain Ledger ChainProps MerkleProof.
From S2P Require Import Networks Messages PbftNode Pbft Relay PbftRound.

Section Shard.
Context {PR : Params} {BS : BitSetOps} {G : GobOps} {BO : BoltOps} {T : TrieOps}.
Context {JRelay : Json Relay} {JRWP : Json RelayWithProof} {JBI : Json BlockInfoMsg}.
Context {JIT : Json InjectTxs} {JReq : Json Request} {JPP : Json PrePrepare}.
Context {JP : Json Prepare} {JC : Json Commit} {JRO : Json RequestOldMessage}.
Context {JSO : Json SendOldMessage} {JVC : Json ViewChangeMsg} {JNV : Json NewViewMsg}.
Context {D : Type}.

Abbreviation node := (PbftConsensusNode D).
Abbreviation psys := (sys (D := D)).
Implicit Type p : node.

(** ** The network of a shard *)
Record shard := mkShard { peers : list psys; flight : list (string * bytes) }.

(** What a step has added to the trace of a node. *)
Definition new_sent (p p' : node) : list (string * bytes) := drop (length (sent p)) (sent p').

(** Work of a node on the messages it has received. *)
Inductive works : psys → psys → Prop :=
| works_start p ts1 t ts2 ths hs th :
    start t p = Ret (Some th) →
    works (mkSys p (ts1 ++ t :: ts2) ths hs) (mkSys p (ts1 ++ ts2) (th :: ths) hs)
| works_run p ts ths1 th ths2 hs now nowMs p' :
    thread_waits th p = false → run now nowMs th p = Ret (Some p') →
    works (mkSys p ts (ths1 ++ th :: ths2) hs)
          (mkSys p' ts (ths1 ++ ths2) (hs ++ executed th p)).

Inductive shard_step : shard → shard → Prop :=
| shard_deliver ps fl1 msg fl2 i p ts ths hs nowMs p' t :
    ps !! i = Some (mkSys p ts ths hs) →
    handleMessage nowMs (wire msg) p = Ret (p', t) →
    shard_step (mkShard ps (fl1 ++ (IPaddr (RunningNode p), msg) :: fl2))
      (mkShard (<[i := mkSys p' (ts ++ option_list t) ths hs]> ps)
         ((fl1 ++ fl2) ++ new_sent p p'))
| shard_work ps fl i s s' :
    ps !! i = Some s → works s s' →
    shard_step (mkShard ps fl) (mkShard (<[i := s']> ps) (fl ++ new_sent (nd s) (nd s'))).

(** Every step of the network is a step of one node as [Pbft] models it. *)
Lemma shard_step_pstep S S' i s s' :
  shard_step S S' → peers S !! i = Some s → peers S' !! i = Some s' → s = s' ∨ pstep s s'.
Proof.
  intros Hs. destruct Hs as [ps fl1 msg fl2 j p ts ths hs nowMs p' t Ej Eh|ps fl j s0 s0' Ej Hw];
    cbn; intros Hi Hi'.
  - destruct (decide (j = i)) as [->|Hne].
    + rewrite list_lookup_insert_eq in Hi' by (by eapply lookup_lt_Some). simplify_eq. right.
      by eapply step_receive.
    + rewrite list_lookup_insert_ne in Hi' by done. left. congruence.
  - destruct (decide (j = i)) as [->|Hne].
    + rewrite list_lookup_insert_eq in Hi' by (by eapply lookup_lt_Some). simplify_eq. right.
      destruct Hw; [by apply step_start|by eapply step_run].
    + rewrite list_lookup_insert_ne in Hi' by done. left. congruence.
Qed.

(** ** The handlers that are still to run

    A message of the consensus in flight or being dispatched stands for the handler it
    will start, in view [v]. *)
Definition task_thread (v : Z) (t : task) : option thread :=
  match t with
  | go_PrePrepare c => (λ m, in_PrePrepare m v) <$> unmarshal c
  | go_Prepare c => (λ m, in_Prepare m v) <$> unmarshal c
  | go_Commit c => (λ m, in_Commit m v) <$> unmarshal c
  | go_Outside _ _ => None
  end.

Definition line_task (msg : bytes) : option task :=
  match SplitMessage (wire msg) with
  | Ret (t, c) =>
      if decide (t = CPrePrepare) then Some (go_PrePrepare c)
      else if decide (t = CPrepare) then Some (go_Prepare c)
      else if decide (t = CCommit) then Some (go_Commit c) else None
  | Panic _ => None
  end.

Definition line_thread (v : Z) (msg : bytes) : option thread := line_task msg ≫= task_thread v.

(** The messages in flight to an address. *)
Definition to_addr (a : string) (fl : list (string * bytes)) : list bytes :=
  (base.filter (λ x, x.1 = a) fl).*2.

Definition pending (v : Z) (fl : list (string * bytes)) (s : psys) : list thread :=
  omap (line_thread v) (to_addr (IPaddr (RunningNode (nd s))) fl) ++
  omap (task_thread v) (tasks s) ++ threads s.

Lemma handleMessage_line nowMs msg t p :
  line_task msg = Some t → handleMessage nowMs (wire msg) p = Ret (p, Some t).
Proof.
  unfold line_task, handleMessage. destruct (SplitMessage (wire msg)) as [[ty c]|]; [|done].
  rewrite bind_ret. repeat case_decide; congruence.
Qed.

Lemma start_thread t v th p : task_thread v t = Some th → view p = v → start t p = Ret (Some th).
Proof.
  intros E <-. destruct t; cbn in *; [..|done]; unfold decode;
    destruct (unmarshal _) as [m|]; cbn in *; by simplify_eq.
Qed.

Lemma start_thread_inv t v th th' p :
  task_thread v t = Some th → view p = v → start t p = Ret (Some th') → th' = th.
Proof. intros H1 H2 H3. rewrite (start_thread t v th p H1 H2) in H3. congruence. Qed.

End Shard.

(** ** One round *)
Section ShardRound.
Context {PR : Params} {BS : BitSetOps} {G : GobOps} {BO : BoltOps} {T : TrieOps}.
Context {JRelay : Json Relay} {JRWP : Json RelayWithProof} {JBI : Json BlockInfoMsg}.
Context {JIT : Json InjectTxs} {JReq : Json Request} {JPP : Json PrePrepare}.
Context {JP : Json Prepare} {JC : Json Commit} {JRO : Json RequestOldMessage}.
Context {JSO : Json SendOldMessage} {JVC : Json ViewChangeMsg} {JNV : Json NewViewMsg}.
Context {LPP : JsonLaws JPP} {LP : JsonLaws JP} {LC : JsonLaws JC}.
Context {D : Type}.

Abbreviation node := (PbftConsensusNode D).
Abbreviation psys := (sys (D := D)).
Implicit Type p : node.

(** The configuration of a node, which the consensus leaves alone. *)
Definition static (p p' : node) : Prop :=
  RunningNode p' = RunningNode p ∧ p_ShardID p' = p_ShardID p ∧ p_NodeID p' = p_NodeID p ∧
  pbftChainConfig p' = pbftChainConfig p ∧ ip_nodeTable p' = ip_nodeTable p ∧
  node_nums p' = node_nums p ∧ malicious_nums p' = malicious_nums p.

#[local] Instance static_preorder : PreOrder static.
Proof.
  split; [by intros p|]. intros p1 p2 p3 (A1 & A2 & A3 & A4 & A5 & A6 & A7)
    (B1 & B2 & B3 & B4 & B5 & B6 & B7). unfold static.
  by rewrite B1, B2, B3, B4, B5, B6, B7.
Qed.

(** The request of the round, its sequence id and view, the quorum; the nodes when the
    pre-prepare message has been sent, which of them leads, and the chains after the
    block. *)
Context (r : Request) (block : Block) (seq v Q : Z).
Context (n lead : nat) (p0 : nat → node) (after : nat → BlockChain → Prop).

Abbreviation d := (getDigest r).
Definition addr (i : nat) : string := IPaddr (RunningNode (p0 i)).
Definition addrs : list string := addr <$> List.seq 0 n.

Context (Hseq : 0 ≤ seq < u64_mod - 1) (HQ : 0 < Q ≤ Z.of_nat n - 1) (Hlead : (lead < n)%nat).
Context (Hdec : DecodeB (Msg_Content r) = Ret block).
Context (Haddr : NoDup addrs) (Hnb : ∀ i, (i < n)%nat → getNeighborNodes (p0 i) ≡ₚ addrs).
Context (Hval : ∀ i, (i < n)%nat → IsValidBlock (CurChain (p0 i)) block = None).
Context (Hadd : ∀ i, (i < n)%nat → i ≠ lead →
  ∃ bc, AddBlock block (CurChain (p0 i)) = Ret bc ∧ after i bc).
(** The leader commits the block and relays its transactions to other addresses. *)
Context (Hcommit : ∀ now m p, static (p0 lead) p → CurChain p = CurChain (p0 lead) →
  is_leader p = true → requestPool p !! cm_Digest m = Some r →
  ∃ bc out, Relay_HandleinCommit now m p = Ret (set_CurChain bc (set_sent (sent p ++ out) p), true) ∧
    after lead bc ∧ Forall (λ x, x.1 ∉ addrs) out).

(** A node that takes part in the round: the handlers that are still to run hold the
    messages it has not counted, [nP] prepare and [nC] commit messages having been sent. *)
Definition live (nP nC : Z) (i : nat) p (pend : list thread) : Prop :=
  view p = v ∧ is_leader p = bool_decide (i = lead) ∧ quorum p = Q ∧ counted d p ∧
  sequenceID p = seq ∧ CurChain p = CurChain (p0 i) ∧ flag_of (isReply p) d = false ∧
  (i = lead → sequenceLock p = true) ∧
  (number is_pre pend = 0 ∨ number is_pre pend = 1) ∧
  pbftStage p = (if decide (i = lead) then 2 else 1) + (1 - number is_pre pend) +
                Z.b2z (flag_of (isCommitBordcast p) d) ∧
  (i ≠ lead → number is_pre pend = 1 → flag_of (isCommitBordcast p) d = false) ∧
  (i = lead ∨ number is_pre pend = 0 → requestPool p !! d = Some r) ∧
  flag_of (isCommitBordcast p) d = (Q <=? prepare_count d p) ∧ commit_count d p < Q ∧
  prepare_count d p + number is_prep pend = nP ∧ commit_count d p + number is_comm pend = nC.

(** A node that has executed the block. *)
Definition finished (i : nat) p : Prop :=
  sequenceID p = seq + 1 ∧ pbftStage p = 1 ∧ view p = v ∧ after i (CurChain p) ∧
  (i = lead → sequenceLock p = false).

Definition node_inv (nP nC : Z) (i : nat) p (pend : list thread) : Prop :=
  Forall (of_round r seq v) pend ∧ static (p0 i) p ∧ (live nP nC i p pend ∨ finished i p).

(** The node has sent its prepare, its commit message, or needs not any more. *)
Definition prep_sent p (pend : list thread) : bool :=
  negb (sequenceID p =? seq) || (number is_pre pend =? 0).
Definition com_sent p : bool := negb (sequenceID p =? seq) || flag_of (isCommitBordcast p) d.

(** The prepare and commit messages of a node. *)
Definition prep_of p : Prepare := mkPrepare d seq (Some (RunningNode p)).
Definition com_of p : Commit := mkCommit d seq (Some (RunningNode p)).

(** The effect of a handler on its node and the network: nothing in the shard, or a prepare
    or a commit message to all nodes.  [pend] are the handlers left. *)
Inductive effect (nP nC : Z) (i : nat) p (sentP : bool) (pend : list thread) p' :
    list (string * bytes) → Prop :=
| effect_quiet out :
    Forall (λ x, x.1 ∉ addrs) out →
    (i ≠ lead → prep_sent p' pend = sentP ∧ com_sent p' = com_sent p) →
    (prep_sent p' pend = false → sentP = false) → (com_sent p' = false → com_sent p = false) →
    effect nP nC i p sentP pend p' out
| effect_prepare :
    sentP = false → prep_sent p' pend = true → com_sent p' = com_sent p →
    effect nP nC i p sentP pend p' (bcast (frame CPrepare (marshal (prep_of p))) p)
| effect_commit :
    com_sent p = false → com_sent p' = true → prep_sent p' pend = sentP →
    effect nP nC i p sentP pend p' (bcast (frame CCommit (marshal (com_of p))) p).

Lemma live_current nP nC i p pend : live nP nC i p pend → outdated seq v p = false.
Proof.
  intros (Hv & _ & _ & _ & Hs & _). unfold outdated. by rewrite Hv, Hs, Z.ltb_irrefl, Z.eqb_refl.
Qed.

Lemma live_waits nP nC i p pend stage :
  live nP nC i p pend → waits stage seq v p = (pbftStage p <? stage).
Proof.
  intros (Hv & _ & _ & _ & Hs & _). unfold waits. by rewrite Hv, Hs, Z.leb_refl, Z.eqb_refl, !andb_true_r.
Qed.

(** The pre-prepare message of the round. *)
Lemma run_pre_live now nowMs nP nC i p pend1 pend2 :
  (i < n)%nat → let th := in_PrePrepare (mkPP r d seq) v in
  live nP nC i p (pend1 ++ th :: pend2) → Forall (of_round r seq v) (pend1 ++ pend2) →
  static (p0 i) p →
  ∃ p' out, run now nowMs th p = Ret (Some p') ∧ sent p' = sent p ++ out ∧
    node_inv nP nC i p' (pend1 ++ pend2) ∧
    effect nP nC i p (prep_sent p (pend1 ++ th :: pend2)) (pend1 ++ pend2) p' out.
Proof.
  intros Hi th Hl Hall Hst. pose proof (live_current _ _ _ _ _ Hl) as Ho.
  destruct Hl as (Hv & Hlr & HQ' & Hc & Hs & Hb & Hr & Hk & Hpre & Hsg & Hfl & Hrp & Hf & Hcc & HP & HC).
  rewrite !number_split in *. change (is_pre th) with true in *.
  change (is_prep th) with false in *. change (is_comm th) with false in *. cbv iota in *.
  assert (0 ≤ number is_pre (pend1 ++ pend2)) by apply zlen_nonneg.
  assert (number is_pre (pend1 ++ pend2) = 0) as Hn0 by lia.
  subst th. cbn [run]. unfold handlePrePrepare. cbn [pp_SeqID pp_Digest RequestMsg]. rewrite Ho.
  rewrite bool_decide_true by done. cbn [negb]. rewrite Hs, Z.ltb_irrefl.
  cbn [HandleinPrePrepare RawRelayPbftExtraHandleMod]. unfold Relay_HandleinPrePrepare.
  cbn [pp_SeqID pp_Digest RequestMsg]. rewrite Hdec, bind_ret, Hb, Hval, !bind_ret by done.
  unfold prepare_bytes. rewrite (proj1 (frame_ok CPrepare _ eq_refl)), bind_ret, send_all_eq.
  cbv zeta. rewrite bind_ret.
  eexists _, (bcast (frame CPrepare (marshal (prep_of p))) p).
  split; [reflexivity|]. split; [reflexivity|]. split; [|apply effect_prepare].
  - split; [done|]. split; [exact Hst|]. left. unfold live. cbn. rewrite Hsg, Hn0.
    split_and!; try done; try (unfold prepare_count, commit_count in *; cbn; lia).
    + destruct (flag_of (isCommitBordcast p) d), (decide (i = lead)); reflexivity.
    + intros _. by rewrite lookup_insert_eq.
  - unfold prep_sent. rewrite Hs, Z.eqb_refl, number_split, Hn0. done.
  - unfold prep_sent. cbn. rewrite Hs, Z.eqb_refl, Hn0. done.
  - unfold com_sent. cbn. by rewrite Hs.
Qed.

(** A prepare message of the round. *)
Lemma run_prepare_live now nowMs nP nC i p pend1 m pend2 :
  let th := in_Prepare m v in
  live nP nC i p (pend1 ++ th :: pend2) → of_round r seq v th →
  Forall (of_round r seq v) (pend1 ++ pend2) → static (p0 i) p → thread_waits th p = false →
  ∃ p' out, run now nowMs th p = Ret (Some p') ∧ sent p' = sent p ++ out ∧
    node_inv nP nC i p' (pend1 ++ pend2) ∧
    effect nP nC i p (prep_sent p (pend1 ++ th :: pend2)) (pend1 ++ pend2) p' out.
Proof.
  intros th Hl (Hd & Hm & Hnn & _) Hall Hst Hw. pose proof (live_current _ _ _ _ _ Hl) as Ho.
  cbn [thread_waits th] in Hw. rewrite Hm, (live_waits _ _ _ _ _ 2 Hl), Z.ltb_ge in Hw.
  unfold prep_sent. destruct Hl as (Hv & Hlr & HQ' & Hc & Hs & Hb & Hr & Hk & Hpre & Hsg & Hfl & Hrp & Hf & Hcc & HP & HC).
  rewrite !number_split in *. change (is_pre th) with false in *.
  change (is_prep th) with true in *. change (is_comm th) with false in *. cbv iota in *.
  rewrite !Z.add_0_r in *. subst th.
  assert (requestPool p !! d = Some r) as Hp.
  { apply Hrp. destruct (decide (i = lead)) as [|Hne]; [by left|right].
    destruct Hpre as [|Hp1]; [done|]. rewrite Hfl, Hp1 in Hsg by done. cbn in Hsg. lia. }
  pose proof (handlePrepare_eq v m p r d Hd) as E. rewrite Hm in E. specialize (E Ho Hp ltac:(lia) Hnn Hc).
  destruct (prepared_facts r m p Hd Hnn Hc) as (F0 & F1 & F2).
  assert (static p (prepared m p) ∧ requestPool (prepared m p) = requestPool p ∧
    isCommitBordcast (prepared m p) = isCommitBordcast p ∧ isReply (prepared m p) = isReply p ∧
    view (prepared m p) = view p ∧ sequenceID (prepared m p) = sequenceID p ∧
    CurChain (prepared m p) = CurChain p ∧ sequenceLock (prepared m p) = sequenceLock p ∧
    pbftStage (prepared m p) = pbftStage p ∧ sent (prepared m p) = sent p)
    as (G1 & G2 & G3 & G4 & G5 & G6 & G7 & G8 & G9 & G10)
    by (unfold prepared, alloc, static; by destruct (pr_SenderNode m)).
  assert (is_leader (prepared m p) = is_leader p ∧ quorum (prepared m p) = quorum p) as [G11 G12].
  { unfold is_leader, quorum. destruct G1 as (_ & _ & -> & _ & _ & _ & ->). by rewrite G5. }
  cbn [run]. rewrite E, bind_ret. clear E. rewrite HQ', Hf.
  destruct (Z.leb_spec Q (prepare_count d p)) as [HQ1|HQ1]; cbn [negb] in *.
  - rewrite andb_false_r. exists (prepared m p), []. rewrite app_nil_r. split; [done|].
    split; [done|]. split.
    + split; [done|]. split; [by etransitivity|]. left. unfold live.
      rewrite G2, G3, G4, G5, G6, G7, G8, G9, G11, G12, F1, F2, Hf.
      rewrite (proj2 (Z.leb_le Q (prepare_count d p + 1))) by lia.
      rewrite Hsg, Hf. rewrite Hf in Hfl. split_and!; (done || lia).
    + apply effect_quiet; [by apply Forall_nil|..]; unfold prep_sent, com_sent; by rewrite ?G3, ?G6.
  - rewrite andb_true_r. destruct (Z.leb_spec Q (prepare_count d p + 1)) as [HQ2|HQ2].
    + eexists _, (bcast (commit_frame d seq p) p). split; [reflexivity|].
      split; [reflexivity|]. split.
      * split; [done|]. split; [exact (transitivity Hst G1)|]. left. unfold live. cbn.
        rewrite flag_of_insert, (decide_True (P := d = d)) by done. cbn [Z.b2z].
        change (prepare_count d _) with (prepare_count d (prepared m p)).
        change (commit_count d _) with (commit_count d (prepared m p)).
        change (is_leader _) with (is_leader (prepared m p)).
        change (quorum _) with (quorum (prepared m p)).
        rewrite G2, G4, G5, G6, G7, G8, G11, G12, F1, F2, (proj2 (Z.leb_le Q _)) by lia.
        rewrite Hf in Hsg. split_and!; try (done || lia).
        -- rewrite Hsg. destruct (decide (i = lead)), Hpre as [-> | ->]; reflexivity.
        -- intros Hne Hp1. rewrite Hsg, Hp1, decide_False in Hw by done. cbn in Hw. lia.
      * apply effect_commit; unfold com_sent, prep_sent; cbn; rewrite ?G6, Hs, Z.eqb_refl, ?Hf; try done.
        by rewrite flag_of_insert, decide_True.
    + exists (prepared m p), []. rewrite app_nil_r. split; [done|]. split; [done|]. split.
      * split; [done|]. split; [by etransitivity|]. left. unfold live.
        rewrite G2, G3, G4, G5, G6, G7, G8, G9, G11, G12, F1, F2, Hf.
        rewrite (proj2 (Z.leb_gt Q (prepare_count d p + 1))) by lia.
        rewrite Hsg, Hf. rewrite Hf in Hfl. split_and!; (done || lia).
      * apply effect_quiet; [by apply Forall_nil|..]; unfold prep_sent, com_sent; by rewrite ?G3, ?G6.
Qed.

(** Executing the block: in the leader and in the other nodes. *)
Lemma execute_live now nowMs i m p :
  (i < n)%nat → static (p0 i) p → CurChain p = CurChain (p0 i) →
  is_leader p = bool_decide (i = lead) → cm_Digest m = d → requestPool p !! d = Some r →
  sequenceID p = seq → view p = v → (i = lead → sequenceLock p = true) →
  ∃ p' out, (o ← execute_request now m p;
     match o with
     | None => Ret None
     | Some p =>
         let p := set_lastCommitTime nowMs (set_pbftStage 1 p) in
         if is_leader p then p ← unlock_sequence p; Ret (Some p) else Ret (Some p)
     end) = Ret (Some p') ∧
    sent p' = sent p ++ out ∧ Forall (λ x, x.1 ∉ addrs) out ∧ static (p0 i) p' ∧ finished i p'.
Proof.
  intros Hi Hst Hb Hl Hd Hp Hs Hv Hk. unfold execute_request.
  cbn [HandleinCommit RawRelayPbftExtraHandleMod].
  assert (u64 (seq + 1) = seq + 1) as Hu by (apply u64_id; unfold is_u64; lia).
  destruct (decide (i = lead)) as [->|Hne].
  - rewrite bool_decide_true in Hl by done.
    destruct (Hcommit now m p Hst Hb Hl ltac:(by rewrite Hd)) as (bc & out & -> & Ha & Hout).
    rewrite !bind_ret. cbv zeta. match goal with |- context [is_leader ?q] =>
      change (is_leader q) with (is_leader p) end. rewrite Hl. unfold unlock_sequence.
    cbn [sequenceLock set_lastCommitTime set_pbftStage set_sequenceID set_replied set_isReply
      set_CurChain set_sent]. rewrite Hk, bind_ret by done.
    eexists _, out. split; [reflexivity|]. split; [reflexivity|]. split; [done|].
    split; [exact Hst|]. unfold finished. cbn. rewrite Hs, Hu. done.
  - rewrite bool_decide_false in Hl by done. unfold Relay_HandleinCommit.
    rewrite Hd, Hp. cbn [or_panic]. rewrite bind_ret, Hdec, bind_ret, Hb.
    destruct (Hadd i Hi Hne) as (bc & -> & Ha). rewrite bind_ret. cbv zeta.
    match goal with |- context [is_leader ?q] => change (is_leader q) with (is_leader p) end.
    rewrite Hl, !bind_ret. match goal with |- context [is_leader ?q] =>
      change (is_leader q) with (is_leader p) end. rewrite Hl.
    eexists _, []. split; [reflexivity|]. rewrite app_nil_r. split; [reflexivity|].
    split; [by apply Forall_nil|]. split; [exact Hst|]. unfold finished. cbn. rewrite Hs, Hu. done.
Qed.

(** A commit message of the round. *)
Lemma run_commit_live now nowMs nP nC i p pend1 m pend2 :
  (i < n)%nat → let th := in_Commit m v in
  live nP nC i p (pend1 ++ th :: pend2) → of_round r seq v th →
  Forall (of_round r seq v) (pend1 ++ pend2) → static (p0 i) p → thread_waits th p = false →
  ∃ p' out, run now nowMs th p = Ret (Some p') ∧ sent p' = sent p ++ out ∧
    node_inv nP nC i p' (pend1 ++ pend2) ∧
    effect nP nC i p (prep_sent p (pend1 ++ th :: pend2)) (pend1 ++ pend2) p' out.
Proof.
  intros Hi th Hl (Hd & Hm & Hnn & _) Hall Hst Hw. pose proof (live_current _ _ _ _ _ Hl) as Ho.
  cbn [thread_waits th] in Hw. rewrite Hm, (live_waits _ _ _ _ _ 3 Hl), Z.ltb_ge in Hw.
  rewrite <-Hm in Ho. unfold prep_sent at 1.
  destruct Hl as (Hv & Hlr & HQ' & Hc & Hs & Hb & Hr & Hk & Hpre & Hsg & Hfl & Hrp & Hf & Hcc & HP & HC).
  rewrite !number_split in *. change (is_pre th) with false in *.
  change (is_prep th) with false in *. change (is_comm th) with true in *. cbv iota in *.
  rewrite !Z.add_0_r in *. subst th.
  assert (i ≠ lead → number is_pre (pend1 ++ pend2) = 0 ∧ flag_of (isCommitBordcast p) d = true) as Hrep.
  { intros Hne. rewrite decide_False in Hsg by done. destruct Hpre as [Hp0|Hp1].
    - split; [done|]. rewrite Hp0 in Hsg. destruct (flag_of (isCommitBordcast p) d); [done|]. cbn in Hsg. lia.
    - rewrite Hfl, Hp1 in Hsg by done. cbn in Hsg. lia. }
  assert (requestPool p !! d = Some r) as Hp.
  { apply Hrp. destruct (decide (i = lead)) as [|Hne]; [by left|right]. by apply Hrep. }
  destruct (voted_facts r m p Hd Hnn Hc) as (F0 & F1 & F2).
  assert (static p (voted m p) ∧ requestPool (voted m p) = requestPool p ∧
    isCommitBordcast (voted m p) = isCommitBordcast p ∧ isReply (voted m p) = isReply p ∧
    view (voted m p) = view p ∧ sequenceID (voted m p) = sequenceID p ∧
    CurChain (voted m p) = CurChain p ∧ sequenceLock (voted m p) = sequenceLock p ∧
    pbftStage (voted m p) = pbftStage p ∧ sent (voted m p) = sent p)
    as (G1 & G2 & G3 & G4 & G5 & G6 & G7 & G8 & G9 & G10)
    by (unfold voted, alloc, static; by destruct (cm_SenderNode m)).
  assert (is_leader (voted m p) = is_leader p ∧ quorum (voted m p) = quorum p) as [G11 G12].
  { unfold is_leader, quorum. destruct G1 as (_ & _ & -> & _ & _ & _ & ->). by rewrite G5. }
  cbn [run]. destruct (Z.leb_spec Q (commit_count d p + 1)) as [HQ1|HQ1].
  - assert (executes v m p = true) as He.
    { unfold executes. rewrite Ho, Hd, Hr, Hp, HQ'. unfold alloc. destruct (cm_SenderNode m); [|done].
      cbn [fst negb andb]. rewrite size_new_vote by apply Hc. unfold commit_count in HQ1.
      rewrite (proj2 (Z.leb_le _ _) HQ1). done. }
    rewrite handleCommit_quorum by done.
    destruct (execute_live now nowMs i m (voted m p)) as (p' & out & E & Es & Hout & Hst' & Hfin);
      try congruence; [by etransitivity|intros; rewrite G8; by apply Hk|].
    exists p', out. split; [exact E|]. split; [by rewrite Es, G10|]. split.
    + split; [done|]. split; [done|]. by right.
    + destruct Hfin as (Hs' & _). apply effect_quiet; [done|..]; unfold prep_sent, com_sent; rewrite ?Hs'.
      * intros Hne. destruct (Hrep Hne) as [-> ->].
        rewrite Hs, (proj2 (Z.eqb_neq (seq + 1) seq)) by lia. by rewrite (Z.eqb_refl seq).
      * by rewrite (proj2 (Z.eqb_neq (seq + 1) seq)) by lia.
      * by rewrite (proj2 (Z.eqb_neq (seq + 1) seq)) by lia.
  - rewrite (handleCommit_counts _ _ _ _ _ d) by (done || lia).
    exists (voted m p), []. rewrite app_nil_r. split; [done|]. split; [done|]. split.
    + split; [done|]. split; [by etransitivity|]. left. unfold live.
      rewrite G2, G3, G4, G5, G6, G7, G8, G9, G11, G12, F1, F2. split_and!; (done || lia).
    + apply effect_quiet; [by apply Forall_nil|..]; unfold prep_sent, com_sent; by rewrite ?G3, ?G6.
Qed.

(** Any handler of the round that does not wait. *)
Lemma run_effect now nowMs nP nC i p pend1 th pend2 :
  (i < n)%nat → node_inv nP nC i p (pend1 ++ th :: pend2) → thread_waits th p = false →
  ∃ p' out, run now nowMs th p = Ret (Some p') ∧ sent p' = sent p ++ out ∧
    node_inv nP nC i p' (pend1 ++ pend2) ∧
    effect nP nC i p (prep_sent p (pend1 ++ th :: pend2)) (pend1 ++ pend2) p' out.
Proof.
  intros Hi (Hall & Hst & Hph) Hw.
  assert (of_round r seq v th ∧ Forall (of_round r seq v) (pend1 ++ pend2)) as [Ht Hall'].
  { rewrite Forall_app, Forall_cons in Hall. rewrite Forall_app. tauto. }
  destruct Hph as [Hl|Hfin].
  - destruct th as [m w|m w|m w].
    + destruct Ht as [-> ->]. by apply run_pre_live.
    + pose proof Ht as (_ & _ & _ & ->). by apply run_prepare_live.
    + pose proof Ht as (_ & _ & _ & ->). by apply run_commit_live.
  - exists p, []. rewrite app_nil_r. assert (run now nowMs th p = Ret (Some p)) as E.
    { pose proof Hfin as (Hs & _). assert (∀ w, outdated seq w p = true) as Ho.
      { intros w. unfold outdated. by rewrite Hs, (proj2 (Z.ltb_lt _ _)) by lia. }
      destruct th as [m w|m w|m w]; cbn [run of_round] in *.
      - destruct Ht as [-> ->]. unfold handlePrePrepare. cbn [pp_SeqID]. by rewrite Ho.
      - destruct Ht as (_ & Hm & _). unfold handlePrepare. by rewrite Hm, Ho.
      - destruct Ht as (_ & Hm & _). unfold handleCommit. by rewrite Hm, Ho. }
    split; [done|]. split; [done|]. split; [split; [done|split; [done|by right]]|].
    destruct Hfin as (Hs & _). apply effect_quiet; [by apply Forall_nil|..]; unfold prep_sent, com_sent;
      rewrite Hs, (proj2 (Z.eqb_neq (seq + 1) seq)) by lia; done.
Qed.

(** *** What does not depend on the order of the handlers *)
Lemma node_inv_perm nP nC i p pend pend' :
  pend ≡ₚ pend' → node_inv nP nC i p pend → node_inv nP nC i p pend'.
Proof.
  intros Hp (Hall & Hst & Hph). split; [by rewrite <-Hp|]. split; [done|].
  destruct Hph as [Hl|Hf]; [left|by right]. unfold live in *.
  by rewrite <-(number_perm is_pre _ _ Hp), <-(number_perm is_prep _ _ Hp), <-(number_perm is_comm _ _ Hp).
Qed.

Lemma prep_sent_perm p pend pend' : pend ≡ₚ pend' → prep_sent p pend = prep_sent p pend'.
Proof. intros Hp. unfold prep_sent. by rewrite (number_perm is_pre _ _ Hp). Qed.

Lemma number_snoc f pend th :
  number f (pend ++ [th]) = number f pend + if f th : bool then 1 else 0.
Proof. rewrite number_split, app_nil_r. done. Qed.

(** A message of another kind that comes in does not change whether the prepare message
    was sent. *)
Lemma prep_sent_snoc p pend th : is_pre th = false → prep_sent p (pend ++ [th]) = prep_sent p pend.
Proof. intros Hth. unfold prep_sent. by rewrite number_snoc, Hth, Z.add_0_r. Qed.

Lemma node_inv_prepare nP nC i p pend q :
  node_inv nP nC i p pend → node_inv (nP + 1) nC i p (pend ++ [in_Prepare (prep_of q) v]).
Proof.
  intros (Hall & Hst & Hph). split; [apply Forall_app; split; [done|]; by apply Forall_singleton|].
  split; [done|]. destruct Hph as [Hl|Hf]; [left|by right]. unfold live in *. rewrite !number_snoc.
  cbn [is_pre is_prep is_comm]. rewrite !Z.add_0_r, Z.add_assoc. naive_solver.
Qed.

Lemma node_inv_commit nP nC i p pend q :
  node_inv nP nC i p pend → node_inv nP (nC + 1) i p (pend ++ [in_Commit (com_of q) v]).
Proof.
  intros (Hall & Hst & Hph). split; [apply Forall_app; split; [done|]; by apply Forall_singleton|].
  split; [done|]. destruct Hph as [Hl|Hf]; [left|by right]. unfold live in *. rewrite !number_snoc.
  cbn [is_pre is_prep is_comm]. rewrite !Z.add_0_r, Z.add_assoc. naive_solver.
Qed.

(** *** Messages to the nodes of the shard *)
Lemma elem_of_addrs a : a ∈ addrs ↔ ∃ i, (i < n)%nat ∧ a = addr i.
Proof using Type.
  clear Hlead. unfold addrs. rewrite list_elem_of_fmap. setoid_rewrite elem_of_seq. split.
  - intros (i & -> & Hi). exists i. split; [lia|done].
  - intros (i & Hi & ->). exists i. split; [done|lia].
Qed.

Lemma addr_inj i j : (i < n)%nat → (j < n)%nat → addr i = addr j → i = j.
Proof using Haddr.
  intros Hi Hj E. apply (NoDup_lookup addrs i j (addr i) Haddr).
  - unfold addrs. rewrite list_lookup_fmap, lookup_seq_lt by done. done.
  - unfold addrs. rewrite list_lookup_fmap, lookup_seq_lt by done. cbn. by rewrite E.
Qed.

Lemma bcast_perm i p msg :
  (i < n)%nat → static (p0 i) p → bcast msg p ≡ₚ (λ ip, (ip, msg)) <$> addrs.
Proof using Haddr Hnb.
  intros Hi (H1 & H2 & _ & _ & H5 & _). unfold bcast.
  assert (getNeighborNodes p ≡ₚ addrs) as Hp.
  { rewrite <-(Hnb i Hi). unfold getNeighborNodes, getNodeIpsWithinShard. by rewrite H2, H5. }
  rewrite H1. fold (addr i). change [(addr i, msg)] with ((λ ip, (ip, msg)) <$> [addr i]).
  rewrite <-fmap_app. apply fmap_Permutation. rewrite Hp.
  assert (addr i ∈ addrs) as (l1 & l2 & E)%list_elem_of_split by (apply elem_of_addrs; eauto).
  pose proof Haddr as Hnd. rewrite E in Hnd |- *. apply NoDup_app in Hnd as (_ & Hd1 & [Hd2 _]%NoDup_cons).
  rewrite filter_app, filter_cons_False by (intros Hn; by apply Hn).
  rewrite !list_filter_all; [|clear -Hd1 Hd2; set_solver..]. by rewrite <-app_assoc, <-Permutation_cons_append.
Qed.

Lemma to_addr_app a fl1 fl2 : to_addr a (fl1 ++ fl2) = to_addr a fl1 ++ to_addr a fl2.
Proof. unfold to_addr. by rewrite filter_app, fmap_app. Qed.

Lemma to_addr_outside i out :
  (i < n)%nat → Forall (λ x, x.1 ∉ addrs) out → to_addr (addr i) out = [].
Proof using Type.
  intros Hi Hout. unfold to_addr. rewrite list_filter_none; [done|]. intros x Hx E.
  rewrite Forall_forall in Hout. apply (Hout x Hx), elem_of_addrs. eauto.
Qed.

Lemma to_addr_bcast i j p msg :
  (i < n)%nat → (j < n)%nat → static (p0 i) p → to_addr (addr j) (bcast msg p) = [msg].
Proof using Haddr Hnb.
  intros Hi Hj Hst. apply Permutation_singleton_r. unfold to_addr.
  rewrite (bcast_perm i p msg Hi Hst).
  assert (addr j ∈ addrs) as (l1 & l2 & E)%list_elem_of_split by (apply elem_of_addrs; eauto).
  pose proof Haddr as Hnd. rewrite E in Hnd |- *. apply NoDup_app in Hnd as (_ & Hd1 & [Hd2 _]%NoDup_cons).
  rewrite fmap_app, fmap_cons, filter_app, filter_cons_True by done.
  rewrite !list_filter_none; [done|..]; intros x (a & -> & Ha)%list_elem_of_fmap; cbn;
    clear -Hd1 Hd2 Ha; set_solver.
Qed.

Lemma line_prepare m : line_thread v (frame CPrepare (marshal m)) = Some (in_Prepare m v).
Proof.
  unfold line_thread, line_task. rewrite SplitMessage_wire by done.
  repeat (case_decide; try congruence; try (exfalso; discriminate)).
  cbn [mbind option_bind task_thread]. by rewrite unmarshal_line.
Qed.

Lemma line_commit m : line_thread v (frame CCommit (marshal m)) = Some (in_Commit m v).
Proof.
  unfold line_thread, line_task. rewrite SplitMessage_wire by done.
  repeat (case_decide; try congruence; try (exfalso; discriminate)).
  cbn [mbind option_bind task_thread]. by rewrite unmarshal_line.
Qed.

Lemma line_preprepare m : line_thread v (frame CPrePrepare (marshal m)) = Some (in_PrePrepare m v).
Proof.
  unfold line_thread, line_task. rewrite SplitMessage_wire by done.
  repeat (case_decide; try congruence; try (exfalso; discriminate)).
  cbn [mbind option_bind task_thread]. by rewrite unmarshal_line.
Qed.

(** *** The invariant of the round

    [SP] and [SC] are the nodes that have sent their prepare and commit messages. *)
Definition sent_by (SP SC : gset nat) (i : nat) p (pend : list thread) : Prop :=
  (prep_sent p pend = false → i ∉ SP) ∧ (i ≠ lead → prep_sent p pend = true → i ∈ SP) ∧
  (com_sent p = false → i ∉ SC) ∧ (i ≠ lead → com_sent p = true → i ∈ SC).

Definition zsize (X : gset nat) : Z := Z.of_nat (size X).

Definition peer_inv (SP SC : gset nat) (fl : list (string * bytes)) (i : nat) (s : psys) : Prop :=
  Forall (λ t, is_Some (task_thread v t)) (tasks s) ∧
  node_inv (zsize SP) (zsize SC) i (nd s) (pending v fl s) ∧
  sent_by SP SC i (nd s) (pending v fl s).

Definition shard_inv (SP SC : gset nat) (S : shard) : Prop :=
  length (peers S) = n ∧ SP ⊆ set_seq 0 n ∧ SC ⊆ set_seq 0 n ∧
  (∀ x, x ∈ flight S → x.1 ∈ addrs → is_Some (line_thread v x.2)) ∧
  ∀ i s, peers S !! i = Some s → peer_inv SP SC (flight S) i s.

(** What is left to do: steps of messages and handlers, and messages still to be sent. *)
Definition load (s : psys) : nat := 2 * length (tasks s) + length (threads s).
Definition inside (fl : list (string * bytes)) : nat := length (base.filter (λ x, x.1 ∈ addrs) fl).
Definition weight (SP SC : gset nat) (S : shard) : nat :=
  sum_list_with load (peers S) + 3 * inside (flight S) + 3 * n * (2 * n - size SP - size SC).

Lemma sum_list_insert {A} (f : A → nat) l i x y :
  l !! i = Some x → (sum_list_with f (<[i := y]> l) + f x = sum_list_with f l + f y)%nat.
Proof.
  intros E. rewrite insert_take_drop by (by eapply lookup_lt_Some).
  rewrite <-(take_drop_middle l i x E) at 3. rewrite !sum_list_with_app. cbn. lia.
Qed.

Lemma inside_app fl1 fl2 : inside (fl1 ++ fl2) = (inside fl1 + inside fl2)%nat.
Proof using Type. unfold inside. by rewrite filter_app, length_app. Qed.

Lemma inside_outside out : Forall (λ x, x.1 ∉ addrs) out → inside out = 0%nat.
Proof using Type.
  intros H. unfold inside. rewrite list_filter_none; [done|]. intros x Hx. by eapply Forall_forall in H.
Qed.

Lemma inside_bcast i p msg : (i < n)%nat → static (p0 i) p → inside (bcast msg p) = n.
Proof using Haddr Hnb.
  intros Hi Hst. unfold inside. rewrite (bcast_perm i p msg Hi Hst), list_filter_all.
  - rewrite length_fmap. unfold addrs. by rewrite length_fmap, length_seq.
  - intros x (a & -> & Ha)%list_elem_of_fmap. done.
Qed.

Lemma size_subset (X : gset nat) : X ⊆ set_seq 0 n → (size X ≤ n)%nat.
Proof. intros H%subseteq_size. by rewrite size_set_seq in H. Qed.

Lemma size_add (X : gset nat) i : i ∉ X → zsize ({[i]} ∪ X) = zsize X + 1.
Proof. intros H. unfold zsize. rewrite size_union, size_singleton by set_solver. lia. Qed.

(** The address of a node. *)
Lemma peer_addr SP SC fl i s : peer_inv SP SC fl i s → IPaddr (RunningNode (nd s)) = addr i.
Proof. intros (_ & (_ & (-> & _) & _) & _). done. Qed.

Lemma new_sent_app p p' out : sent p' = sent p ++ out → new_sent p p' = out.
Proof. intros E. unfold new_sent. by rewrite E, drop_app_length. Qed.

(** *** Delivering a message *)
Lemma peer_inv_perm SP SC fl fl' i s s' :
  nd s' = nd s → Forall (λ t, is_Some (task_thread v t)) (tasks s') →
  pending v fl s ≡ₚ pending v fl' s' → peer_inv SP SC fl i s → peer_inv SP SC fl' i s'.
Proof.
  intros En Ht Hp (_ & Hi & Hs). unfold peer_inv. rewrite En. split; [done|].
  split; [by eapply node_inv_perm|]. unfold sent_by in *. by rewrite <-(prep_sent_perm _ _ _ Hp).
Qed.

Lemma deliver_keeps SP SC ps fl1 msg fl2 i p ts ths hs nowMs p' t :
  let S := mkShard ps (fl1 ++ (IPaddr (RunningNode p), msg) :: fl2) in
  shard_inv SP SC S → ps !! i = Some (mkSys p ts ths hs) →
  handleMessage nowMs (wire msg) p = Ret (p', t) →
  let S' := mkShard (<[i := mkSys p' (ts ++ option_list t) ths hs]> ps) ((fl1 ++ fl2) ++ new_sent p p') in
  shard_inv SP SC S' ∧ (weight SP SC S' < weight SP SC S)%nat.
Proof.
  intros S (Hn & HSP & HSC & Hfl & Hps) Ei Eh S'.
  pose proof (Hps i _ Ei) as Hi. pose proof (peer_addr _ _ _ _ _ Hi) as Ha. cbn in Ha.
  assert (i < n)%nat as Hin by (rewrite <-Hn; by eapply lookup_lt_Some).
  assert (addr i ∈ addrs) as Hai by (apply elem_of_addrs; eauto).
  destruct (Hfl (addr i, msg)) as [th Hth]; [cbn; rewrite Ha; set_solver|done|]. cbn in Hth.
  destruct (line_task msg) as [tk|] eqn:Etk; [|by unfold line_thread in Hth; rewrite Etk in Hth].
  rewrite (handleMessage_line nowMs msg tk p Etk) in Eh. injection Eh as <- <-.
  subst S' S. cbn [peers flight] in *. rewrite (new_sent_app p p []), app_nil_r by (by rewrite app_nil_r).
  assert (task_thread v tk = Some th) as Htk by (unfold line_thread in Hth; by rewrite Etk in Hth).
  split.
  - split_and!; cbn; [by rewrite length_insert|done|done|intros x Hx; apply Hfl; cbn; set_solver|].
    intros j s Ej. destruct (decide (j = i)) as [->|Hne].
    + rewrite list_lookup_insert_eq in Ej by (by eapply lookup_lt_Some). injection Ej as <-.
      eapply peer_inv_perm; [| | |exact Hi]; [done| |].
      * cbn. apply Forall_app. split; [by apply Hi|]. apply Forall_singleton. by exists th.
      * unfold pending. cbn. rewrite Ha, to_addr_app, (to_addr_app _ fl1 fl2). unfold to_addr at 2.
        rewrite filter_cons_True by done. rewrite fmap_cons, !omap_app. cbn. rewrite Hth, Htk.
        fold (to_addr (addr i) fl2). solve_Permutation.
    + rewrite list_lookup_insert_ne in Ej by done. pose proof (Hps j s Ej) as Hj.
      eapply peer_inv_perm; [| | |exact Hj]; [done|by apply Hj|]. unfold pending. cbn.
      rewrite (peer_addr _ _ _ _ _ Hj), Ha, to_addr_app, (to_addr_app _ fl1 fl2). unfold to_addr at 2.
      rewrite filter_cons_False; [done|]. cbn. intros E%addr_inj; [done..|].
      rewrite <-Hn. by eapply lookup_lt_Some.
  - unfold weight. cbn [peers flight]. change (option_list (Some tk)) with [tk].
    pose proof (sum_list_insert load ps i _ (mkSys p (ts ++ [tk]) ths hs) Ei) as Hsum.
    rewrite !inside_app. assert (inside ((IPaddr (RunningNode p), msg) :: fl2) = S (inside fl2)) as ->.
    { unfold inside. rewrite filter_cons_True; [done|]. cbn. by rewrite Ha. }
    assert (load (mkSys p (ts ++ [tk]) ths hs) = load (mkSys p ts ths hs) + 2)%nat.
    { unfold load. cbn [tasks threads]. rewrite length_app. cbn [length]. lia. }
    generalize (3 * n * (2 * n - size SP - size SC))%nat. lia.
Qed.

(** *** Starting a handler *)
Lemma node_inv_view nP nC i p pend : node_inv nP nC i p pend → view p = v.
Proof. intros (_ & _ & [(Hv & _)|(_ & _ & Hv & _)]); done. Qed.

Lemma start_keeps SP SC ps fl i p ts1 t ts2 ths hs th :
  let S := mkShard ps fl in
  shard_inv SP SC S → ps !! i = Some (mkSys p (ts1 ++ t :: ts2) ths hs) →
  start t p = Ret (Some th) →
  let S' := mkShard (<[i := mkSys p (ts1 ++ ts2) (th :: ths) hs]> ps) (fl ++ new_sent p p) in
  shard_inv SP SC S' ∧ (weight SP SC S' < weight SP SC S)%nat.
Proof.
  intros S (Hn & HSP & HSC & Hfl & Hps) Ei Est S'. subst S S'. cbn [peers flight] in *.
  rewrite (new_sent_app p p []), app_nil_r by (by rewrite app_nil_r).
  pose proof (Hps i _ Ei) as Hi. pose proof Hi as (Hts & Hnode & _). cbn in Hts.
  apply Forall_app in Hts as [Hts1 [[th' Hth'] Hts2]%Forall_cons].
  apply node_inv_view in Hnode as Hv. cbn in Hv.
  pose proof (start_thread_inv t v th' th p Hth' Hv Est) as ->. split.
  - split_and!; cbn; [by rewrite length_insert|done..|].
    intros j s Ej. destruct (decide (j = i)) as [->|Hne].
    + rewrite list_lookup_insert_eq in Ej by (by eapply lookup_lt_Some). injection Ej as <-.
      eapply peer_inv_perm; [| | |exact Hi]; [done|by apply Forall_app|].
      unfold pending. cbn. rewrite !omap_app. cbn. rewrite Hth'. solve_Permutation.
    + rewrite list_lookup_insert_ne in Ej by done. by apply Hps.
  - unfold weight. cbn [peers flight].
    pose proof (sum_list_insert load ps i _ (mkSys p (ts1 ++ ts2) (th' :: ths) hs) Ei) as Hsum.
    assert (load (mkSys p (ts1 ++ t :: ts2) ths hs) = load (mkSys p (ts1 ++ ts2) (th' :: ths) hs) + 1)%nat.
    { unfold load. cbn [tasks threads]. rewrite !length_app. cbn [length]. lia. }
    generalize (3 * n * (2 * n - size SP - size SC))%nat. lia.
Qed.

(** *** Running a handler *)
Lemma pending_out fl out (s : psys) :
  pending v (fl ++ out) s ≡ₚ
  pending v fl s ++ omap (line_thread v) (to_addr (IPaddr (RunningNode (nd s))) out).
Proof. unfold pending. rewrite to_addr_app, omap_app. solve_Permutation. Qed.

(** A peer when messages have been sent by another node. *)
Lemma peer_quiet SP SC fl out j s :
  (j < n)%nat → Forall (λ x, x.1 ∉ addrs) out → peer_inv SP SC fl j s → peer_inv SP SC (fl ++ out) j s.
Proof.
  intros Hj Hout Hs. eapply peer_inv_perm; [done|by apply Hs| |exact Hs].
  by rewrite pending_out, (peer_addr _ _ _ _ _ Hs), to_addr_outside, app_nil_r.
Qed.

Lemma peer_prepare SP SC fl i p j s :
  (i < n)%nat → (j < n)%nat → static (p0 i) p → i ∉ SP → j ≠ i →
  peer_inv SP SC fl j s →
  peer_inv ({[i]} ∪ SP) SC (fl ++ bcast (frame CPrepare (marshal (prep_of p))) p) j s.
Proof.
  intros Hi Hj Hst HiSP Hne Hs. pose proof Hs as (Hts & Hnode & H1 & H2 & H3 & H4).
  assert (pending v fl s ++ [in_Prepare (prep_of p) v] ≡ₚ
    pending v (fl ++ bcast (frame CPrepare (marshal (prep_of p))) p) s) as Hp.
  { rewrite pending_out, (peer_addr _ _ _ _ _ Hs), (to_addr_bcast i j) by done.
    cbn [omap list_omap]. by rewrite line_prepare. }
  split; [done|]. split.
  - rewrite size_add by done. eapply node_inv_perm; [exact Hp|]. by apply node_inv_prepare.
  - unfold sent_by. rewrite <-(prep_sent_perm _ _ _ Hp), prep_sent_snoc by done. set_solver.
Qed.

Lemma peer_commit SP SC fl i p j s :
  (i < n)%nat → (j < n)%nat → static (p0 i) p → i ∉ SC → j ≠ i →
  peer_inv SP SC fl j s →
  peer_inv SP ({[i]} ∪ SC) (fl ++ bcast (frame CCommit (marshal (com_of p))) p) j s.
Proof.
  intros Hi Hj Hst HiSC Hne Hs. pose proof Hs as (Hts & Hnode & H1 & H2 & H3 & H4).
  assert (pending v fl s ++ [in_Commit (com_of p) v] ≡ₚ
    pending v (fl ++ bcast (frame CCommit (marshal (com_of p))) p) s) as Hp.
  { rewrite pending_out, (peer_addr _ _ _ _ _ Hs), (to_addr_bcast i j) by done.
    cbn [omap list_omap]. by rewrite line_commit. }
  split; [done|]. split.
  - rewrite size_add by done. eapply node_inv_perm; [exact Hp|]. by apply node_inv_commit.
  - unfold sent_by. rewrite <-(prep_sent_perm _ _ _ Hp), prep_sent_snoc by done. set_solver.
Qed.

(** The sets after a handler has sent [out]. *)
Definition step_sets (SP SC SP' SC' : gset nat) (i : nat) p (out : list (string * bytes)) : Prop :=
  (SP' = SP ∧ SC' = SC ∧ Forall (λ x, x.1 ∉ addrs) out) ∨
  (SP' = {[i]} ∪ SP ∧ SC' = SC ∧ (i ∉ SP) ∧ out = bcast (frame CPrepare (marshal (prep_of p))) p) ∨
  (SP' = SP ∧ SC' = {[i]} ∪ SC ∧ (i ∉ SC) ∧ out = bcast (frame CCommit (marshal (com_of p))) p).

(** The node itself after its handler. *)
Lemma self_step SP SC fl i p pend s' out :
  (i < n)%nat → static (p0 i) p → Forall (λ t, is_Some (task_thread v t)) (tasks s') →
  sent_by SP SC i p pend → node_inv (zsize SP) (zsize SC) i (nd s') (pending v fl s') →
  effect (zsize SP) (zsize SC) i p (prep_sent p pend) (pending v fl s') (nd s') out →
  ∃ SP' SC', step_sets SP SC SP' SC' i p out ∧ peer_inv SP' SC' (fl ++ out) i s'.
Proof.
  intros Hi Hst Hts (S1 & S2 & S3 & S4) Hnode Heff.
  assert (IPaddr (RunningNode (nd s')) = addr i) as Ha by (by destruct Hnode as (_ & (-> & _) & _)).
  destruct Heff as [out Hout E1 E2 E3|E1 E2 E3|E1 E2 E3].
  - exists SP, SC. split; [by left|]. apply peer_quiet; [done..|]. split; [done|]. split; [done|].
    split_and!; [by intros ?%E2; apply S1| |by intros ?%E3; apply S3|].
    + intros Hne. destruct (E1 Hne) as [-> _]. by apply S2.
    + intros Hne. destruct (E1 Hne) as [_ ->]. by apply S4.
  - exists ({[i]} ∪ SP), SC. split; [right; left; auto|]. specialize (S1 E1).
    assert (pending v fl s' ++ [in_Prepare (prep_of p) v] ≡ₚ
      pending v (fl ++ bcast (frame CPrepare (marshal (prep_of p))) p) s') as Hp.
    { rewrite pending_out, Ha, (to_addr_bcast i i) by done. cbn [omap list_omap]. by rewrite line_prepare. }
    split; [done|]. split.
    + rewrite size_add by done. eapply node_inv_perm; [exact Hp|]. by apply node_inv_prepare.
    + unfold sent_by. rewrite <-(prep_sent_perm _ _ _ Hp), prep_sent_snoc, E2, E3 by done. set_solver.
  - exists SP, ({[i]} ∪ SC). split; [right; right; auto|]. specialize (S3 E1).
    assert (pending v fl s' ++ [in_Commit (com_of p) v] ≡ₚ
      pending v (fl ++ bcast (frame CCommit (marshal (com_of p))) p) s') as Hp.
    { rewrite pending_out, Ha, (to_addr_bcast i i) by done. cbn [omap list_omap]. by rewrite line_commit. }
    split; [done|]. split.
    + rewrite size_add by done. eapply node_inv_perm; [exact Hp|]. by apply node_inv_commit.
    + unfold sent_by. rewrite <-(prep_sent_perm _ _ _ Hp), prep_sent_snoc, E2, E3 by done. set_solver.
Qed.

Lemma other_step SP SC SP' SC' fl i p out j s :
  (i < n)%nat → (j < n)%nat → static (p0 i) p → j ≠ i → step_sets SP SC SP' SC' i p out →
  peer_inv SP SC fl j s → peer_inv SP' SC' (fl ++ out) j s.
Proof.
  intros Hi Hj Hst Hne [(-> & -> & Hout)|[(-> & -> & HiS & ->)|(-> & -> & HiS & ->)]] Hs.
  - by apply peer_quiet.
  - by apply peer_prepare.
  - by apply peer_commit.
Qed.

Lemma step_sets_ok SP SC SP' SC' i p out :
  (i < n)%nat → static (p0 i) p → SP ⊆ set_seq 0 n → SC ⊆ set_seq 0 n →
  step_sets SP SC SP' SC' i p out →
  SP' ⊆ set_seq 0 n ∧ SC' ⊆ set_seq 0 n ∧
  (∀ x, x ∈ out → x.1 ∈ addrs → is_Some (line_thread v x.2)) ∧
  (3 * inside out + 3 * n * (2 * n - size SP' - size SC') = 3 * n * (2 * n - size SP - size SC))%nat.
Proof.
  intros Hi Hst HSP HSC H.
  assert (∀ X : gset nat, X ⊆ set_seq 0 n → {[i]} ∪ X ⊆ set_seq 0 n) as Hsub.
  { intros X HX. apply union_subseteq. split; [|done]. apply singleton_subseteq_l, elem_of_set_seq. lia. }
  assert (∀ X : gset nat, i ∉ X → size ({[i]} ∪ X) = S (size X)) as Hsz.
  { intros X HX. rewrite size_union, size_singleton by set_solver. done. }
  pose proof (size_subset _ HSP). pose proof (size_subset _ HSC).
  destruct H as [(-> & -> & Hout)|[(-> & -> & HiS & ->)|(-> & -> & HiS & ->)]].
  - split_and!; [done..| |rewrite inside_outside by done; lia].
    intros x Hx Hin. by eapply Forall_forall in Hout.
  - pose proof (size_subset _ (Hsub _ HSP)) as Hle. rewrite (Hsz _ HiS) in *.
    split_and!; [by apply Hsub|done| |rewrite (inside_bcast i) by done; nia].
    intros x Hx _. rewrite (bcast_perm i) in Hx by done. apply list_elem_of_fmap in Hx as (a & -> & _).
    cbn. by rewrite line_prepare.
  - pose proof (size_subset _ (Hsub _ HSC)) as Hle. rewrite (Hsz _ HiS) in *.
    split_and!; [done|by apply Hsub| |rewrite (inside_bcast i) by done; nia].
    intros x Hx _. rewrite (bcast_perm i) in Hx by done. apply list_elem_of_fmap in Hx as (a & -> & _).
    cbn. by rewrite line_commit.
Qed.

Lemma run_keeps SP SC ps fl i p ts ths1 th ths2 hs now nowMs p' :
  let S := mkShard ps fl in
  shard_inv SP SC S → ps !! i = Some (mkSys p ts (ths1 ++ th :: ths2) hs) →
  thread_waits th p = false → run now nowMs th p = Ret (Some p') →
  let S' := mkShard (<[i := mkSys p' ts (ths1 ++ ths2) (hs ++ executed th p)]> ps)
              (fl ++ new_sent p p') in
  ∃ SP' SC', shard_inv SP' SC' S' ∧ (weight SP' SC' S' < weight SP SC S)%nat.
Proof.
  intros S (Hn & HSP & HSC & Hfl & Hps) Ei Hw Er S'. subst S S'. cbn [peers flight] in *.
  pose proof (Hps i _ Ei) as (Hts & Hnode & Hsent). cbn [nd tasks] in *.
  assert (i < n)%nat as Hin by (rewrite <-Hn; by eapply lookup_lt_Some).
  set (A := omap (line_thread v) (to_addr (IPaddr (RunningNode p)) fl) ++ omap (task_thread v) ts ++ ths1).
  assert (pending v fl (mkSys p ts (ths1 ++ th :: ths2) hs) = A ++ th :: ths2) as EA.
  { unfold pending, A. cbn. by rewrite <-!app_assoc. }
  rewrite EA in Hnode, Hsent.
  destruct (run_effect now nowMs _ _ i p A th ths2 Hin Hnode Hw) as (p1 & out & E1 & Es & Hnode' & Heff).
  rewrite Er in E1. injection E1 as <-. rewrite (new_sent_app p p' out Es).
  set (s' := mkSys p' ts (ths1 ++ ths2) (hs ++ executed th p)).
  assert (static (p0 i) p) as Hst by apply Hnode.
  assert (pending v fl s' = A ++ ths2) as EA'.
  { unfold pending, A, s'. cbn [nd tasks threads]. rewrite <-!app_assoc.
    destruct Hnode' as (_ & (-> & _) & _). by destruct Hst as (-> & _). }
  rewrite <-EA' in Hnode', Heff.
  destruct (self_step SP SC fl i p (A ++ th :: ths2) s' out Hin Hst Hts Hsent Hnode' Heff)
    as (SP' & SC' & Hsets & Hself).
  destruct (step_sets_ok SP SC SP' SC' i p out Hin Hst HSP HSC Hsets) as (HSP' & HSC' & Hlines & Hwt).
  exists SP', SC'. split.
  - split_and!; cbn; [by rewrite length_insert|done..| |].
    + intros x [Hx|Hx]%elem_of_app Ha; [by apply Hfl|by apply Hlines].
    + intros j s Ej. destruct (decide (j = i)) as [->|Hne].
      * rewrite list_lookup_insert_eq in Ej by (by eapply lookup_lt_Some). by injection Ej as <-.
      * rewrite list_lookup_insert_ne in Ej by done. eapply other_step; [exact Hin| |done..|by apply Hps].
        rewrite <-Hn. by eapply lookup_lt_Some.
  - unfold weight. cbn [peers flight]. pose proof (sum_list_insert load ps i _ s' Ei) as Hsum.
    rewrite inside_app. assert (load (mkSys p ts (ths1 ++ th :: ths2) hs) = S (load s')) as Hld.
    { unfold load, s'. cbn [tasks threads]. rewrite !length_app. cbn [length]. lia. }
    rewrite Hld in Hsum. revert Hwt. generalize (3 * n * (2 * n - size SP' - size SC'))%nat.
    generalize (3 * n * (2 * n - size SP - size SC))%nat. lia.
Qed.

(** Every step keeps the invariant and lessens what is left to do. *)
Lemma shard_step_keeps SP SC S S' :
  shard_step S S' → shard_inv SP SC S →
  ∃ SP' SC', shard_inv SP' SC' S' ∧ (weight SP' SC' S' < weight SP SC S)%nat.
Proof.
  intros Hstep Hi. destruct Hstep as [ps fl1 msg fl2 i p ts ths hs nowMs p' t Ei Eh|ps fl i s s' Ei Hw].
  - exists SP, SC. by eapply deliver_keeps.
  - destruct Hw as [p ts1 t ts2 ths hs th Est|p ts ths1 th ths2 hs now nowMs p' Hw Er].
    + exists SP, SC. by apply (start_keeps SP SC ps fl i p ts1 t ts2 ths hs th).
    + by apply (run_keeps SP SC ps fl i p ts ths1 th ths2 hs now nowMs p').
Qed.

Lemma shard_run_keeps k SP SC S S' :
  nsteps shard_step k S S' → shard_inv SP SC S →
  ∃ SP' SC', shard_inv SP' SC' S' ∧ (k + weight SP' SC' S' ≤ weight SP SC S)%nat.
Proof.
  intros Hrun. revert SP SC. induction Hrun as [S|k S1 S2 S3 Hs Hrun IH]; intros SP SC Hi.
  { exists SP, SC. split; [done|lia]. }
  destruct (shard_step_keeps SP SC S1 S2 Hs Hi) as (SP1 & SC1 & Hi1 & Hw1).
  destruct (IH SP1 SC1 Hi1) as (SP' & SC' & Hi' & Hw'). exists SP', SC'. split; [done|lia].
Qed.

(** *** The end of the round *)

(** A handler that does not wait can run. *)
Lemma can_run SP SC S i s ths1 th ths2 :
  shard_inv SP SC S → peers S !! i = Some s → threads s = ths1 ++ th :: ths2 →
  thread_waits th (nd s) = false → ∀ now nowMs,
  ∃ p', run now nowMs th (nd s) = Ret (Some p').
Proof.
  intros (Hn & _ & _ & _ & Hps) Ei Et Hw now nowMs. destruct (Hps i s Ei) as (_ & Hnode & _).
  assert (i < n)%nat as Hin by (rewrite <-Hn; by eapply lookup_lt_Some).
  unfold pending in Hnode. rewrite Et, !app_assoc in Hnode.
  destruct (run_effect now nowMs _ _ i (nd s) _ th ths2 Hin Hnode Hw) as (p' & _ & E & _). eauto.
Qed.

(** The shard rests: nothing is in flight or being dispatched, and no handler can run. *)
Definition resting (S : shard (D := D)) : Prop :=
  (∀ x, x ∈ flight S → x.1 ∉ addrs) ∧
  ∀ i s, peers S !! i = Some s →
    tasks s = [] ∧ ∀ th, th ∈ threads s → thread_waits th (nd s) = true.

Lemma step_or_rest SP SC S : shard_inv SP SC S → (∃ S', shard_step S S') ∨ resting S.
Proof.
  intros Hinv. pose proof Hinv as (Hn & HSP & HSC & Hfl & Hps). destruct S as [ps fl]. cbn in *.
  destruct (decide (Exists (λ x, x.1 ∈ addrs) fl)) as [Hex|Hno].
  { left. apply Exists_exists in Hex as ([a msg] & Hx & Ha). pose proof Ha as Ha'.
    apply elem_of_addrs in Ha' as (i & Hi & E). cbn in E. subst a.
    destruct (lookup_lt_is_Some_2 ps i) as [[p ts ths hs] Ei]; [lia|].
    pose proof (peer_addr _ _ _ _ _ (Hps i _ Ei)) as Ea. cbn in Ea. rewrite <-Ea in Hx, Ha.
    apply list_elem_of_split in Hx as Hsp. destruct Hsp as (fl1 & fl2 & ->).
    destruct (Hfl _ Hx Ha) as [th Hth]. cbn in Hth. unfold line_thread in Hth.
    destruct (line_task msg) as [t|] eqn:Et; [|done].
    eexists. eapply (shard_deliver ps fl1 msg fl2 i p ts ths hs 0); [done|].
    by apply handleMessage_line. }
  destruct (decide (Exists (λ s, tasks s ≠ []) ps)) as [Hex|Hno2].
  { left. apply Exists_exists in Hex as (s & Hs & Ht). apply list_elem_of_lookup in Hs as [i Ei].
    destruct s as [p [|t ts] ths hs]; [done|]. pose proof (Hps i _ Ei) as (Hts & Hnode & _).
    cbn in Hts, Hnode. apply Forall_cons in Hts as [[th Hth] _]. apply node_inv_view in Hnode.
    eexists. eapply shard_work; [exact Ei|]. apply (works_start p [] t ts ths hs th).
    by eapply start_thread. }
  destruct (decide (Exists (λ s, Exists (λ th, thread_waits th (nd s) = false) (threads s)) ps)) as [Hex|Hno3].
  { left. apply Exists_exists in Hex as (s & Hs & Hth). apply Exists_exists in Hth as (th & Hth & Hw).
    apply list_elem_of_lookup in Hs as [i Ei]. apply list_elem_of_split in Hth as (ths1 & ths2 & Et).
    destruct (can_run SP SC (mkShard ps fl) i s ths1 th ths2 Hinv Ei Et Hw 0 0) as [p' Er].
    destruct s as [p ts ths hs]. cbn in *. subst ths. eexists. eapply shard_work; [exact Ei|].
    by eapply works_run. }
  right. split; cbn.
  - intros x Hx Ha. apply Hno, Exists_exists. eauto.
  - intros i s Ei. assert (s ∈ ps) as Hs by (by eapply list_elem_of_lookup_2). split.
    + destruct (tasks s) eqn:E; [done|]. exfalso. apply Hno2, Exists_exists. exists s. by rewrite E.
    + intros th Hth. destruct (thread_waits th (nd s)) eqn:Hw; [done|]. exfalso.
      apply Hno3, Exists_exists. exists s. split; [done|]. apply Exists_exists. eauto.
Qed.

(** At rest the handlers left at a node are exactly its threads, all waiting. *)
Lemma resting_pending SP SC S i s :
  shard_inv SP SC S → resting S → peers S !! i = Some s → pending v (flight S) s = threads s.
Proof.
  intros (Hn & _ & _ & _ & Hps) [Hr1 Hr2] Ei. unfold pending.
  rewrite (peer_addr _ _ _ _ _ (Hps i s Ei)), (proj1 (Hr2 i s Ei)), to_addr_outside; [done| |].
  - rewrite <-Hn. by eapply lookup_lt_Some.
  - by apply Forall_forall.
Qed.

Lemma resting_number SP SC S i s f :
  shard_inv SP SC S → resting S → peers S !! i = Some s →
  (∀ th, f th = true → of_round r seq v th → thread_waits th (nd s) = false) →
  number f (pending v (flight S) s) = 0.
Proof.
  intros Hinv Hrest Ei Hf. assert (0 ≤ number f (pending v (flight S) s)) by apply zlen_nonneg.
  destruct (decide (0 < number f (pending v (flight S) s))) as [Hpos|]; [|lia]. exfalso.
  pose proof Hinv as (_ & _ & _ & _ & Hps). destruct (Hps i s Ei) as (_ & (Hall & _) & _).
  rewrite (resting_pending SP SC S i s Hinv Hrest Ei) in *.
  destruct (number_pos f _ Hpos) as (ths1 & th & ths2 & E & Hfth).
  assert (th ∈ threads s) as Hth by (rewrite E; set_solver).
  rewrite Forall_forall in Hall. specialize (Hf th Hfth (Hall th Hth)).
  destruct Hrest as [_ Hr2]. by rewrite (proj2 (Hr2 i s Ei) th Hth) in Hf.
Qed.

(** Which handlers wait at a node of the round. *)
Lemma live_ready nP nC i p pend th :
  live nP nC i p pend → of_round r seq v th →
  (match th with in_PrePrepare _ _ => 1 | in_Prepare _ _ => 2 | in_Commit _ _ => 3 end ≤ pbftStage p) →
  thread_waits th p = false.
Proof.
  intros Hl Ht Hst. destruct th as [m w|m w|m w]; cbn [thread_waits of_round] in *.
  - destruct Ht as [-> ->]. cbn [pp_SeqID]. rewrite (live_waits _ _ _ _ _ 1 Hl). lia.
  - destruct Ht as (_ & -> & _ & ->). rewrite (live_waits _ _ _ _ _ 2 Hl). lia.
  - destruct Ht as (_ & -> & _ & ->). rewrite (live_waits _ _ _ _ _ 3 Hl). lia.
Qed.

(** All nodes but the leader have sent. *)
Lemma replicas_sent (X : gset nat) :
  (∀ i, (i < n)%nat → i ≠ lead → i ∈ X) → Q ≤ zsize X.
Proof.
  intros H. assert (set_seq 0 n ∖ {[lead]} ⊆ X) as Hsub.
  { intros i. rewrite elem_of_difference, elem_of_set_seq, elem_of_singleton. intros [??]. apply H; lia. }
  apply subseteq_size in Hsub. rewrite size_difference in Hsub.
  - rewrite size_set_seq, size_singleton in Hsub. unfold zsize. lia.
  - apply singleton_subseteq_l, elem_of_set_seq. lia.
Qed.

Lemma resting_prepared SP SC S i s :
  shard_inv SP SC S → resting S → peers S !! i = Some s → 
  node_inv (zsize SP) (zsize SC) i (nd s) (pending v (flight S) s) →
  prep_sent (nd s) (pending v (flight S) s) = true.
Proof.
  intros Hinv Hrest Ei (_ & _ & [Hl|Hf]); unfold prep_sent.
  - rewrite (resting_number SP SC S i s is_pre Hinv Hrest Ei); [by rewrite orb_true_r|].
    intros th Hth Ht. eapply live_ready; [exact Hl|done|]. destruct th; [|done..].
    destruct Hl as (_ & _ & _ & _ & _ & _ & _ & _ & Hpre & Hsg & _). rewrite Hsg.
    destruct (flag_of _ _), (decide (i = lead)), Hpre as [-> | ->]; cbn; lia.
  - destruct Hf as (Hs & _). rewrite Hs, (proj2 (Z.eqb_neq _ _)) by lia. done.
Qed.

(** The shard at rest: every node has executed the block and has no handlers left. *)
Lemma resting_finished SP SC S :
  shard_inv SP SC S → resting S →
  ∀ i s, peers S !! i = Some s →
    finished i (nd s) ∧ static (p0 i) (nd s) ∧ tasks s = [] ∧ threads s = [].
Proof.
  intros Hinv Hrest. pose proof Hinv as (Hn & HSP & HSC & Hfl & Hps).
  assert (∀ i s, peers S !! i = Some s → (i < n)%nat) as Hlt
    by (intros i s Ei; rewrite <-Hn; by eapply lookup_lt_Some).
  assert (∀ i, (i < n)%nat → ∃ s, peers S !! i = Some s) as Hget
    by (intros i Hi; apply lookup_lt_is_Some_2; lia).
  assert (Q ≤ zsize SP) as HQP.
  { apply replicas_sent. intros i Hi Hne. destruct (Hget i Hi) as [s Ei].
    destruct (Hps i s Ei) as (_ & Hnode & _ & H2 & _). apply H2; [done|]. by eapply resting_prepared. }
  (* the prepare messages are counted *)
  assert (∀ i s, peers S !! i = Some s → i ≠ lead → com_sent (nd s) = true) as Hcom.
  { intros i s Ei Hne. destruct (Hps i s Ei) as (_ & Hnode & _).
    pose proof (resting_prepared SP SC S i s Hinv Hrest Ei Hnode) as Hprep.
    destruct Hnode as (_ & _ & [Hl|(Hs & _)]); unfold com_sent, prep_sent in *;
      [|by rewrite Hs, (proj2 (Z.eqb_neq (seq + 1) seq)) by lia].
    pose proof Hl as (_ & _ & _ & _ & Hs & _ & _ & _ & _ & Hsg & _ & _ & Hf & _ & HP & _).
    rewrite Hs, Z.eqb_refl in *. cbn [negb orb] in *. apply Z.eqb_eq in Hprep.
    rewrite Hprep, decide_False in Hsg by done. rewrite Hf in *.
    destruct (Z.leb_spec Q (prepare_count d (nd s))); [done|]. exfalso.
    rewrite (resting_number SP SC S i s is_prep Hinv Hrest Ei) in HP; [lia|].
    intros th Hth Ht. eapply live_ready; [exact Hl|done|]. destruct th; [done| |done].
    rewrite Hsg. cbn. lia. }
  assert (Q ≤ zsize SC) as HQC.
  { apply replicas_sent. intros i Hi Hne. destruct (Hget i Hi) as [s Ei].
    destruct (Hps i s Ei) as (_ & Hnode & _ & _ & _ & H4). apply H4; [done|]. by eapply Hcom. }
  intros i s Ei. destruct (Hps i s Ei) as (_ & Hnode & _).
  pose proof (resting_prepared SP SC S i s Hinv Hrest Ei Hnode) as Hprep.
  assert (finished i (nd s)) as Hfin.
  { destruct Hnode as (_ & _ & [Hl|Hf]); [exfalso|done].
    pose proof Hl as (_ & _ & _ & _ & Hs & _ & _ & _ & _ & Hsg & _ & _ & Hf & Hcc & _ & HC).
    unfold prep_sent in Hprep. rewrite Hs, Z.eqb_refl in Hprep. cbn [negb orb] in Hprep.
    apply Z.eqb_eq in Hprep. rewrite Hprep in Hsg.
    rewrite (resting_number SP SC S i s is_comm Hinv Hrest Ei) in HC; [lia|].
    intros th Hth Ht. eapply live_ready; [exact Hl|done|]. destruct th; [done..|].
    rewrite Hsg. destruct (decide (i = lead)) as [|Hne].
    - destruct (flag_of _ _); cbn; lia.
    - pose proof (Hcom i s Ei Hne) as Hc. unfold com_sent in Hc. rewrite Hs, Z.eqb_refl in Hc.
      cbn [negb orb] in Hc. rewrite Hc. cbn. lia. }
  split; [done|]. split; [apply Hnode|]. destruct Hrest as [Hr1 Hr2]. split; [by eapply Hr2|].
  destruct (threads s) as [|th ths] eqn:Et; [done|]. exfalso.
  pose proof (proj2 (Hr2 i s Ei) th) as Hw. rewrite Et in Hw. specialize (Hw ltac:(by left)).
  destruct Hnode as (Hall & _). unfold pending in Hall. rewrite Et, !Forall_app, Forall_cons in Hall.
  destruct Hall as (_ & _ & Ht & _). destruct Hfin as (Hs & _).
  assert (∀ k w, waits k seq w (nd s) = false) as Hno.
  { intros k w. unfold waits. by rewrite Hs, (proj2 (Z.leb_gt _ _)), andb_false_r by lia. }
  destruct th as [m w|m w|m w]; cbn [thread_waits of_round] in *.
  - destruct Ht as [-> ->]. cbn [pp_SeqID] in Hw. by rewrite Hno in Hw.
  - destruct Ht as (_ & Hm & _). by rewrite Hm, Hno in Hw.
  - destruct Ht as (_ & Hm & _). by rewrite Hm, Hno in Hw.
Qed.

End ShardRound.

(** ** The leader's commit *)
Section LeaderCommit.
Context {PR : Params} {BS : BitSetOps} {G : GobOps} {BO : BoltOps} {T : TrieOps}.
Context {JReq : Json Request} {JRl : Json Relay} {JRw : Json RelayWithProof}.
Context {JBI : Json BlockInfoMsg} {JIT : Json InjectTxs}.
Context {D : Type}.
Implicit Type p : PbftConsensusNode D.

(** Two chains that differ in the transactions of their pool and current block. *)
Definition same_chain (bc bc' : BlockChain) : Prop :=
  same_tip bc bc' ∧ PartitionMap bc' = PartitionMap bc ∧ ShardID bc' = ShardID bc ∧
  bc_G2EBook bc' = bc_G2EBook bc ∧ bc_Storage bc' = bc_Storage bc ∧ triedb bc' = triedb bc.

Lemma relay_block_shape epoch now r block p p' :
  relay_block epoch now r block true p = Ret p' → same_tip (CurChain p) (set_tip (CurChain p) block (bc_Storage (CurChain p))) →
  ∃ bc, p' = set_CurChain bc (set_sent (sent p') p) ∧ same_chain (CurChain p) bc.
Proof.
  unfold relay_block. cbv zeta. intros E Htip. apply bind_Ret_inv in E as (s & _ & E).
  apply bind_Ret_inv in E as (p1 & E1 & E). apply bind_Ret_inv in E as (msg & _ & E). inv_ret.
  assert (∃ q, p1 = set_pool q (set_sent (sent p1) (set_CurChain (set_tip (CurChain (set_pool (rs_pool s) p))
    (set_Body block (rs_body s)) (bc_Storage (CurChain (set_pool (rs_pool s) p)))) (set_pool (rs_pool s) p))))
    as [q ->].
  { destruct (_ =? 1).
    - unfold RelayWithProofSend in E1. destruct (negb _); [done|].
      apply bind_Ret_inv in E1 as (p2 & E2 & E1). apply send_to_shards_sent in E2 as [l ->]. inv_ret.
      by eexists.
    - unfold RelayMsgSend in E1. destruct (negb _); [done|].
      apply bind_Ret_inv in E1 as (p2 & E2 & E1). apply send_to_shards_sent in E2 as [l ->]. inv_ret.
      by eexists. }
  eexists. split; [reflexivity|]. by split_and!.
Qed.

Lemma well_placed_ext bc bc' shard tx :
  PartitionMap bc' = PartitionMap bc → well_placed bc' shard tx = well_placed bc shard tx.
Proof.
  intros E. unfold well_placed, tx_resolvable, resolvable, shard_of, Get_PartitionMap. by rewrite E.
Qed.

Lemma placed_ext bc bc' shard (txs : list Transaction) :
  PartitionMap bc' = PartitionMap bc →
  forallb (well_placed bc' shard) txs = forallb (well_placed bc shard) txs.
Proof.
  intros E. induction txs as [|tx txs IH]; [done|]. cbn [forallb].
  by rewrite IH, (well_placed_ext bc bc').
Qed.

End LeaderCommit.

(** ** From one block to the next *)
Section ShardCommit.
Context {PR : Params} {BS : BitSetOps} {G : GobOps} {BO : BoltOps} {T : TrieOps}.
Context {BSL : BitSetLaws BS} {GL : GobLaws G} {BL : BoltLaws BO} {TL : TrieLaws T}.
Context {JRelay : Json Relay} {JRWP : Json RelayWithProof} {JBI : Json BlockInfoMsg}.
Context {JIT : Json InjectTxs} {JReq : Json Request} {JPP : Json PrePrepare}.
Context {JP : Json Prepare} {JC : Json Commit} {JRO : Json RequestOldMessage}.
Context {JSO : Json SendOldMessage} {JVC : Json ViewChangeMsg} {JNV : Json NewViewMsg}.
Context {LPP : JsonLaws JPP} {LP : JsonLaws JP} {LC : JsonLaws JC}.
Context {D : Type}.

Abbreviation node := (PbftConsensusNode D).
Abbreviation psys := (sys (D := D)).
Implicit Type p : node.

Definition peer_addrs (S : shard (D := D)) : list string :=
  (λ s, IPaddr (RunningNode (nd s))) <$> peers S.

(** A node between two blocks. *)
Definition between (lead : nat) (v seq Q : Z) (ips : list string) (i : nat) (s : psys) : Prop :=
  tasks s = [] ∧ threads s = [] ∧ view (nd s) = v ∧ is_leader (nd s) = bool_decide (i = lead) ∧
  quorum (nd s) = Q ∧ sequenceID (nd s) = seq ∧ pbftStage (nd s) = 1 ∧
  (i = lead → sequenceLock (nd s) = false) ∧ getNeighborNodes (nd s) ≡ₚ ips ∧
  storage_ok (bc_Storage (CurChain (nd s))).

(** The shard between two blocks, the [lead]-th node being the leader of view [v]: no
    message of the shard is in flight, every node is ready for the block of sequence id
    [seq], and the nodes hold the same chain as [L], the leader. *)
Definition shard_ready (lead : nat) (v seq Q : Z) (S : shard (D := D)) (L : node) : Prop :=
  (∃ hs, peers S !! lead = Some (mkSys L [] [] hs)) ∧ NoDup (peer_addrs S) ∧
  (∀ x, x ∈ flight S → x.1 ∉ peer_addrs S) ∧
  ∀ i s, peers S !! i = Some s →
    between lead v seq Q (peer_addrs S) i s ∧ replica (CurChain L) (CurChain (nd s)).

(** Nothing has been recorded about the digest. *)
Definition unseen (d : bytes) p : Prop :=
  votes_of (cntPrepareConfirm p) d = ∅ ∧ votes_of (cntCommitConfirm p) d = ∅ ∧
  flag_of (isCommitBordcast p) d = false ∧ flag_of (isReply p) d = false.

(** The block a leader would propose, with its chain after [GenerateBlock] and the request. *)
Definition proposal (clock : nat → Time) (L : node) : outcome (Block * BlockChain) :=
  GenerateBlock (i32 (p_NodeID L)) (clock 0%nat) (CurChain L).
Definition proposed (clock : nat → Time) (b : Block) : Request :=
  mkRequest BlockRequest (Block_Encode b) (clock 1%nat).

(** The state right after the leader has proposed. *)
Definition proposes (lead : nat) (S : shard (D := D)) (L L' : node) : shard :=
  mkShard (alter (λ s, mkSys L' (tasks s) (threads s) (history s)) lead (peers S)) (flight S ++ new_sent L L').

Context (lead : nat) (v seq Q : Z) (S : shard (D := D)) (L : node) (clock : nat → Time).
Context (b : Block) (bcL : BlockChain).
Abbreviation r := (proposed clock b).
Abbreviation d := (getDigest r).
Abbreviation ips := (peer_addrs S).
Context (Hready : shard_ready lead v seq Q S L) (Hseq : 0 ≤ seq < u64_mod - 1)
  (HQ : 0 < Q ≤ zlen (peers S) - 1).
Context (Eg : proposal clock L = Ret (b, bcL)) (Hfit : block_fits b = true)
  (Hplaced : forallb (well_placed (CurChain L) (p_ShardID L)) (Body b) = true)
  (Hraw : RelayWithMerkleProof = 0).
Context (Hout : ∀ sid, sid ≠ p_ShardID L → ip_of L sid 0 ∉ ips) (Hsup : p_ShardID L ≠ SupervisorShard).
Context (Hnew : ∀ i s, peers S !! i = Some s → unseen d (nd s))
  (Hroot : ∀ i s, peers S !! i = Some s → known_root (CurChain (nd s)) (StateRoot (Header b)) = true →
     bc_G2EBook (CurChain (nd s)) = bc_G2EBook bcL).

(** The leader after its proposal. *)
Definition proposer : node :=
  let p := record_request r seq (set_CurChain bcL (set_sequenceLock true L)) in
  set_pbftStage 2 (set_sent (sent L ++ bcast (frame CPrePrepare (marshal (mkPP r d seq))) L) p).

Lemma leader_facts :
  view L = v ∧ is_leader L = true ∧ quorum L = Q ∧ sequenceID L = seq ∧ sequenceLock L = false ∧
  getNeighborNodes L ≡ₚ ips ∧ storage_ok (bc_Storage (CurChain L)) ∧ unseen d L.
Proof.
  destruct Hready as ([hs El] & _ & _ & Hps).
  destruct (Hps lead _ El) as ((_ & _ & H3 & H4 & H5 & H6 & _ & H8 & H9 & H10) & _). cbn in *.
  rewrite bool_decide_true in H4 by done. pose proof (Hnew lead _ El). cbn in *. auto 10.
Qed.

Lemma propose_eq : propose clock L = Ret (Some proposer).
Proof.
  destruct leader_facts as (_ & Hl & _ & Hs & Hk & _). unfold propose. rewrite Hl, Hk. cbn [negb].
  cbn [HandleinPropose RawRelayPbftExtraHandleMod]. unfold Relay_HandleinPropose.
  change (CurChain (set_sequenceLock true L)) with (CurChain L).
  change (p_NodeID (set_sequenceLock true L)) with (p_NodeID L).
  unfold proposal in Eg. rewrite Eg, !bind_ret. cbv zeta.
  change (sequenceID (set_CurChain bcL (set_sequenceLock true L))) with (sequenceID L).
  rewrite Hs, (proj1 (frame_ok CPrePrepare _ eq_refl)), bind_ret, send_all_eq. done.
Qed.

(** The nodes when the pre-prepare message has been sent. *)
Definition start_node (i : nat) : node :=
  if decide (i = lead) then proposer else default L (nd <$> peers S !! i).

(** The chain of the node after the block. *)
Definition extended (i : nat) (bc : BlockChain) : Prop :=
  tip bc = Header b ∧ b_Hash (CurrentBlock bc) = b_Hash b ∧
  PartitionMap bc = PartitionMap (CurChain L) ∧ ShardID bc = ShardID (CurChain L) ∧
  bc_G2EBook bc = bc_G2EBook bcL ∧ storage_ok (bc_Storage bc) ∧
  (∃ st1 st2, opens bcL (StateRoot (Header b)) st1 ∧ opens bc (StateRoot (Header b)) st2 ∧
     same_content st1 st2) ∧
  (i = lead → Body b ++ TxQueue (Txpool bc) = TxQueue (Txpool (CurChain L))).

Lemma block_ok : storable b ∧ hashed b ∧ extends_tip (CurChain L) b = true ∧
  IsValidBlock (CurChain L) b = None ∧
  bcL = set_state (set_Txpool (CurChain L) (pack_txs (CurChain L)).2) (triedb bcL) (bc_G2EBook bcL) ∧
  Body b = (pack_txs (CurChain L)).1 ∧ ∃ st, opens bcL (StateRoot (Header b)) st.
Proof.
  pose proof Eg as (Eu & Hbody & Hhash & He & Hv)%GenerateBlock_eq.
  destruct Hready as ([hs El] & _ & _ & Hps).
  destruct (Hps lead _ El) as (_ & _ & _ & _ & _ & st & _ & Hst & _).
  destruct (GetUpdateStatusTrie_frame (set_Txpool (CurChain L) (pack_txs (CurChain L)).2) _ _ _ st Hst Eu)
    as (HL' & _ & Hst').
  split_and!; try done. by apply hashed_storable.
Qed.

Abbreviation n := (length (peers S)).

Lemma lead_lt : (lead < n)%nat.
Proof. destruct Hready as ([hs El] & _). by eapply lookup_lt_Some. Qed.

Lemma start_node_peer i s : peers S !! i = Some s → i ≠ lead → start_node i = nd s.
Proof. intros Ei Hne. unfold start_node. by rewrite decide_False, Ei by done. Qed.

Lemma start_node_lead : start_node lead = proposer.
Proof. unfold start_node. by rewrite decide_True. Qed.

(** Proposing leaves the addresses of the nodes as they are. *)
Lemma start_addrs : addrs n start_node = ips.
Proof.
  apply list_eq. intros i. unfold addrs, peer_addrs. rewrite !list_lookup_fmap.
  destruct (peers S !! i) as [s|] eqn:Ei.
  - rewrite lookup_seq_lt by (by eapply lookup_lt_Some). cbn. f_equal. unfold addr.
    destruct (decide (i = lead)) as [->|Hne].
    + rewrite start_node_lead. destruct Hready as ([hs El] & _). rewrite El in Ei. by injection Ei as <-.
    + by rewrite (start_node_peer i s).
  - rewrite lookup_seq_ge; [done|]. by apply lookup_ge_None.
Qed.

Lemma start_nodup : NoDup (addrs n start_node).
Proof. rewrite start_addrs. apply Hready. Qed.

Lemma start_neighbours i : (i < n)%nat → getNeighborNodes (start_node i) ≡ₚ addrs n start_node.
Proof.
  intros Hi. rewrite start_addrs. destruct (decide (i = lead)) as [->|Hne].
  - rewrite start_node_lead. apply leader_facts.
  - apply lookup_lt_is_Some in Hi as [s Ei]. rewrite (start_node_peer i s) by done.
    destruct Hready as (_ & _ & _ & Hps). apply (Hps i s Ei).
Qed.

Lemma start_valid i : (i < n)%nat → IsValidBlock (CurChain (start_node i)) b = None.
Proof.
  intros Hi. destruct block_ok as (_ & _ & _ & Hv & Hbc & _). destruct (decide (i = lead)) as [->|Hne].
  - rewrite start_node_lead. change (CurChain proposer) with bcL. rewrite Hbc. exact Hv.
  - apply lookup_lt_is_Some in Hi as [s Ei]. rewrite (start_node_peer i s) by done.
    destruct Hready as (_ & _ & _ & Hps). destruct (Hps i s Ei) as (_ & [_ HH] & _).
    unfold IsValidBlock in *. by rewrite <-HH.
Qed.

Lemma start_decodes : DecodeB (Msg_Content r) = Ret b.
Proof. apply DecodeB_Encode, block_ok. Qed.

(** The other nodes add the block. *)
Lemma start_adds i : (i < n)%nat → i ≠ lead →
  ∃ bc, AddBlock b (CurChain (start_node i)) = Ret bc ∧ extended i bc.
Proof.
  intros Hi Hne. apply lookup_lt_is_Some in Hi as [s Ei]. rewrite (start_node_peer i s) by done.
  destruct Hready as (_ & _ & _ & Hps).
  destruct (Hps i s Ei) as ((_ & _ & _ & _ & _ & _ & _ & _ & _ & Hst) & Hr).
  destruct (AddBlock_replica _ _ _ _ _ _ Hr Eg Hst (proj1 block_ok)) as (F' & sF & -> & Hs & HF & Ho & Hbk).
  exists (set_tip F' b sF). split; [done|]. pose proof Hr as (_ & HP & HI & _ & _).
  unfold extended. split_and!; try done.
  - rewrite HF. by cbn; rewrite HP.
  - rewrite HF. by cbn; rewrite HI.
  - cbn. rewrite Hbk. destruct (known_root _ _) eqn:Ek; [|done]. by apply (Hroot i s).
Qed.

(** The leader commits the block and relays its transactions outside of the shard. *)
Lemma start_commits now m p :
  static (start_node lead) p → CurChain p = CurChain (start_node lead) → is_leader p = true →
  requestPool p !! cm_Digest m = Some r →
  ∃ bc out, Relay_HandleinCommit now m p = Ret (set_CurChain bc (set_sent (sent p ++ out) p), true) ∧
    extended lead bc ∧ Forall (λ x, x.1 ∉ addrs n start_node) out.
Proof.
  rewrite start_node_lead, start_addrs. intros (_ & Hsid & _ & Hcfg & Htab & _) Hc Hl Hp.
  change (CurChain proposer) with bcL in Hc. change (p_ShardID proposer) with (p_ShardID L) in Hsid.
  change (ip_nodeTable proposer) with (ip_nodeTable L) in Htab.
  destruct block_ok as (Hb & _ & He & _ & Hbc & Hbody & st & Hst).
  assert (extends_tip bcL b = true) as He' by (rewrite Hbc; exact He).
  destruct leader_facts as (_ & _ & _ & _ & _ & _ & HsL & _).
  unfold Relay_HandleinCommit. rewrite Hp. cbn [or_panic]. rewrite bind_ret, start_decodes, bind_ret.
  destruct (AddBlock_known b bcL st He' ltac:(by rewrite Hbc) Hb Hst) as (s & E & Hs).
  rewrite Hc, E, bind_ret. cbv zeta. rewrite He'.
  change (is_leader (set_CurChain _ p)) with (is_leader p). rewrite Hl.
  set (q := set_CurChain (set_tip bcL b s) p).
  destruct (relay_block_eq 0 now r b true q Hraw) as (p' & Er & Hsent & Hpool).
  { subst q. cbn [CurChain p_ShardID set_CurChain]. rewrite Hsid, <-Hplaced.
    apply placed_ext. cbn. by rewrite Hbc. }
  rewrite Er, bind_ret. destruct (relay_block_shape _ _ _ _ _ _ Er) as (bc & Ep & HT & HP & HI & HB & HS & HD);
    [done|].
  eexists bc, _. split; [rewrite Ep, Hsent; reflexivity|]. split.
  - destruct HT as [HT HH]. unfold extended. rewrite <-HT, <-HH, HP, HI, HB, HS.
    unfold opens. rewrite HD. subst q. cbn [CurChain set_CurChain]. split_and!; try done.
    + by rewrite Hbc.
    + by rewrite Hbc.
    + exists st, st. done.
    + intros _. rewrite Ep in Hpool. cbn in Hpool. rewrite Hpool. cbn. rewrite Hbc, Hbody. cbn.
      apply pack_txs_queue.
  - apply Forall_app. split.
    + apply Forall_fmap, Forall_forall. intros sid [Hne _]%list_elem_of_filter. cbn.
      unfold ip_of. cbn. rewrite Htab. apply Hout. cbn in Hne. by rewrite <-Hsid.
    + apply Forall_singleton. cbn. unfold ip_of. cbn. rewrite Htab. by apply Hout.
Qed.

(** *** The round starts *)
Abbreviation S1 := (proposes lead S L proposer).
Abbreviation pre_frame := (frame CPrePrepare (marshal (mkPP r d seq))).

Lemma proposed_sent : new_sent L proposer = bcast pre_frame proposer.
Proof. by apply new_sent_app. Qed.

Lemma proposed_peer i s :
  peers S1 !! i = Some s → nd s = start_node i ∧ tasks s = [] ∧ threads s = [].
Proof.
  destruct Hready as ([hs El] & _ & _ & Hps). cbn [proposes peers].
  destruct (decide (i = lead)) as [->|Hne].
  - rewrite list_lookup_alter_eq, El. cbn. intros [= <-]. by rewrite start_node_lead.
  - rewrite list_lookup_alter_ne by done. intros Ei. rewrite (start_node_peer i s) by done.
    destruct (Hps i s Ei) as ((H1 & H2 & _) & _). done.
Qed.

Lemma proposed_length : length (peers S1) = n.
Proof. cbn [proposes peers]. by rewrite length_alter. Qed.

(** Only the pre-prepare messages are in flight inside the shard. *)
Lemma proposed_to i : (i < n)%nat → to_addr (addr start_node i) (flight S1) = [pre_frame].
Proof.
  intros Hi. cbn [proposes flight]. destruct Hready as (_ & Hnd & Hfl & _).
  rewrite to_addr_app, proposed_sent.
  rewrite (to_addr_outside n start_node i (flight S) Hi) by (rewrite start_addrs; by apply Forall_forall).
  apply (to_addr_bcast n start_node start_nodup start_neighbours lead i proposer);
    [exact lead_lt|done|by rewrite start_node_lead].
Qed.

Lemma proposed_inside : inside n start_node (flight S1) = n.
Proof.
  cbn [proposes flight]. destruct Hready as (_ & _ & Hfl & _). rewrite inside_app, proposed_sent.
  rewrite (inside_outside n start_node (flight S)) by (rewrite start_addrs; by apply Forall_forall).
  apply (inside_bcast n start_node start_nodup start_neighbours lead proposer); [exact lead_lt|by rewrite start_node_lead].
Qed.

Lemma start_node_unseen i : (i < n)%nat → unseen d (start_node i).
Proof.
  intros Hi. destruct (decide (i = lead)) as [->|Hne].
  - rewrite start_node_lead. apply leader_facts.
  - apply lookup_lt_is_Some in Hi as [s Ei]. rewrite (start_node_peer i s) by done. by apply (Hnew i).
Qed.

Lemma start_live i : (i < n)%nat → live r seq v Q lead start_node 0 0 i (start_node i)
  [in_PrePrepare (mkPP r d seq) v].
Proof.
  intros Hi. destruct (start_node_unseen i Hi) as (HvP & HvC & HfC & HfR).
  assert (counted d (start_node i)) as Hct.
  { unfold counted. rewrite HvP, HvC. by split; intros a Ha%not_elem_of_empty. }
  unfold live, prepare_count, commit_count. rewrite HvP, HvC, HfC, HfR, size_empty.
  change (Z.of_nat 0) with 0. change (number is_pre _) with 1. change (number is_prep _) with 0. change (number is_comm _) with 0.
  rewrite (proj2 (Z.leb_gt Q 0)) by lia.
  destruct (decide (i = lead)) as [->|Hne].
  - rewrite start_node_lead, bool_decide_true by done. destruct leader_facts as (H1 & H2 & H3 & H4 & _).
    change (is_leader proposer) with (is_leader L). change (quorum proposer) with (quorum L).
    rewrite start_node_lead in Hct. split_and!; try (done || lia); try auto.
    intros _. cbn. by rewrite lookup_insert_eq.
  - rewrite bool_decide_false by done. pose proof Hi as [s Ei]%lookup_lt_is_Some.
    rewrite (start_node_peer i s) in * by done. destruct Hready as (_ & _ & _ & Hps).
    destruct (Hps i s Ei) as ((_ & _ & H1 & H2 & H3 & H4 & H5 & _) & _).
    rewrite bool_decide_false in H2 by done.
    split_and!; try (done || lia); auto.
Qed.

Lemma start_inv : shard_inv r seq v Q n lead start_node extended ∅ ∅ S1.
Proof.
  split; [exact proposed_length|]. split; [set_solver|]. split; [set_solver|]. split.
  - intros x Hx Ha. rewrite start_addrs in Ha. cbn [proposes flight] in Hx.
    apply elem_of_app in Hx as [Hx|Hx].
    { destruct Hready as (_ & _ & Hfl & _). by destruct (Hfl x Hx). }
    rewrite proposed_sent, (bcast_perm n start_node start_nodup start_neighbours lead proposer) in Hx;
      [|exact lead_lt|by rewrite start_node_lead].
    apply list_elem_of_fmap in Hx as (a & -> & _). cbn. by rewrite line_preprepare.
  - intros i s Ei. assert (i < n)%nat as Hi by (rewrite <-proposed_length; by eapply lookup_lt_Some).
    destruct (proposed_peer i s Ei) as (En & Et & Eth).
    assert (pending v (flight S1) s = [in_PrePrepare (mkPP r d seq) v]) as Ep.
    { unfold pending. rewrite En, Et, Eth. change (IPaddr _) with (addr start_node i).
      rewrite proposed_to by done. cbn [omap list_omap app]. by rewrite line_preprepare. }
    unfold peer_inv. rewrite Ep, En, Et. split; [done|]. pose proof (start_live i Hi) as Hl. split.
    + split; [by apply Forall_singleton|]. split; [done|]. left. exact Hl.
    + destruct Hl as (_ & _ & _ & _ & Hs & _). destruct (start_node_unseen i Hi) as (_ & _ & Hc & _).
      unfold sent_by, prep_sent, com_sent. rewrite Hs, Hc, Z.eqb_refl. change (number is_pre _) with 1.
      cbn. set_solver.
Qed.

Lemma start_weight : weight n start_node ∅ ∅ S1 = (3 * n + 6 * n * n)%nat.
Proof.
  unfold weight. rewrite proposed_inside, !size_empty.
  assert (sum_list_with load (peers S1) = 0%nat) as ->; [|lia].
  assert (∀ s, s ∈ peers S1 → load s = 0%nat) as H.
  { intros s [i Ei]%list_elem_of_lookup. destruct (proposed_peer i s Ei) as (_ & Et & Eth).
    unfold load. by rewrite Et, Eth. }
  induction (peers S1) as [|s l IH]; [done|]. cbn [sum_list_with].
  rewrite H by (by left). apply IH. intros s' Hs'. apply H. by right.
Qed.

(** *** The round ends *)

(** No handler that can go on panics. *)
Definition runs_on (S' : shard (D := D)) : Prop :=
  ∀ i s th now nowMs, peers S' !! i = Some s → th ∈ threads s → thread_waits th (nd s) = false →
    ∃ p', run now nowMs th (nd s) = Ret (Some p').

(** The shard after the block: ready for the next one, the block being the tip of every
    node and the leader's queue what the block has left of it. *)
Definition round_done (S' : shard (D := D)) : Prop :=
  ∃ L', shard_ready lead v (seq + 1) Q S' L' ∧
    Body b ++ TxQueue (Txpool (CurChain L')) = TxQueue (Txpool (CurChain L)) ∧
    ∀ i s, peers S' !! i = Some s →
      tip (CurChain (nd s)) = Header b ∧ b_Hash (CurrentBlock (CurChain (nd s))) = b_Hash b.

Lemma extended_replica i bc bc' : extended lead bc → extended i bc' → replica bc bc'.
Proof.
  intros (T1 & H1 & P1 & I1 & B1 & _ & (s1 & s1' & O1 & O1' & C1) & _)
         (T2 & H2 & P2 & I2 & B2 & _ & (s2 & s2' & O2 & O2' & C2) & _).
  unfold replica, same_tip. rewrite T1, T2, H1, H2, P1, P2, I1, I2, B1, B2. split_and!; try done.
  exists s1', s2'. split_and!; [done..|].
  assert (s1 = s2) as -> by (destruct O1 as [O1 _], O2 as [O2 _]; congruence).
  by rewrite <-C1, <-C2.
Qed.

(** What a node keeps of [between]. *)
Lemma finished_between S' i s :
  (i < n)%nat → finished seq v lead extended i (nd s) → static (start_node i) (nd s) →
  tasks s = [] → threads s = [] → peer_addrs S' = ips →
  between lead v (seq + 1) Q (peer_addrs S') i s.
Proof.
  intros Hi (H1 & H2 & H3 & (_ & _ & _ & _ & _ & H4 & _) & H5) (S_1 & S_2 & S_3 & _ & S_5 & _ & S_7) Ht Hth ->.
  destruct (start_live i Hi) as (L1 & L2 & L3 & _).
  unfold between. split_and!; try done.
  - unfold is_leader in *. by rewrite H3, S_3, <-L2, L1.
  - unfold quorum in *. by rewrite S_7.
  - unfold getNeighborNodes, getNodeIpsWithinShard. rewrite S_2, S_5.
    rewrite <-start_addrs. by apply start_neighbours.
Qed.

Lemma rested_done SP SC S' :
  shard_inv r seq v Q n lead start_node extended SP SC S' → resting n start_node S' → round_done S'.
Proof.
  intros Hinv Hrest.
  pose proof (resting_finished r b seq v Q n lead start_node extended Hseq HQ lead_lt start_decodes
    start_nodup start_neighbours start_valid start_adds start_commits SP SC S' Hinv Hrest) as Hfin.
  destruct Hinv as (Hn & _). destruct Hrest as [Hfl _].
  assert (∀ i s, peers S' !! i = Some s → (i < n)%nat) as Hlt
    by (intros i s Ei; rewrite <-Hn; by eapply lookup_lt_Some).
  assert (peer_addrs S' = ips) as Hips.
  { rewrite <-start_addrs. apply list_eq. intros i. unfold peer_addrs, addrs. rewrite !list_lookup_fmap.
    destruct (peers S' !! i) as [s|] eqn:Ei.
    - rewrite lookup_seq_lt by (by eapply Hlt). destruct (Hfin i s Ei) as (_ & (Hs & _) & _).
      cbn. unfold addr. by rewrite Hs.
    - rewrite lookup_seq_ge; [done|]. rewrite <-Hn. by apply lookup_ge_None. }
  assert (is_Some (peers S' !! lead)) as [[L2 ts ths hs] El]
    by (apply lookup_lt_is_Some; rewrite Hn; exact lead_lt).
  pose proof (Hfin lead _ El) as ((_ & _ & _ & HaL & _) & _ & Ht & Hth). cbn in HaL, Ht, Hth. subst ts ths.
  exists L2. split_and!.
  - split; [by exists hs|]. rewrite start_addrs in Hfl. rewrite Hips. split; [apply Hready|]. split; [done|].
    intros i s Ei. destruct (Hfin i s Ei) as (Hf & Hst & Hts & Hths). split.
    + rewrite <-Hips. apply finished_between; try done. by eapply Hlt.
    + eapply extended_replica; [exact HaL|]. apply Hf.
  - by apply HaL.
  - intros i s Ei. destruct (Hfin i s Ei) as ((_ & _ & _ & (H1 & H2 & _) & _) & _). done.
Qed.

Lemma round_ends k S' :
  nsteps shard_step k S1 S' →
  (k ≤ 3 * n + 6 * n * n)%nat ∧ runs_on S' ∧ ((∃ S'', shard_step S' S'') ∨ round_done S').
Proof.
  intros Hk.
  destruct (shard_run_keeps r b seq v Q n lead start_node extended Hseq HQ lead_lt start_decodes
    start_nodup start_neighbours start_valid start_adds start_commits k ∅ ∅ S1 S' Hk start_inv)
    as (SP & SC & Hinv & Hw).
  rewrite start_weight in Hw. split; [lia|]. split.
  - intros i s th now nowMs Ei (l1 & l2 & Eth)%list_elem_of_split Hth.
    by eapply (can_run r b seq v Q n lead start_node extended Hseq HQ lead_lt start_decodes
      start_valid start_adds start_commits).
  - destruct (step_or_rest r b seq v Q n lead start_node extended Hseq HQ lead_lt start_decodes
      start_valid start_adds start_commits SP SC S' Hinv) as [|Hr]; [by left|right].
    by eapply rested_done.
Qed.

End ShardCommit.

Section ShardTheorem.
Context {PR : Params} {BS : BitSetOps} {G : GobOps} {BO : BoltOps} {T : TrieOps}.
Context {BSL : BitSetLaws BS} {GL : GobLaws G} {BL : BoltLaws BO} {TL : TrieLaws T}.
Context {JRelay : Json Relay} {JRWP : Json RelayWithProof} {JBI : Json BlockInfoMsg}.
Context {JIT : Json InjectTxs} {JReq : Json Request} {JPP : Json PrePrepare}.
Context {JP : Json Prepare} {JC : Json Commit} {JRO : Json RequestOldMessage}.
Context {JSO : Json SendOldMessage} {JVC : Json ViewChangeMsg} {JNV : Json NewViewMsg}.
Context {LPP : JsonLaws JPP} {LP : JsonLaws JP} {LC : JsonLaws JC}.
Context {D : Type}.


End ShardTheorem.
