(* ===== verification/ViewChange.v ===== *)
(** * A view change through all nodes of a shard

    The nodes of [Shard] between two blocks, when the leader stays silent: the timers of
    the nodes fire one after the other (the second goroutine of [Propose]), the
    messages of src/consensus_shard/pbft_all/view_change.go travel between the nodes in any order,
    and the shard ends in the next view, ready for a block of the next leader.  A node
    that has already entered the next view when it counts the last view-change message
    announces the view after that one; the announcements of such nodes are followed as
    well. *)

From S2P Require Import Prelude Params Utils Interfaces Core Instances Sha256.
From S2P Require Import TxPool Storage G2E BlockChain Ledger ChainProps MerkleProof.
From S2P Require Import Networks Messages PbftNode Pbft Relay PbftRound Shard.

(** ** Counting votes

    The senders of the messages that are still to come, [l], and the counted ones, [X],
    are together the nodes [Y] that have sent, each once. *)
Definition tally (l : list Z) (X Y : gset Z) : Prop := l ++ elements X ≡ₚ elements Y.

Lemma size_insert (X : gset Z) x : x ∉ X → size ({[x]} ∪ X) = S (size X).
Proof. intros H. rewrite size_union, size_singleton by set_solver. done. Qed.

Lemma tally_count l1 x l2 X Y :
  tally (l1 ++ x :: l2) X Y → tally (l1 ++ l2) ({[x]} ∪ X) Y ∧ size ({[x]} ∪ X) = S (size X).
Proof.
  unfold tally. intros H. assert (x ∉ X) as Hx.
  { pose proof (NoDup_elements Y) as Hnd. rewrite <-H, <-app_assoc in Hnd.
    apply NoDup_app in Hnd as (_ & _ & [Hx _]%NoDup_cons). intros HX. apply Hx, elem_of_app.
    right. by apply elem_of_elements. }
  split.
  - rewrite elements_union_singleton, <-H by done. solve_Permutation.
  - by apply size_insert.
Qed.

Lemma tally_send l x X Y : x ∉ Y → tally l X Y → tally (l ++ [x]) X ({[x]} ∪ Y).
Proof.
  unfold tally. intros Hx H. rewrite elements_union_singleton, <-H by done. solve_Permutation.
Qed.

Lemma tally_size l X Y : tally l X Y → (length l + size X = size Y)%nat.
Proof. intros H%Permutation_length. by rewrite length_app in H. Qed.

Lemma tally_perm l l' X Y : l ≡ₚ l' → tally l X Y → tally l' X Y.
Proof. unfold tally. by intros ->. Qed.

Lemma voters_insert m k X k' : voters (<[k := X]> m) k' = if decide (k = k') then X else voters m k'.
Proof. unfold voters. rewrite lookup_insert. by case_decide. Qed.

Lemma i32_id z : - 2 ^ 31 ≤ z < 2 ^ 31 → i32 z = z.
Proof.
  intros Hz. unfold i32 in *. destruct (decide (0 ≤ z)).
  - rewrite Z.mod_small by lia. case (Z.ltb_spec z (2 ^ 31)); lia.
  - rewrite <-(Z_mod_plus_full z 1), Z.mod_small by lia.
    case (Z.ltb_spec (z + 1 * 2 ^ 32) (2 ^ 31)); lia.
Qed.

Lemma u64_of_i64 z : is_u64 z → u64 (i64 z) = z.
Proof.
  intros Hz. unfold i64. cbv zeta. change (z mod u64_mod) with (u64 z). rewrite (u64_id z Hz).
  destruct (z <? 2 ^ 63); [by apply u64_id|]. unfold u64.
  rewrite <-(Z_mod_plus_full _ 1), Z.mul_1_l, Z.sub_add. by apply u64_id.
Qed.

(** ** The messages of a view change *)
Section Notes.
Context {PR : Params} {BS : BitSetOps} {G : GobOps} {BO : BoltOps} {T : TrieOps}.
Context {JRelay : Json Relay} {JRWP : Json RelayWithProof} {JBI : Json BlockInfoMsg}.
Context {JIT : Json InjectTxs} {JReq : Json Request} {JPP : Json PrePrepare}.
Context {JP : Json Prepare} {JC : Json Commit} {JRO : Json RequestOldMessage}.
Context {JSO : Json SendOldMessage} {JVC : Json ViewChangeMsg} {JNV : Json NewViewMsg}.
Context {D : Type}.
Implicit Type p : PbftConsensusNode D.

Inductive note := note_vc (m : ViewChangeMsg) | note_nv (m : NewViewMsg).

Definition line_note (msg : bytes) : option note :=
  match SplitMessage (wire msg) with
  | Ret (t, c) =>
      if decide (t = ViewChangePropose) then note_vc <$> unmarshal c
      else if decide (t = NewChange) then note_nv <$> unmarshal c else None
  | Panic _ => None
  end.

(** The view and sequence id a message is about, and its sender. *)
Definition note_key (nt : note) : ViewChangeData :=
  match nt with note_vc m => (vc_NextView m, vc_SeqID m) | note_nv m => (nv_NextView m, NewSeqID m) end.
Definition from_vc (k : ViewChangeData) (nt : note) : option Z :=
  match nt with note_vc m => if decide (note_key nt = k) then Some (vc_FromNode m) else None | _ => None end.
Definition from_nv (k : ViewChangeData) (nt : note) : option Z :=
  match nt with note_nv m => if decide (note_key nt = k) then Some (nv_FromNode m) else None | _ => None end.

Definition handle_note (nowMs : Z) (nt : note) p : outcome (PbftConsensusNode D) :=
  match nt with note_vc m => handleViewChangeMsg m p | note_nv m => handleNewViewMsg nowMs m p end.

Lemma handleMessage_note nowMs msg nt p :
  line_note msg = Some nt →
  handleMessage nowMs (wire msg) p = (p' ← handle_note nowMs nt p; Ret (p', None)).
Proof.
  unfold line_note, handleMessage. destruct (SplitMessage (wire msg)) as [[t c]|]; [|done].
  rewrite bind_ret. intros E. destruct (decide (t = ViewChangePropose)) as [->|H1].
  - do 3 rewrite decide_False by discriminate. unfold decode.
    destruct (unmarshal c); [|done]. cbn in E. injection E as <-. cbn [or_panic]. by rewrite bind_ret.
  - destruct (decide (t = NewChange)) as [->|H2]; [|done].
    do 3 rewrite decide_False by discriminate. unfold decode.
    destruct (unmarshal c); [|done]. cbn in E. injection E as <-. cbn [or_panic]. by rewrite bind_ret.
Qed.

(** The network and the timers.  A timer fires when the node has waited long enough since
    the last commit in view [v]; it then waits as long again, so that it fires once in
    the time considered, and [F] holds the nodes whose timer has fired. *)
Inductive change_step (v : Z) : gset Z * shard (D := D) → gset Z * shard (D := D) → Prop :=
| change_network F S S' : shard_step S S' → change_step v (F, S) (F, S')
| change_timer F ps fl i p ts ths hs nowMs p' :
    ps !! i = Some (mkSys p ts ths hs) → Z.of_nat i ∉ F → view p = v →
    PbftViewChangeTimeOut < nowMs - lastCommitTime p → check_view_change nowMs p = Ret p' →
    change_step v (F, mkShard ps fl)
      ({[Z.of_nat i]} ∪ F, mkShard (<[i := mkSys p' ts ths hs]> ps) (fl ++ new_sent p p')).

(** Every step is a step of one node as [Pbft] models it. *)
Lemma change_step_pstep v F S F' S' i s s' :
  change_step v (F, S) (F', S') → peers S !! i = Some s → peers S' !! i = Some s' →
  s = s' ∨ pstep s s'.
Proof.
  inversion 1 as [? ? ? Hs|? ps fl j p ts ths hs nowMs p' Ej _ _ _ Ec]; subst;
    [by apply shard_step_pstep|]. cbn. intros Hi Hi'. destruct (decide (j = i)) as [->|Hne].
  - rewrite list_lookup_insert_eq in Hi' by (by eapply lookup_lt_Some). simplify_eq. right.
    by eapply step_timer.
  - rewrite list_lookup_insert_ne in Hi' by done. left. congruence.
Qed.

(** Announcements of two views that both complete a quorum overwrite each other: a node
    ends in the view whose quorum was completed last, so that nodes which receive the
    same messages in different orders end in different views.  The two quorums cannot
    exist in a shard of less than [2Q] nodes (below), but do when [2Q] is at most the number of
    nodes, as in a shard of six. *)
Theorem announcements_overwrite nowMs m1 m2 p :
  let senders m := {[nv_FromNode m]} ∪ voters (newViewMap p) (nv_NextView m, NewSeqID m) in
  (nv_NextView m1, NewSeqID m1) ≠ (nv_NextView m2, NewSeqID m2) →
  Z.of_nat (size (senders m1)) = quorum_int p → Z.of_nat (size (senders m2)) = quorum_int p →
  ∃ p1 p2, handleNewViewMsg nowMs m1 p = Ret p1 ∧ handleNewViewMsg nowMs m2 p1 = Ret p2 ∧
    view p1 = i32 (nv_NextView m1) ∧ view p2 = i32 (nv_NextView m2).
Proof.
  intros senders Hne H1 H2. unfold handleNewViewMsg at 1. cbv zeta.
  fold (senders m1). set (q := set_newViewMap _ p).
  assert (∀ k, voters (newViewMap q) k = if decide ((nv_NextView m1, NewSeqID m1) = k)
    then senders m1 else voters (newViewMap p) k) as Hq by (intros k; apply voters_insert).
  rewrite Hq, decide_True by done. change (quorum_int q) with (quorum_int p). rewrite H1, Z.eqb_refl.
  set (p1 := set_lastCommitTime nowMs _). exists p1.
  change (newViewMap q) with (newViewMap p1) in Hq. change (quorum_int p) with (quorum_int p1) in H2.
  unfold handleNewViewMsg. cbv zeta. rewrite Hq, decide_False by done. fold (senders m2).
  set (q2 := set_newViewMap _ p1). assert (voters (newViewMap q2) (nv_NextView m2, NewSeqID m2) = senders m2) as ->
    by (cbn; by rewrite voters_insert, decide_True).
  change (quorum_int q2) with (quorum_int p1). rewrite H2, Z.eqb_refl. by eexists.
Qed.

Context {LVC : JsonLaws JVC} {LNV : JsonLaws JNV}.

Lemma line_vc m : line_note (frame ViewChangePropose (marshal m)) = Some (note_vc m).
Proof.
  unfold line_note. rewrite SplitMessage_wire, decide_True by done. by rewrite unmarshal_line.
Qed.

Lemma line_nv m : line_note (frame NewChange (marshal m)) = Some (note_nv m).
Proof.
  unfold line_note. rewrite SplitMessage_wire, decide_False, decide_True by done. by rewrite unmarshal_line.
Qed.

End Notes.

(** ** One view change *)
Section ViewRound.
Context {PR : Params} {BS : BitSetOps} {G : GobOps} {BO : BoltOps} {T : TrieOps}.
Context {JRelay : Json Relay} {JRWP : Json RelayWithProof} {JBI : Json BlockInfoMsg}.
Context {JIT : Json InjectTxs} {JReq : Json Request} {JPP : Json PrePrepare}.
Context {JP : Json Prepare} {JC : Json Commit} {JRO : Json RequestOldMessage}.
Context {JSO : Json SendOldMessage} {JVC : Json ViewChangeMsg} {JNV : Json NewViewMsg}.
Context {LVC : JsonLaws JVC} {LNV : JsonLaws JNV}.
Context {D : Type}.

Abbreviation node := (PbftConsensusNode D).
Abbreviation psys := (sys (D := D)).
Implicit Type p : node.

(** The number of nodes, the view, the sequence id, the quorum and the nodes at the
    beginning. *)
Context (n : nat) (v seq Q : Z) (p0 : nat → node).

Definition view_after (w : Z) : Z := (w + 1) mod Z.of_nat n.
Abbreviation v1 := (view_after v).
Abbreviation v2 := (view_after v1).
Abbreviation K := (v1, i64 seq).
Abbreviation K2 := (v2, i64 seq).

Context (Hn : 1 < Z.of_nat n < 2 ^ 31) (Hv : 0 ≤ v < Z.of_nat n) (Hseq : is_u64 seq).
Context (HQ : 0 < Q ≤ Z.of_nat n) (HnQ : Z.of_nat n < 2 * Q).
Context (Hcfg : ∀ i, (i < n)%nat → p_NodeID (p0 i) = Z.of_nat i ∧
  node_nums (p0 i) = Z.of_nat n ∧ quorum_int (p0 i) = Q).
Context (Haddr : NoDup (addrs n p0)) (Hnb : ∀ i, (i < n)%nat → getNeighborNodes (p0 i) ≡ₚ addrs n p0).

Lemma view_after_range w : 0 ≤ view_after w < Z.of_nat n.
Proof using Hn. apply Z.mod_pos_bound. lia. Qed.

Lemma view_after_ne w : 0 ≤ w < Z.of_nat n → view_after w ≠ w.
Proof using Hn.
  intros Hw. unfold view_after. destruct (decide (w + 1 = Z.of_nat n)) as [E|].
  - rewrite E, Z.mod_same by lia. lia.
  - rewrite Z.mod_small by lia. lia.
Qed.

Lemma keys_differ : K ≠ K2.
Proof using Hn. intros [= E]. by apply (view_after_ne v1 (view_after_range v)). Qed.

Lemma next_view_eq i p w :
  (i < n)%nat → static (p0 i) p → view p = w → 0 ≤ w < Z.of_nat n →
  next_view p = Ret (view_after w).
Proof using Hn Hcfg.
  intros Hi (_ & _ & _ & _ & _ & Hnn & _) Hw Hr. unfold next_view.
  destruct (Hcfg i Hi) as (_ & En & _). rewrite Hnn, En, Hw, i64_id, i32_id by lia.
  rewrite (proj2 (Z.eqb_neq _ _)) by lia. unfold view_after. by rewrite Z.rem_mod_nonneg by lia.
Qed.

(** The messages of the node [i] when its timer fires, and when it has counted a quorum
    in view [w]. *)
Definition vc_of (i : nat) : ViewChangeMsg := mkVC v v1 (i64 seq) (Z.of_nat i).
Definition nv_of (w : Z) (i : nat) : NewViewMsg := mkNV w (view_after w) (i64 seq) (Z.of_nat i).

(** The messages of this change: for the next view, and announcements of the view after. *)
Definition of_change (nt : note) : Prop :=
  note_key nt = K ∨ (match nt with note_vc _ => False | note_nv _ => note_key nt = K2 end).

(** What a node has counted and what is still to come, when the timers of [F] have fired
    and [A] and [B] have announced the next view and the view after. *)
Definition counts (F A B : gset Z) p (notes : list note) : Prop :=
  Forall of_change notes ∧
  tally (omap (from_vc K) notes) (voters (viewChangeMap p) K) F ∧
  tally (omap (from_nv K) notes) (voters (newViewMap p) K) A ∧
  tally (omap (from_nv K2) notes) (voters (newViewMap p) K2) B.

Definition zsz (X : gset Z) : Z := Z.of_nat (size X).

(** Where a node is: it has announced when it has counted a quorum of view-change
    messages, and has entered the next view when it has counted a quorum of
    announcements. *)
Definition stands (A B : gset Z) (i : nat) p : Prop :=
  static (p0 i) p ∧ CurChain p = CurChain (p0 i) ∧ sequenceID p = seq ∧
  sequenceLock p = sequenceLock (p0 i) ∧
  (Z.of_nat i ∈ A ∪ B ↔ Q ≤ zsz (voters (viewChangeMap p) K)) ∧
  (zsz (voters (newViewMap p) K) < Q ∧ view p = v ∧ Z.of_nat i ∉ B ∨
   Q ≤ zsz (voters (newViewMap p) K) ∧ view p = v1 ∧ pbftStage p = 1).

(** The sets after the node [i] has handled a message, and what it has sent. *)
Inductive announces (i : nat) p (A B : gset Z) : gset Z → gset Z → list (string * bytes) → Prop :=
| announces_nothing : announces i p A B A B []
| announces_next :
    Z.of_nat i ∉ A ∪ B →
    announces i p A B ({[Z.of_nat i]} ∪ A) B (bcast (frame NewChange (marshal (nv_of v i))) p)
| announces_later :
    Z.of_nat i ∉ A ∪ B → Q ≤ zsz A →
    announces i p A B A ({[Z.of_nat i]} ∪ B) (bcast (frame NewChange (marshal (nv_of v1 i))) p).

Lemma handle_vc F A B i p N1 m N2 nowMs :
  (i < n)%nat → counts F A B p (N1 ++ note_vc m :: N2) → stands A B i p →
  ∃ p' A' B' out, handle_note nowMs (note_vc m) p = Ret p' ∧ sent p' = sent p ++ out ∧
    announces i p A B A' B' out ∧ counts F A B p' (N1 ++ N2) ∧ stands A' B' i p'.
Proof.
  intros Hi (Hall & HF & HA & HB) (Hst & Hc & Hs & Hk & Hann & Hview).
  apply Forall_app in Hall as [Hall1 [Hkey Hall2]%Forall_cons]. destruct Hkey as [Hkey|[]].
  rewrite omap_app in HF, HA, HB. cbn [omap list_omap from_vc from_nv] in HF, HA, HB.
  rewrite decide_True in HF by done. apply tally_count in HF as [HF Hsz].
  cbn [handle_note]. unfold handleViewChangeMsg. cbn [note_key] in Hkey. rewrite Hkey. cbv zeta.
  set (X := {[vc_FromNode m]} ∪ voters (viewChangeMap p) K) in *.
  set (q := set_viewChangeMap (<[K := X]> (viewChangeMap p)) p).
  assert (voters (viewChangeMap q) K = X) as Hvq by (cbn; by rewrite voters_insert, decide_True).
  assert (static (p0 i) q) as Hstq by exact Hst.
  destruct (Hcfg i Hi) as (Hid & _ & Hqi). assert (quorum_int q = Q) as Hqq.
  { destruct Hst as (_ & _ & _ & _ & _ & _ & Hm). rewrite <-Hqi. unfold quorum_int. cbn. by rewrite Hm. }
  assert (counts F A B q (N1 ++ N2)) as Hcq.
  { unfold counts. rewrite Hvq, !omap_app. split; [by apply Forall_app|]. done. }
  rewrite Hvq, Hqq. unfold zsz in *. destruct (Z.eqb_spec (Z.of_nat (size X)) Q) as [Heq|Hne].
  2:{ exists q, A, B, []. rewrite app_nil_r. split; [done|]. split; [done|].
      split; [constructor|]. split; [done|]. split_and!; try done.
      unfold zsz. rewrite Hvq, Hann. lia. }
  assert (Z.of_nat i ∉ A ∪ B) as HiAB by (rewrite Hann; lia).
  assert (p_NodeID q = Z.of_nat i) as Hidq by (destruct Hst as (_ & _ & Hm & _); cbn; by rewrite Hm).
  rewrite Hidq. change (sequenceID q) with (sequenceID p). rewrite Hs.
  destruct Hview as [(Hlt & Hvw & HiB)|(Hge & Hvw & Hstage)]; change (view q) with (view p); rewrite Hvw.
  - rewrite (next_view_eq i q v Hi Hstq Hvw Hv), bind_ret.
    rewrite (proj1 (frame_ok NewChange _ eq_refl)), bind_ret, send_all_eq.
    eexists _, ({[Z.of_nat i]} ∪ A), B, (bcast (frame NewChange (marshal (nv_of v i))) p). split; [reflexivity|]. split; [reflexivity|].
    split; [by apply announces_next|]. split; [exact Hcq|]. unfold stands. split_and!; try done.
    + cbn [set_sent viewChangeMap]. rewrite Hvq. unfold zsz. set_solver by lia.
    + left. done.
  - rewrite (next_view_eq i q v1 Hi Hstq Hvw (view_after_range v)), bind_ret.
    rewrite (proj1 (frame_ok NewChange _ eq_refl)), bind_ret, send_all_eq.
    eexists _, A, ({[Z.of_nat i]} ∪ B), (bcast (frame NewChange (marshal (nv_of v1 i))) p). split; [reflexivity|]. split; [reflexivity|].
    split; [apply announces_later; [done|]; apply tally_size in HA; unfold zsz; lia|].
    split; [exact Hcq|]. unfold stands. split_and!; try done.
    + cbn [set_sent viewChangeMap]. rewrite Hvq. unfold zsz. set_solver by lia.
    + right. done.
Qed.

Lemma handle_nv F A B i p N1 m N2 nowMs :
  (i < n)%nat → counts F A B p (N1 ++ note_nv m :: N2) → stands A B i p → zsz B < Q →
  ∃ p', handle_note nowMs (note_nv m) p = Ret p' ∧ sent p' = sent p ∧
    counts F A B p' (N1 ++ N2) ∧ stands A B i p'.
Proof.
  intros Hi (Hall & HF & HA & HB) (Hst & Hc & Hs & Hk & Hann & Hview) HBQ.
  apply Forall_app in Hall as [Hall1 [Hkey Hall2]%Forall_cons].
  assert (Forall of_change (N1 ++ N2)) as Hall by (by apply Forall_app).
  rewrite omap_app in HF, HA, HB. cbn [omap list_omap from_vc from_nv] in HF, HA, HB.
  cbn [handle_note]. unfold handleNewViewMsg. cbv zeta.
  destruct (Hcfg i Hi) as (_ & _ & Hqi). assert (quorum_int p = Q) as Hqq.
  { destruct Hst as (_ & _ & _ & _ & _ & _ & Hm). rewrite <-Hqi. unfold quorum_int. by rewrite Hm. }
  destruct Hkey as [Hkey|Hkey].
  - rewrite decide_True in HA by done. rewrite decide_False in HB by (rewrite Hkey; apply keys_differ).
    apply tally_count in HA as [HA Hsz]. cbn [note_key] in Hkey. rewrite Hkey.
    set (X := {[nv_FromNode m]} ∪ voters (newViewMap p) K) in *.
    set (q := set_newViewMap (<[K := X]> (newViewMap p)) p).
    assert (voters (newViewMap q) K = X) as Hvq by (cbn; by rewrite voters_insert, decide_True).
    assert (voters (newViewMap q) K2 = voters (newViewMap p) K2) as Hvq2
      by (cbn; rewrite voters_insert, decide_False; [done|apply keys_differ]).
    assert (counts F A B q (N1 ++ N2)) as Hcq by (unfold counts; by rewrite Hvq, Hvq2, !omap_app).
    rewrite Hvq. change (quorum_int q) with (quorum_int p). rewrite Hqq. unfold zsz in *.
    destruct (Z.eqb_spec (Z.of_nat (size X)) Q) as [Heq|Hne].
    + eexists. split; [reflexivity|]. split; [reflexivity|]. split; [exact Hcq|].
      assert (NewSeqID m = i64 seq) as -> by congruence. pose proof (view_after_range v).
      unfold stands. split_and!; try done; [cbn; by apply u64_of_i64|]. right. split_and!; [|cbn; apply i32_id; lia|done].
      change (Q ≤ zsz (voters (newViewMap q) K)). rewrite Hvq. unfold zsz. lia.
    + exists q. split; [done|]. split; [done|]. split; [done|]. unfold stands. split_and!; try done.
      unfold zsz. rewrite Hvq. destruct Hview as [(Hlt & Hvw & HiB)|(Hge & Hvw & Hstage)]; [left|right].
      * split_and!; [lia|done..].
      * split_and!; [lia|done..].
  - rewrite decide_True in HB by done. rewrite decide_False in HA by (rewrite Hkey; intros E; by apply keys_differ).
    apply tally_count in HB as [HB Hsz]. cbn [note_key] in Hkey. rewrite Hkey.
    set (X := {[nv_FromNode m]} ∪ voters (newViewMap p) K2) in *.
    set (q := set_newViewMap (<[K2 := X]> (newViewMap p)) p).
    assert (voters (newViewMap q) K2 = X) as Hvq by (cbn; by rewrite voters_insert, decide_True).
    assert (voters (newViewMap q) K = voters (newViewMap p) K) as Hvq1
      by (cbn; rewrite voters_insert, decide_False; [done|intros E; by apply keys_differ]).
    pose proof (tally_size _ _ _ HB) as HszB.
    rewrite Hvq. change (quorum_int q) with (quorum_int p). rewrite Hqq. unfold zsz in *.
    rewrite (proj2 (Z.eqb_neq _ _)) by lia.
    exists q. split; [done|]. split; [done|]. split; [unfold counts; by rewrite Hvq, Hvq1, !omap_app|].
    unfold stands, zsz. rewrite Hvq1. done.
Qed.

(** *** The network *)
Definition notes_to (i : nat) (fl : list (string * bytes)) : list note :=
  omap line_note (to_addr (addr p0 i) fl).

Definition peer_change (F A B : gset Z) (fl : list (string * bytes)) (i : nat) (s : psys) : Prop :=
  tasks s = [] ∧ threads s = [] ∧ counts F A B (nd s) (notes_to i fl) ∧ stands A B i (nd s).

Abbreviation ids := (node_ids (Z.of_nat n)).

(** The announcers: nobody announces both views, and the view after the next one only
    when a quorum has announced the next. *)
Definition announcers (A B : gset Z) : Prop := A ∪ B ⊆ ids ∧ A ## B ∧ (B ≠ ∅ → Q ≤ zsz A).

Definition change_inv (F A B : gset Z) (S : shard (D := D)) : Prop :=
  length (peers S) = n ∧ F ⊆ ids ∧ announcers A B ∧
  (∀ x, x ∈ flight S → x.1 ∈ addrs n p0 → is_Some (line_note x.2)) ∧
  ∀ i s, peers S !! i = Some s → peer_change F A B (flight S) i s.

(** Messages in flight, announcements and timers that are left. *)
Definition change_weight (F A B : gset Z) (S : shard (D := D)) : nat :=
  inside n p0 (flight S) + n * (n - size A - size B) + (n + 1) * (n - size F).

Lemma elem_of_ids i : (i < n)%nat → Z.of_nat i ∈ ids.
Proof using Type. intros Hi. unfold node_ids. rewrite elem_of_list_to_set, elem_of_seqZ. clear -Hi. lia. Qed.

Lemma size_ids (X : gset Z) : X ⊆ ids → (size X ≤ n)%nat.
Proof using Type. intros H%subseteq_size. by rewrite size_node_ids, Nat2Z.id in H by apply Nat2Z.is_nonneg. Qed.

Lemma announcers_size A B : announcers A B → (size A + size B ≤ n)%nat ∧ zsz B < Q.
Proof using HQ HnQ.
  intros (Hsub & Hdis & HB). apply size_ids in Hsub as Hsz. rewrite size_union in Hsz by done.
  split; [done|]. unfold zsz in *. destruct (decide (B = ∅)) as [->|Hne].
  - rewrite size_empty. lia.
  - specialize (HB Hne). lia.
Qed.

Lemma announces_keeps i p A B A' B' out :
  (i < n)%nat → static (p0 i) p → announces i p A B A' B' out → announcers A B →
  announcers A' B' ∧
  (inside n p0 out + n * (n - size A' - size B') = n * (n - size A - size B))%nat ∧
  (∀ x, x ∈ out → is_Some (line_note x.2)).
Proof using LNV Haddr Hnb HQ HnQ Hn.
  intros Hi Hst Hann HAB. pose proof (elem_of_ids i Hi) as Hin.
  destruct Hann as [|HiAB|HiAB HA]; [split_and!; [done..|]; intros x Hx; by apply not_elem_of_nil in Hx|..].
  - assert (announcers ({[Z.of_nat i]} ∪ A) B) as HAB'.
    { destruct HAB as (H1 & H2 & H3). clear -H1 H2 H3 Hin HiAB. split_and!; [set_solver..|].
      intros HB. specialize (H3 HB). unfold zsz in *. rewrite size_insert by set_solver. lia. }
    split; [done|]. pose proof (announcers_size _ _ HAB') as [Hsz _].
    rewrite size_insert in * by (clear -HiAB; set_solver).
    rewrite (inside_bcast n p0 Haddr Hnb i p) by done. split; [nia|].
    intros x Hx. rewrite (bcast_perm n p0 Haddr Hnb i p) in Hx by done.
    apply list_elem_of_fmap in Hx as (a & -> & _). cbn. by rewrite line_nv.
  - assert (announcers A ({[Z.of_nat i]} ∪ B)) as HAB'.
    { destruct HAB as (H1 & H2 & H3). clear -H1 H2 H3 Hin HiAB HA. split_and!; [set_solver..|done]. }
    split; [done|]. pose proof (announcers_size _ _ HAB') as [Hsz _].
    rewrite size_insert in * by (clear -HiAB; set_solver).
    rewrite (inside_bcast n p0 Haddr Hnb i p) by done. split; [nia|].
    intros x Hx. rewrite (bcast_perm n p0 Haddr Hnb i p) in Hx by done.
    apply list_elem_of_fmap in Hx as (a & -> & _). cbn. by rewrite line_nv.
Qed.

Lemma notes_app i fl1 fl2 : notes_to i (fl1 ++ fl2) = notes_to i fl1 ++ notes_to i fl2.
Proof using Type. unfold notes_to. by rewrite to_addr_app, omap_app. Qed.

Lemma notes_bcast i j p msg nt :
  (i < n)%nat → (j < n)%nat → static (p0 i) p → line_note msg = Some nt →
  notes_to j (bcast msg p) = [nt].
Proof using Haddr Hnb.
  intros Hi Hj Hst E. unfold notes_to. rewrite (to_addr_bcast n p0 Haddr Hnb i j) by done.
  cbn [omap list_omap]. by rewrite E.
Qed.

(** Another node receives the announcements. *)
Lemma counts_announced i p A B A' B' out F j q fl :
  (i < n)%nat → (j < n)%nat → static (p0 i) p → announces i p A B A' B' out →
  counts F A B q (notes_to j fl) → counts F A' B' q (notes_to j (fl ++ out)).
Proof using LNV Haddr Hnb Hn.
  intros Hi Hj Hst Hann (Hall & HF & HA & HB). rewrite notes_app.
  destruct Hann as [|HiAB|HiAB HQA].
  - change (notes_to j []) with (@nil note). by rewrite app_nil_r.
  - rewrite (notes_bcast i j _ _ _ Hi Hj Hst (line_nv _)). unfold counts. rewrite !omap_app.
    split; [by apply Forall_app; split; [|apply Forall_singleton; left]|].
    cbn [omap list_omap from_vc from_nv]. rewrite decide_True by done.
    rewrite decide_False by (apply keys_differ). rewrite !app_nil_r. split_and!; [done| |done].
    apply tally_send; [clear -HiAB; set_solver|done].
  - rewrite (notes_bcast i j _ _ _ Hi Hj Hst (line_nv _)). unfold counts. rewrite !omap_app.
    split; [by apply Forall_app; split; [|apply Forall_singleton; right]|].
    cbn [omap list_omap from_vc from_nv]. rewrite (decide_True (P := note_key _ = K2)) by done.
    rewrite decide_False by (intros E; by apply keys_differ). rewrite !app_nil_r. split_and!; [done..|].
    apply tally_send; [clear -HiAB; set_solver|done].
Qed.

Lemma stands_announced i p A B A' B' out j q :
  i ≠ j → announces i p A B A' B' out → stands A B j q → stands A' B' j q.
Proof using Type.
  intros Hne Hann (H1 & H2 & H3 & H4 & H5 & H6). assert (Z.of_nat i ≠ Z.of_nat j) as Hne' by (clear -Hne; lia).
  destruct Hann as [|HiAB|HiAB HQA]; [done|..]; unfold stands; split_and!; try done.
  - rewrite <-H5. clear -Hne'. set_solver.
  - rewrite <-H5. clear -Hne'. set_solver.
  - destruct H6 as [(?&?&?)|?]; [left|by right]. split_and!; [done..|]. clear -Hne' H6. set_solver.
Qed.

(** *** Steps *)
Lemma notes_take i fl1 msg fl2 nt :
  line_note msg = Some nt →
  notes_to i (fl1 ++ (addr p0 i, msg) :: fl2) = notes_to i fl1 ++ nt :: notes_to i fl2.
Proof using Type.
  intros E. rewrite notes_app. f_equal. unfold notes_to, to_addr.
  rewrite filter_cons_True by done. cbn. by rewrite E.
Qed.

Lemma notes_skip i j fl1 msg fl2 :
  addr p0 i ≠ addr p0 j →
  notes_to j (fl1 ++ (addr p0 i, msg) :: fl2) = notes_to j (fl1 ++ fl2).
Proof using Type.
  intros Hne. rewrite !notes_app. f_equal. unfold notes_to, to_addr. by rewrite filter_cons_False.
Qed.

Lemma handle_any F A B i p N1 nt N2 nowMs :
  (i < n)%nat → counts F A B p (N1 ++ nt :: N2) → stands A B i p → announcers A B →
  ∃ p' A' B' out, handle_note nowMs nt p = Ret p' ∧ sent p' = sent p ++ out ∧
    announces i p A B A' B' out ∧ counts F A B p' (N1 ++ N2) ∧ stands A' B' i p'.
Proof.
  intros Hi Hc Hs HAB. destruct nt as [m|m]; [by apply handle_vc|].
  destruct (handle_nv F A B i p N1 m N2 nowMs Hi Hc Hs) as (p' & E & Es & Hc' & Hs');
    [by destruct (announcers_size A B HAB)|]. exists p', A, B, []. rewrite app_nil_r.
  split_and!; try done. constructor.
Qed.

Lemma change_deliver F A B ps fl1 msg fl2 i p ts ths hs nowMs p' t :
  let S := mkShard ps (fl1 ++ (IPaddr (RunningNode p), msg) :: fl2) in
  change_inv F A B S → ps !! i = Some (mkSys p ts ths hs) →
  handleMessage nowMs (wire msg) p = Ret (p', t) →
  let S' := mkShard (<[i := mkSys p' (ts ++ option_list t) ths hs]> ps) ((fl1 ++ fl2) ++ new_sent p p') in
  ∃ A' B', change_inv F A' B' S' ∧ (change_weight F A' B' S' < change_weight F A B S)%nat.
Proof.
  intros S (Hlen & HF & HAB & Hfl & Hps) Ei Eh S'. subst S S'. cbn [peers flight] in *.
  pose proof (Hps i _ Ei) as (Hts & Hths & Hc & Hs). cbn [tasks threads nd] in *. subst ts ths.
  assert (i < n)%nat as Hi by (rewrite <-Hlen; by eapply lookup_lt_Some).
  assert (static (p0 i) p) as Hst by apply Hs.
  assert (IPaddr (RunningNode p) = addr p0 i) as Ha by (by destruct Hst as (-> & _)). rewrite Ha in *.
  assert (addr p0 i ∈ addrs n p0) as Hai by (apply elem_of_addrs; eauto).
  destruct (Hfl (addr p0 i, msg)) as [nt Hnt]; [clear; set_solver|done|]. cbn in Hnt.
  rewrite (notes_take i fl1 msg fl2 nt Hnt) in Hc. rewrite (handleMessage_note nowMs msg nt p Hnt) in Eh.
  destruct (handle_any F A B i p _ nt _ nowMs Hi Hc Hs HAB) as (p1 & A' & B' & out & E & Es & Hann & Hc' & Hs').
  rewrite E, bind_ret in Eh. injection Eh as <- <-. rewrite (new_sent_app p p1 out Es).
  destruct (announces_keeps i p A B A' B' out Hi Hst Hann HAB) as (HAB' & Hw & Hout).
  exists A', B'. split.
  - split_and!; cbn; [by rewrite length_insert|done..| |].
    + intros x [Hx|Hx]%elem_of_app Hxa; [apply Hfl; [clear -Hx; set_solver|done]|by apply Hout].
    + intros j s Ej. apply lookup_lt_Some in Ej as Hj. rewrite length_insert, Hlen in Hj.
      destruct (decide (i = j)) as [<-|Hne].
      * rewrite list_lookup_insert_eq in Ej by (by eapply lookup_lt_Some). injection Ej as <-.
        split_and!; cbn; try done. apply (counts_announced i p A B A' B' out); try done.
        by rewrite notes_app.
      * rewrite list_lookup_insert_ne in Ej by done. destruct (Hps j s Ej) as (H1 & H2 & H3 & H4).
        rewrite notes_skip in H3 by (by intros ?%(addr_inj n p0 Haddr)).
        split_and!; [done..| |by eapply stands_announced]. by apply (counts_announced i p A B A' B' out).
  - unfold change_weight. cbn [flight]. rewrite !inside_app.
    assert (inside n p0 ((addr p0 i, msg) :: fl2) = S (inside n p0 fl2)) as ->.
    { unfold inside. by rewrite filter_cons_True. }
    revert Hw. generalize ((n + 1) * (n - size F))%nat (n * (n - size A - size B))%nat
      (n * (n - size A' - size B'))%nat. clear. lia.
Qed.

Lemma timer_eq i p nowMs :
  (i < n)%nat → static (p0 i) p → sequenceID p = seq → view p = v →
  PbftViewChangeTimeOut < nowMs - lastCommitTime p →
  check_view_change nowMs p = Ret (set_sent (sent p ++ bcast (frame ViewChangePropose (marshal (vc_of i))) p)
    (set_pbftStage 5 (set_lastCommitTime nowMs p))).
Proof using Hn Hv Hcfg.
  intros Hi Hst Hs Hvw Ht. unfold check_view_change. rewrite (proj2 (Z.ltb_lt _ _) Ht).
  unfold viewChangePropose. cbv zeta. set (q := set_pbftStage 5 (set_lastCommitTime nowMs p)).
  rewrite (next_view_eq i q v Hi Hst Hvw Hv), bind_ret. destruct (Hcfg i Hi) as (Hid & _).
  assert (p_NodeID q = Z.of_nat i) as -> by (destruct Hst as (_ & _ & Hm & _); cbn; by rewrite Hm).
  change (view q) with (view p). change (sequenceID q) with (sequenceID p). rewrite Hvw, Hs.
  rewrite (proj1 (frame_ok ViewChangePropose _ eq_refl)), bind_ret, send_all_eq. done.
Qed.

Lemma change_fires F A B ps fl i p ts ths hs nowMs p' :
  change_inv F A B (mkShard ps fl) → ps !! i = Some (mkSys p ts ths hs) → Z.of_nat i ∉ F → view p = v →
  PbftViewChangeTimeOut < nowMs - lastCommitTime p → check_view_change nowMs p = Ret p' →
  let F' := {[Z.of_nat i]} ∪ F in
  let S' := mkShard (<[i := mkSys p' ts ths hs]> ps) (fl ++ new_sent p p') in
  change_inv F' A B S' ∧ (change_weight F' A B S' < change_weight F A B (mkShard ps fl))%nat.
Proof.
  intros (Hlen & HF & HAB & Hfl & Hps) Ei HiF Hvw Ht Ec F' S'. subst S'. cbn [peers flight] in *.
  pose proof (Hps i _ Ei) as (Hts & Hths & Hc & Hs). cbn [tasks threads nd] in *. subst ts ths.
  assert (i < n)%nat as Hi by (rewrite <-Hlen; by eapply lookup_lt_Some).
  assert (static (p0 i) p) as Hst by apply Hs.
  rewrite (timer_eq i p nowMs Hi Hst) in Ec by (done || apply Hs). injection Ec as <-.
  rewrite (new_sent_app p _ (bcast (frame ViewChangePropose (marshal (vc_of i))) p)) by done.
  set (p' := set_sent _ _). set (out := bcast _ p).
  assert (F' ⊆ ids) as HF' by (pose proof (elem_of_ids i Hi) as Hin; clear -HF Hin; set_solver).
  assert (∀ j q, (j < n)%nat → counts F A B q (notes_to j fl) → counts F' A B q (notes_to j (fl ++ out))) as Hcs.
  { intros j q Hj (H1 & H2 & H3 & H4). unfold counts, out.
    rewrite notes_app, (notes_bcast i j _ _ _ Hi Hj Hst (line_vc _)), !omap_app.
    cbn [omap list_omap from_vc from_nv]. rewrite decide_True, !app_nil_r by done.
    split_and!; [by apply Forall_app; split; [|apply Forall_singleton; left]|by apply tally_send|done..]. }
  split.
  - split_and!; cbn; [by rewrite length_insert|done..| |].
    + intros x [Hx|Hx]%elem_of_app Hxa; [by apply Hfl|]. unfold out in Hx.
      rewrite (bcast_perm n p0 Haddr Hnb i p) in Hx by done.
      apply list_elem_of_fmap in Hx as (a & -> & _). cbn. by rewrite line_vc.
    + intros j s Ej. apply lookup_lt_Some in Ej as Hj. rewrite length_insert, Hlen in Hj.
      destruct (decide (i = j)) as [<-|Hne].
      * rewrite list_lookup_insert_eq in Ej by (by eapply lookup_lt_Some). injection Ej as <-.
        split_and!; cbn; try done; [by apply Hcs|]. destruct Hs as (H1 & H2 & H3 & H4 & H5 & H6).
        unfold stands. split_and!; try done. destruct H6 as [H6|(_ & H6 & _)]; [by left|].
        exfalso. rewrite Hvw in H6. by apply (view_after_ne v Hv).
      * rewrite list_lookup_insert_ne in Ej by done. destruct (Hps j s Ej) as (H1 & H2 & H3 & H4).
        split_and!; try done. by apply Hcs.
  - unfold change_weight. cbn [flight]. rewrite inside_app. unfold out.
    rewrite (inside_bcast n p0 Haddr Hnb i p) by done. apply size_ids in HF'. unfold F' in *.
    rewrite size_insert in * by done. clear -HF'. nia.
Qed.

Lemma change_step_keeps F A B S F' S' :
  change_step v (F, S) (F', S') → change_inv F A B S →
  ∃ A' B', change_inv F' A' B' S' ∧ (change_weight F' A' B' S' < change_weight F A B S)%nat.
Proof.
  intros Hstep Hi. inversion Hstep as [? ? ? Hs|? ps fl i p ts ths hs nowMs p' Ej HiF Hvw Ht Ec]; subst.
  - destruct Hs as [ps fl1 msg fl2 i p ts ths hs nowMs p' t Ei Eh|ps fl i s s' Ei Hw].
    + by eapply change_deliver.
    + exfalso. destruct Hi as (_ & _ & _ & _ & Hps). destruct (Hps i s Ei) as (Ht & Hth & _).
      destruct Hw; cbn in Ht, Hth; [by destruct ts1|by destruct ths1].
  - exists A, B. by eapply change_fires.
Qed.

Lemma change_run_keeps k F A B S F' S' :
  nsteps (change_step v) k (F, S) (F', S') → change_inv F A B S →
  ∃ A' B', change_inv F' A' B' S' ∧ (k + change_weight F' A' B' S' ≤ change_weight F A B S)%nat.
Proof.
  revert F A B S. induction k as [|k IH]; intros F A B S Hrun Hi.
  { inversion Hrun; subst. exists A, B. split; [done|lia]. }
  inversion Hrun as [|? ? [F1 S1] ? Hs Hrun']; subst.
  destruct (change_step_keeps F A B S F1 S1 Hs Hi) as (A1 & B1 & Hi1 & Hw1).
  destruct (IH F1 A1 B1 S1 Hrun' Hi1) as (A' & B' & Hi' & Hw'). exists A', B'. split; [done|lia].
Qed.

(** *** The end of the change *)

(** Every message in flight to a node of the shard can be handled. *)
Lemma change_takes F A B S x i s nowMs :
  change_inv F A B S → x ∈ flight S → peers S !! i = Some s → x.1 = IPaddr (RunningNode (nd s)) →
  ∃ p', handleMessage nowMs (wire x.2) (nd s) = Ret (p', None).
Proof.
  intros (Hlen & HF & HAB & Hfl & Hps) Hx Ei Ea. destruct x as [a msg]. cbn in *.
  pose proof (Hps i _ Ei) as (Hts & Hths & Hc & Hs).
  assert (i < n)%nat as Hi by (rewrite <-Hlen; by eapply lookup_lt_Some).
  assert (a = addr p0 i) as Ha by (rewrite Ea; by destruct Hs as ((-> & _) & _)).
  destruct (Hfl (a, msg)) as [nt Hnt]; [done|cbn; rewrite Ha; apply elem_of_addrs; eauto|]. cbn in Hnt.
  apply list_elem_of_split in Hx as (fl1 & fl2 & E). rewrite E, Ha, (notes_take i fl1 msg fl2 nt Hnt) in Hc.
  rewrite (handleMessage_note nowMs msg nt (nd s) Hnt).
  destruct (handle_any F A B i (nd s) _ nt _ nowMs Hi Hc Hs HAB) as (p1 & _ & _ & _ & -> & _).
  rewrite bind_ret. eauto.
Qed.

Lemma change_or_rest F A B S :
  change_inv F A B S → (∃ S', shard_step S S') ∨ (∀ x, x ∈ flight S → x.1 ∉ addrs n p0).
Proof.
  intros Hinv. destruct (decide (Exists (λ x, x.1 ∈ addrs n p0) (flight S))) as [Hex|Hno].
  2:{ right. intros x Hx Ha. apply Hno, Exists_exists. eauto. }
  left. apply Exists_exists in Hex as ([a msg] & Hx & Ha). cbn in Ha.
  apply elem_of_addrs in Ha as (i & Hi & ->). pose proof Hinv as (Hlen & _ & _ & _ & Hps).
  destruct (lookup_lt_is_Some_2 (peers S) i) as [[p ts ths hs] Ei]; [lia|].
  assert (addr p0 i = IPaddr (RunningNode p)) as Ea by (destruct (Hps i _ Ei) as (_ & _ & _ & (H & _) & _); cbn in H; by rewrite H).
  destruct (change_takes F A B S _ i _ 0 Hinv Hx Ei Ea) as [p' E]. rewrite Ea in Hx.
  apply list_elem_of_split in Hx as (fl1 & fl2 & Hfl). destruct S as [ps fl]. cbn in *. subst fl.
  eexists. by eapply shard_deliver.
Qed.

(** A node that has left the view has done so after a quorum of timers. *)
Lemma entered_after_quorum F A B S i s :
  change_inv F A B S → peers S !! i = Some s → view (nd s) ≠ v → view (nd s) = v1 ∧ Q ≤ zsz F.
Proof.
  intros (Hlen & HF & (Hsub & Hdis & HB) & Hfl & Hps) Ei Hne.
  destruct (Hps i s Ei) as (_ & _ & (_ & _ & HA & _) & (_ & _ & _ & _ & _ & [(_ & ? & _)|(Hq & Hvw & _)])); [done|].
  split; [done|]. apply tally_size in HA. unfold zsz in *.
  assert (A ≠ ∅) as [a Ha]%set_choose_L by (intros ->; rewrite size_empty in HA; lia).
  assert (a ∈ ids) as Hid by (clear -Ha Hsub; set_solver).
  unfold node_ids in Hid. rewrite elem_of_list_to_set, elem_of_seqZ in Hid.
  destruct (lookup_lt_is_Some_2 (peers S) (Z.to_nat a)) as [s' Ei']; [lia|].
  destruct (Hps _ s' Ei') as (_ & _ & (_ & HF' & _) & (_ & _ & _ & _ & Hann & _)).
  rewrite Z2Nat.id in Hann by lia. apply tally_size in HF'. unfold zsz in Hann.
  apply proj1 in Hann. specialize (Hann ltac:(clear -Ha; set_solver)). lia.
Qed.

Lemma rest_sizes F A B S i s :
  change_inv F A B S → (∀ x, x ∈ flight S → x.1 ∉ addrs n p0) → peers S !! i = Some s →
  zsz (voters (viewChangeMap (nd s)) K) = zsz F ∧ zsz (voters (newViewMap (nd s)) K) = zsz A.
Proof.
  intros (Hlen & _ & _ & _ & Hps) Hrest Ei. destruct (Hps i s Ei) as (_ & _ & (_ & HF & HA & _) & _).
  assert (i < n)%nat as Hi by (rewrite <-Hlen; by eapply lookup_lt_Some).
  assert (notes_to i (flight S) = []) as E.
  { unfold notes_to. by rewrite (to_addr_outside n p0 i (flight S) Hi) by (by apply Forall_forall). }
  rewrite E in HF, HA. apply tally_size in HF, HA. unfold zsz. cbn in *. lia.
Qed.

(** At rest after a quorum of timers every node is in the next view. *)
Lemma rest_entered F A B S i s :
  change_inv F A B S → (∀ x, x ∈ flight S → x.1 ∉ addrs n p0) → Q ≤ zsz F → peers S !! i = Some s →
  view (nd s) = v1 ∧ pbftStage (nd s) = 1.
Proof.
  intros Hinv Hrest HQF Ei. pose proof Hinv as (Hlen & _ & (Hsub & Hdis & HB) & _ & Hps).
  assert (Q ≤ zsz A) as HQA.
  { destruct (decide (B = ∅)) as [->|Hne]; [|by apply HB].
    assert (ids ⊆ A) as Hall.
    { intros a Ha. unfold node_ids in Ha. rewrite elem_of_list_to_set, elem_of_seqZ in Ha.
      destruct (lookup_lt_is_Some_2 (peers S) (Z.to_nat a)) as [s' Ei']; [lia|].
      destruct (Hps _ s' Ei') as (_ & _ & _ & (_ & _ & _ & _ & Hann & _)).
      rewrite (proj1 (rest_sizes F A ∅ S _ s' Hinv Hrest Ei')), Z2Nat.id in Hann by lia.
      apply proj2 in Hann. specialize (Hann HQF). clear -Hann. set_solver. }
    apply subseteq_size in Hall. rewrite size_node_ids in Hall by lia. unfold zsz. lia. }
  destruct (Hps i s Ei) as (_ & _ & _ & (_ & _ & _ & _ & _ & Hview)).
  rewrite (proj2 (rest_sizes F A B S i s Hinv Hrest Ei)) in Hview.
  destruct Hview as [(? & _)|(_ & ? & ?)]; [lia|done].
Qed.

(** Without a quorum of timers there is a node whose timer can still fire. *)
Lemma timer_left F A B S :
  change_inv F A B S → zsz F < Q → ∃ X, change_step v (F, S) X.
Proof.
  intros Hinv HF. pose proof Hinv as (Hlen & HFs & _ & _ & Hps).
  assert (ids ∖ F ≠ ∅) as [a Ha]%set_choose_L.
  { intros E. assert (ids ⊆ F) as Hsub by (clear -E; set_solver). apply subseteq_size in Hsub.
    rewrite size_node_ids in Hsub by lia. unfold zsz in HF. lia. }
  apply elem_of_difference in Ha as [Ha HaF].
  unfold node_ids in Ha. rewrite elem_of_list_to_set, elem_of_seqZ in Ha.
  destruct (lookup_lt_is_Some_2 (peers S) (Z.to_nat a)) as [s Ei]; [lia|].
  assert (view (nd s) = v) as Hvw.
  { destruct (decide (view (nd s) = v)) as [|Hne]; [done|].
    apply (entered_after_quorum F A B S _ s Hinv Ei) in Hne. lia. }
  pose proof (Hps _ s Ei) as (_ & _ & _ & (Hst & _ & Hs & _)). destruct S as [ps fl], s as [p ts ths hs].
  cbn in *. set (nowMs := lastCommitTime p + PbftViewChangeTimeOut + 1).
  eexists. eapply (change_timer v F ps fl (Z.to_nat a) p ts ths hs nowMs);
    [done|by rewrite Z2Nat.id by lia|done|unfold nowMs; lia|].
  apply (timer_eq (Z.to_nat a)); [lia|done..|unfold nowMs; lia].
Qed.

End ViewRound.

(** ** From a silent leader to the next one *)
Section ViewTheorem.
Context {PR : Params} {BS : BitSetOps} {G : GobOps} {BO : BoltOps} {T : TrieOps}.
Context {JRelay : Json Relay} {JRWP : Json RelayWithProof} {JBI : Json BlockInfoMsg}.
Context {JIT : Json InjectTxs} {JReq : Json Request} {JPP : Json PrePrepare}.
Context {JP : Json Prepare} {JC : Json Commit} {JRO : Json RequestOldMessage}.
Context {JSO : Json SendOldMessage} {JVC : Json ViewChangeMsg} {JNV : Json NewViewMsg}.
Context {LVC : JsonLaws JVC} {LNV : JsonLaws JNV}.
Context {D : Type}.

Lemma replica_share bc bc1 bc2 : replica bc bc1 → replica bc bc2 → replica bc1 bc2.
Proof.
  intros ([T1 H1] & P1 & S1 & B1 & st1 & st1' & O1 & O1' & C1) ([T2 H2] & P2 & S2 & B2 & st2 & st2' & O2 & O2' & C2).
  split; [split; congruence|]. split_and!; [congruence..|]. exists st1', st2'. split_and!; [done..|].
  assert (st1 = st2) as -> by (destruct O1 as [O1 _], O2 as [O2 _]; congruence).
  by rewrite <-C1, <-C2.
Qed.

(** What the nodes of a shard need to change from view [v]: the configuration of
    [NewPbftNode], no votes yet for the views to come, and a next leader that holds no
    lock. *)
Definition can_change (v seq Q : Z) (S : shard (D := D)) : Prop :=
  let v1 := view_after (length (peers S)) v in
  let v2 := view_after (length (peers S)) v1 in
  ∀ i s, peers S !! i = Some s →
    p_NodeID (nd s) = Z.of_nat i ∧ node_nums (nd s) = zlen (peers S) ∧ quorum_int (nd s) = Q ∧
    (Z.of_nat i = v1 → sequenceLock (nd s) = false) ∧
    voters (viewChangeMap (nd s)) (v1, i64 seq) = ∅ ∧
    voters (newViewMap (nd s)) (v1, i64 seq) = ∅ ∧ voters (newViewMap (nd s)) (v2, i64 seq) = ∅.

(** Every message to a node of the shard can be handled. *)
Definition takes_all (S : shard (D := D)) : Prop :=
  ∀ i s x nowMs, peers S !! i = Some s → x ∈ flight S → x.1 = IPaddr (RunningNode (nd s)) →
    ∃ p', handleMessage nowMs (wire x.2) (nd s) = Ret (p', None).

Context (lead : nat) (v seq Q : Z) (S : shard (D := D)) (L : PbftConsensusNode D).
Abbreviation n := (length (peers S)).
Abbreviation v1 := (view_after n v).
Context (Hready : shard_ready lead v seq Q S L) (Hcan : can_change v seq Q S).
Context (Hn : 1 < zlen (peers S) < 2 ^ 31) (Hv : 0 ≤ v < zlen (peers S)) (Hseq : is_u64 seq).
Context (HQ : 0 < Q ≤ zlen (peers S)) (HnQ : zlen (peers S) < 2 * Q).

Definition first_node (i : nat) : PbftConsensusNode D := default L (nd <$> peers S !! i).

Lemma first_node_eq i s : peers S !! i = Some s → first_node i = nd s.
Proof using Type. intros Ei. unfold first_node. by rewrite Ei. Qed.

Lemma first_peer i : (i < n)%nat → ∃ s, peers S !! i = Some s ∧ first_node i = nd s.
Proof using Type. intros [s Ei]%lookup_lt_is_Some. exists s. split; [done|]. by apply first_node_eq. Qed.

Lemma first_config i : (i < n)%nat → p_NodeID (first_node i) = Z.of_nat i ∧
  node_nums (first_node i) = Z.of_nat n ∧ quorum_int (first_node i) = Q.
Proof using Hcan. intros (s & Ei & ->)%first_peer. by destruct (Hcan i s Ei) as (? & ? & ? & _). Qed.

Lemma first_addrs : addrs n first_node = peer_addrs S.
Proof using Type.
  apply list_eq. intros i. unfold addrs, peer_addrs. rewrite !list_lookup_fmap.
  destruct (peers S !! i) as [s|] eqn:Ei.
  - rewrite lookup_seq_lt by (by eapply lookup_lt_Some). cbn. unfold addr. by rewrite (first_node_eq i s).
  - rewrite lookup_seq_ge; [done|]. by apply lookup_ge_None.
Qed.

Lemma first_nodup : NoDup (addrs n first_node).
Proof using Hready. rewrite first_addrs. apply Hready. Qed.

Lemma first_neighbours i : (i < n)%nat → getNeighborNodes (first_node i) ≡ₚ addrs n first_node.
Proof using Hready.
  intros (s & Ei & ->)%first_peer. rewrite first_addrs. destruct Hready as (_ & _ & _ & Hps).
  apply (Hps i s Ei).
Qed.

Lemma first_inv : change_inv n v seq Q first_node ∅ ∅ ∅ S.
Proof.
  destruct Hready as (_ & _ & Hfl & Hps). split_and!; [done|set_solver|..].
  - split_and!; [set_solver..|done].
  - intros x Hx Ha. rewrite first_addrs in Ha. by destruct (Hfl x Hx).
  - intros i s Ei. destruct (Hps i s Ei) as ((Ht & Hth & Hvw & _ & _ & Hs & _) & _).
    destruct (Hcan i s Ei) as (_ & _ & _ & _ & V1 & V2 & V3).
    assert (i < n)%nat as Hi by (by eapply lookup_lt_Some).
    assert (notes_to first_node i (flight S) = []) as E.
    { unfold notes_to. rewrite (to_addr_outside n first_node i (flight S) Hi); [done|].
      rewrite first_addrs. by apply Forall_forall. }
    split_and!; [done..| |].
    + unfold counts. rewrite E, V1, V2, V3. split; [by apply Forall_nil|].
      unfold tally. by rewrite elements_empty.
    + unfold stands, zsz. rewrite (first_node_eq i s Ei), V1, V2, size_empty. split_and!; try done.
      * set_solver by lia.
      * left. split_and!; [lia|done|]. set_solver.
Qed.

Lemma first_weight : change_weight n first_node ∅ ∅ ∅ S = (2 * n * n + n)%nat.
Proof using Hready.
  destruct Hready as (_ & _ & Hfl & _). unfold change_weight. rewrite !size_empty.
  rewrite (inside_outside n first_node (flight S)); [lia|]. rewrite first_addrs. by apply Forall_forall.
Qed.

(** The shard after the change. *)
Lemma changed_ready F A B S' :
  change_inv n v seq Q first_node F A B S' → (∀ x, x ∈ flight S' → x.1 ∉ addrs n first_node) →
  Q ≤ zsz F → ∃ L', shard_ready (Z.to_nat v1) v1 seq Q S' L'.
Proof.
  intros Hinv Hrest HQF. pose proof Hinv as (Hlen & _ & _ & _ & Hps).
  assert (0 ≤ v1 < Z.of_nat n) as Hv1 by (apply view_after_range; exact Hn).
  assert (Z.of_nat n < 2 ^ 31) as Hn31 by apply Hn.
  assert (peer_addrs S' = peer_addrs S) as Hips.
  { rewrite <-first_addrs. apply list_eq. intros i. unfold peer_addrs, addrs. rewrite !list_lookup_fmap.
    destruct (peers S' !! i) as [s|] eqn:Ei.
    - rewrite lookup_seq_lt by (rewrite <-Hlen; by eapply lookup_lt_Some).
      destruct (Hps i s Ei) as (_ & _ & _ & (Hst & _) & _). cbn. unfold addr. by rewrite Hst.
    - rewrite lookup_seq_ge; [done|]. rewrite <-Hlen. by apply lookup_ge_None. }
  destruct (lookup_lt_is_Some_2 (peers S') (Z.to_nat v1)) as [[L' ts ths hs] El]; [lia|].
  exists L'. pose proof (Hps _ _ El) as (Ht & Hth & _ & (_ & HcL & _)). cbn in Ht, Hth, HcL. subst ts ths.
  pose proof Hready as (_ & Hnd & _ & Hps0).
  split; [by eexists|]. rewrite Hips. split; [done|]. split; [by rewrite <-first_addrs|].
  intros i s Ei. destruct (Hps i s Ei) as (Ht & Hth & _ & (Hst & Hc & Hs & Hk & _)).
  assert (i < n)%nat as Hi by (rewrite <-Hlen; by eapply lookup_lt_Some).
  destruct (rest_entered n v seq Q first_node Hn HQ HnQ F A B S' i s Hinv Hrest HQF Ei) as [Hvw Hsg].
  destruct (first_peer i Hi) as (s0 & Ei0 & E0). rewrite E0 in Hst, Hc, Hk.
  destruct (Hps0 i s0 Ei0) as ((_ & _ & _ & _ & Hq0 & _ & _ & _ & Hnb0 & Hst0) & Hr0).
  destruct (Hcan i s0 Ei0) as (Hid0 & _ & _ & Hk0 & _).
  destruct Hst as (_ & S2 & S3 & _ & S5 & _ & S7). split.
  - unfold between. split_and!; try done.
    + unfold is_leader. rewrite Hvw, S3, Hid0, u64_id by (unfold is_u64, u64_mod; lia).
      case_bool_decide; lia.
    + unfold quorum in *. by rewrite S7.
    + intros ->. rewrite Hk. apply Hk0. lia.
    + unfold getNeighborNodes, getNodeIpsWithinShard. by rewrite S2, S5.
    + by rewrite Hc.
  - rewrite Hc, HcL. destruct (first_peer (Z.to_nat v1)) as (s1 & Ei1 & ->); [lia|].
    eapply replica_share; [apply (Hps0 _ s1 Ei1)|exact Hr0].
Qed.

Lemma change_completes k F S' :
  nsteps (change_step v) k (∅, S) (F, S') →
  (k ≤ 2 * n * n + n)%nat ∧ takes_all S' ∧
  (∀ i s s', peers S !! i = Some s → peers S' !! i = Some s' →
     CurChain (nd s') = CurChain (nd s) ∧
     (view (nd s') = v ∨ view (nd s') = v1 ∧ Q ≤ Z.of_nat (size F))) ∧
  ((∃ S'', shard_step S' S'') ∨
   Z.of_nat (size F) < Q ∧ (∃ FS, change_step v (F, S') FS) ∨
   ∃ L', shard_ready (Z.to_nat v1) v1 seq Q S' L').
Proof.
  intros Hk.
  destruct (change_run_keeps n v seq Q first_node Hn Hv Hseq HQ HnQ first_config first_nodup first_neighbours
    k ∅ ∅ ∅ S F S' Hk first_inv) as (A & B & Hinv & Hw).
  rewrite first_weight in Hw. split_and!; [lia|..].
  - intros i s x nowMs Ei Hx Ea.
    by apply (change_takes n v seq Q first_node Hn Hv Hseq HQ HnQ first_config first_nodup first_neighbours
      F A B S' x i s nowMs).
  - intros i s s' Ei Ei'. split.
    + rewrite <-(first_node_eq i s Ei). destruct Hinv as (_ & _ & _ & _ & Hps). apply (Hps i s' Ei').
    + destruct (decide (view (nd s') = v)) as [|Hne]; [by left|right].
      by apply (entered_after_quorum n v seq Q first_node Hn HQ HnQ F A B S' i s').
  - destruct (change_or_rest n v seq Q first_node Hn Hv Hseq HQ HnQ first_config first_nodup first_neighbours
      F A B S' Hinv) as [|Hrest]; [by left|right].
    destruct (decide (Q ≤ Z.of_nat (size F))) as [HQF|HQF]; [right|left].
    2:{ split; [lia|]. apply (timer_left n v seq Q first_node Hn Hv HQ HnQ first_config F A B S' Hinv).
        unfold zsz. lia. }
    by apply (changed_ready F A B S').
Qed.

End ViewTheorem.

Section ViewProperty.
Context {PR : Params} {BS : BitSetOps} {G : GobOps} {BO : BoltOps} {T : TrieOps}.
Context {JRelay : Json Relay} {JRWP : Json RelayWithProof} {JBI : Json BlockInfoMsg}.
Context {JIT : Json InjectTxs} {JReq : Json Request} {JPP : Json PrePrepare}.
Context {JP : Json Prepare} {JC : Json Commit} {JRO : Json RequestOldMessage}.
Context {JSO : Json SendOldMessage} {JVC : Json ViewChangeMsg} {JNV : Json NewViewMsg}.
Context {LVC : JsonLaws JVC} {LNV : JsonLaws JNV}.
Context {D : Type}.


End ViewProperty.
