(* ===== verification/NodeExamples.v ===== *)
(** * Concrete nodes

    A serializer for the consensus messages as their JSON format, two sample nodes of
    shard 0, and the instances of the properties of [Pbft] and [Relay] at these
    nodes, with the default relay modules. *)

From S2P Require Import Prelude Params Utils Interfaces Core Instances Sha256.
From S2P Require Import TxPool Storage G2E BlockChain Ledger ChainProps MerkleProof.
From S2P Require Import Networks Messages PbftNode Pbft Relay PbftRound Shard ViewChange.

(** ** Serializers *)
#[export] Instance Ser_Node : Ser Node :=
  Ser_iso (λ n, (node_NodeID n, node_ShardID n, IPaddr n)) (λ '(a, b, c), mkNode a b c)
    ltac:(by intros []).
#[export] Instance Ser_Request : Ser Request :=
  Ser_iso (λ r, (RequestType_ r, Msg_Content r, ReqTime r : Z)) (λ '(a, b, c), mkRequest a b c)
    ltac:(by intros []).
#[export] Instance Ser_PrePrepare : Ser PrePrepare :=
  Ser_iso (λ m, (RequestMsg m, pp_Digest m, pp_SeqID m)) (λ '(a, b, c), mkPP a b c)
    ltac:(by intros []).
#[export] Instance Ser_Prepare : Ser Prepare :=
  Ser_iso (λ m, (pr_Digest m, pr_SeqID m, pr_SenderNode m)) (λ '(a, b, c), mkPrepare a b c)
    ltac:(by intros []).
#[export] Instance Ser_Commit : Ser Commit :=
  Ser_iso (λ m, (cm_Digest m, cm_SeqID m, cm_SenderNode m)) (λ '(a, b, c), mkCommit a b c)
    ltac:(by intros []).
#[export] Instance Ser_ROM : Ser RequestOldMessage :=
  Ser_iso (λ m, (ro_SeqStartHeight m, ro_SeqEndHeight m, ServerNode m, ro_SenderNode m))
    (λ '(a, b, c, d), mkROM a b c d) ltac:(by intros []).
#[export] Instance Ser_SOM : Ser SendOldMessage :=
  Ser_iso (λ m, (so_SeqStartHeight m, so_SeqEndHeight m, OldRequest m, so_SenderNode m))
    (λ '(a, b, c, d), mkSOM a b c d) ltac:(by intros []).
#[export] Instance Ser_VC : Ser ViewChangeMsg :=
  Ser_iso (λ m, (vc_CurView m, vc_NextView m, vc_SeqID m, vc_FromNode m))
    (λ '(a, b, c, d), mkVC a b c d) ltac:(by intros []).
#[export] Instance Ser_NV : Ser NewViewMsg :=
  Ser_iso (λ m, (nv_CurView m, nv_NextView m, NewSeqID m, nv_FromNode m))
    (λ '(a, b, c, d), mkNV a b c d) ltac:(by intros []).
#[export] Instance Ser_Inject : Ser InjectTxs :=
  Ser_iso (λ m, (it_Txs m, ToShardID m)) (λ '(a, b), mkInject a b) ltac:(by intros []).
#[export] Instance Ser_Relay : Ser Relay :=
  Ser_iso (λ m, (rl_Txs m, rl_SenderShardID m, rl_SenderSeq m)) (λ '(a, b, c), mkRelay a b c)
    ltac:(by intros []).
#[export] Instance Ser_Proof : Ser TxProofResult :=
  Ser_iso (λ r, (Found r, BlockHash r, pf_TxHash r, pf_TxRoot r, BlockHeight r, KeyList r,
                 ValueList r, Error r))
    (λ '(a, b, c, d, e, f, g, h), mkProof a b c d e f g h) ltac:(by intros []).
#[export] Instance Ser_RWP : Ser RelayWithProof :=
  Ser_iso (λ m, (rw_Txs m, TxProofs m, rw_SenderShardID m, rw_SenderSeq m))
    (λ '(a, b, c, d), mkRWP a b c d) ltac:(by intros []).
#[export] Instance Ser_BIM : Ser BlockInfoMsg :=
  Ser_iso (λ m, (BlockBodyLength m, InnerShardTxs m, Epoch m, ProposeTime m : Z,
                 CommitTime m : Z, bi_SenderShardID m, Relay1Txs m, Relay2Txs m,
                 Broker1Txs m, Broker2Txs m))
    (λ '(a, b, c, d, e, f, g, h, i, j), mkBIM a b c d e f g h i j) ltac:(by intros []).

(** The decoder accepts a line end after the value. *)
Definition parse_line {A} {S : Ser A} (s : string) : option A :=
  match deser s with
  | Some (a, rest) => if decide (rest = "" ∨ rest = eol) then Some a else None
  | None => None
  end.

Lemma parse_line_ser {A} {S : Ser A} (a : A) : parse_line (ser a) = Some a.
Proof. unfold parse_line. by rewrite <-(str_app_nil (ser a)), deser_ser. Qed.

#[export] Instance SerJson {A} {S : Ser A} : Json A :=
  {| marshal := ser; unmarshal := parse_line |}.

#[export] Instance SerJson_laws {A} {S : Ser A} : JsonLaws (@SerJson A S).
Proof.
  split; intros a; cbn; [apply parse_line_ser|]. unfold parse_line, wire. by rewrite deser_ser.
Qed.

(** ** Sample nodes *)
#[local] Instance node_params : Params := default_params 2.

Definition sample_ips : gmap Z (gmap Z string) :=
  {[0 := {[0 := "ip0"; 1 := "ip1"; 2 := "ip2"; 3 := "ip3"]}; 1 := {[0 := "ip4"]};
    SupervisorShard := {[0 := "supervisor"]}]}.

(** A block nobody's chain can be extended with, and the request that carries it. *)
Definition stray_block : Block :=
  mkBlock (mkBH "nobody" "" "" (∅ : @BitSet SetBits) 99 0 0) [] "stray".
Definition sample_request : Request := mkRequest BlockRequest (Block_Encode stray_block) 1.
Definition sample_digest : bytes := getDigest sample_request.

(** Node [id] of shard 0 with four nodes, in view [v] and at sequence id 7, that
    waits for commit messages and has counted those at the addresses [votes]. *)
Definition sample_node (bc : BlockChain) (id v : Z) (locked : bool) (votes : gset Z) :
    PbftConsensusNode unit :=
  mkPbft (mkNode id 0 "ip") 0 id bc (sample_config 0) sample_ips 4 1
    v 0 ∅ ∅ 7 false {[sample_digest := sample_request]} ∅
    (if decide (votes = ∅) then ∅ else {[sample_digest := votes]}) ∅ ∅ {[7 := sample_digest]}
    3 locked false ∅ tt 10 [].

Definition sample_commit : Commit := mkCommit sample_digest 7 (Some (mkNode 2 0 "ip2")).

Lemma sample_fresh bc id v l : fresh_node (sample_node bc id v l ∅).
Proof. by split_and!. Qed.

(** ** The consensus *)


Lemma sample_pool bc id v l votes :
  requestPool (sample_node bc id v l votes) !! sample_digest = Some sample_request.
Proof. apply lookup_insert_eq. Qed.

Lemma one_sender_reaches_quorum_witness :
  let p := sample_node (sample_chain sample_book []) 1 0 false ∅ in
  ∃ p', repeat_commit 0 0 0 sample_commit (Z.to_nat (quorum p - 1)) p = Ret (Some p') ∧
        executes 0 sample_commit p' = true.
Proof.
  intros p. apply (one_sender_reaches_quorum 0 0 0 sample_commit p).
  - apply sample_fresh.
  - vm_compute. reflexivity.
  - discriminate.
  - exists sample_request. apply sample_pool.
  - vm_compute. reflexivity.
Defined.

(** The module executes the stray block: the chain ignores it. *)
Lemma sample_HandleinCommit id v l :
  is_leader (sample_node (sample_chain sample_book []) id v l {[5; 6]}) = false →
  Relay_HandleinCommit 0 sample_commit
    (voted sample_commit (sample_node (sample_chain sample_book []) id v l {[5; 6]})) =
  Ret (voted sample_commit (sample_node (sample_chain sample_book []) id v l {[5; 6]}), true).
Proof.
  intros Hl. set (p := sample_node _ _ _ _ _) in *. unfold Relay_HandleinCommit.
  assert (requestPool (voted sample_commit p) !! cm_Digest sample_commit = Some sample_request)
    as -> by apply sample_pool. cbn [or_panic]. rewrite bind_ret.
  change (Msg_Content sample_request) with (Block_Encode stray_block).
  rewrite DecodeB_Encode by apply Forall_nil, I. rewrite bind_ret.
  rewrite AddBlock_rejects by (vm_compute; reflexivity). rewrite bind_ret.
  change (is_leader (set_CurChain _ _)) with (is_leader p). rewrite Hl. done.
Qed.

Lemma handleCommit_executes_witness :
  let p := sample_node (sample_chain sample_book []) 1 0 false {[5; 6]} in
  ∃ p', handleCommit 0 9 0 sample_commit p = Ret (Some p') ∧
    sequenceID p' = u64 (sequenceID p + 1) ∧ pbftStage p' = 1 ∧
    CurChain p' = CurChain (voted sample_commit p) ∧
    flag_of (isReply p') (cm_Digest sample_commit) = true ∧ lastCommitTime p' = 9 ∧
    sequenceLock p' = (if is_leader p then false else sequenceLock p).
Proof.
  intros p. apply (handleCommit_executes 0 9 0 sample_commit p _ true).
  - vm_compute. reflexivity.
  - discriminate.
  - apply sample_HandleinCommit. vm_compute. reflexivity.
  - left. vm_compute. reflexivity.
Defined.

(** Node 1 became the leader of view 1 without proposing. *)
Lemma new_leader_commit_panics_witness :
  let p := sample_node (sample_chain sample_book []) 1 1 false {[5; 6]} in
  is_leader p = true ∧ ∃ p1 b,
  Relay_HandleinCommit 0 sample_commit (voted sample_commit p) = Ret (p1, b) ∧
  handleCommit 0 9 1 sample_commit p = Panic "unlock of unlocked mutex".
Proof.
  intros p. split; [vm_compute; reflexivity|].
  assert (∃ p1 b, Relay_HandleinCommit 0 sample_commit (voted sample_commit p) = Ret (p1, b))
    as (p1 & b & E).
  { unfold Relay_HandleinCommit.
    assert (requestPool (voted sample_commit p) !! cm_Digest sample_commit = Some sample_request)
      as -> by apply sample_pool. cbn [or_panic]. rewrite bind_ret.
    change (Msg_Content sample_request) with (Block_Encode stray_block).
    rewrite DecodeB_Encode by apply Forall_nil, I. rewrite bind_ret.
    rewrite AddBlock_rejects by (vm_compute; reflexivity). rewrite bind_ret.
    destruct (relay_block_eq (PR := node_params) 0 0 sample_request stray_block
      (extends_tip (CurChain (voted sample_commit p)) stray_block)
      (set_CurChain (CurChain (voted sample_commit p)) (voted sample_commit p)) eq_refl eq_refl)
      as (p' & E & _). cbv zeta. rewrite E.
    change (is_leader (set_CurChain _ _)) with (is_leader p).
    assert (is_leader p = true) as -> by (vm_compute; reflexivity). rewrite bind_ret. eauto. }
  exists p1, b. split; [exact E|].
  apply (new_leader_commit_panics 0 9 1 sample_commit p p1 b).
  - vm_compute. reflexivity.
  - discriminate.
  - exact E.
  - vm_compute. reflexivity.
  - reflexivity.
Defined.

Lemma handleRequestOldSeq_answers_witness :
  let p := sample_node (sample_chain sample_book []) 1 1 false ∅ in
  let rom := mkROM 7 9 None (Some (mkNode 2 0 "ip2")) in
  let n := Z.to_nat (ro_SeqEndHeight rom - ro_SeqStartHeight rom + 1) in
  let oldR := old_requests p n (ro_SeqStartHeight rom) in
  (∀ i r, oldR !! i = Some r →
     ∃ d, height2Digest p !! (ro_SeqStartHeight rom + Z.of_nat i) = Some d ∧
          requestPool p !! d = Some r) ∧
  (length oldR = n ∨
   height2Digest p !! (ro_SeqStartHeight rom + zlen oldR) ≫= (λ d, requestPool p !! d) = None) ∧
  ∀ p1 b, HandleReqestforOldSeq rom p = Ret (p1, b) →
    ∃ msg, MergeMessage CSendOldrequest
             (marshal (mkSOM (ro_SeqStartHeight rom) (ro_SeqEndHeight rom) oldR
                         (Some (RunningNode p1)))) = Ret msg ∧
           handleRequestOldSeq rom p = Ret (TcpDial msg (IPaddr (mkNode 2 0 "ip2")) p1).
Proof.
  intros p rom n oldR. apply (handleRequestOldSeq_answers rom p (mkNode 2 0 "ip2")).
  - vm_compute. reflexivity.
  - reflexivity.
Defined.

(** A node in view 2 at sequence id 9 receives, once more, one of the three messages
    that brought it into view 1 at sequence id 7. *)
Lemma handleNewViewMsg_enters_witness :
  let p := set_newViewMap {[(1, 7) := {[0; 1; 2]}]}
             (set_sequenceID 9 (sample_node (sample_chain sample_book []) 1 2 false ∅)) in
  ∃ p', handleNewViewMsg 5 (mkNV 0 1 7 2) p = Ret p' ∧ view p' = 1 ∧ sequenceID p' = 7.
Proof.
  intros p. destruct (handleNewViewMsg_enters 5 (mkNV 0 1 7 2) p) as (p' & E & _ & _ & Hdup).
  exists p'. split; [exact E|]. apply Hdup.
  - apply (bool_decide_unpack _). vm_compute. exact I.
  - vm_compute. reflexivity.
Defined.

Definition config_of (n : Z) : ChainConfig :=
  {| ChainID := 0; cc_NodeID := 0; cc_ShardID := 0; Nodes_perShard := n;
     ShardNums := 4; BlockSize := 2000; BlockInterval := 5000; cc_InjectSpeed := 2000;
     MaxRelayBlockSize := 10 |}.

Lemma quorums_intersect_witness :
  let A : gset Z := {[0; 1; 2]} in
  let B : gset Z := {[1; 2; 3]} in
  ∃ p, NewPbftNode 0 0 (config_of 4) (Ret (sample_chain sample_book [])) sample_ips 0 tt = Ret p ∧
    quorum p = 2 * 1 + 1 ∧
    (quorum p ≤ Z.of_nat (size A) → quorum p ≤ Z.of_nat (size B) →
     1 + 1 ≤ Z.of_nat (size (A ∩ B))).
Proof.
  intros A B. apply quorums_intersect.
  - lia.
  - reflexivity.
  - apply (bool_decide_unpack _). vm_compute. exact I.
  - apply (bool_decide_unpack _). vm_compute. exact I.
Defined.

Lemma quorums_disjoint_with_six_nodes_witness :
  ∃ p (A B : gset Z),
    NewPbftNode 0 0 (config_of 6) (Ret (sample_chain sample_book [])) sample_ips 0 tt = Ret p ∧
    A ⊆ node_ids 6 ∧ B ⊆ node_ids 6 ∧ Z.of_nat (size A) = quorum p ∧
    Z.of_nat (size B) = quorum p ∧ A ∩ B = ∅.
Proof. apply quorums_disjoint_with_six_nodes. reflexivity. Defined.

(** ** The relay *)

(** The first two sample transactions in a block of shard 0. *)
Lemma relay_block_sends_witness :
  let p := sample_node (sample_chain sample_book []) 0 0 true ∅ in
  let block := mkBlock (mkBH "" "" "" (∅ : @BitSet SetBits) 7 0 0) (take 2 sample_txs) "h" in
  let bc := CurChain p in
  let me := p_ShardID p in
  let others := base.filter (λ sid, sid ≠ me) (seqZ 0 (ShardNums (pbftChainConfig p))) in
  let info := mkBIM (zlen (Body block))
    (base.filter (λ tx, cross bc me tx = false ∧ Relayed tx = false) (Body block)) 0
    (ReqTime sample_request) 5 me
    (set_Relayed true <$> base.filter (λ tx, cross bc me tx = true) (Body block))
    (base.filter (λ tx, cross bc me tx = false ∧ Relayed tx = true) (Body block)) [] [] in
  ∃ p', relay_block 0 5 sample_request block true p = Ret p' ∧
    sent p' = sent p ++
      ((λ sid, (ip_of p sid 0, frame CRelay
         (marshal (mkRelay (outgoing bc me sid (Body block)) me (sequenceID p))))) <$> others) ++
      [(ip_of p SupervisorShard 0, frame CBlockInfo (marshal info))] ∧
    Txpool (CurChain p') = mkPool (TxQueue (Txpool bc)) None.
Proof.
  intros p block. apply (relay_block_sends 0 5 sample_request block true p).
  - reflexivity.
  - vm_compute. reflexivity.
Defined.

(** The chain of a node of shard 1. *)
Definition sample_chain1 : BlockChain :=
  mkBC (∅ : @EthDB MapTrie) (∅ : @TrieDB MapTrie) (sample_config 1)
    (mkBlock (mkBH "" (map_root ∅) "" (∅ : @BitSet SetBits) 6 0 0) [] "tip1")
    sample_storage NewTxPool ∅ NewG2EBook.


Lemma relayed_proofs_accepted_witness :
  let bc := sample_chain sample_book [] in
  let q := sample_node sample_chain1 0 0 false ∅ in
  let txs := outgoing bc 0 1 (Body proof_block) in
  txs ≠ [] ∧
  ∃ proofs q',
    TxProofBatchGenerateOnBlock (TxHash <$> txs)
      (set_Body proof_block (marked bc 0 <$> Body proof_block)) = Ret proofs ∧
    handleRelayWithProof (λ _, 3) (mkRWP txs proofs 0 8) q = Ret q' ∧
    TxQueue (Txpool (CurChain q')) =
      TxQueue (Txpool (CurChain q)) ++ imap (λ i tx, stamp 3 tx) txs ∧
    seqIDMap q' = <[0 := 8]> (seqIDMap q).
Proof.
  intros bc q txs. split.
  - intros E. apply (f_equal length) in E. vm_compute in E. discriminate.
  - apply (relayed_proofs_accepted bc 0 1 8 proof_block (λ _, 3) q). exact proof_block_consistent.
Defined.

Lemma proposal_commits_at_replica_witness :
  let L := sample_node (sample_chain sample_book sample_txs) 0 0 false ∅ in
  let F := sample_node (sample_chain sample_book []) 1 0 false ∅ in
  ∃ L' r b, Relay_HandleinPropose (λ _, 1) L = Ret (L', (true, r)) ∧
    DecodeB (Msg_Content r) = Ret b ∧
    ∃ F1 msg, handlePrePrepare 0 (mkPP r (getDigest r) (sequenceID F)) F = Ret F1 ∧
      requestPool F1 !! getDigest r = Some r ∧ (IPaddr (RunningNode F), msg) ∈ sent F1 ∧
      SplitMessage msg = Ret (CPrepare,
        marshal (mkPrepare (getDigest r) (sequenceID F) (Some (RunningNode F)))) ∧
      ∀ now cm, cm_Digest cm = getDigest r →
        ∃ F2 st2, Relay_HandleinCommit now cm F1 = Ret (F2, true) ∧
          CurrentBlock (CurChain F2) = b ∧ opens (CurChain F2) (StateRoot (Header b)) st2.
Proof.
  intros L F.
  apply (proposal_commits_at_replica (λ _, 1) 0 L F (∅ : gmap string string)).
  - apply sample_replica.
  - apply sample_opens.
  - vm_compute. reflexivity.
  - vm_compute. reflexivity.
  - exact sample_storage_ok.
  - vm_compute. reflexivity.
  - reflexivity.
  - vm_compute. reflexivity.
Defined.

(** The chain ends at block 6; block 8 is fetched, block 7 never. *)
Lemma left_behind_node_stays_behind_witness :
  let p := sample_node (sample_chain sample_book []) 1 0 false ∅ in
  let b8 := mkBlock (mkBH "h7" "" "" (∅ : @BitSet SetBits) 8 0 0) [] "h8" in
  let som := mkSOM 8 8 [mkRequest BlockRequest (Block_Encode b8) 0] None in
  (∃ p' addr msg, ask_for_blocks sample_commit p = Ret (Some p') ∧
     sent p' = sent p ++ [(addr, msg)] ∧
     ∃ sn, SplitMessage msg = Ret (CRequestOldrequest, marshal
       (mkROM (so_SeqStartHeight som) (cm_SeqID sample_commit) sn (Some (RunningNode p))))) ∧
  ∃ p'', Relay_HandleforSequentialRequest som p = Ret (p'', true) ∧
    CurChain p'' = CurChain p ∧ sequenceID p'' = so_SeqEndHeight som + 1.
Proof.
  intros p b8 som. apply (left_behind_node_stays_behind sample_commit p som).
  - reflexivity.
  - vm_compute. reflexivity.
  - vm_compute. discriminate.
  - vm_compute. reflexivity.
  - vm_compute. reflexivity.
  - vm_compute. reflexivity.
  - intros [|i] r Hr; [|discriminate].
    assert (Msg_Content r = Block_Encode b8) as -> by (by apply Some_inj in Hr as <-).
    exists b8. split; [|reflexivity]. apply DecodeB_Encode, Forall_nil, I.
Defined.

(** ** A shard of four nodes between two blocks *)
Definition sample_peer (bc : BlockChain) (id : Z) (ip : string) : sys (D := unit) :=
  mkSys (mkPbft (mkNode id 0 ip) 0 id bc (sample_config 0) sample_ips 4 1 0 0 ∅ ∅ 7 false ∅ ∅ ∅ ∅ ∅ ∅
    1 false false ∅ tt 10 []) [] [] [].

Definition sample_shard : shard (D := unit) :=
  mkShard [sample_peer (sample_chain sample_book sample_txs) 0 "ip0";
           sample_peer (sample_chain sample_book []) 1 "ip1";
           sample_peer (sample_chain sample_book []) 2 "ip2";
           sample_peer (sample_chain sample_book []) 3 "ip3"] [].

Definition sample_leader : PbftConsensusNode unit :=
  nd (sample_peer (sample_chain sample_book sample_txs) 0 "ip0").

Lemma sample_shard_peer i s :
  peers sample_shard !! i = Some s →
  (i < 4)%nat ∧ ∃ q id, s = sample_peer (sample_chain sample_book q) id ("ip" +:+ pretty (Z.to_nat id)) ∧ id = Z.of_nat i.
Proof.
  intros Hi. do 4 (destruct i as [|i]; [apply Some_inj in Hi as <-; split; [lia|]; by repeat eexists|]).
  discriminate.
Qed.

Lemma sample_shard_ready : shard_ready 0 0 7 3 sample_shard sample_leader.
Proof.
  split; [by eexists|]. split; [|split].
  - apply (bool_decide_unpack _). vm_compute. exact I.
  - intros x Hx. by apply not_elem_of_nil in Hx.
  - intros i s Hi. apply sample_shard_peer in Hi as (Hlt & q & id & -> & ->). split; [|apply sample_replica].
    split; [done|]. split; [done|]. split; [done|]. split; [|split_and!; try done].
    + do 4 (destruct i as [|i]; [done|]). lia.
    + apply (bool_decide_unpack _). vm_compute. exact I.
Qed.

Lemma sample_outside sid : sid ≠ 0 → ip_of sample_leader sid 0 ∉ peer_addrs sample_shard.
Proof.
  intros Hne. unfold ip_of. change (ip_nodeTable sample_leader) with sample_ips. unfold sample_ips.
  rewrite !lookup_insert, !lookup_singleton.
  destruct (decide (0 = sid)); [done|]. destruct (decide (1 = sid)); [|destruct (decide (SupervisorShard = sid))];
    apply (bool_decide_unpack _); vm_compute; exact I.
Qed.


Lemma sample_can_change : can_change 0 7 3 sample_shard.
Proof. intros i s Hi. apply sample_shard_peer in Hi as (_ & q & id & -> & ->). by split_and!. Qed.

