(* ===== verification/CLPA.v ===== *)
(** * Package [partition]: the CLPA account partition

    Models src/partition/graph.go and src/partition/partition_CLPA.go: the graph of
    accounts and transactions, and the constrained label propagation that moves
    accounts between shards.  A loop over a Go map is a loop over a list of its keys
    in some order, an argument of the operation.  Scores are binary64 numbers, with
    the operations of [SpecFloat].  The counters are integers: they count vertices
    and edges and stay far below 2^63.  [Hash], [Encode] and the
    copy of a whole state are in [CopyClpa]; printing is left out. *)

From S2P Require Import Prelude Params Utils.
From Stdlib Require Import Floats.SpecFloat.

(** ** Graphs *)
Record Vertex := mkVertex { Addr : Address }.

#[export] Instance Vertex_eq_dec : EqDecision Vertex.
Proof. solve_decision. Defined.
#[export] Instance Vertex_countable : Countable Vertex :=
  inj_countable' Addr mkVertex ltac:(by intros []).

(** [EdgeSet] may be nil. *)
Record Graph := mkGraph {
  VertexSet : gset Vertex;
  EdgeSet : option (gmap Vertex (list Vertex))
}.

Definition ConstructVertex (s : Address) : Vertex := mkVertex s.

Definition Graph_AddVertex (v : Vertex) (g : Graph) : Graph :=
  mkGraph ({[v]} ∪ VertexSet g) (EdgeSet g).

Definition Graph_AddEdge (u v : Vertex) (g : Graph) : Graph :=
  let g := if decide (u ∈ VertexSet g) then g else Graph_AddVertex u g in
  let g := if decide (v ∈ VertexSet g) then g else Graph_AddVertex v g in
  let es := default ∅ (EdgeSet g) in
  mkGraph (VertexSet g) (Some (map_append (map_append es u v) v u)).

Definition CopyGraph (src dst : Graph) : Graph :=
  mkGraph (VertexSet src)
    (match EdgeSet src with
     | None => EdgeSet dst
     | Some es => Some (set_to_map (λ v, (v, default [] (es !! v))) (VertexSet src))
     end).

(** [g.EdgeSet[v]] *)
Definition adj (g : Graph) (v : Vertex) : list Vertex :=
  default [] (default ∅ (EdgeSet g) !! v).

(** ** The state of the algorithm *)
Definition float64 : Type := spec_float.

Record CLPAState := mkCLPA {
  NetGraph : Graph;
  PartitionMap : gmap Vertex Z;
  Edges2Shard : list Z;
  VertexsNumInShard : list Z;
  WeightPenalty : float64;
  MinEdges2Shard : Z;
  MaxIterations : Z;
  CrossShardEdgeNum : Z;
  cs_ShardNum : Z
}.

(** [cs.PartitionMap[v]]; a missing vertex reads as 0. *)
Definition shard_of_vertex (pm : gmap Vertex Z) (v : Vertex) : Z := default 0 (pm !! v).

(** [l[i] += d] *)
Definition slice_add (l : list Z) (i d : Z) : outcome (list Z) :=
  x ← slice_at l i; slice_set l i (x + d).

Definition set_graph (g : Graph) (cs : CLPAState) : CLPAState :=
  mkCLPA g (PartitionMap cs) (Edges2Shard cs) (VertexsNumInShard cs) (WeightPenalty cs)
    (MinEdges2Shard cs) (MaxIterations cs) (CrossShardEdgeNum cs) (cs_ShardNum cs).
Definition set_partition (pm : gmap Vertex Z) (vn : list Z) (cs : CLPAState) : CLPAState :=
  mkCLPA (NetGraph cs) pm (Edges2Shard cs) vn (WeightPenalty cs)
    (MinEdges2Shard cs) (MaxIterations cs) (CrossShardEdgeNum cs) (cs_ShardNum cs).
Definition set_edges (e2s : list Z) (mn cross : Z) (cs : CLPAState) : CLPAState :=
  mkCLPA (NetGraph cs) (PartitionMap cs) e2s (VertexsNumInShard cs) (WeightPenalty cs)
    mn (MaxIterations cs) cross (cs_ShardNum cs).

Definition maxInt : Z := 2 ^ 63 - 1.

Section CLPA.
Context {PR : Params}.

Definition AddVertex (v : Vertex) (cs : CLPAState) : outcome CLPAState :=
  let cs := set_graph (Graph_AddVertex v (NetGraph cs)) cs in
  s ← match PartitionMap cs !! v with
      | None => Addr2Shard (Addr v)
      | Some val => Ret val
      end;
  vn ← slice_add (VertexsNumInShard cs) s 1;
  Ret (set_partition (<[v := s]> (PartitionMap cs)) vn cs).

Definition AddEdge (u v : Vertex) (cs : CLPAState) : outcome CLPAState :=
  cs ← (if decide (u ∈ VertexSet (NetGraph cs)) then Ret cs else AddVertex u cs);
  cs ← (if decide (v ∈ VertexSet (NetGraph cs)) then Ret cs else AddVertex v cs);
  Ret (set_graph (Graph_AddEdge u v (NetGraph cs)) cs).

(** The minimum search at the end of both computations. *)
Definition min_edges (l : list Z) : Z :=
  foldl (λ m val, if val <? m then val else m) maxInt l.

(** The body of the nested loops: one neighbour [u] of [v]. *)
Definition count_edge (pm : gmap Vertex Z) (acc : list Z * list Z) (e : Vertex * Vertex) :
    outcome (list Z * list Z) :=
  let vShard := shard_of_vertex pm e.1 in
  let uShard := shard_of_vertex pm e.2 in
  if negb (vShard =? uShard) then
    l ← slice_add acc.1 uShard 1; Ret (l, acc.2)
  else l ← slice_add acc.2 uShard 1; Ret (acc.1, l).

(** The pairs the nested loops visit, the keys of [EdgeSet] in the order [keys]. *)
Definition edge_pairs (g : Graph) (keys : list Vertex) : list (Vertex * Vertex) :=
  keys ≫= λ v, (v,.) <$> adj g v.

Definition ComputeEdges2Shard (keys : list Vertex) (cs : CLPAState) : outcome CLPAState :=
  let zeros := replicate (Z.to_nat (cs_ShardNum cs)) 0 in
  '(e2s, interEdge) ← foldM (count_edge (PartitionMap cs)) (zeros, zeros)
                        (edge_pairs (NetGraph cs) keys);
  let cross := Z.quot (zsum e2s) 2 in
  let e2s := zip_with (λ a b, a + Z.quot b 2) e2s interEdge in
  Ret (set_edges e2s (min_edges e2s) cross cs).

(** One neighbour in [changeShardRecompute]. *)
Definition recompute_edge (pm : gmap Vertex Z) (new old : Z) (acc : list Z * Z) (u : Vertex) :
    outcome (list Z * Z) :=
  let neighborShard := shard_of_vertex pm u in
  if negb (neighborShard =? new) && negb (neighborShard =? old) then
    l ← slice_add acc.1 new 1; l ← slice_add l old (-1); Ret (l, acc.2)
  else if neighborShard =? new then
    l ← slice_add acc.1 old (-1); Ret (l, acc.2 - 1)
  else
    l ← slice_add acc.1 new 1; Ret (l, acc.2 + 1).

Definition changeShardRecompute (v : Vertex) (old : Z) (cs : CLPAState) : outcome CLPAState :=
  let new := shard_of_vertex (PartitionMap cs) v in
  '(e2s, cross) ← foldM (recompute_edge (PartitionMap cs) new old)
                    (Edges2Shard cs, CrossShardEdgeNum cs) (adj (NetGraph cs) v);
  Ret (set_edges e2s (min_edges e2s) cross cs).

Definition Init_CLPAState (wp : float64) (mIter sn : Z) (cs : CLPAState) : CLPAState :=
  mkCLPA (NetGraph cs) ∅ (Edges2Shard cs) (replicate (Z.to_nat sn) 0) wp
    (MinEdges2Shard cs) mIter (CrossShardEdgeNum cs) sn.

(** One vertex of the loops of the two initialisations. *)
Definition place (acc : gmap Vertex Z * list Z) (v : Vertex) (s : Z) :
    outcome (gmap Vertex Z * list Z) :=
  vn ← slice_add acc.2 s 1; Ret (<[v := s]> acc.1, vn).

(** [v.Addr[len(v.Addr)-8:]] *)
Definition tail8 (a : Address) : outcome (list Ascii.ascii) :=
  let l := String.list_ascii_of_string a in
  if decide (8 ≤ length l)%nat then Ret (drop (length l - 8) l)
  else Panic "slice bounds out of range".

Definition Init_Partition (vorder eorder : list Vertex) (cs : CLPAState) : outcome CLPAState :=
  '(pm, vn) ← foldM (λ acc v,
      va ← tail8 (Addr v);
      match Strconv.ParseInt va 16 with
      | (_, Some _) => Panic "strconv.ParseInt"
      | (num, None) =>
          if cs_ShardNum cs =? 0 then Panic "integer divide by zero"
          else place acc v (Z.rem num (cs_ShardNum cs))
      end)
    (∅, replicate (Z.to_nat (cs_ShardNum cs)) 0) vorder;
  ComputeEdges2Shard eorder (set_partition pm vn cs).

(** [Stable_Init_Partition]: the error is the second component. *)
Definition Stable_Init_Partition (vorder eorder : list Vertex) (cs : CLPAState) :
    outcome (CLPAState * option string) :=
  if Z.of_nat (size (VertexSet (NetGraph cs))) <? cs_ShardNum cs then
    Ret (cs, Some "too many shards, number of shards should be less than nodes. ")
  else
    '(pm, vn) ← foldMi (λ acc cnt v,
        if cs_ShardNum cs =? 0 then Panic "integer divide by zero"
        else place acc v (Z.rem cnt (cs_ShardNum cs)))
      (∅, replicate (Z.to_nat (cs_ShardNum cs)) 0) 0 vorder;
    cs ← ComputeEdges2Shard eorder (set_partition pm vn cs);
    Ret (cs, None).

(** ** Scores *)
Definition prec : Z := 53.
Definition emax : Z := 1024.
Definition of_int (z : Z) : float64 := binary_normalize prec emax z 0 false.
Definition fmul : float64 → float64 → float64 := SFmul prec emax.
Definition fdiv : float64 → float64 → float64 := SFdiv prec emax.
Definition fsub : float64 → float64 → float64 := SFsub prec emax.

Definition getShard_score (cs : CLPAState) (v : Vertex) (uShard : Z) : outcome float64 :=
  let v_outdegree := zlen (adj (NetGraph cs) v) in
  let Edgesto_uShard :=
    zlen (base.filter (λ u, shard_of_vertex (PartitionMap cs) u = uShard) (adj (NetGraph cs) v)) in
  w ← slice_at (Edges2Shard cs) uShard;
  Ret (fmul (fdiv (of_int Edgesto_uShard) (of_int v_outdegree))
         (fsub (of_int 1)
            (fdiv (fmul (WeightPenalty cs) (of_int w)) (of_int (MinEdges2Shard cs))))).

(** ** The algorithm *)

(** The search for the best shard: the shards already scored, the best score and its
    shard. *)
Definition score_neighbour (cs : CLPAState) (v : Vertex)
    (acc : gset Z * float64 * Z) (u : Vertex) : outcome (gset Z * float64 * Z) :=
  let '(computed, max_score, best) := acc in
  let uShard := shard_of_vertex (PartitionMap cs) u in
  if decide (uShard ∈ computed) then Ret acc
  else
    score ← getShard_score cs v uShard;
    Ret (if SFltb max_score score then ({[uShard]} ∪ computed, score, uShard)
         else ({[uShard]} ∪ computed, max_score, best)).

Definition best_shard (cs : CLPAState) (v : Vertex) : outcome Z :=
  '(_, best) ← foldM (score_neighbour cs v)
      (∅, of_int (-9999), shard_of_vertex (PartitionMap cs) v) (adj (NetGraph cs) v);
  Ret best.

(** The state, the result map and the number of moves per address. *)
Record run_state := mkRun {
  rn_cs : CLPAState;
  rn_res : gmap Address Z;
  rn_moves : gmap Address Z
}.

(** The body of the loop over the vertices. *)
Definition visit (r : run_state) (v : Vertex) : outcome run_state :=
  if 50 <=? default 0 (rn_moves r !! Addr v) then Ret r
  else
    let cs := rn_cs r in
    let vNowShard := shard_of_vertex (PartitionMap cs) v in
    max_scoreShard ← best_shard cs v;
    if vNowShard =? max_scoreShard then Ret r
    else
      n ← slice_at (VertexsNumInShard cs) vNowShard;
      if negb (1 <? n) then Ret r
      else
        vn ← slice_add (VertexsNumInShard cs) vNowShard (-1);
        vn ← slice_add vn max_scoreShard 1;
        cs ← changeShardRecompute v vNowShard
               (set_partition (<[v := max_scoreShard]> (PartitionMap cs)) vn cs);
        Ret (mkRun cs (<[Addr v := u64 max_scoreShard]> (rn_res r))
               (<[Addr v := default 0 (rn_moves r !! Addr v) + 1]> (rn_moves r))).

(** [CLPA_Partition]: [orders i] is the order in which round [i] visits the vertices,
    [eorder1] and [eorder2] are those of the two edge counts. *)
Definition CLPA_Partition (eorder1 : list Vertex) (orders : nat → list Vertex)
    (eorder2 : list Vertex) (cs : CLPAState) : outcome ((gmap Address Z * Z) * CLPAState) :=
  cs ← ComputeEdges2Shard eorder1 cs;
  r ← foldM (foldM visit) (mkRun cs ∅ ∅) (orders <$> seq 0 (Z.to_nat (MaxIterations cs)));
  cs ← ComputeEdges2Shard eorder2 (rn_cs r);
  Ret ((rn_res r, CrossShardEdgeNum cs), cs).

Definition EraseEdges (cs : CLPAState) : CLPAState :=
  set_graph (mkGraph (VertexSet (NetGraph cs)) (Some ∅)) cs.

(** ** Counters *)

(** The value of a counter, 0 outside of the slice. *)
Definition at_ (l : list Z) (k : Z) : Z := if 0 <=? k then default 0 (l !! Z.to_nat k) else 0.

Lemma zsum_insert (l : list Z) i x y :
  l !! i = Some x → zsum (<[i := y]> l) = zsum l + y - x.
Proof.
  intros H. rewrite insert_take_drop by (by eapply lookup_lt_Some).
  rewrite <- (take_drop_middle l i x H) at 3. rewrite !zsum_app. cbn. lia.
Qed.

Lemma slice_add_ok l i d :
  0 ≤ i < zlen l →
  ∃ l', slice_add l i d = Ret l' ∧ (length l' = length l ∧ zsum l' = zsum l + d) ∧
        ∀ k, at_ l' k = at_ l k + (if decide (k = i) then d else 0).
Proof.
  intros Hi. unfold slice_add. destruct (slice_at_ok l i Hi) as [x Hx]. rewrite Hx.
  cbn. apply slice_at_lookup in Hx as [_ Hx]. unfold slice_set.
  destruct (Z.leb_spec 0 i), (Z.ltb_spec i (zlen l)); try lia. cbn.
  eexists. split; [done|]. rewrite length_insert, (zsum_insert _ _ x) by done.
  split; [split; [done|lia]|]. intros k. unfold at_.
  unfold zlen in *. destruct (Z.leb_spec 0 k); [|case_decide; lia].
  case_decide as Hk.
  - subst k. rewrite list_lookup_insert_eq by lia. rewrite Hx. done.
  - rewrite list_lookup_insert_ne by lia. lia.
Qed.

Lemma zlen_eq {A} (l l' : list A) : length l = length l' → zlen l = zlen l'.
Proof. unfold zlen. by intros ->. Qed.

(** Every recorded shard exists. *)
Definition in_range (pm : gmap Vertex Z) (n : Z) : Prop :=
  ∀ v s, pm !! v = Some s → 0 ≤ s < n.

Lemma in_range_shard pm n v : 0 < n → in_range pm n → 0 ≤ shard_of_vertex pm v < n.
Proof.
  intros Hn Hr. unfold shard_of_vertex. destruct (pm !! v) eqn:E; cbn; [by eapply Hr|lia].
Qed.

(** The vertices of the graph placed in shard [k]. *)
Definition members (V : gset Vertex) (pm : gmap Vertex Z) (k : Z) : gset Vertex :=
  base.filter (λ v, shard_of_vertex pm v = k) V.

Definition counts (V : gset Vertex) (pm : gmap Vertex Z) (vn : list Z) : Prop :=
  ∀ k, 0 ≤ k < zlen vn → at_ vn k = Z.of_nat (size (members V pm k)).

(** The state between two visits. *)
Definition clpa_ok (cs : CLPAState) : Prop :=
  0 < cs_ShardNum cs ∧ in_range (PartitionMap cs) (cs_ShardNum cs) ∧
  zlen (VertexsNumInShard cs) = cs_ShardNum cs ∧
  counts (VertexSet (NetGraph cs)) (PartitionMap cs) (VertexsNumInShard cs).

Definition clpa_ready (cs : CLPAState) : Prop :=
  clpa_ok cs ∧ zlen (Edges2Shard cs) = cs_ShardNum cs.

Lemma shard_insert pm v s u :
  shard_of_vertex (<[v := s]> pm) u = if decide (v = u) then s else shard_of_vertex pm u.
Proof. unfold shard_of_vertex. rewrite lookup_insert. by case_decide. Qed.

(** Moving one vertex. *)
Lemma members_move V pm v new k :
  v ∈ V → shard_of_vertex pm v ≠ new →
  Z.of_nat (size (members V (<[v := new]> pm) k)) =
  Z.of_nat (size (members V pm k)) + (if decide (k = shard_of_vertex pm v) then -1 else 0)
    + (if decide (k = new) then 1 else 0).
Proof.
  intros Hv Hne. unfold members.
  destruct (decide (k = new)) as [->|Hk].
  - rewrite decide_False by done.
    assert (base.filter (λ u, shard_of_vertex (<[v := new]> pm) u = new) V =
      {[v]} ∪ base.filter (λ u, shard_of_vertex pm u = new) V) as ->.
    { apply set_eq. intros u. rewrite elem_of_union, elem_of_singleton, !elem_of_filter, shard_insert.
      case_decide; subst; naive_solver. }
    rewrite size_union, size_singleton; [lia|]. set_solver.
  - destruct (decide (k = shard_of_vertex pm v)) as [->|Hk2].
    + assert (base.filter (λ u, shard_of_vertex pm u = shard_of_vertex pm v) V =
        {[v]} ∪ base.filter (λ u, shard_of_vertex (<[v := new]> pm) u = shard_of_vertex pm v) V) as ->.
      { apply set_eq. intros u. rewrite elem_of_union, elem_of_singleton, !elem_of_filter, shard_insert.
        case_decide; subst; naive_solver. }
      rewrite size_union, size_singleton; [lia|]. intros u. rewrite elem_of_singleton, elem_of_filter.
      rewrite shard_insert. intros -> [Hs _]. rewrite decide_True in Hs by done. congruence.
    + assert (base.filter (λ u, shard_of_vertex (<[v := new]> pm) u = k) V =
        base.filter (λ u, shard_of_vertex pm u = k) V) as ->; [|lia].
      apply set_eq. intros u. rewrite !elem_of_filter, shard_insert. case_decide; subst; naive_solver.
Qed.

(** ** The best shard exists *)
Lemma score_neighbour_ok cs v u acc :
  0 < cs_ShardNum cs → in_range (PartitionMap cs) (cs_ShardNum cs) →
  zlen (Edges2Shard cs) = cs_ShardNum cs → 0 ≤ acc.2 < cs_ShardNum cs →
  ∃ acc', score_neighbour cs v acc u = Ret acc' ∧ 0 ≤ acc'.2 < cs_ShardNum cs.
Proof.
  intros Hn Hr He Hb. destruct acc as [[computed mx] best]. cbn in Hb. unfold score_neighbour.
  pose proof (in_range_shard _ _ u Hn Hr). case_decide; [by eexists|].
  unfold getShard_score.
  destruct (slice_at_ok (Edges2Shard cs) (shard_of_vertex (PartitionMap cs) u)) as [w ->]; [lia|].
  rewrite !bind_ret. destruct (SFltb _ _); by eexists.
Qed.

Lemma best_shard_ok cs v :
  clpa_ready cs → ∃ s, best_shard cs v = Ret s ∧ 0 ≤ s < cs_ShardNum cs.
Proof.
  intros [(Hn & Hr & _ & _) He]. unfold best_shard.
  assert (∀ l acc, 0 ≤ acc.2 < cs_ShardNum cs →
    ∃ acc', foldM (score_neighbour cs v) acc l = Ret acc' ∧ 0 ≤ acc'.2 < cs_ShardNum cs) as Hf.
  { induction l as [|u l IH]; intros acc Ha; [by eexists|]. cbn.
    destruct (score_neighbour_ok cs v u acc) as (acc' & -> & Ha'); [done..|]. cbn. by apply IH. }
  destruct (Hf (adj (NetGraph cs) v) (∅, of_int (-9999), shard_of_vertex (PartitionMap cs) v))
    as ([p best] & -> & Hb); [by apply in_range_shard|]. by eexists.
Qed.

(** ** Recomputation stays inside the slices *)
Lemma recompute_edges_ok pm new old l acc n :
  0 ≤ new < n → 0 ≤ old < n → zlen acc.1 = n →
  ∃ acc', foldM (recompute_edge pm new old) acc l = Ret acc' ∧ zlen acc'.1 = n.
Proof.
  intros Hnew Hold. revert acc. induction l as [|u l IH]; intros acc Hlen; [by eexists|].
  cbn [foldM]. unfold recompute_edge at 2. cbv zeta.
  destruct (slice_add_ok acc.1 new 1) as (l1 & E1 & [L1 _] & _); [lia|].
  destruct (slice_add_ok acc.1 old (-1)) as (l2 & E2 & [L2 _] & _); [lia|].
  destruct (slice_add_ok l1 old (-1)) as (l3 & E3 & [L3 _] & _); [rewrite (zlen_eq _ _ L1); lia|].
  destruct (_ && _); [|destruct (_ =? _)]; rewrite ?E1, ?E2, ?bind_ret, ?E3, ?bind_ret; apply IH; cbn.
  - rewrite (zlen_eq _ _ L3), (zlen_eq _ _ L1). done.
  - by rewrite (zlen_eq _ _ L2).
  - by rewrite (zlen_eq _ _ L1).
Qed.

(** ** The run keeps the partition well formed *)
Definition run_inv (g : Graph) (n : Z) (pm0 : gmap Vertex Z) (r : run_state) : Prop :=
  clpa_ready (rn_cs r) ∧ NetGraph (rn_cs r) = g ∧ cs_ShardNum (rn_cs r) = n ∧
  (∀ v, match rn_res r !! Addr v with
        | Some s => s = shard_of_vertex (PartitionMap (rn_cs r)) v
        | None => shard_of_vertex (PartitionMap (rn_cs r)) v = shard_of_vertex pm0 v
        end) ∧
  (∀ k, members (VertexSet g) pm0 k ≠ ∅ →
        members (VertexSet g) (PartitionMap (rn_cs r)) k ≠ ∅).

Lemma size_pos (X : gset Vertex) : X ≠ ∅ ↔ 0 < Z.of_nat (size X).
Proof.
  split; intros H.
  - destruct (set_choose_L X H) as [v Hv].
    assert (size {[v]} ≤ size X)%nat as Hs by (apply subseteq_size; set_solver).
    rewrite size_singleton in Hs. lia.
  - intros ->. rewrite size_empty in H. lia.
Qed.

Lemma visit_inv g n pm0 r v :
  n < 2 ^ 63 → v ∈ VertexSet g → run_inv g n pm0 r →
  ∃ r', visit r v = Ret r' ∧ run_inv g n pm0 r'.
Proof.
  intros Hn63 Hv Hr. pose proof Hr as (Hready & Hg & Hn & Hres & Hne).
  pose proof Hready as ((Hpos & Hrange & Hlen & Hcnt) & He2s). unfold visit.
  destruct (50 <=? _); [by eexists|].
  set (pm := PartitionMap (rn_cs r)) in *. set (old := shard_of_vertex pm v) in *.
  destruct (best_shard_ok (rn_cs r) v Hready) as (new & -> & Hnew). rewrite bind_ret.
  destruct (Z.eqb_spec old new) as [_|Hon]; [by eexists|].
  pose proof (in_range_shard pm _ v Hpos Hrange) as Hold. fold old in Hold.
  destruct (slice_at_ok (VertexsNumInShard (rn_cs r)) old) as [c Hc]; [lia|]. rewrite Hc, bind_ret.
  destruct (Z.ltb_spec 1 c) as [Hc1|_]; cbn [negb]; [|by eexists].
  destruct (slice_add_ok (VertexsNumInShard (rn_cs r)) old (-1)) as (vn1 & -> & [L1 _] & A1); [lia|].
  rewrite bind_ret.
  destruct (slice_add_ok vn1 new 1) as (vn & -> & [L2 _] & A2); [rewrite (zlen_eq _ _ L1); lia|].
  rewrite bind_ret. unfold changeShardRecompute. cbn [PartitionMap set_partition Edges2Shard NetGraph
    CrossShardEdgeNum]. rewrite shard_insert, decide_True by done.
  destruct (recompute_edges_ok (<[v := new]> pm) new old (adj (NetGraph (rn_cs r)) v)
    (Edges2Shard (rn_cs r), CrossShardEdgeNum (rn_cs r)) (cs_ShardNum (rn_cs r)))
    as ([e2s cross] & -> & Le); [lia|lia|done|]. rewrite bind_ret. cbn [mbind outcome_bind].
  eexists. split; [reflexivity|]. unfold run_inv, clpa_ready, clpa_ok. cbn. fold pm.
  assert (∀ k, Z.of_nat (size (members (VertexSet g) (<[v := new]> pm) k)) =
     Z.of_nat (size (members (VertexSet g) pm k)) + (if decide (k = old) then -1 else 0)
     + (if decide (k = new) then 1 else 0)) as Hm by (intros; by apply members_move).
  assert (at_ (VertexsNumInShard (rn_cs r)) old = c) as Hat.
  { apply slice_at_lookup in Hc as [? Hc]. unfold at_. destruct (Z.leb_spec 0 old); [|lia].
    by rewrite Hc. }
  split_and!; [lia| | | |done|done|done| |].
  - intros u s'. rewrite lookup_insert. case_decide; [intros [= <-]; lia|by apply Hrange].
  - by rewrite (zlen_eq _ _ L2), (zlen_eq _ _ L1).
  - intros k Hk. rewrite (zlen_eq _ _ L2), (zlen_eq _ _ L1) in Hk.
    rewrite A2, A1, Hcnt by done. rewrite Hg, Hm. done.
  - intros u. rewrite lookup_insert, shard_insert. destruct (decide (v = u)) as [->|Hvu].
    + rewrite decide_True by done. apply u64_id. unfold is_u64, u64_mod. lia.
    + rewrite decide_False; [apply Hres|]. intros E. apply Hvu. destruct v, u. cbn in E. congruence.
  - intros k Hk. apply size_pos. apply Hne, size_pos in Hk. rewrite Hm.
    repeat case_decide; try lia. subst k.
    rewrite Hcnt, Hg in Hat by lia. fold pm in Hat. lia.
Qed.

(** A loop whose body always returns and keeps an invariant. *)
Lemma foldM_total {A B} (I : B → Prop) (Q : A → Prop) (f : B → A → outcome B) l b :
  (∀ b x, I b → Q x → ∃ b', f b x = Ret b' ∧ I b') → Forall Q l → I b →
  ∃ b', foldM f b l = Ret b' ∧ I b'.
Proof.
  intros Hf Hl. revert b. induction Hl as [|x l Hx Hl IH]; intros b Hb; [by eexists|].
  cbn [foldM]. destruct (Hf b x Hb Hx) as (b1 & -> & Hb1). rewrite bind_ret. by apply IH.
Qed.

Lemma rounds_total (I : run_state → Prop) (V : gset Vertex) orders r :
  (∀ r v, I r → v ∈ V → ∃ r', visit r v = Ret r' ∧ I r') →
  Forall (Forall (λ v, v ∈ V)) orders → I r →
  ∃ r', foldM (foldM visit) r orders = Ret r' ∧ I r'.
Proof.
  intros Hv. apply foldM_total. intros b vs Hb Hvs.
  exact (foldM_total I (λ v, v ∈ V) visit vs b Hv Hvs Hb).
Qed.

(** ** The edge counts *)

(** Is [e] an edge between shards that ends in [k], inside [k], or between shards? *)
Definition into (pm : gmap Vertex Z) (k : Z) (e : Vertex * Vertex) : Z :=
  if decide (shard_of_vertex pm e.1 ≠ shard_of_vertex pm e.2 ∧ shard_of_vertex pm e.2 = k)
  then 1 else 0.
Definition inside (pm : gmap Vertex Z) (k : Z) (e : Vertex * Vertex) : Z :=
  if decide (shard_of_vertex pm e.1 = shard_of_vertex pm e.2 ∧ shard_of_vertex pm e.2 = k)
  then 1 else 0.
Definition between (pm : gmap Vertex Z) (e : Vertex * Vertex) : Z :=
  if decide (shard_of_vertex pm e.1 ≠ shard_of_vertex pm e.2) then 1 else 0.

(** A sum over pairs of vertices. *)
Definition esum (h : Vertex * Vertex → Z) (l : list (Vertex * Vertex)) : Z := zsum (h <$> l).

Lemma esum_cons h e l : esum h (e :: l) = h e + esum h l.
Proof. done. Qed.

Lemma count_edges_ok pm n l acc :
  0 < n → in_range pm n → zlen acc.1 = n → zlen acc.2 = n →
  ∃ acc', foldM (count_edge pm) acc l = Ret acc' ∧ zlen acc'.1 = n ∧ zlen acc'.2 = n ∧
    zsum acc'.1 = zsum acc.1 + esum (between pm) l ∧
    ∀ k, at_ acc'.1 k = at_ acc.1 k + esum (into pm k) l ∧
         at_ acc'.2 k = at_ acc.2 k + esum (inside pm k) l.
Proof.
  intros Hn Hr. revert acc. induction l as [|[x u] l IH]; intros acc H1 H2.
  { exists acc. unfold esum. cbn. split_and!; [done..|lia|]. intros k. lia. }
  cbn [foldM]. unfold count_edge at 2. cbv zeta. cbn [fst snd].
  pose proof (in_range_shard pm n u Hn Hr) as Hu.
  assert (∀ k, esum (into pm k) ((x, u) :: l) =
    (if decide (shard_of_vertex pm x ≠ shard_of_vertex pm u ∧ shard_of_vertex pm u = k)
     then 1 else 0) + esum (into pm k) l) as I1 by done.
  assert (∀ k, esum (inside pm k) ((x, u) :: l) =
    (if decide (shard_of_vertex pm x = shard_of_vertex pm u ∧ shard_of_vertex pm u = k)
     then 1 else 0) + esum (inside pm k) l) as I2 by done.
  rewrite esum_cons. unfold between at 1. cbn [fst snd].
  destruct (Z.eqb_spec (shard_of_vertex pm x) (shard_of_vertex pm u)) as [He|He]; cbn [negb].
  - destruct (slice_add_ok acc.2 (shard_of_vertex pm u) 1) as (l' & -> & [L S] & A); [lia|]. rewrite !bind_ret.
    destruct (IH (acc.1, l')) as (acc' & -> & B1 & B2 & BS & B3); [done|cbn; by rewrite (zlen_eq _ _ L)|].
    exists acc'. rewrite decide_False by tauto. split_and!; [done..|cbn in BS; lia|].
    intros k. destruct (B3 k) as [C1 C2]. cbn [fst snd] in C1, C2. rewrite C1, C2, A, I1, I2.
    rewrite decide_False by naive_solver. split; [lia|]. repeat case_decide; try lia; naive_solver.
  - destruct (slice_add_ok acc.1 (shard_of_vertex pm u) 1) as (l' & -> & [L S] & A); [lia|]. rewrite !bind_ret.
    destruct (IH (l', acc.2)) as (acc' & -> & B1 & B2 & BS & B3); [cbn; by rewrite (zlen_eq _ _ L)|done|].
    exists acc'. rewrite decide_True by done. split_and!; [done..|cbn in BS; lia|].
    intros k. destruct (B3 k) as [C1 C2]. cbn [fst snd] in C1, C2. rewrite C1, C2, A, I1, I2.
    rewrite (decide_False (P := shard_of_vertex pm x = _ ∧ _)) by naive_solver.
    split; [|lia]. repeat case_decide; try lia; naive_solver.
Qed.

Lemma at_replicate n k : at_ (replicate n 0) k = 0.
Proof.
  unfold at_. destruct (0 <=? k); [|done].
  destruct (replicate n 0 !! Z.to_nat k) eqn:E; [|done]. by apply lookup_replicate in E as [-> _].
Qed.

Lemma zsum_replicate n : zsum (replicate n 0) = 0.
Proof. induction n; cbn in *; lia. Qed.

Lemma at_zip (l1 l2 : list Z) (f : Z → Z → Z) k :
  zlen l1 = zlen l2 → 0 ≤ k < zlen l1 → at_ (zip_with f l1 l2) k = f (at_ l1 k) (at_ l2 k).
Proof.
  unfold zlen. intros Hl Hk. unfold at_. destruct (Z.leb_spec 0 k); [|lia].
  destruct (lookup_lt_is_Some_2 l1 (Z.to_nat k)) as [x Hx]; [lia|].
  destruct (lookup_lt_is_Some_2 l2 (Z.to_nat k)) as [y Hy]; [lia|].
  rewrite lookup_zip_with, Hx, Hy. done.
Qed.

(** What the computation from scratch leaves. *)
Lemma ComputeEdges2Shard_spec keys cs :
  0 < cs_ShardNum cs → in_range (PartitionMap cs) (cs_ShardNum cs) →
  let P := edge_pairs (NetGraph cs) keys in
  ∃ e2s, ComputeEdges2Shard keys cs =
           Ret (set_edges e2s (min_edges e2s) (Z.quot (esum (between (PartitionMap cs)) P) 2) cs) ∧
    zlen e2s = cs_ShardNum cs ∧
    ∀ k, 0 ≤ k < cs_ShardNum cs →
      at_ e2s k = esum (into (PartitionMap cs) k) P + Z.quot (esum (inside (PartitionMap cs) k) P) 2.
Proof.
  intros Hn Hr P. unfold ComputeEdges2Shard.
  set (zeros := replicate (Z.to_nat (cs_ShardNum cs)) 0).
  assert (zlen zeros = cs_ShardNum cs) as Hz by (unfold zlen, zeros; rewrite length_replicate; lia).
  destruct (count_edges_ok (PartitionMap cs) (cs_ShardNum cs) P (zeros, zeros))
    as ([a b] & E & La & Lb & S & A); [done..|].
  cbn [fst snd] in La, Lb, S, A. fold P. rewrite E, bind_ret.
  rewrite S. unfold zeros. rewrite zsum_replicate, Z.add_0_l. eexists. split; [reflexivity|].
  unfold zlen in *. rewrite length_zip_with. split; [lia|]. intros k Hk. destruct (A k) as [A1 A2].
  rewrite at_zip by (unfold zlen; lia). rewrite A1, A2. unfold zeros. by rewrite at_replicate.
Qed.

(** ** The incremental counts *)

Lemma at_ext (l1 l2 : list Z) :
  zlen l1 = zlen l2 → (∀ k, 0 ≤ k < zlen l1 → at_ l1 k = at_ l2 k) → l1 = l2.
Proof.
  unfold zlen, at_. intros Hl H. apply list_eq_same_length with (n := length l1); [lia|lia|].
  intros i x y Hi Hx Hy. specialize (H (Z.of_nat i)).
  destruct (Z.leb_spec 0 (Z.of_nat i)); [|lia]. rewrite Nat2Z.id, Hx, Hy in H. apply H. lia.
Qed.

(** Every edge is recorded at both ends, as often at one as at the other. *)
Definition symmetric (g : Graph) : Prop :=
  ∀ u w, count_occ Vertex_eq_dec (adj g u) w = count_occ Vertex_eq_dec (adj g w) u.

(** An order in which a loop over [EdgeSet] may see the keys. *)
Definition key_order (g : Graph) (keys : list Vertex) : Prop :=
  NoDup keys ∧ ∀ v, v ∈ keys ↔ is_Some (default ∅ (EdgeSet g) !! v).

Definition pair_dec : ∀ e e' : Vertex * Vertex, {e = e'} + {e ≠ e'} := λ e e', decide (e = e').

Lemma count_occ_pairs v l a b :
  count_occ pair_dec ((v,.) <$> l) (a, b) =
  if decide (v = a) then count_occ Vertex_eq_dec l b else 0%nat.
Proof.
  induction l as [|u l IH]; cbn; [by case_decide|]. change (list_fmap _ _ (v,.) l) with ((v,.) <$> l).
  destruct (pair_dec (v, u) (a, b)) as [[= -> ->]|Hn]; rewrite IH.
  - rewrite !decide_True by done. destruct (Vertex_eq_dec b b); [done|congruence].
  - case_decide; [subst|done]. destruct (Vertex_eq_dec u b); [congruence|done].
Qed.

Lemma count_occ_edge_pairs g keys a b :
  NoDup keys →
  count_occ pair_dec (edge_pairs g keys) (a, b) =
  if decide (a ∈ keys) then count_occ Vertex_eq_dec (adj g a) b else 0%nat.
Proof.
  unfold edge_pairs. induction 1 as [|v keys Hv Hnd IH]; [done|].
  cbn [mbind list_bind]. rewrite count_occ_app, count_occ_pairs.
  change (list_bind _ _ ?f keys) with (keys ≫= f). rewrite IH. clear IH.
  destruct (decide (v = a)) as [->|Hva].
  - rewrite (decide_False (P := a ∈ keys)), decide_True by set_solver. lia.
  - destruct (decide (a ∈ keys)); [rewrite decide_True by set_solver; lia|].
    rewrite decide_False by set_solver. lia.
Qed.

Lemma count_occ_swap l a b :
  count_occ pair_dec (prod_swap <$> l) (a, b) = count_occ pair_dec l (b, a).
Proof.
  induction l as [|[x y] l IH]; [done|]. cbn. change (list_fmap _ _ prod_swap l) with (prod_swap <$> l).
  rewrite IH.
  destruct (pair_dec (y, x) (a, b)), (pair_dec (x, y) (b, a)); congruence.
Qed.

(** The number of times the loops visit a pair does not depend on the order. *)
Lemma count_occ_edges g keys a b :
  key_order g keys →
  count_occ pair_dec (edge_pairs g keys) (a, b) = count_occ Vertex_eq_dec (adj g a) b.
Proof.
  intros [Hnd Hk]. rewrite count_occ_edge_pairs by done. case_decide as Ha; [done|].
  unfold adj. rewrite Hk in Ha. destruct (_ !! a); [|done]. exfalso. eauto.
Qed.

Lemma edge_pairs_order g keys keys' :
  key_order g keys → key_order g keys' → edge_pairs g keys ≡ₚ edge_pairs g keys'.
Proof.
  intros H1 H2. apply (Permutation_count_occ pair_dec). intros [a b].
  by rewrite !count_occ_edges.
Qed.

Lemma edge_pairs_swap g keys :
  symmetric g → key_order g keys → edge_pairs g keys ≡ₚ prod_swap <$> edge_pairs g keys.
Proof.
  intros Hs Hk. apply (Permutation_count_occ pair_dec). intros [a b].
  by rewrite count_occ_swap, !count_occ_edges.
Qed.

#[global] Instance esum_perm h : Proper ((≡ₚ) ==> (=)) (esum h).
Proof. intros l1 l2 H. unfold esum. by rewrite H. Qed.

Lemma zsum_fmap_add {A} (f1 f2 : A → Z) l :
  zsum ((λ u, f1 u + f2 u) <$> l) = zsum (f1 <$> l) + zsum (f2 <$> l).
Proof. induction l as [|u l IH]; [done|]. rewrite !fmap_cons, !zsum_cons, IH. lia. Qed.

Lemma esum_swap g keys h :
  symmetric g → key_order g keys →
  esum h (edge_pairs g keys) = esum (λ e, h (prod_swap e)) (edge_pairs g keys).
Proof.
  intros Hs Hk. rewrite (edge_pairs_swap g keys Hs Hk) at 1. unfold esum.
  by rewrite <- list_fmap_compose.
Qed.

Lemma esum_add h1 h2 l : esum (λ e, h1 e + h2 e) l = esum h1 l + esum h2 l.
Proof. induction l as [|e l IH]; [done|]. rewrite !esum_cons, IH. lia. Qed.

Lemma esum_ext h1 h2 l : (∀ e, e ∈ l → h1 e = h2 e) → esum h1 l = esum h2 l.
Proof.
  intros H. induction l as [|e l IH]; [done|]. rewrite !esum_cons, (H e) by set_solver.
  rewrite IH; [done|]. intros; apply H; set_solver.
Qed.

Lemma esum_nonneg h l : (∀ e, 0 ≤ h e) → 0 ≤ esum h l.
Proof. intros H. induction l as [|e l IH]; [done|]. rewrite esum_cons. specialize (H e). lia. Qed.

Lemma esum_from g keys v d :
  NoDup keys →
  esum (λ e, if decide (e.1 = v) then d e else 0) (edge_pairs g keys) =
  if decide (v ∈ keys) then zsum ((λ u, d (v, u)) <$> adj g v) else 0.
Proof.
  assert (∀ w l, esum (λ e, if decide (e.1 = v) then d e else 0) ((w,.) <$> l) =
    if decide (w = v) then zsum ((λ u, d (v, u)) <$> l) else 0) as H1.
  { intros w l. induction l as [|u l IH]; [by case_decide|]. rewrite !fmap_cons, esum_cons, IH.
    cbn. case_decide; subst; done. }
  unfold edge_pairs. induction 1 as [|w keys Hw Hnd IH]; [done|].
  cbn [mbind list_bind]. unfold esum in *. rewrite fmap_app, zsum_app.
  change (list_bind _ _ ?f keys) with (keys ≫= f). rewrite IH, H1. clear IH H1.
  destruct (decide (w = v)) as [->|Hva].
  - rewrite (decide_False (P := v ∈ keys)), decide_True by set_solver. lia.
  - destruct (decide (v ∈ keys)); [rewrite decide_True by set_solver; lia|].
    rewrite decide_False by set_solver. lia.
Qed.

(** A quantity that only depends on [v] is a sum over the neighbours of [v]. *)
Lemma esum_touch g keys v d :
  symmetric g → key_order g keys → v ∉ adj g v →
  (∀ e, e.1 ≠ v → e.2 ≠ v → d e = 0) →
  esum d (edge_pairs g keys) = zsum ((λ u, d (v, u) + d (u, v)) <$> adj g v).
Proof.
  intros Hs Hk Hv Hd.
  assert (∀ d', esum (λ e, if decide (e.1 = v) then d' e else 0) (edge_pairs g keys) =
    zsum ((λ u, d' (v, u)) <$> adj g v)) as Hfrom.
  { intros d'. rewrite esum_from by apply Hk. case_decide as Hin; [done|].
    unfold adj. destruct Hk as [_ Hk]. rewrite Hk in Hin. destruct (_ !! v); [|done].
    exfalso. eauto. }
  rewrite (esum_ext d (λ e, (if decide (e.1 = v) then d e else 0)
                            + (if decide (e.2 = v) then d e else 0))).
  - rewrite esum_add, Hfrom, (esum_swap g keys (λ e, if decide (e.2 = v) then d e else 0)) by done.
    change (esum _ (edge_pairs g keys)) with
      (esum (λ e, if decide (e.1 = v) then d (prod_swap e) else 0) (edge_pairs g keys)).
    by rewrite (Hfrom (λ e, d (prod_swap e))), zsum_fmap_add.
  - intros [a b] He. cbn. repeat case_decide; subst; try lia.
    + exfalso. apply Hv. apply list_elem_of_bind in He as (x & Hx & _).
      apply list_elem_of_fmap in Hx as (y & [= <- <-] & Hy). done.
    + rewrite Hd; done.
Qed.

(** What one neighbour in shard [t] changes when a vertex moves from [old] to [new]. *)
Definition move_e2s (new old k t : Z) : Z :=
  (if decide (k = new ∧ t ≠ new) then 1 else 0) - (if decide (k = old ∧ t ≠ old) then 1 else 0).
Definition move_cross (new old t : Z) : Z :=
  (if decide (t = old) then 1 else 0) - (if decide (t = new) then 1 else 0).

Lemma recompute_edge_exact pm new old u acc n :
  0 ≤ new < n → 0 ≤ old < n → new ≠ old → zlen acc.1 = n →
  ∃ acc', recompute_edge pm new old acc u = Ret acc' ∧ zlen acc'.1 = n ∧
    acc'.2 = acc.2 + move_cross new old (shard_of_vertex pm u) ∧
    ∀ k, at_ acc'.1 k = at_ acc.1 k + move_e2s new old k (shard_of_vertex pm u).
Proof.
  intros Hnew Hold Hno Hlen. unfold recompute_edge, move_e2s, move_cross. cbv zeta.
  destruct (slice_add_ok acc.1 new 1) as (l1 & E1 & [L1 _] & A1); [lia|].
  destruct (slice_add_ok acc.1 old (-1)) as (l2 & E2 & [L2 _] & A2); [lia|].
  destruct (slice_add_ok l1 old (-1)) as (l3 & E3 & [L3 _] & A3); [rewrite (zlen_eq _ _ L1); lia|].
  set (t := shard_of_vertex pm u).
  apply zlen_eq in L1, L2, L3.
  destruct (Z.eqb_spec t new) as [Hn|Hn]; [|destruct (Z.eqb_spec t old) as [Ho|Ho]];
    cbn [negb andb]; rewrite ?E1, ?E2, ?bind_ret, ?E3, ?bind_ret; eexists;
    (split; [reflexivity|]); cbn [fst snd]; (split; [congruence|]); (split; [|intros k]);
    rewrite ?A3, ?A1, ?A2; repeat case_decide; lia.
Qed.

Lemma recompute_edges_exact pm new old l acc n :
  0 ≤ new < n → 0 ≤ old < n → new ≠ old → zlen acc.1 = n →
  ∃ acc', foldM (recompute_edge pm new old) acc l = Ret acc' ∧ zlen acc'.1 = n ∧
    acc'.2 = acc.2 + zsum ((λ u, move_cross new old (shard_of_vertex pm u)) <$> l) ∧
    ∀ k, at_ acc'.1 k =
         at_ acc.1 k + zsum ((λ u, move_e2s new old k (shard_of_vertex pm u)) <$> l).
Proof.
  intros Hnew Hold Hno. revert acc. induction l as [|u l IH]; intros acc Hlen.
  { exists acc. cbn. split_and!; [done..|lia|intros; lia]. }
  destruct (recompute_edge_exact pm new old u acc n) as (a1 & E & Hl & Hc & Ha); [done..|].
  destruct (IH a1 Hl) as (a2 & E2 & Hl2 & Hc2 & Ha2). exists a2. cbn [foldM].
  rewrite E, bind_ret, E2. split_and!; [done..| |intros k]; rewrite fmap_cons, zsum_cons.
  - lia.
  - rewrite Ha2, Ha. lia.
Qed.

(** Moving a vertex that is not its own neighbour. *)
Section Move.
Context (g : Graph) (keys : list Vertex) (pm : gmap Vertex Z) (v : Vertex) (new : Z).
Hypothesis (Hsym : symmetric g) (Hkeys : key_order g keys) (Hloop : v ∉ adj g v).

Abbreviation old := (shard_of_vertex pm v).
Abbreviation P := (edge_pairs g keys).
Abbreviation pm' := (<[v := new]> pm).

Lemma esum_move (h : gmap Vertex Z → Vertex * Vertex → Z) :
  (∀ p p' e, shard_of_vertex p e.1 = shard_of_vertex p' e.1 →
             shard_of_vertex p e.2 = shard_of_vertex p' e.2 → h p e = h p' e) →
  esum (h pm') P =
  esum (h pm) P + zsum ((λ u, (h pm' (v, u) - h pm (v, u)) + (h pm' (u, v) - h pm (u, v)))
                          <$> adj g v).
Proof.
  intros Hh. rewrite <- (esum_touch g keys v (λ e, h pm' e - h pm e)) by
    (done || (intros e H1 H2; rewrite (Hh pm' pm e); [lia|..];
              by rewrite shard_insert, decide_False)).
  rewrite <- esum_add. apply esum_ext. intros e _. lia.
Qed.

Lemma zsum_fmap_ext (f1 f2 : Vertex → Z) (l : list Vertex) :
  (∀ u, u ∈ l → f1 u = f2 u) → zsum (f1 <$> l) = zsum (f2 <$> l).
Proof.
  intros H. f_equal. apply list_fmap_ext. intros i u Hu. apply H.
  by eapply list_elem_of_lookup_2.
Qed.

Lemma zsum_fmap_double (f : Vertex → Z) (l : list Vertex) :
  zsum ((λ u, 2 * f u) <$> l) = 2 * zsum (f <$> l).
Proof. induction l as [|u l IH]; [done|]. rewrite !fmap_cons, !zsum_cons, IH. lia. Qed.

Lemma quot2_shift a b x : 0 ≤ a → 0 ≤ b → b = a + 2 * x → Z.quot b 2 = Z.quot a 2 + x.
Proof. intros Ha Hb ->. rewrite !Z.quot_div_nonneg, (Z.mul_comm 2), Z.div_add by lia. done. Qed.

Lemma shard_neighbour u : u ∈ adj g v → shard_of_vertex pm' u = shard_of_vertex pm u.
Proof. intros Hu. rewrite shard_insert, decide_False; [done|]. by intros ->. Qed.

Lemma cross_move :
  new ≠ old →
  Z.quot (esum (between pm') P) 2 =
  Z.quot (esum (between pm) P) 2
    + zsum ((λ u, move_cross new old (shard_of_vertex pm' u)) <$> adj g v).
Proof.
  intros Hno. apply quot2_shift.
  1,2: apply esum_nonneg; intros e; unfold between; case_decide; lia.
  rewrite (esum_move between); [|by unfold between; intros p p' e -> ->].
  f_equal. rewrite <- zsum_fmap_double. apply zsum_fmap_ext. intros u Hu.
  unfold between, move_cross. cbn [fst snd]. rewrite (shard_neighbour u Hu), shard_insert.
  rewrite (decide_True (P := v = v)) by done. repeat case_decide; lia.
Qed.

Lemma e2s_move k :
  new ≠ old →
  esum (into pm' k) P + Z.quot (esum (inside pm' k) P) 2 =
  esum (into pm k) P + Z.quot (esum (inside pm k) P) 2
    + zsum ((λ u, move_e2s new old k (shard_of_vertex pm' u)) <$> adj g v).
Proof.
  intros Hno.
  rewrite (quot2_shift (esum (inside pm k) P) (esum (inside pm' k) P)
    (zsum ((λ u, inside pm' k (v, u) - inside pm k (v, u)) <$> adj g v))).
  2,3: apply esum_nonneg; intros e; unfold inside; case_decide; lia.
  - rewrite (esum_move (λ p, into p k)); [|by unfold into; intros p p' e -> ->].
    enough (zsum ((λ u, move_e2s new old k (shard_of_vertex pm' u)) <$> adj g v) =
      zsum ((λ u, (into pm' k (v, u) - into pm k (v, u)) + (into pm' k (u, v) - into pm k (u, v)))
        <$> adj g v) + zsum ((λ u, inside pm' k (v, u) - inside pm k (v, u)) <$> adj g v)) by lia.
    rewrite <- zsum_fmap_add. apply zsum_fmap_ext. intros u Hu.
    unfold into, inside, move_e2s. cbn [fst snd]. rewrite (shard_neighbour u Hu), shard_insert.
    rewrite (decide_True (P := v = v)) by done. repeat case_decide; lia.
  - rewrite (esum_move (λ p, inside p k)); [|by unfold inside; intros p p' e -> ->].
    f_equal. rewrite <- zsum_fmap_double. apply zsum_fmap_ext. intros u Hu.
    unfold inside. cbn [fst snd]. rewrite (shard_neighbour u Hu), shard_insert.
    rewrite (decide_True (P := v = v)) by done. repeat case_decide; lia.
Qed.

End Move.

(** The counters of a state that agrees with its partition. *)
Definition edges_of (keys : list Vertex) (cs : CLPAState) (e2s : list Z) (cross : Z) : Prop :=
  let P := edge_pairs (NetGraph cs) keys in
  zlen e2s = cs_ShardNum cs ∧ cross = Z.quot (esum (between (PartitionMap cs)) P) 2 ∧
  ∀ k, 0 ≤ k < cs_ShardNum cs →
    at_ e2s k = esum (into (PartitionMap cs) k) P + Z.quot (esum (inside (PartitionMap cs) k) P) 2.

Lemma ComputeEdges2Shard_unique keys cs e2s cross :
  0 < cs_ShardNum cs → in_range (PartitionMap cs) (cs_ShardNum cs) →
  edges_of keys cs e2s cross →
  ComputeEdges2Shard keys cs = Ret (set_edges e2s (min_edges e2s) cross cs).
Proof.
  intros Hn Hr (Hl & -> & He).
  destruct (ComputeEdges2Shard_spec keys cs Hn Hr) as (e2s' & -> & Hl' & He').
  assert (e2s' = e2s) as ->; [|done].
  apply at_ext; [congruence|]. intros k Hk. rewrite Hl' in Hk. by rewrite He, He'.
Qed.

Lemma edges_of_order keys keys' cs e2s cross :
  key_order (NetGraph cs) keys → key_order (NetGraph cs) keys' →
  edges_of keys cs e2s cross → edges_of keys' cs e2s cross.
Proof.
  intros Hk Hk' (Hl & Hc & He). unfold edges_of. cbv zeta.
  rewrite <- (edge_pairs_order _ keys keys') by done. split_and!; [done..|].
  intros k Hk2. rewrite <- (edge_pairs_order _ keys keys') by done. by apply He.
Qed.

(** The state agrees with its own partition. *)
Definition counted (keys : list Vertex) (cs : CLPAState) : Prop :=
  edges_of keys cs (Edges2Shard cs) (CrossShardEdgeNum cs) ∧
  MinEdges2Shard cs = min_edges (Edges2Shard cs).

Lemma counted_fixpoint keys cs :
  0 < cs_ShardNum cs → in_range (PartitionMap cs) (cs_ShardNum cs) →
  counted keys cs → ComputeEdges2Shard keys cs = Ret cs.
Proof.
  intros Hn Hr [He Hm]. rewrite (ComputeEdges2Shard_unique keys cs _ _ Hn Hr He), <- Hm.
  by destruct cs.
Qed.

Lemma ComputeEdges2Shard_counted keys cs :
  0 < cs_ShardNum cs → in_range (PartitionMap cs) (cs_ShardNum cs) →
  ∃ e2s mn cross, ComputeEdges2Shard keys cs = Ret (set_edges e2s mn cross cs) ∧
    counted keys (set_edges e2s mn cross cs) ∧ zlen e2s = cs_ShardNum cs.
Proof.
  intros Hn Hr. destruct (ComputeEdges2Shard_spec keys cs Hn Hr) as (e2s & -> & Hl & He).
  do 3 eexists. split; [reflexivity|]. by split.
Qed.

(** The incremental recomputation gives what the computation from scratch gives. *)
Lemma changeShardRecompute_counted keys v new vn cs :
  clpa_ready cs → symmetric (NetGraph cs) → key_order (NetGraph cs) keys →
  v ∉ adj (NetGraph cs) v → 0 ≤ new < cs_ShardNum cs →
  new ≠ shard_of_vertex (PartitionMap cs) v → counted keys cs →
  ∃ e2s mn cross,
    changeShardRecompute v (shard_of_vertex (PartitionMap cs) v)
      (set_partition (<[v := new]> (PartitionMap cs)) vn cs) =
      Ret (set_edges e2s mn cross (set_partition (<[v := new]> (PartitionMap cs)) vn cs)) ∧
    counted keys (set_edges e2s mn cross (set_partition (<[v := new]> (PartitionMap cs)) vn cs)) ∧
    zlen e2s = cs_ShardNum cs.
Proof.
  intros [(Hn & Hr & _ & _) Hlen] Hs Hk Hv Hnew Hno [(_ & Hc & He) _]. unfold changeShardRecompute.
  pose proof (in_range_shard _ _ v Hn Hr) as Hold.
  cbn [PartitionMap set_partition Edges2Shard NetGraph CrossShardEdgeNum].
  rewrite shard_insert, decide_True by done.
  destruct (recompute_edges_exact (<[v := new]> (PartitionMap cs)) new
    (shard_of_vertex (PartitionMap cs) v) (adj (NetGraph cs) v)
    (Edges2Shard cs, CrossShardEdgeNum cs) (cs_ShardNum cs))
    as ([e2s cross] & -> & Hl & Hcross & Hat); [done..|].
  cbn [fst snd] in Hl, Hcross, Hat. rewrite bind_ret.
  do 3 eexists. split; [reflexivity|]. split; [|done]. split; [|done]. split_and!; [done|..].
  - cbn [CrossShardEdgeNum set_edges PartitionMap NetGraph set_partition].
    rewrite cross_move by done. by rewrite <- Hc.
  - intros k Hk2. cbn [Edges2Shard set_edges PartitionMap NetGraph set_partition].
    rewrite e2s_move by done. by rewrite Hat, He.
Qed.

Lemma visit_counted keys r r' v n :
  clpa_ready (rn_cs r) → symmetric (NetGraph (rn_cs r)) → key_order (NetGraph (rn_cs r)) keys →
  v ∉ adj (NetGraph (rn_cs r)) v → cs_ShardNum (rn_cs r) = n →
  counted keys (rn_cs r) → visit r v = Ret r' → counted keys (rn_cs r').
Proof.
  intros Hready Hs Hk Hv Hn Hc. unfold visit. destruct (50 <=? _); [by intros [= <-]|].
  destruct (best_shard_ok (rn_cs r) v Hready) as (new & -> & Hnew). rewrite bind_ret.
  destruct (Z.eqb_spec (shard_of_vertex (PartitionMap (rn_cs r)) v) new) as [_|Hon];
    [by intros [= <-]|].
  destruct (slice_at _ _) as [c|?]; [|done]. rewrite bind_ret.
  destruct (negb _); [by intros [= <-]|].
  destruct (slice_add _ _ (-1)) as [vn1|?]; [|done]. rewrite bind_ret.
  destruct (slice_add _ _ 1) as [vn|?]; [|done]. rewrite bind_ret.
  destruct (changeShardRecompute_counted keys v new vn (rn_cs r))
    as (e2s & mn & cross & -> & Hc' & _); [done..|].
  rewrite bind_ret. by intros [= <-].
Qed.

(** ** The algorithm as a whole *)

Lemma set_edges_ready g n pm keys cs e2s mn cross :
  clpa_ok cs → NetGraph cs = g → cs_ShardNum cs = n → PartitionMap cs = pm →
  counted keys (set_edges e2s mn cross cs) → zlen e2s = n →
  run_inv g n pm (mkRun (set_edges e2s mn cross cs) ∅ ∅).
Proof.
  intros Hok <- <- <- Hc Hl. unfold run_inv, clpa_ready, clpa_ok in *. cbn. destruct Hok as (?&?&?&?).
  split_and!; done.
Qed.

(** The run of the algorithm, for the property below and for the committees. *)
Lemma CLPA_Partition_runs (eorder1 eorder2 : list Vertex) (orders : nat → list Vertex)
    (cs : CLPAState) :
  clpa_ok cs → cs_ShardNum cs < 2 ^ 63 →
  (∀ i, orders i ≡ₚ elements (VertexSet (NetGraph cs))) →
  ∃ res cross cs',
    CLPA_Partition eorder1 orders eorder2 cs = Ret ((res, cross), cs') ∧
    clpa_ok cs' ∧ NetGraph cs' = NetGraph cs ∧ cs_ShardNum cs' = cs_ShardNum cs ∧
    (∀ v, match res !! Addr v with
          | Some s => s = shard_of_vertex (PartitionMap cs') v
          | None => shard_of_vertex (PartitionMap cs') v = shard_of_vertex (PartitionMap cs) v
          end) ∧
    (∀ k, members (VertexSet (NetGraph cs)) (PartitionMap cs) k ≠ ∅ →
          members (VertexSet (NetGraph cs)) (PartitionMap cs') k ≠ ∅).
Proof.
  intros Hok Hn Horders. pose proof Hok as (Hpos & Hr & _ & _). unfold CLPA_Partition.
  destruct (ComputeEdges2Shard_counted eorder1 cs Hpos Hr) as (e2s & mn & cross & -> & Hc & Hl).
  rewrite bind_ret.
  pose proof (set_edges_ready _ _ _ eorder1 cs e2s mn cross Hok eq_refl eq_refl eq_refl Hc Hl) as Hi.
  assert (∀ l, Forall (Forall (λ v, v ∈ VertexSet (NetGraph cs))) (orders <$> l)) as Hall.
  { intros l. apply Forall_fmap, Forall_forall. intros i _. apply Forall_forall. intros v.
    by rewrite Horders, elem_of_elements. }
  destruct (rounds_total (run_inv (NetGraph cs) (cs_ShardNum cs) (PartitionMap cs))
    (VertexSet (NetGraph cs)) _ _ (λ r v Hr Hv, visit_inv _ _ _ r v Hn Hv Hr)
    (Hall (seq 0 (Z.to_nat (MaxIterations cs)))) Hi)
    as (r & E & ((Hok' & _) & Hg & Hsn & Hres & Hne)).
  cbn [set_edges MaxIterations]. rewrite E, bind_ret. pose proof Hok' as (Hpos' & Hr' & _ & _).
  destruct (ComputeEdges2Shard_counted eorder2 _ Hpos' Hr') as (e2 & mn2 & cross2 & -> & _ & _).
  rewrite bind_ret. do 3 eexists. split; [reflexivity|]. split_and!; done.
Qed.

(** C22 (functional) [CLPA_Partition] always returns.  It keeps the partition well
    formed (every vertex in an existing shard, the per-shard vertex counts exact) and
    the graph as it was; the map it returns gives for every account it moved the shard
    the account is in afterwards, and an account that is not in the map is where it
    was; and no shard that had an account is left without one. *)
Theorem CLPA_Partition_correct (eorder1 eorder2 : list Vertex) (orders : nat → list Vertex)
    (cs : CLPAState) :
  clpa_ok cs → cs_ShardNum cs < 2 ^ 63 →
  (∀ i, orders i ≡ₚ elements (VertexSet (NetGraph cs))) →
  ∃ res cross cs',
    CLPA_Partition eorder1 orders eorder2 cs = Ret ((res, cross), cs') ∧
    clpa_ok cs' ∧ NetGraph cs' = NetGraph cs ∧ cs_ShardNum cs' = cs_ShardNum cs ∧
    (∀ v, match res !! Addr v with
          | Some s => s = shard_of_vertex (PartitionMap cs') v
          | None => shard_of_vertex (PartitionMap cs') v = shard_of_vertex (PartitionMap cs) v
          end) ∧
    (∀ k, members (VertexSet (NetGraph cs)) (PartitionMap cs) k ≠ ∅ →
          members (VertexSet (NetGraph cs)) (PartitionMap cs') k ≠ ∅).
Proof. apply CLPA_Partition_runs. Qed.

(** C21 (equivalence) The counters the algorithm keeps up to date while it moves
    accounts are exact: on a graph whose edges are recorded at both ends and that has
    no self-loop, after any rounds of visits the computation of the edge counts from
    scratch, in any order of the map, returns the very state the incremental updates
    have produced. *)
Theorem incremental_counts_exact (keys keys' : list Vertex) (orders : list (list Vertex))
    (cs cs1 : CLPAState) (r : run_state) :
  clpa_ok cs → cs_ShardNum cs < 2 ^ 63 →
  Forall (Forall (λ v, v ∈ VertexSet (NetGraph cs))) orders →
  symmetric (NetGraph cs) → (∀ v, v ∉ adj (NetGraph cs) v) →
  key_order (NetGraph cs) keys → key_order (NetGraph cs) keys' →
  ComputeEdges2Shard keys cs = Ret cs1 →
  foldM (foldM visit) (mkRun cs1 ∅ ∅) orders = Ret r →
  ComputeEdges2Shard keys' (rn_cs r) = Ret (rn_cs r).
Proof.
  intros Hok Hn Horders Hs Hloop Hk Hk' E1 E2. pose proof Hok as (Hpos & Hr & _ & _).
  destruct (ComputeEdges2Shard_counted keys cs Hpos Hr) as (e2s & mn & cross & E & Hc & Hl).
  rewrite E in E1. injection E1 as <-.
  pose proof (set_edges_ready _ _ _ keys cs e2s mn cross Hok eq_refl eq_refl eq_refl Hc Hl) as Hi.
  destruct (rounds_total (λ r, run_inv (NetGraph cs) (cs_ShardNum cs) (PartitionMap cs) r ∧
      counted keys (rn_cs r)) (VertexSet (NetGraph cs)) orders
      (mkRun (set_edges e2s mn cross cs) ∅ ∅)) as (r' & E' & Hi' & Hc'); [|done..|].
  { intros r0 v [Hr0 Hc0] Hv. destruct (visit_inv _ _ _ r0 v Hn Hv Hr0) as (r1 & E1 & Hr1).
    pose proof Hr0 as (Hready & Hg & Hsn & _).
    exists r1. split_and!; [done..|]. by eapply visit_counted; rewrite ?Hg. }
  rewrite E' in E2. injection E2 as <-. destruct Hi' as (((? & ? & _) & _) & Hg & Hsn & _).
  apply counted_fixpoint; [done..|]. destruct Hc' as [Hc' Hm]. split; [|done].
  eapply edges_of_order; [..|exact Hc']; by rewrite Hg.
Qed.

(** ** Building the graph *)

(** Placing a vertex that was not in the graph. *)
Lemma members_add V pm v s k :
  v ∉ V →
  Z.of_nat (size (members ({[v]} ∪ V) (<[v := s]> pm) k)) =
  Z.of_nat (size (members V pm k)) + (if decide (k = s) then 1 else 0).
Proof.
  intros Hv. unfold members. case_decide as Hk.
  - subst k. assert (base.filter (λ u, shard_of_vertex (<[v := s]> pm) u = s) ({[v]} ∪ V) =
      {[v]} ∪ base.filter (λ u, shard_of_vertex pm u = s) V) as ->.
    { apply set_eq. intros u. rewrite elem_of_union, !elem_of_filter, elem_of_union, shard_insert,
        elem_of_singleton. case_decide; subst; naive_solver. }
    rewrite size_union, size_singleton; [lia|]. set_solver.
  - assert (base.filter (λ u, shard_of_vertex (<[v := s]> pm) u = k) ({[v]} ∪ V) =
      base.filter (λ u, shard_of_vertex pm u = k) V) as ->; [|lia].
    apply set_eq. intros u. rewrite !elem_of_filter, elem_of_union, shard_insert, elem_of_singleton.
    case_decide; subst; naive_solver.
Qed.

(** A graph the supervisor can build: edges at both ends, between vertices of the
    graph. *)
Definition graph_ok (g : Graph) : Prop :=
  symmetric g ∧ ∀ v, v ∉ adj g v.

Lemma adj_AddEdge u w g v :
  adj (Graph_AddEdge u w g) v =
  adj g v ++ (if decide (v = u) then [w] else []) ++ (if decide (v = w) then [u] else []).
Proof.
  unfold Graph_AddEdge, adj. cbv zeta. cbn [EdgeSet].
  assert (EdgeSet (if decide (w ∈ VertexSet (if decide (u ∈ VertexSet g) then g else Graph_AddVertex u g))
    then (if decide (u ∈ VertexSet g) then g else Graph_AddVertex u g)
    else Graph_AddVertex w (if decide (u ∈ VertexSet g) then g else Graph_AddVertex u g))
    = EdgeSet g) as -> by (repeat case_decide; done).
  change (default ∅ (Some ?m)) with m. rewrite !lookup_map_append, <- app_assoc.
  f_equal. f_equal; repeat case_decide; congruence.
Qed.

Lemma graph_ok_AddEdge u w g : u ≠ w → graph_ok g → graph_ok (Graph_AddEdge u w g).
Proof.
  intros Huw [Hs Hl]. split.
  - intros a b. rewrite !adj_AddEdge, !count_occ_app, (Hs a b).
    repeat case_decide; subst; cbn; repeat destruct (Vertex_eq_dec _ _); try congruence; lia.
  - intros v. rewrite adj_AddEdge. specialize (Hl v). repeat case_decide; subst; set_solver.
Qed.

Lemma set_graph_ok g cs : VertexSet g = VertexSet (NetGraph cs) → clpa_ok cs → clpa_ok (set_graph g cs).
Proof. intros Hg (?&?&?&?). unfold clpa_ok. cbn. rewrite Hg. by split_and!. Qed.

(** The counters after placing a vertex that was not in the graph. *)
Lemma counts_add V pm vn v s :
  v ∉ V → 0 ≤ s < zlen vn → counts V pm vn →
  ∃ vn', slice_add vn s 1 = Ret vn' ∧ zlen vn' = zlen vn ∧
         counts ({[v]} ∪ V) (<[v := s]> pm) vn'.
Proof.
  intros Hv Hs Hc. destruct (slice_add_ok vn s 1 Hs) as (vn' & -> & [L _] & A).
  apply zlen_eq in L. exists vn'. split_and!; [done..|].
  intros k Hk. rewrite A, members_add, Hc by (done || lia). done.
Qed.

Lemma in_range_insert pm n v s : 0 ≤ s < n → in_range pm n → in_range (<[v := s]> pm) n.
Proof.
  intros Hs Hr u t. rewrite lookup_insert. case_decide; [intros [= <-]; lia|by apply Hr].
Qed.

Lemma AddVertex_ok v cs :
  clpa_ok cs → cs_ShardNum cs = ShardNum → v ∉ VertexSet (NetGraph cs) →
  valid_addr (Addr v) = true →
  ∃ cs', AddVertex v cs = Ret cs' ∧ clpa_ok cs' ∧ cs_ShardNum cs' = ShardNum ∧
    NetGraph cs' = Graph_AddVertex v (NetGraph cs).
Proof.
  intros (Hp & Hr & Hl & Hc) Hn Hv Ha. unfold AddVertex. cbn [PartitionMap set_graph VertexsNumInShard].
  assert (∃ s, match PartitionMap cs !! v with None => Addr2Shard (Addr v) | Some val => Ret val end
    = Ret s ∧ 0 ≤ s < cs_ShardNum cs) as (s & -> & Hs).
  { destruct (PartitionMap cs !! v) eqn:E; [by eexists; eauto|].
    rewrite Addr2Shard_value by (done || lia). eexists. split; [done|].
    rewrite Hn. apply Z.mod_pos_bound. lia. }
  rewrite bind_ret.
  destruct (counts_add (VertexSet (NetGraph cs)) (PartitionMap cs) (VertexsNumInShard cs) v s)
    as (vn & -> & L & C); [done|lia|done|].
  rewrite bind_ret. eexists. split; [reflexivity|]. unfold clpa_ok. cbn.
  split_and!; [done|by apply in_range_insert|congruence|done..].
Qed.

Lemma VertexSet_AddEdge u w g :
  u ∈ VertexSet g → w ∈ VertexSet g → VertexSet (Graph_AddEdge u w g) = VertexSet g.
Proof.
  intros Hu Hw. unfold Graph_AddEdge. cbv zeta. cbn [VertexSet].
  rewrite (decide_True (P := u ∈ VertexSet g)), (decide_True (P := w ∈ VertexSet g)) by done. done.
Qed.

(** The vertex if it is new, nothing otherwise. *)
Lemma AddVertex_guard_ok v cs :
  clpa_ok cs → cs_ShardNum cs = ShardNum → valid_addr (Addr v) = true → graph_ok (NetGraph cs) →
  ∃ cs', (if decide (v ∈ VertexSet (NetGraph cs)) then Ret cs else AddVertex v cs) = Ret cs' ∧
    clpa_ok cs' ∧ cs_ShardNum cs' = ShardNum ∧ graph_ok (NetGraph cs') ∧
    VertexSet (NetGraph cs') = {[v]} ∪ VertexSet (NetGraph cs).
Proof.
  intros Hok Hn Ha Hg. case_decide as Hv.
  - eexists. split_and!; [done..|]. set_solver.
  - destruct (AddVertex_ok v cs) as (cs' & -> & ? & ? & E); [done..|]. exists cs'. by rewrite E.
Qed.

Lemma AddEdge_ok u w cs :
  clpa_ok cs → cs_ShardNum cs = ShardNum → graph_ok (NetGraph cs) → u ≠ w →
  valid_addr (Addr u) = true → valid_addr (Addr w) = true →
  ∃ cs', AddEdge u w cs = Ret cs' ∧ clpa_ok cs' ∧ cs_ShardNum cs' = ShardNum ∧
    graph_ok (NetGraph cs') ∧ VertexSet (NetGraph cs') = {[u; w]} ∪ VertexSet (NetGraph cs).
Proof.
  intros Hok Hn Hg Huw Hu Hw. unfold AddEdge.
  destruct (AddVertex_guard_ok u cs Hok Hn Hu Hg) as (cs1 & -> & Hok1 & Hn1 & Hg1 & V1).
  rewrite bind_ret.
  destruct (AddVertex_guard_ok w cs1 Hok1 Hn1 Hw Hg1) as (cs2 & -> & Hok2 & Hn2 & Hg2 & V2).
  rewrite bind_ret. eexists. split; [reflexivity|].
  assert (VertexSet (Graph_AddEdge u w (NetGraph cs2)) = VertexSet (NetGraph cs2)) as HV
    by (apply VertexSet_AddEdge; set_solver).
  split_and!; [by apply set_graph_ok|done|by apply graph_ok_AddEdge|]. cbn [NetGraph set_graph]. rewrite HV. set_solver.
Qed.

Definition empty_graph : Graph := mkGraph ∅ None.

Lemma Init_CLPAState_ok wp mIter cs :
  0 < ShardNum → NetGraph cs = empty_graph →
  clpa_ok (Init_CLPAState wp mIter ShardNum cs) ∧
  graph_ok (NetGraph (Init_CLPAState wp mIter ShardNum cs)).
Proof.
  intros Hn Hg. unfold clpa_ok, graph_ok. cbn. rewrite Hg. cbn. split.
  - split_and!; [done|by intros ? ? ?| |].
    + unfold zlen. rewrite length_replicate. lia.
    + intros k _. rewrite at_replicate. done.
  - split; [done|]. intros v. unfold adj. cbn. rewrite lookup_empty. set_solver.
Qed.

Lemma AddEdges_ok edges cs :
  Forall (λ e, e.1 ≠ e.2 ∧ valid_addr (Addr e.1) = true ∧ valid_addr (Addr e.2) = true) edges →
  clpa_ok cs → graph_ok (NetGraph cs) → cs_ShardNum cs = ShardNum →
  ∃ cs', foldM (λ cs e, AddEdge e.1 e.2 cs) cs edges = Ret cs' ∧
    clpa_ok cs' ∧ graph_ok (NetGraph cs') ∧ cs_ShardNum cs' = ShardNum ∧
    VertexSet (NetGraph cs') = list_to_set (edges.*1 ++ edges.*2) ∪ VertexSet (NetGraph cs).
Proof.
  intros He. revert cs.
  induction He as [|[u w] edges (Huw & Hu & Hw) He IH]; intros cs Hok Hgok Hsn.
  { eexists. split_and!; [done..|]. set_solver. }
  cbn [foldM fst snd] in *.
  destruct (AddEdge_ok u w cs) as (cs1 & -> & Hok1 & Hsn1 & Hg1 & V1); [done..|]. rewrite bind_ret.
  destruct (IH cs1 Hok1 Hg1 Hsn1) as (cs2 & -> & ? & ? & ? & V2). eexists. split_and!; [done..|].
  rewrite V2, V1. rewrite !fmap_cons. cbn. rewrite !list_to_set_app_L. cbn. set_solver.
Qed.

(** C36 (type) The state the supervisor builds is the one the algorithm needs:
    from [Init_CLPAState] on an empty graph, adding the edges of any transactions
    between different valid accounts succeeds, keeps the partition well formed
    (each vertex placed in an existing shard, the vertex counts exact) and records every
    edge at both ends, with no self-loop; the vertices are the accounts seen. *)
Theorem AddEdges_wellformed (wp : float64) (mIter : Z) (cs : CLPAState)
    (edges : list (Vertex * Vertex)) :
  0 < ShardNum → NetGraph cs = empty_graph →
  Forall (λ e, e.1 ≠ e.2 ∧ valid_addr (Addr e.1) = true ∧ valid_addr (Addr e.2) = true) edges →
  ∃ cs', foldM (λ cs e, AddEdge e.1 e.2 cs) (Init_CLPAState wp mIter ShardNum cs) edges = Ret cs' ∧
    clpa_ok cs' ∧ graph_ok (NetGraph cs') ∧ cs_ShardNum cs' = ShardNum ∧
    VertexSet (NetGraph cs') = list_to_set (edges.*1 ++ edges.*2).
Proof.
  intros Hn Hg He. destruct (Init_CLPAState_ok wp mIter cs Hn Hg) as [Hok Hgok].
  destruct (AddEdges_ok edges _ He Hok Hgok eq_refl) as (cs' & E & Hok' & Hg' & Hsn & HV).
  exists cs'. split_and!; [done..|]. rewrite HV. cbn. rewrite Hg. set_solver.
Qed.

(** ** The stable initialisation *)

(** How many of the numbers below [i] are [k] modulo [n]. *)
Definition dealt (n i k : Z) : Z := (i + n - 1 - k) / n.

Lemma dealt_step n i k :
  0 ≤ i → 0 ≤ k < n → dealt n (i + 1) k = dealt n i k + (if decide (k = Z.rem i n) then 1 else 0).
Proof.
  intros Hi Hk. unfold dealt. rewrite Z.rem_mod_nonneg by lia.
  pose proof (Z.div_mod i n ltac:(lia)) as Hd. pose proof (Z.mod_pos_bound i n ltac:(lia)) as Hm.
  set (q := i / n) in *. set (r := i mod n) in *.
  assert (∀ r', 0 ≤ r' ≤ n → (n * q + r' + n - 1 - k) / n = q + (if decide (k < r') then 1 else 0)) as H.
  { intros r' Hr'. symmetry. case_decide.
    - apply (Z.div_unique_pos _ _ _ (r' - 1 - k)); lia.
    - apply (Z.div_unique_pos _ _ _ (r' + n - 1 - k)); lia. }
  replace (i + 1 + n - 1 - k) with (n * q + (r + 1) + n - 1 - k) by lia.
  replace (i + n - 1 - k) with (n * q + r + n - 1 - k) by lia.
  rewrite !H by lia. repeat case_decide; lia.
Qed.

Lemma deal_ok (n : Z) vorder i V pm vn :
  0 < n → 0 ≤ i → NoDup vorder → (∀ v, v ∈ vorder → v ∉ V) →
  in_range pm n → zlen vn = n → counts V pm vn → (∀ k, 0 ≤ k < n → at_ vn k = dealt n i k) →
  ∃ pm' vn',
    foldMi (λ acc cnt v,
        if n =? 0 then Panic "integer divide by zero" else place acc v (Z.rem cnt n))
      (pm, vn) i vorder = Ret (pm', vn') ∧
    in_range pm' n ∧ zlen vn' = n ∧ counts (list_to_set vorder ∪ V) pm' vn' ∧
    ∀ k, 0 ≤ k < n → at_ vn' k = dealt n (i + zlen vorder) k.
Proof.
  intros Hn Hi Hnd. revert i V pm vn Hi. induction Hnd as [|v vorder Hv Hnd IH];
    intros i V pm vn Hi Hnew Hr Hl Hc Hd.
  { do 2 eexists. split; [reflexivity|]. cbn. rewrite union_empty_l_L, Z.add_0_r. by split_and!. }
  assert (0 ≤ Z.rem i n < n) as Hs by (apply Z.rem_bound_pos; lia).
  cbn [foldMi]. destruct (Z.eqb_spec n 0); [lia|]. unfold place at 2. cbn [fst snd].
  destruct (counts_add V pm vn v (Z.rem i n)) as (vn1 & E & L1 & C1); [set_solver|lia|done|].
  rewrite E, !bind_ret.
  destruct (IH (i + 1) ({[v]} ∪ V) (<[v := Z.rem i n]> pm) vn1)
    as (pm' & vn' & E' & Hr' & Hl' & Hc' & Hd'); [lia|set_solver|by apply in_range_insert|lia|done| |].
  { intros k Hk. destruct (slice_add_ok vn (Z.rem i n) 1) as (vn2 & E2 & _ & A2); [lia|].
    rewrite E2 in E. injection E as <-. by rewrite A2, Hd, dealt_step. }
  exists pm', vn'. split_and!; [done..| |].
  - cbn [list_to_set]. replace ({[v]} ∪ list_to_set vorder ∪ V) with (list_to_set vorder ∪ ({[v]} ∪ V))
      by set_solver. done.
  - intros k Hk. rewrite Hd', zlen_cons by done. f_equal. lia.
Qed.

(** [Stable_Init_Partition] deals the vertices to the shards in turn.
    With at least as many vertices as shards it succeeds, and shard [k] receives
    exactly every [n]-th vertex: the sizes differ by at most one and no shard is
    empty. *)
Theorem Stable_Init_Partition_balanced (vorder eorder : list Vertex) (cs : CLPAState) :
  0 < cs_ShardNum cs ≤ Z.of_nat (size (VertexSet (NetGraph cs))) →
  NoDup vorder → list_to_set vorder = VertexSet (NetGraph cs) →
  ∃ cs', Stable_Init_Partition vorder eorder cs = Ret (cs', None) ∧
    clpa_ok cs' ∧ NetGraph cs' = NetGraph cs ∧ cs_ShardNum cs' = cs_ShardNum cs ∧
    ∀ k, 0 ≤ k < cs_ShardNum cs →
      let m := Z.of_nat (size (members (VertexSet (NetGraph cs)) (PartitionMap cs') k)) in
      m = dealt (cs_ShardNum cs) (zlen vorder) k ∧ 0 < m.
Proof.
  intros Hn Hnd HV. unfold Stable_Init_Partition. destruct (Z.ltb_spec
    (Z.of_nat (size (VertexSet (NetGraph cs)))) (cs_ShardNum cs)); [lia|].
  destruct (deal_ok (cs_ShardNum cs) vorder 0 ∅ ∅ (replicate (Z.to_nat (cs_ShardNum cs)) 0))
    as (pm & vn & -> & Hr & Hl & Hc & Hd); [lia|lia|done|set_solver|by intros ? ? ?| | |  |].
  - unfold zlen. rewrite length_replicate. lia.
  - intros k _. by rewrite at_replicate.
  - intros k Hk. rewrite at_replicate. unfold dealt. symmetry. apply Z.div_small. lia.
  - rewrite bind_ret. rewrite union_empty_r_L, HV in Hc.
    destruct (ComputeEdges2Shard_counted eorder (set_partition pm vn cs)) as (e2s & mn & cross & -> & _);
      [cbn; lia|done|]. rewrite bind_ret.
    eexists. split; [reflexivity|]. unfold clpa_ok. cbn. split_and!; [lia|done..|].
    assert (zlen vorder = Z.of_nat (size (VertexSet (NetGraph cs)))) as Hz.
    { unfold zlen. rewrite <- HV. by rewrite size_list_to_set. }
    intros k Hk. rewrite <- Hc, Hd by lia. split; [done|]. unfold dealt.
    apply Z.div_str_pos. lia.
Qed.

End CLPA.

(** ** Examples

    A chain of five transactions between six accounts over four shards. *)
Module Chain.
#[local] Instance params : Params := default_params 1.

Definition acct (s : string) : Vertex := mkVertex s.
Definition edges : list (Vertex * Vertex) :=
  [(acct "00000000", acct "00000001"); (acct "00000001", acct "00000002");
   (acct "00000002", acct "00000003"); (acct "00000003", acct "00000004");
   (acct "00000004", acct "00000005")].
Definition start : CLPAState :=
  mkCLPA empty_graph ∅ [] [] (of_int 0) 0 0 0 0.
Definition half : float64 := fdiv (of_int 1) (of_int 2).
Definition state : CLPAState :=
  match foldM (λ cs e, AddEdge e.1 e.2 cs) (Init_CLPAState half 3 ShardNum start) edges with
  | Ret cs => cs
  | Panic _ => start
  end.
Definition vertices : list Vertex := elements (VertexSet (NetGraph state)).
Definition keys : list Vertex := (map_to_list (default ∅ (EdgeSet (NetGraph state)))).*1.

Lemma edges_valid :
  Forall (λ e, e.1 ≠ e.2 ∧ valid_addr (Addr e.1) = true ∧ valid_addr (Addr e.2) = true) edges.
Proof. apply (bool_decide_unpack _). vm_compute. exact I. Defined.

Lemma state_ok :
  clpa_ok state ∧ graph_ok (NetGraph state) ∧ cs_ShardNum state = ShardNum.
Proof.
  destruct (Init_CLPAState_ok half 3 start) as [Hok Hg]; [vm_compute; reflexivity|done|].
  destruct (AddEdges_ok edges _ edges_valid Hok Hg eq_refl) as (cs & E & ? & ? & ? & _).
  unfold state. rewrite E. split_and!; assumption.
Qed.

Lemma visits_valid : Forall (Forall (λ v, v ∈ VertexSet (NetGraph state))) [vertices; vertices; vertices].
Proof.
  assert (Forall (λ v, v ∈ VertexSet (NetGraph state)) vertices) as H.
  { apply Forall_forall. intros v Hv. apply elem_of_elements in Hv. exact Hv. }
  repeat (apply Forall_cons; split; [exact H|]). apply Forall_nil. exact I.
Qed.

Lemma keys_valid : key_order (NetGraph state) keys.
Proof.
  split; [apply NoDup_fst_map_to_list|]. intros v. unfold keys. rewrite list_elem_of_fmap. split.
  - intros ([u l] & -> & H). apply elem_of_map_to_list in H. by eexists.
  - intros [l H]. exists (v, l). split; [done|]. by apply elem_of_map_to_list.
Qed.

(** The state with its counters, and the run over three rounds. *)
Definition ready : CLPAState :=
  match ComputeEdges2Shard keys state with Ret cs => cs | Panic _ => start end.
Definition after : run_state :=
  match foldM (foldM visit) (mkRun ready ∅ ∅) [vertices; vertices; vertices] with
  | Ret r => r
  | Panic _ => mkRun start ∅ ∅
  end.

Lemma ready_eq : ComputeEdges2Shard keys state = Ret ready.
Proof.
  destruct state_ok as ((Hn & Hr & _) & _).
  destruct (ComputeEdges2Shard_counted keys state Hn Hr) as (e2s & mn & cross & E & _).
  unfold ready. rewrite E. reflexivity.
Qed.

Lemma after_eq :
  foldM (foldM visit) (mkRun ready ∅ ∅) [vertices; vertices; vertices] = Ret after.
Proof.
  destruct state_ok as (Hok & _). pose proof Hok as (Hn & Hr & _).
  destruct (ComputeEdges2Shard_counted keys state Hn Hr) as (e2s & mn & cross & E & Hc & Hl).
  assert (ready = set_edges e2s mn cross state) as E' by (unfold ready; rewrite E; reflexivity).
  destruct (rounds_total (run_inv (NetGraph state) (cs_ShardNum state) (PartitionMap state))
    (VertexSet (NetGraph state)) [vertices; vertices; vertices] (mkRun ready ∅ ∅)) as (r & Er & _).
  - intros r v Hi Hv. apply visit_inv; [vm_compute; reflexivity|exact Hv|exact Hi].
  - exact visits_valid.
  - rewrite E'. exact (set_edges_ready _ _ _ keys _ _ _ _ Hok eq_refl eq_refl eq_refl Hc Hl).
  - unfold after. rewrite Er. reflexivity.
Qed.
End Chain.

Lemma AddEdges_wellformed_witness :
  let PR := default_params 1 in
  ∃ cs', foldM (λ cs e, AddEdge e.1 e.2 cs) (Init_CLPAState Chain.half 3 ShardNum Chain.start)
           Chain.edges = Ret cs' ∧
    clpa_ok cs' ∧ graph_ok (NetGraph cs') ∧ cs_ShardNum cs' = ShardNum ∧
    VertexSet (NetGraph cs') = list_to_set (Chain.edges.*1 ++ Chain.edges.*2).
Proof.
  intros PR. apply AddEdges_wellformed; [vm_compute; reflexivity|reflexivity|].
  exact Chain.edges_valid.
Defined.

Lemma CLPA_Partition_correct_witness :
  let cs := Chain.state in
  let vs := Chain.vertices in
  ∃ res cross cs',
    CLPA_Partition Chain.keys (λ _, vs) Chain.keys cs = Ret ((res, cross), cs') ∧
    clpa_ok cs' ∧ NetGraph cs' = NetGraph cs ∧ cs_ShardNum cs' = cs_ShardNum cs ∧
    (∀ v, match res !! Addr v with
          | Some s => s = shard_of_vertex (PartitionMap cs') v
          | None => shard_of_vertex (PartitionMap cs') v = shard_of_vertex (PartitionMap cs) v
          end) ∧
    (∀ k, members (VertexSet (NetGraph cs)) (PartitionMap cs) k ≠ ∅ →
          members (VertexSet (NetGraph cs)) (PartitionMap cs') k ≠ ∅).
Proof.
  apply (CLPA_Partition_correct Chain.keys Chain.keys (λ _, Chain.vertices) Chain.state).
  - apply Chain.state_ok.
  - vm_compute. reflexivity.
  - intros _. reflexivity.
Defined.

Lemma incremental_counts_exact_witness :
  rn_res Chain.after ≠ ∅ ∧
  ComputeEdges2Shard (reverse Chain.keys) (rn_cs Chain.after) = Ret (rn_cs Chain.after).
Proof.
  split; [apply (bool_decide_unpack _); vm_compute; exact I|].
  apply (incremental_counts_exact Chain.keys (reverse Chain.keys)
    [Chain.vertices; Chain.vertices; Chain.vertices] Chain.state Chain.ready Chain.after).
  - apply Chain.state_ok.
  - vm_compute. reflexivity.
  - apply Chain.visits_valid.
  - apply Chain.state_ok.
  - apply Chain.state_ok.
  - apply Chain.keys_valid.
  - destruct Chain.keys_valid as [H1 H2]. split; [|intros v; rewrite <- H2];
      rewrite reverse_Permutation; [exact H1|reflexivity].
  - exact Chain.ready_eq.
  - exact Chain.after_eq.
Defined.

Lemma Stable_Init_Partition_balanced_witness :
  let cs := Chain.state in
  ∃ cs', Stable_Init_Partition Chain.vertices Chain.keys cs = Ret (cs', None) ∧
    clpa_ok cs' ∧ NetGraph cs' = NetGraph cs ∧ cs_ShardNum cs' = cs_ShardNum cs ∧
    ∀ k, 0 ≤ k < cs_ShardNum cs →
      let m := Z.of_nat (size (members (VertexSet (NetGraph cs)) (PartitionMap cs') k)) in
      m = dealt (cs_ShardNum cs) (zlen Chain.vertices) k ∧ 0 < m.
Proof.
  intros cs. apply (Stable_Init_Partition_balanced Chain.vertices Chain.keys cs).
  - apply (bool_decide_unpack _). vm_compute. exact I.
  - apply NoDup_elements.
  - apply list_to_set_elements_L.
Defined.
