(* ===== verification/CopyClpa.v ===== *)
(** * Copying and hashing the state of CLPA

    [CopyCLPA], [Encode] and [Hash] of src/partition/partition_CLPA.go.  The copy takes over
    the slice [VertexsNumInShard] itself, so the slices are kept in a store and a state
    refers to its slice. *)

From S2P Require Import Prelude Params Utils Sha256 CLPA.

(** The store of the slices by address, and a state that refers to one of them; the
    counts inside [ref_state] are not used. *)
Abbreviation slices := (gmap Z (list Z)).
Record ClpaRef := mkRef { ref_state : CLPAState; vnums : Z }.

Definition set_vnums (l : list Z) (cs : CLPAState) : CLPAState :=
  set_partition (PartitionMap cs) l cs.

(** The state that a reference stands for. *)
Definition deref (h : slices) (o : ClpaRef) : CLPAState :=
  set_vnums (default [] (h !! vnums o)) (ref_state o).

(** [make([]int, n)] followed by [copy]. *)
Definition copy_ints (n : Z) (src : list Z) : outcome (list Z) :=
  if n <? 0 then Panic "makeslice: len out of range"
  else Ret (take (Z.to_nat n) src ++ replicate (Z.to_nat n - length src) 0).

(** The receiver keeps its [CrossShardEdgeNum]. *)
Definition CopyCLPA (src dst : ClpaRef) : outcome ClpaRef :=
  let s := ref_state src in
  e ← copy_ints (cs_ShardNum s) (Edges2Shard s);
  Ret (mkRef (mkCLPA (CopyGraph (NetGraph s) (NetGraph (ref_state dst))) (PartitionMap s) e []
                (WeightPenalty s) (MinEdges2Shard s) (MaxIterations s)
                (CrossShardEdgeNum (ref_state dst)) (cs_ShardNum s)) (vnums src)).

(** [AddVertex] on a reference writes into the slice. *)
Definition AddVertex_ref {PR : Params} (v : Vertex) (o : ClpaRef) (h : slices) : outcome (ClpaRef * slices) :=
  s ← AddVertex v (deref h o);
  Ret (mkRef s (vnums o), <[vnums o := VertexsNumInShard s]> h).

(** [Encode] and [Hash]: gob writes the maps in the order of their iteration, which
    differs from call to call. *)
Section Hash.
Context (gob_CLPA : list Vertex → CLPAState → bytes).
Definition CLPA_Encode (order : list Vertex) (cs : CLPAState) : bytes := gob_CLPA order cs.
Definition CLPA_Hash (order : list Vertex) (cs : CLPAState) : bytes := Sha256.sum256 (CLPA_Encode order cs).
End Hash.

(** The copy has the same graph, partition and counts. *)
Lemma CopyCLPA_same src dst c h :
  CopyCLPA src dst = Ret c → EdgeSet (NetGraph (ref_state src)) ≠ None →
  length (Edges2Shard (ref_state src)) = Z.to_nat (cs_ShardNum (ref_state src)) →
  PartitionMap (deref h c) = PartitionMap (deref h src) ∧
  VertexSet (NetGraph (deref h c)) = VertexSet (NetGraph (deref h src)) ∧
  (∀ v, v ∈ VertexSet (NetGraph (deref h src)) →
     adj (NetGraph (deref h c)) v = adj (NetGraph (deref h src)) v) ∧
  Edges2Shard (deref h c) = Edges2Shard (deref h src) ∧
  VertexsNumInShard (deref h c) = VertexsNumInShard (deref h src).
Proof.
  unfold CopyCLPA, copy_ints. intros E He Hlen. apply bind_Ret_inv in E as (e & Ee & E). inv_ret.
  destruct (_ <? 0); [done|]. inv_ret. split_and!; [done|done| |cbn|done].
  - intros v Hv. unfold adj, deref. cbn in *. destruct (EdgeSet (NetGraph (ref_state src))) as [es|]; [|done].
    cbn. assert (set_to_map (λ v, (v, default [] (es !! v))) (VertexSet (NetGraph (ref_state src))) !! v
      = Some (default [] (es !! v))) as ->; [|done].
    apply lookup_set_to_map; [by intros|]. by exists v.
  - rewrite Hlen, Nat.sub_diag, app_nil_r, take_ge; [done|lia].
Qed.

(** The copy is not independent: adding a vertex to the copy counts it in the original
    as well, whose graph and partition do not have it. *)
Theorem CopyCLPA_shares_counts {PR : Params} src dst c v c' h h' :
  CopyCLPA src dst = Ret c → AddVertex_ref v c h = Ret (c', h') →
  ∃ s, PartitionMap (deref h' c') !! v = Some s ∧
    slice_add (VertexsNumInShard (deref h src)) s 1 = Ret (VertexsNumInShard (deref h' src)) ∧
    NetGraph (deref h' src) = NetGraph (deref h src) ∧
    PartitionMap (deref h' src) = PartitionMap (deref h src).
Proof.
  unfold CopyCLPA, AddVertex_ref, AddVertex. intros E E'.
  apply bind_Ret_inv in E as (e & _ & E). injection E as <-.
  apply bind_Ret_inv in E' as (s1 & Es & E'). injection E' as <- <-.
  apply bind_Ret_inv in Es as (s & _ & Es). apply bind_Ret_inv in Es as (vn & Evn & Es). injection Es as <-.
  exists s. unfold deref in *. cbn in *. rewrite !lookup_insert_eq. by split_and!.
Qed.
