(* ===== verification/Transfer.v ===== *)
(** * Repartition and account transfer

    Models the CLPA modules of a node: src/consensus_shard/pbft_all/dataSupport
    (the data of a repartition), accountTransfer_module.go, pbftInside_moduleCLPA.go
    and pbftOutside_moduleCLPA.go.  The leader of a shard that got a new partition
    announces that it is ready, waits for the other shards, sends them the accounts
    and transactions that move, waits for theirs, and proposes a request that all
    nodes of the shard execute by [accountTransfer_do].  The two waits make the
    proposal a sequence of steps ([cstep]) between which other messages arrive.  A
    loop over a Go map takes the order of the keys as an argument; a map whose values
    are only ever [true] is a set. *)

From S2P Require Import Prelude Params Utils Interfaces Core Instances Sha256.
From S2P Require Import TxPool Storage G2E BlockChain Ledger ChainProps MerkleProof.
From S2P Require Import Messages PbftNode Pbft Relay.

(** ** [Data_supportCLPA] *)
Record Data_supportCLPA := mkCDM {
  cd_ModifiedMap : list (gmap Address Z);
  AccountTransferRound : Z;
  ReceivedNewAccountState : gmap Address AccountState;
  ReceivedNewTx : list Transaction;
  AccountStateTx : gmap Z AccountStateAndTx;
  PartitionOn : bool;
  cd_PartitionReady : gset Z;
  ReadySeq : gmap Z Z;
  CollectOver : bool
}.

Definition NewCLPADataSupport : Data_supportCLPA := mkCDM [] 0 ∅ [] ∅ false ∅ ∅ false.

(** [encoding/gob] for account transfers. *)
Class GobATM := {
  gobATM : AccountTransferMsg → bytes;
  ungobATM : bytes → option AccountTransferMsg
}.

Section Transfer.
Context {PR : Params} {BS : BitSetOps} {G : GobOps} {BO : BoltOps} {T : TrieOps}.
Context {JRelay : Json Relay} {JRWP : Json RelayWithProof} {JBI : Json BlockInfoMsg}.
Context {JIT : Json InjectTxs} {JPM : Json PartitionModifiedMap}.
Context {JPR : Json PartitionReady} {JAST : Json AccountStateAndTx}.
Context {GA : GobATM}.

Abbreviation node := (PbftConsensusNode Data_supportCLPA).
Implicit Type p : node.

(** ** The steps of the leader *)

(** [int(x)] of a [uint64] read by a loop bound. *)
Definition shard_ids p : list Z := seqZ 0 (ShardNums (pbftChainConfig p)).

Definition sendPartitionReady p : outcome node :=
  let c := cdm p in
  let p := set_cdm (mkCDM (cd_ModifiedMap c) (AccountTransferRound c)
             (ReceivedNewAccountState c) (ReceivedNewTx c) (AccountStateTx c)
             (PartitionOn c) ({[p_ShardID p]} ∪ cd_PartitionReady c) (ReadySeq c)
             (CollectOver c)) p in
  let pr := mkPReady (p_ShardID p) (sequenceID p) in
  send_msg ← MergeMessage CPartitionReady (marshal pr);
  Ret (foldl (λ p sid, if sid =? FromShard pr then p else TcpDial send_msg (ip_of p sid 0) p)
         p (seqZ 0 (i64 (ShardNums (pbftChainConfig p))))).

(** Every shard is ready, and the last relay message of each shard was received:
    its sequence id is the one before the shard's next. *)
Definition getPartitionReady p : bool :=
  (Z.of_nat (size (cd_PartitionReady (cdm p))) =? i64 (ShardNums (pbftChainConfig p))) &&
  bool_decide (map_Forall (λ sid val,
      (λ rval, u64 (rval - 1)) <$> ReadySeq (cdm p) !! sid = Some val) (seqIDMap p)).

(** [ModifiedMap[i]] *)
Definition modified_map p (i : Z) : outcome (gmap Address Z) :=
  slice_at (cd_ModifiedMap (cdm p)) i.

(** The accounts that leave the shard, the map visited in the order [keys]. *)
Definition accounts_to_fetch (m : gmap Address Z) (keys : list Address) p :
    outcome (list Address) :=
  foldM (λ res key,
    if default 0 (m !! key) =? p_ShardID p then Ret res
    else s ← Get_PartitionMap (CurChain p) key;
         Ret (if s =? p_ShardID p then res ++ [key] else res)) [] keys.

(** The transactions that follow the accounts [addrs]: those they send, or, when
    already relayed, those they receive. *)
Definition moves_with (addrs : list Address) (tx : Transaction) : bool :=
  (bool_decide (Sender tx ∈ addrs) && negb (Relayed tx)) ||
  (bool_decide (Recipient tx ∈ addrs) && Relayed tx).

(** One round of the loop over the shards. *)
Definition send_to_shard (m : gmap Address Z) (accountToFetch : list Address)
    (asFetched : list AccountState) p (i : Z) : outcome node :=
  if i =? p_ShardID p then Ret p
  else
    let chosen := base.filter (λ x : Address * AccountState, default 0 (m !! x.1) = i)
                    (zip accountToFetch asFetched) in
    let addrSend := chosen.*1 in
    let queue := TxQueue (Txpool (CurChain p)) in
    let txSend := base.filter (λ tx, moves_with addrSend tx = true) queue in
    let kept := base.filter (λ tx, moves_with addrSend tx = false) queue in
    let p := set_pool (mkPool kept (RelayPool (Txpool (CurChain p)))) p in
    send_msg ← MergeMessage AccountState_and_TX
      (marshal (mkAST addrSend chosen.*2 txSend (p_ShardID p)));
    Ret (TcpDial send_msg (ip_of p i 0) p).

Definition sendAccounts_and_Txs (keys : list Address) p : outcome node :=
  m ← modified_map p (zlen (cd_ModifiedMap (cdm p)) - 1);
  accountToFetch ← accounts_to_fetch m keys p;
  asFetched ← FetchAccounts (CurChain p) accountToFetch;
  foldM (send_to_shard m accountToFetch asFetched) p (shard_ids p).

Definition getCollectOver p : bool := CollectOver (cdm p).

(** The message of one shard enters the set of received accounts. *)
Definition collect_states (st : gmap Address AccountState) (at_ : AccountStateAndTx) :
    outcome (gmap Address AccountState) :=
  foldMi (λ st i addr, s ← slice_at (ast_AccountState at_) i; Ret (<[addr := s]> st))
    st 0 (ast_Addrs at_).

Definition collect_one (acc : gmap Address AccountState * list Transaction)
    (at_ : AccountStateAndTx) : outcome (gmap Address AccountState * list Transaction) :=
  st ← collect_states acc.1 at_; Ret (st, acc.2 ++ ast_Txs at_).

(** The checks on a received transaction; indexing the slice of maps may panic. *)
Definition check_received p (tx : Transaction) : outcome unit :=
  m ← modified_map p (AccountTransferRound (cdm p));
  if negb (Relayed tx) && negb (default 0 (m !! Sender tx) =? p_ShardID p)
  then Panic "error tx"
  else if Relayed tx && negb (default 0 (m !! Recipient tx) =? p_ShardID p)
  then Panic "error tx"
  else Ret tt.

(** [proposePartition]: [shards] and [addrs] are the orders of the two maps. *)
Definition proposePartition (clock : nat → Time) (now : Time) (shards : list Z)
    (addrs : gmap Address AccountState → list Address) p :
    outcome (node * (bool * Request)) :=
  let c := cdm p in
  '(states, txs) ← foldM collect_one (ReceivedNewAccountState c, ReceivedNewTx c)
                     (omap (λ s, AccountStateTx c !! s) shards);
  let p := set_cdm (mkCDM (cd_ModifiedMap c) (AccountTransferRound c) states txs
             (AccountStateTx c) (PartitionOn c) (cd_PartitionReady c) (ReadySeq c)
             (CollectOver c)) p in
  _ ← foldM (λ _ tx, check_received p tx) tt txs;
  let p := set_pool (AddTxs2Pool clock txs (Txpool (CurChain p))) p in
  m ← modified_map p (AccountTransferRound (cdm p));
  let atm := mkATM m (addrs states) (omap (λ a, states !! a) (addrs states))
               (u64 (zlen (cd_ModifiedMap (cdm p)))) in
  Ret (p, (true, mkRequest PartitionReq (AccountTransferMsg_Encode gobATM atm) now)).

Definition accountTransfer_do (atm : AccountTransferMsg) p : outcome node :=
  let bc := foldl (λ bc kv, Update_PartitionMap kv.1 kv.2 bc) (CurChain p)
              (map_to_list (ModifiedMap atm)) in
  bc ← AddAccounts (at_Addrs atm) (at_AccountState atm) bc;
  let c := cdm p in
  let maps := if u64 (zlen (cd_ModifiedMap c)) =? ATid atm then cd_ModifiedMap c
              else cd_ModifiedMap c ++ [ModifiedMap atm] in
  Ret (set_cdm (mkCDM maps (ATid atm) ∅ [] ∅ false ∅ (ReadySeq c) false) (set_CurChain bc p)).

(** ** [CLPAPbftInsideExtraHandleMod] *)

(** A proposal without a repartition: a block. *)
Definition Clpa_proposeBlock (clock : nat → Time) p : outcome (node * (bool * Request)) :=
  Relay_HandleinPropose clock p.

Definition Clpa_HandleinPrePrepare (ppmsg : PrePrepare) p : outcome (node * bool) :=
  ok ← (if decide (RequestType_ (RequestMsg ppmsg) = PartitionReq) then Ret true
        else b ← DecodeB (Msg_Content (RequestMsg ppmsg));
             Ret (match IsValidBlock (CurChain p) b with Some _ => false | None => true end));
  if ok : bool then
    Ret (set_requestPool (<[pp_Digest ppmsg := RequestMsg ppmsg]> (requestPool p)) p, true)
  else Ret (p, false).

Definition Clpa_HandleinPrepare (_ : Prepare) p : outcome (node * bool) := Ret (p, true).

Definition Clpa_HandleinCommit (now : Time) (cmsg : Commit) p : outcome (node * bool) :=
  r ← or_panic "nil pointer dereference" (requestPool p !! cm_Digest cmsg);
  if decide (RequestType_ r = PartitionReq) then
    atm ← DecodeAccountTransferMsg ungobATM (Msg_Content r);
    p ← accountTransfer_do atm p; Ret (p, true)
  else
    block ← DecodeB (Msg_Content r);
    bc ← AddBlock block (CurChain p);
    let adopted := extends_tip (CurChain p) block in
    let p := set_CurChain bc p in
    if is_leader p then
      p ← relay_block (i64 (AccountTransferRound (cdm p))) now r block adopted p; Ret (p, true)
    else Ret (p, true).

Definition Clpa_HandleReqestforOldSeq (_ : RequestOldMessage) p : outcome (node * bool) :=
  Ret (p, true).

(** One request of the loop of [HandleforSequentialRequest]. *)
Definition Clpa_add_old (p : node) (r : Request) : outcome node :=
  if decide (RequestType_ r = BlockRequest) then
    b ← DecodeB (Msg_Content r);
    bc ← AddBlock b (CurChain p);
    Ret (set_CurChain bc p)
  else
    atm ← DecodeAccountTransferMsg ungobATM (Msg_Content r);
    accountTransfer_do atm p.

Definition Clpa_HandleforSequentialRequest (som : SendOldMessage) p : outcome (node * bool) :=
  if negb (i64 (u64 (so_SeqEndHeight som - so_SeqStartHeight som + 1)) =? zlen (OldRequest som))
  then Ret (p, true)
  else
    p ← foldM Clpa_add_old p (OldRequest som);
    (* [height <= SeqEndHeight] never fails when the end is the largest height *)
    if so_SeqEndHeight som =? u64_mod - 1 then Panic "index out of range"
    else Ret (set_sequenceID (u64 (so_SeqEndHeight som + 1)) p, true).

(** ** [CLPARelayOutsideModule] *)
Definition handlePartitionMsg (pm : PartitionModifiedMap) p : node :=
  let c := cdm p in
  set_cdm (mkCDM (cd_ModifiedMap c ++ [PartitionModified pm]) (AccountTransferRound c)
    (ReceivedNewAccountState c) (ReceivedNewTx c) (AccountStateTx c) true
    (cd_PartitionReady c) (ReadySeq c) (CollectOver c)) p.

Definition handlePartitionReady (pr : PartitionReady) p : node :=
  let c := cdm p in
  set_cdm (mkCDM (cd_ModifiedMap c) (AccountTransferRound c)
    (ReceivedNewAccountState c) (ReceivedNewTx c) (AccountStateTx c) (PartitionOn c)
    ({[FromShard pr]} ∪ cd_PartitionReady c) (<[FromShard pr := NowSeqID pr]> (ReadySeq c))
    (CollectOver c)) p.

Definition handleAccountStateAndTxMsg (at_ : AccountStateAndTx) p : node :=
  let c := cdm p in
  let pool := <[ast_FromShard at_ := at_]> (AccountStateTx c) in
  set_cdm (mkCDM (cd_ModifiedMap c) (AccountTransferRound c)
    (ReceivedNewAccountState c) (ReceivedNewTx c) pool (PartitionOn c)
    (cd_PartitionReady c) (ReadySeq c)
    (if Z.of_nat (size pool) =? i64 (i64 (ShardNums (pbftChainConfig p)) - 1) then true
     else CollectOver c)) p.

(** The first three handlers repeat the code of the relay module. *)
Definition Clpa_handleRelay (clock : nat → Time) (relay : Relay) p : node := handleRelay clock relay p.
Definition Clpa_handleRelayWithProof (clock : nat → Time) (rwp : RelayWithProof) p : outcome node :=
  handleRelayWithProof clock rwp p.
Definition Clpa_handleInjectTx (clock : nat → Time) (it : InjectTxs) p : node := handleInjectTx clock it p.

Definition Clpa_HandleMessageOutsidePBFT (clock : nat → Time) (msgType : MessageType)
    (content : bytes) p : outcome (node * bool) :=
  if decide (msgType = CRelay) then m ← decode content; Ret (Clpa_handleRelay clock m p, true)
  else if decide (msgType = CRelayWithProof) then
    m ← decode content; p ← Clpa_handleRelayWithProof clock m p; Ret (p, true)
  else if decide (msgType = CInject) then
    m ← decode content; Ret (Clpa_handleInjectTx clock m p, true)
  else if decide (msgType = CPartitionMsg) then
    m ← decode content; Ret (handlePartitionMsg m p, true)
  else if decide (msgType = AccountState_and_TX) then
    m ← decode content; Ret (handleAccountStateAndTxMsg m p, true)
  else if decide (msgType = CPartitionReady) then
    m ← decode content; Ret (handlePartitionReady m p, true)
  else Ret (p, true).

(** ** [HandleinPropose]

    Where the goroutine of a proposal is: at the beginning, asleep until all shards are
    ready, asleep until all accounts have arrived, or done with its request. *)
Inductive phase :=
| Begin
| WaitReady
| WaitCollect
| Proposed (r : Request).

(** The code from one sleep to the next. *)
Definition Clpa_HandleinPropose (clock : nat → Time) (now : Time) (keys : list Address)
    (shards : list Z) (addrs : gmap Address AccountState → list Address) (ph : phase) p :
    outcome (node * phase) :=
  match ph with
  | Begin =>
      if PartitionOn (cdm p) then p ← sendPartitionReady p; Ret (p, WaitReady)
      else '(p, (_, r)) ← Clpa_proposeBlock clock p; Ret (p, Proposed r)
  | WaitReady =>
      if getPartitionReady p then p ← sendAccounts_and_Txs keys p; Ret (p, WaitCollect)
      else Ret (p, WaitReady)
  | WaitCollect =>
      if getCollectOver p then
        '(p, (_, r)) ← proposePartition clock now shards addrs p; Ret (p, Proposed r)
      else Ret (p, WaitCollect)
  | Proposed r => Ret (p, Proposed r)
  end.

(** The leader between messages from outside, its proposal and the commits. *)
Inductive cstep : node * phase → node * phase → Prop :=
| cstep_outside p ph clock t c p' b :
    Clpa_HandleMessageOutsidePBFT clock t c p = Ret (p', b) → cstep (p, ph) (p', ph)
| cstep_propose p ph clock now keys shards addrs p' ph' :
    Clpa_HandleinPropose clock now keys shards addrs ph p = Ret (p', ph') →
    cstep (p, ph) (p', ph')
| cstep_commit p r now m p' b :
    Clpa_HandleinCommit now m p = Ret (p', b) → cstep (p, Proposed r) (p', Begin).

(** ** The transactions that move *)

(** The account a pooled transaction belongs to. *)
Definition owner (tx : Transaction) : Address := if Relayed tx then Recipient tx else Sender tx.

Lemma moves_with_owner addrs tx : moves_with addrs tx = bool_decide (owner tx ∈ addrs).
Proof.
  unfold moves_with, owner. destruct (Relayed tx); cbn [negb];
    rewrite ?andb_false_r, ?andb_true_r, ?orb_false_r; done.
Qed.

(** Does account [a] go to shard [i]? *)
Definition goes (m : gmap Address Z) (accts : list Address) (i : Z) (a : Address) : bool :=
  bool_decide (a ∈ accts) && (default 0 (m !! a) =? i).

(** Does [tx] leave for shard [i] with the accounts [accts]? *)
Definition leaves_for (m : gmap Address Z) (accts : list Address) (i : Z) (tx : Transaction) : bool :=
  goes m accts i (owner tx).

(** The accounts that go to shard [i], with their states. *)
Definition group (m : gmap Address Z) (accts : list Address) (states : list AccountState) (i : Z) :
    list (Address * AccountState) :=
  base.filter (λ x : Address * AccountState, default 0 (m !! x.1) = i) (zip accts states).

Lemma goes_group m accts states i a :
  length accts = length states →
  bool_decide (a ∈ (group m accts states i).*1) = goes m accts i a.
Proof.
  intros Hl. unfold goes, group. apply eq_bool_prop_intro.
  rewrite andb_True, !bool_decide_spec, Is_true_true, Z.eqb_eq, list_elem_of_fmap. split.
  - intros ([b s] & -> & H). apply list_elem_of_filter in H as [Hm H]. by apply elem_of_zip_l in H.
  - intros [Hin Hm]. apply list_elem_of_lookup in Hin as [k Hk].
    destruct (lookup_lt_is_Some_2 states k) as [st Hst].
    { rewrite <- Hl. by eapply lookup_lt_Some. }
    exists (a, st). split; [done|]. apply list_elem_of_filter. split; [done|].
    apply list_elem_of_lookup. exists k. by rewrite lookup_zip_with, Hk, Hst.
Qed.

(** The shard that takes an account is unique. *)
Lemma goes_unique m accts i j a : goes m accts i a = true → goes m accts j a = true → i = j.
Proof. unfold goes. intros [_ ?%Z.eqb_eq]%andb_true_iff [_ ?%Z.eqb_eq]%andb_true_iff. congruence. Qed.

Lemma moves_with_group m accts states i tx :
  length accts = length states →
  moves_with (group m accts states i).*1 tx = leaves_for m accts i tx.
Proof. intros Hl. rewrite moves_with_owner. by apply goes_group. Qed.

(** The message to shard [i] for the initial queue [q]. *)
Definition transfer_msg (m : gmap Address Z) (accts : list Address) (states : list AccountState)
    (me : Z) (q : list Transaction) (i : Z) : AccountStateAndTx :=
  mkAST (group m accts states i).*1 (group m accts states i).*2
    (base.filter (λ tx, leaves_for m accts i tx = true) q) me.

(** The queue when the shards [done_] have been served. *)
Definition staying (m : gmap Address Z) (accts : list Address) (done_ : list Z)
    (q : list Transaction) : list Transaction :=
  base.filter (λ tx, forallb (λ i, negb (leaves_for m accts i tx)) done_ = true) q.

Lemma staying_leaves m accts done_ q i :
  i ∉ done_ →
  base.filter (λ tx, leaves_for m accts i tx = true) (staying m accts done_ q) =
  base.filter (λ tx, leaves_for m accts i tx = true) q.
Proof.
  intros Hi. unfold staying. rewrite list_filter_filter. apply list_filter_iff. intros tx.
  split; [naive_solver|]. intros H. split; [done|]. apply forallb_forall. intros j Hj.
  destruct (leaves_for m accts j tx) eqn:Ej; [|done]. exfalso. apply Hi, list_elem_of_In.
  by rewrite (goes_unique _ _ _ _ _ H Ej).
Qed.

Lemma staying_snoc m accts done_ q i :
  base.filter (λ tx, leaves_for m accts i tx = false) (staying m accts done_ q) =
  staying m accts (done_ ++ [i]) q.
Proof.
  unfold staying. rewrite list_filter_filter. apply list_filter_iff. intros tx.
  rewrite forallb_app. cbn. rewrite andb_true_r, andb_true_iff, negb_true_iff. tauto.
Qed.

Lemma send_to_shards_splits m accts states q l done_ p :
  length accts = length states → NoDup (done_ ++ l) → p_ShardID p ∉ done_ ->
  TxQueue (Txpool (CurChain p)) = staying m accts done_ q →
  let others := base.filter (λ i, i ≠ p_ShardID p) l in
  ∃ p', foldM (send_to_shard m accts states) p l = Ret p' ∧
    sent p' = sent p ++ ((λ i, (ip_of p i 0, frame AccountState_and_TX
       (marshal (transfer_msg m accts states (p_ShardID p) q i)))) <$> others) ∧
    Txpool (CurChain p') = mkPool (staying m accts (done_ ++ others) q)
                             (RelayPool (Txpool (CurChain p))) ∧
    cdm p' = cdm p ∧ sequenceID p' = sequenceID p.
Proof.
  intros Hl. revert done_ p. induction l as [|i l IH]; intros done_ p Hnd Hme Hq others.
  { exists p. unfold others. rewrite filter_nil, app_nil_r. cbn. rewrite app_nil_r, <- Hq.
    split_and!; try done. by destruct (Txpool (CurChain p)). }
  cbn [foldM]. unfold send_to_shard at 2.
  destruct (Z.eqb_spec i (p_ShardID p)) as [->|Hi].
  { rewrite bind_ret. destruct (IH done_ p) as (p' & H); [|done..|].
    - apply NoDup_app in Hnd as (H1 & H2 & H3). apply NoDup_cons in H3 as [_ H3].
      apply NoDup_app. split_and!; [done| |done]. intros x Hx. specialize (H2 x Hx). set_solver.
    - exists p'. unfold others. rewrite filter_cons_False by tauto. exact H. }
  cbv zeta. fold (group m accts states i).
  assert (∀ b, base.filter (λ tx, moves_with (group m accts states i).*1 tx = b)
     (TxQueue (Txpool (CurChain p))) =
     base.filter (λ tx, leaves_for m accts i tx = b) (staying m accts done_ q)) as Hf.
  { intros b. rewrite Hq. apply list_filter_iff. intros tx. by rewrite moves_with_group. }
  rewrite !Hf. clear Hf.
  assert (i ∉ done_) as Hid by (apply NoDup_app in Hnd as (_ & H2 & _); set_solver).
  rewrite staying_leaves, staying_snoc by done.
  cbn [p_ShardID set_pool set_CurChain].
  change (mkAST _ _ _ _) with (transfer_msg m accts states (p_ShardID p) q i).
  rewrite (proj1 (frame_ok AccountState_and_TX _ eq_refl)), bind_ret.
  set (p1 := TcpDial _ _ _).
  destruct (IH (done_ ++ [i]) p1) as (p' & E & Hs & Ht & Hc & Hq'); [|set_solver|done|].
  { by rewrite <- app_assoc. }
  exists p'. unfold others. rewrite filter_cons_True by done. split_and!; [exact E| |..].
  - rewrite Hs. cbn. by rewrite <- app_assoc.
  - rewrite Ht. cbn. by rewrite <- app_assoc.
  - by rewrite Hc.
  - by rewrite Hq'.
Qed.

Lemma staying_perm m accts done_ q :
  NoDup done_ →
  q ≡ₚ staying m accts done_ q ++
       (done_ ≫= λ i, base.filter (λ tx, leaves_for m accts i tx = true) q).
Proof.
  induction done_ as [|i done_ IH] using rev_ind; intros Hnd.
  { unfold staying. cbn. by rewrite app_nil_r, list_filter_all. }
  apply NoDup_app in Hnd as (H1 & H2 & _). rewrite bind_app. cbn. rewrite app_nil_r.
  rewrite (IH H1) at 1. rewrite <- staying_snoc.
  rewrite <- (staying_leaves m accts done_ q i) by set_solver.
  rewrite (Permutation_app_comm (done_ ≫= _)), app_assoc. apply Permutation_app_tail.
  rewrite <- (filter_app_complement (λ tx, leaves_for m accts i tx = true)
    (staying m accts done_ q)) at 1.
  rewrite Permutation_app_comm. apply Permutation_app_tail.
  erewrite list_filter_iff; [reflexivity|]. intros tx. cbn. by rewrite not_true_iff_false.
Qed.

Lemma accounts_to_fetch_eq m keys p :
  forallb (resolvable (CurChain p)) keys = true →
  accounts_to_fetch m keys p =
  Ret (base.filter (λ a, default 0 (m !! a) ≠ p_ShardID p ∧
                         Get_PartitionMap (CurChain p) a = Ret (p_ShardID p)) keys).
Proof.
  unfold accounts_to_fetch. intros Hr.
  match goal with |- foldM ?f _ _ = Ret ?r =>
    enough (∀ acc, foldM f acc keys = Ret (acc ++ r)) as H by apply (H []) end.
  induction keys as [|k keys IH]; intros acc; [by rewrite filter_nil, app_nil_r|].
  cbn [forallb] in Hr. apply andb_true_iff in Hr as [Hk Hr]. cbn [foldM].
  unfold resolvable in Hk. destruct (Get_PartitionMap (CurChain p) k) as [sk|] eqn:Ek; [|done].
  destruct (Z.eqb_spec (default 0 (m !! k)) (p_ShardID p)) as [Hm|Hm].
  { rewrite bind_ret, IH by done. rewrite filter_cons_False; [done|tauto]. }
  rewrite !bind_ret. destruct (Z.eqb_spec sk (p_ShardID p)) as [->|Hs].
  - rewrite filter_cons_True by done. rewrite IH by done. by rewrite <- app_assoc.
  - rewrite filter_cons_False by (intros [_ ?]; congruence). by rewrite IH.
Qed.

Lemma foldM_append_length {A B} (f : A → outcome B) l acc ys :
  foldM (λ res x, y ← f x; Ret (res ++ [y])) acc l = Ret ys →
  length ys = (length acc + length l)%nat.
Proof.
  revert acc. induction l as [|x l IH]; intros acc; cbn.
  - intros [= <-]. lia.
  - destruct (f x); [|done]. cbn. intros E. rewrite (IH _ E), length_app. cbn. lia.
Qed.

Lemma FetchAccounts_length bc addrs states :
  FetchAccounts bc addrs = Ret states → length addrs = length states.
Proof.
  unfold FetchAccounts. intros E. apply bind_Ret_inv in E as (st & _ & E).
  apply foldM_append_length in E. cbn in E. lia.
Qed.

Lemma slice_at_last {A} (l : list A) x : last l = Some x → slice_at l (zlen l - 1) = Ret x.
Proof.
  rewrite last_lookup. intros Hl. apply slice_at_lookup. apply lookup_lt_Some in Hl as Hlt.
  unfold zlen. split; [lia|]. rewrite <- Hl. f_equal. lia.
Qed.

(** C15 (functional) The leader of a shard hands the moving accounts over completely:
    every other shard gets one message with exactly the accounts the new partition
    gives it, their states, and the pooled transactions these accounts own (as
    sender, or as recipient when relayed), in order; all other transactions stay in
    the pool in order.  Nothing is lost or duplicated. *)
Theorem sendAccounts_and_Txs_splits (keys : list Address) p (m : gmap Address Z)
    (states : list AccountState) :
  last (cd_ModifiedMap (cdm p)) = Some m →
  forallb (resolvable (CurChain p)) keys = true →
  let bc := CurChain p in
  let me := p_ShardID p in
  let q := TxQueue (Txpool bc) in
  let others := base.filter (λ i, i ≠ me) (shard_ids p) in
  let accts := base.filter (λ a, default 0 (m !! a) ≠ me ∧ Get_PartitionMap bc a = Ret me) keys in
  FetchAccounts bc accts = Ret states →
  ∃ p', sendAccounts_and_Txs keys p = Ret p' ∧
    sent p' = sent p ++ ((λ i, (ip_of p i 0, frame AccountState_and_TX
       (marshal (transfer_msg m accts states me q i)))) <$> others) ∧
    TxQueue (Txpool (CurChain p')) = staying m accts others q ∧
    q ≡ₚ TxQueue (Txpool (CurChain p')) ++
         (others ≫= λ i, ast_Txs (transfer_msg m accts states me q i)).
Proof.
  intros Hlast Hr bc me q others accts Hf. unfold sendAccounts_and_Txs, modified_map.
  rewrite (slice_at_last _ _ Hlast), bind_ret, accounts_to_fetch_eq, bind_ret by done. fold bc me accts. rewrite Hf, bind_ret.
  apply FetchAccounts_length in Hf.
  destruct (send_to_shards_splits m accts states q (shard_ids p) [] p) as (p' & E & Hs & Ht & _).
  - done.
  - apply NoDup_seqZ.
  - set_solver.
  - unfold staying. by rewrite list_filter_all.
  - exists p'. rewrite Ht. split_and!; [done..|]. apply staying_perm. apply NoDup_filter, NoDup_seqZ.
Qed.

(** ** Collecting the accounts *)

(** The message carries account [a] in state [x]. *)
Definition carries (at_ : AccountStateAndTx) (a : Address) (x : AccountState) : Prop :=
  ∃ j, ast_Addrs at_ !! j = Some a ∧ ast_AccountState at_ !! j = Some x.

Definition balanced (at_ : AccountStateAndTx) : Prop :=
  length (ast_Addrs at_) = length (ast_AccountState at_).

Lemma carries_addr at_ a x : carries at_ a x → a ∈ ast_Addrs at_.
Proof. intros (j & H & _). by eapply list_elem_of_lookup_2. Qed.

Lemma collect_states_spec at_ st :
  balanced at_ → NoDup (ast_Addrs at_) →
  ∃ st', collect_states st at_ = Ret st' ∧
    ∀ a x, st' !! a = Some x ↔ (carries at_ a x ∨ ((a ∉ ast_Addrs at_) ∧ st !! a = Some x)).
Proof.
  unfold collect_states, carries, balanced. destruct at_ as [l l' txs from]. cbn.
  intros Hlen Hnd.
  enough (∀ k l0 st, length (l0 : list Address) = k → length (l0 ++ l) = length l' → NoDup l →
    ∃ st', foldMi (λ st i addr, s ← slice_at l' i; Ret (<[addr := s]> st)) st (Z.of_nat k) l
             = Ret st' ∧
      ∀ a x, st' !! a = Some x ↔
        ((∃ j, l !! j = Some a ∧ l' !! (k + j)%nat = Some x) ∨ ((a ∉ l) ∧ st !! a = Some x))) as H
    by exact (H 0%nat [] st eq_refl Hlen Hnd).
  clear Hlen Hnd st. induction l as [|a0 l IH]; intros k l0 st Hk Hlen Hnd.
  { exists st. split; [done|]. intros a x. split; [right; split; [set_solver|done]|].
    intros [(j & Hj & _)|[_ H]]; [done|done]. }
  apply NoDup_cons in Hnd as [Ha0 Hnd]. cbn [foldMi].
  destruct (lookup_lt_is_Some_2 l' k) as [x0 Hx0].
  { rewrite <- Hlen, length_app. cbn. lia. }
  assert (slice_at l' (Z.of_nat k) = Ret x0) as ->.
  { apply slice_at_lookup. split; [lia|]. by rewrite Nat2Z.id. }
  rewrite !bind_ret. replace (Z.of_nat k + 1) with (Z.of_nat (S k)) by lia.
  destruct (IH (S k) (l0 ++ [a0]) (<[a0 := x0]> st)) as (st' & E & H);
    [rewrite length_app; cbn; lia|by rewrite <- app_assoc|done|].
  exists st'. split; [exact E|]. intros a x. rewrite H. split.
  - intros [(j & Hj & Hx)|[Hn Hx]].
    + left. exists (S j). split; [done|]. by rewrite Nat.add_succ_r.
    + apply lookup_insert_Some in Hx as [[<- <-]|[Hne Hx]].
      * left. exists 0%nat. by rewrite Nat.add_0_r.
      * right. set_solver.
  - intros [([|j] & Hj & Hx)|[Hn Hx]].
    + injection Hj as <-. rewrite Nat.add_0_r in Hx. right. split; [done|].
      rewrite lookup_insert_eq. congruence.
    + left. exists j. split; [done|]. by rewrite Nat.add_succ_r in Hx.
    + right. split; [set_solver|]. rewrite lookup_insert_ne; set_solver.
Qed.

Lemma collect_all_spec ats acc :
  Forall balanced ats → NoDup (ats ≫= ast_Addrs) →
  ∃ st', foldM collect_one acc ats = Ret (st', acc.2 ++ (ats ≫= ast_Txs)) ∧
    ∀ a x, st' !! a = Some x ↔
      ((∃ at_, at_ ∈ ats ∧ carries at_ a x) ∨ ((a ∉ (ats ≫= ast_Addrs)) ∧ acc.1 !! a = Some x)).
Proof.
  intros Hb. revert acc. induction Hb as [|at_ ats Hb0 Hb IH]; intros [st txs] Hnd.
  { exists st. cbn. rewrite app_nil_r. split; [done|]. set_solver. }
  cbn [mbind list_bind] in Hnd. apply NoDup_app in Hnd as (Hnd0 & Hdis & Hnd).
  change (list_bind _ _ ast_Addrs ats) with (ats ≫= ast_Addrs) in *.
  destruct (collect_states_spec at_ st Hb0 Hnd0) as (st1 & E1 & H1).
  destruct (IH (st1, txs ++ ast_Txs at_) Hnd) as (st2 & E2 & H2).
  exists st2. cbn [foldM]. unfold collect_one at 2. cbn [fst snd]. rewrite E1, !bind_ret, E2.
  cbn [fst snd mbind list_bind]. change (list_bind _ _ ?f ats) with (ats ≫= f).
  rewrite app_assoc. split; [done|]. intros a x. rewrite H2. cbn [fst]. rewrite H1.
  rewrite not_elem_of_app. split.
  - intros [(at' & Hin & Hc)|[Hn [Hc|[Hn0 Hx]]]].
    + left. exists at'. split; [by right|done].
    + left. exists at_. split; [by left|done].
    + right. done.
  - intros [(at' & Hin & Hc)|[[Hn0 Hn] Hx]].
    + apply elem_of_cons in Hin as [->|Hin]; [|left; eauto]. right. split; [|by left].
      apply Hdis. by eapply carries_addr.
    + right. split; [done|]. by right.
Qed.

Lemma check_received_ok p m tx :
  slice_at (cd_ModifiedMap (cdm p)) (AccountTransferRound (cdm p)) = Ret m →
  default 0 (m !! owner tx) = p_ShardID p → check_received p tx = Ret tt.
Proof.
  unfold check_received, modified_map, owner. intros -> H. rewrite bind_ret.
  destruct (Relayed tx); cbn [negb andb]; by rewrite H, Z.eqb_refl.
Qed.

(** The states of the listed addresses. *)
Lemma omap_states (states : gmap Address AccountState) (l : list Address) :
  (∀ a, a ∈ l → is_Some (states !! a)) →
  length l = length (omap (λ a, states !! a) l) ∧
  ∀ i a x, l !! i = Some a →
    omap (λ a, states !! a) l !! i = Some x ↔ states !! a = Some x.
Proof.
  induction l as [|a0 l IH]; intros Hl; [done|].
  destruct (Hl a0) as [x0 Hx0]; [by left|]. cbn. rewrite Hx0.
  destruct IH as [IH1 IH2]; [intros; apply Hl; by right|].
  change (list_omap _ _ ?f l) with (omap f l). split; [cbn; lia|].
  intros [|i] a x; cbn; [intros [= <-]; by rewrite Hx0|apply IH2].
Qed.

(** The repartition request of a shard carries exactly what the other
    shards have sent: when the messages carry disjoint accounts, and transactions
    owned by accounts the new partition gives to this shard, the proposal succeeds;
    its request lists each received account once, with the state it was sent with,
    and the current partition; and the received transactions are appended to the
    pool.  The orders in which Go visits the maps do not matter. *)
Theorem proposePartition_collects (clock : nat → Time) (now : Time) (shards : list Z)
    (addrs : gmap Address AccountState → list Address) p (m : gmap Address Z) :
  let c := cdm p in
  let ats := omap (λ s, AccountStateTx c !! s) shards in
  (∀ st : gmap Address AccountState, addrs st ≡ₚ elements (dom st)) →
  slice_at (cd_ModifiedMap c) (AccountTransferRound c) = Ret m →
  ReceivedNewAccountState c = ∅ → ReceivedNewTx c = [] →
  Forall balanced ats → NoDup (ats ≫= ast_Addrs) →
  Forall (λ tx, default 0 (m !! owner tx) = p_ShardID p) (ats ≫= ast_Txs) →
  ∃ p' atm,
    proposePartition clock now shards addrs p =
      Ret (p', (true, mkRequest PartitionReq (gobATM atm) now)) ∧
    ModifiedMap atm = m ∧ ATid atm = u64 (zlen (cd_ModifiedMap c)) ∧
    NoDup (at_Addrs atm) ∧ length (at_Addrs atm) = length (at_AccountState atm) ∧
    (∀ a x, (∃ i, at_Addrs atm !! i = Some a ∧ at_AccountState atm !! i = Some x) ↔
            (∃ at_, at_ ∈ ats ∧ carries at_ a x)) ∧
    Txpool (CurChain p') = AddTxs2Pool clock (ats ≫= ast_Txs) (Txpool (CurChain p)).
Proof.
  intros c ats Haddrs Hm Hst Htx Hb Hnd Hown. unfold proposePartition. cbv zeta. fold c ats.
  destruct (collect_all_spec ats (ReceivedNewAccountState c, ReceivedNewTx c) Hb Hnd)
    as (states & -> & Hs). cbn [fst snd]. rewrite Htx, bind_ret. cbn [app].
  set (p1 := set_cdm _ p).
  assert (foldM (λ _ tx, check_received p1 tx) tt (ats ≫= ast_Txs) = Ret tt) as ->.
  { clear -Hown Hm. induction Hown as [|tx l Htx Hl IH]; [done|]. cbn [foldM].
    by rewrite (check_received_ok p1 m) by done. }
  rewrite bind_ret. unfold modified_map. cbn [cdm set_pool set_CurChain p1 set_cdm cd_ModifiedMap
    AccountTransferRound]. rewrite Hm, bind_ret.
  destruct (omap_states states (addrs states)) as [Hl Hx].
  { intros a. rewrite Haddrs, elem_of_elements. apply elem_of_dom. }
  do 2 eexists. split; [reflexivity|]. cbn. split_and!; [done..| |exact Hl| |done].
  - rewrite Haddrs. apply NoDup_elements.
  - intros a x. specialize (Hs a x). cbn [fst] in Hs. rewrite Hst, lookup_empty in Hs.
    trans (states !! a = Some x).
    + split.
      * intros (i & Hi & Hi'). by apply (Hx i a x Hi).
      * intros Ha. assert (a ∈ addrs states) as Hin.
        { rewrite Haddrs, elem_of_elements. apply elem_of_dom. by eexists. }
        apply list_elem_of_lookup in Hin as [i Hi]. exists i. split; [done|]. by apply (Hx i a x Hi).
    + rewrite Hs. naive_solver.
Qed.

(** ** Executing the repartition *)

Lemma Update_PartitionMap_all l bc :
  NoDup l.*1 →
  foldl (λ bc kv, Update_PartitionMap kv.1 kv.2 bc) bc l =
  set_PartitionMap bc (list_to_map l ∪ PartitionMap bc).
Proof.
  revert bc. induction l as [|[k v] l IH]; intros bc Hnd.
  { cbn. rewrite map_empty_union. by destruct bc. }
  apply NoDup_cons in Hnd as [Hk Hnd]. cbn [foldl fst snd]. rewrite IH by done.
  unfold Update_PartitionMap. cbn. f_equal.
  rewrite <- insert_union_l. symmetry. apply insert_union_r. by apply not_elem_of_list_to_map_1.
Qed.

Lemma set_PartitionMap_reads bc pm addrs :
  FetchAccounts (set_PartitionMap bc pm) addrs = FetchAccounts bc addrs.
Proof. done. Qed.

(** ** The data of the repartition over a run *)

(** The operation leaves the data of the repartition and the configuration alone. *)
Definition keeps_data p p' : Prop :=
  cdm p' = cdm p ∧ pbftChainConfig p' = pbftChainConfig p.

Lemma send_to_shard_data m accts states p i p' :
  send_to_shard m accts states p i = Ret p' → keeps_data p p'.
Proof.
  unfold send_to_shard. destruct (i =? p_ShardID p); [by intros [= <-]|]. cbv zeta.
  intros E. apply bind_Ret_inv in E as (msg & _ & E). by inv_ret.
Qed.

Lemma sendAccounts_data keys p p' : sendAccounts_and_Txs keys p = Ret p' → keeps_data p p'.
Proof.
  unfold sendAccounts_and_Txs. intros E. apply bind_Ret_inv in E as (m & _ & E).
  apply bind_Ret_inv in E as (accts & _ & E). apply bind_Ret_inv in E as (states & _ & E).
  apply (foldM_inv (keeps_data p)) in E; [done| |done].
  intros q i q' _ [H1 H2] Eq. apply send_to_shard_data in Eq as [H3 H4].
  split; by etransitivity.
Qed.

Lemma relay_block_data epoch now r b ad p p' :
  relay_block epoch now r b ad p = Ret p' → keeps_data p p'.
Proof.
  unfold relay_block. cbv zeta. intros E. apply bind_Ret_inv in E as (s & _ & E).
  set (q := if ad then _ else _) in E.
  assert (keeps_data p q) as [H1 H2] by (unfold q; by destruct ad).
  clearbody q. apply bind_Ret_inv in E as (q1 & E1 & E).
  assert (keeps_data q q1) as [H3 H4].
  { revert E1. unfold RelayWithProofSend, RelayMsgSend.
    destruct (_ =? 1); destruct (negb _); try done; intros E1;
      apply bind_Ret_inv in E1 as (q2 & E2 & E1); apply send_to_shards_sent in E2 as [l ->];
      by inv_ret. }
  apply bind_Ret_inv in E as (msg & _ & E). inv_ret.
  split; cbn; by etransitivity.
Qed.

(** When the collection is over, at least as many shards as there are others have sent
    their accounts. *)
Definition collect_inv (n : Z) p : Prop :=
  ShardNums (pbftChainConfig p) = n ∧
  (CollectOver (cdm p) = true → n - 1 ≤ Z.of_nat (size (AccountStateTx (cdm p)))).

Lemma keeps_data_inv n p p' : keeps_data p p' → collect_inv n p → collect_inv n p'.
Proof. intros [H1 H2]. unfold collect_inv. by rewrite H1, H2. Qed.

Lemma accountTransfer_do_inv n atm p p' :
  accountTransfer_do atm p = Ret p' → collect_inv n p → collect_inv n p'.
Proof.
  unfold accountTransfer_do. intros E [Hn _]. apply bind_Ret_inv in E as (bc & _ & E).
  inv_ret. by split.
Qed.

Lemma outside_inv n clock t c p p' b :
  0 < n < 2 ^ 63 → Clpa_HandleMessageOutsidePBFT clock t c p = Ret (p', b) →
  collect_inv n p → collect_inv n p'.
Proof.
  intros Hn E Hi. unfold Clpa_HandleMessageOutsidePBFT in E.
  repeat match type of E with context [decide ?P] => destruct (decide P) end;
    try (apply bind_Ret_inv in E as (m & _ & E)).
  - inv_ret. by apply (keeps_data_inv n p).
  - apply bind_Ret_inv in E as (q & Eq & E). inv_ret. unfold Clpa_handleRelayWithProof, handleRelayWithProof in Eq.
    apply bind_Ret_inv in Eq as (ok & _ & Eq). inv_ret.
    apply (keeps_data_inv n p); [by destruct ok|done].
  - inv_ret. by apply (keeps_data_inv n p).
  - inv_ret. done.
  - inv_ret. destruct Hi as [Hn' Hi]. split; [done|]. cbn. intros Hc.
    destruct (Z.eqb_spec (Z.of_nat (size (<[ast_FromShard m := m]> (AccountStateTx (cdm p)))))
      (i64 (i64 (ShardNums (pbftChainConfig p)) - 1))) as [Hs|_].
    + rewrite Hn', (i64_id n), i64_id in Hs by lia. lia.
    + specialize (Hi Hc). rewrite map_size_insert. destruct (_ !! _); cbn; lia.
  - inv_ret. done.
  - by inv_ret.
Qed.

Lemma propose_inv n clock now keys shards addrs ph p p' ph' :
  Clpa_HandleinPropose clock now keys shards addrs ph p = Ret (p', ph') →
  collect_inv n p → collect_inv n p'.
Proof.
  intros E. destruct ph; unfold Clpa_HandleinPropose in E.
  - destruct (PartitionOn (cdm p)).
    + apply bind_Ret_inv in E as (q & Eq & E). injection E as <- _. unfold sendPartitionReady in Eq.
      apply bind_Ret_inv in Eq as (msg & _ & Eq). inv_ret.
      set (p1 := set_cdm _ p). intros Hi.
      assert (collect_inv n p1) as H1 by exact Hi. clearbody p1.
      generalize (seqZ 0 (i64 (ShardNums (pbftChainConfig p)))) as l. intros l. revert p1 H1.
      induction l as [|sid l IH]; intros p1 H1; [exact H1|]. cbn. apply IH. by destruct (_ =? _).
    + apply bind_Ret_inv in E as ([q [b r]] & Eq & E). injection E as <- _.
      unfold Clpa_proposeBlock, Relay_HandleinPropose in Eq.
      apply bind_Ret_inv in Eq as ([blk bc] & _ & Eq). inv_ret. done.
  - destruct (getPartitionReady p); [|by inv_ret]. apply bind_Ret_inv in E as (q & Eq & E).
    injection E as <- _. apply sendAccounts_data in Eq. by apply keeps_data_inv.
  - destruct (getCollectOver p); [|by inv_ret].
    apply bind_Ret_inv in E as ([q [b r]] & Eq & E). injection E as <- _. unfold proposePartition in Eq.
    apply bind_Ret_inv in Eq as ([st txs] & _ & Eq). apply bind_Ret_inv in Eq as (u & _ & Eq).
    apply bind_Ret_inv in Eq as (m & _ & Eq). inv_ret. done.
  - by inv_ret.
Qed.

Lemma commit_inv n now m p p' b :
  Clpa_HandleinCommit now m p = Ret (p', b) → collect_inv n p → collect_inv n p'.
Proof.
  unfold Clpa_HandleinCommit. intros E. apply bind_Ret_inv in E as (r & _ & E).
  destruct (decide _).
  - apply bind_Ret_inv in E as (atm & _ & E). apply bind_Ret_inv in E as (q & Eq & E).
    inv_ret. by eapply accountTransfer_do_inv.
  - apply bind_Ret_inv in E as (blk & _ & E). apply bind_Ret_inv in E as (bc & _ & E). cbv zeta in E.
    destruct (is_leader _).
    + apply bind_Ret_inv in E as (q & Eq & E). inv_ret. apply relay_block_data in Eq.
      intros Hi. by apply (keeps_data_inv n _ _ Eq).
    + inv_ret. done.
Qed.

(** C20 (invariant) A shard only proposes a repartition with the accounts of all the
    others: in every run of a leader from fresh data, whatever messages arrive and
    whatever is committed, when its proposal leaves the wait for the accounts, at least
    [ShardNums - 1] shards have sent theirs. *)
Theorem repartition_waits_for_all p0 p clock now keys shards addrs p' r :
  cdm p0 = NewCLPADataSupport → 0 < ShardNums (pbftChainConfig p0) < 2 ^ 63 →
  rtc cstep (p0, Begin) (p, WaitCollect) →
  Clpa_HandleinPropose clock now keys shards addrs WaitCollect p = Ret (p', Proposed r) →
  ShardNums (pbftChainConfig p0) - 1 ≤ Z.of_nat (size (AccountStateTx (cdm p))).
Proof.
  intros H0 Hn Hrun E. set (n := ShardNums (pbftChainConfig p0)) in *.
  assert (collect_inv n p) as [_ Hi].
  { assert (∀ s s' : node * phase, rtc cstep s s' → collect_inv n s.1 → collect_inv n s'.1) as H.
    { induction 1 as [|s1 s2 s3 Hs Hss IH]; [done|]. intros Hc. apply IH.
      destruct Hs; cbn [fst] in *; [by eapply outside_inv|by eapply propose_inv|by eapply commit_inv]. }
    apply (H _ _ Hrun). split; [done|]. cbn. by rewrite H0. }
  apply Hi. cbn in E. unfold getCollectOver in E. by destruct (CollectOver (cdm p)).
Qed.

Context {GL : GobLaws G} {BL : BoltLaws BO} {TL : TrieLaws T}.


End Transfer.
