(* ===== verification/TransferExamples.v ===== *)
(** * Concrete repartitions

    Two shards of one node each, serializers for the messages of a repartition, and
    the instances of the properties of [Transfer]. *)

From S2P Require Import Prelude Params Utils Interfaces Core Instances Sha256.
From S2P Require Import TxPool Storage G2E BlockChain Ledger ChainProps MerkleProof.
From S2P Require Import Messages PbftNode Pbft Relay NodeExamples Transfer.

#[export] Instance Ser_PM : Ser PartitionModifiedMap :=
  Ser_iso PartitionModified mkPM ltac:(by intros []).
#[export] Instance Ser_PReady : Ser PartitionReady :=
  Ser_iso (λ m, (FromShard m, NowSeqID m)) (λ '(a, b), mkPReady a b) ltac:(by intros []).
#[export] Instance Ser_AST : Ser AccountStateAndTx :=
  Ser_iso (λ m, (ast_Addrs m, ast_AccountState m, ast_Txs m, ast_FromShard m))
    (λ '(a, b, c, d), mkAST a b c d) ltac:(by intros []).
#[export] Instance Ser_ATM : Ser AccountTransferMsg :=
  Ser_iso (λ m, (ModifiedMap m, at_Addrs m, at_AccountState m, ATid m))
    (λ '(a, b, c, d), mkATM a b c d) ltac:(by intros []).

#[export] Instance SerATM : GobATM := {| gobATM := ser; ungobATM := parse |}.

#[local] Instance transfer_params : Params := default_params 2.

Definition pair_config (shard : Z) : ChainConfig :=
  {| ChainID := 0; cc_NodeID := 0; cc_ShardID := shard; Nodes_perShard := 1;
     ShardNums := 2; BlockSize := 2000; BlockInterval := 5000; cc_InjectSpeed := 2000;
     MaxRelayBlockSize := 10 |}.

(** The leader of shard 0 with the data [c] and the transaction queue [q]. *)
Definition pair_node (c : Data_supportCLPA) (q : list Transaction) :
    PbftConsensusNode Data_supportCLPA :=
  mkPbft (mkNode 0 0 "ip0") 0 0 (sample_chain sample_book q) (pair_config 0) sample_ips 1 0
    0 0 ∅ ∅ 7 false ∅ ∅ ∅ ∅ ∅ ∅ 1 false false ∅ c 1 [].

(** Account 4 moves to shard 1, account 5 to shard 0. *)
Definition new_partition : gmap Address Z := {["0x00000004" := 1; "0x00000005" := 0]}.

Definition moving_data : Data_supportCLPA :=
  mkCDM [new_partition] 0 ∅ [] ∅ true {[0; 1]} ∅ false.

Lemma sendAccounts_and_Txs_splits_witness :
  let p := pair_node moving_data sample_txs in
  let keys := ["0x00000004"; "0x00000005"] in
  let m := new_partition in
  let bc := CurChain p in
  let me := p_ShardID p in
  let q := TxQueue (Txpool bc) in
  let others := base.filter (λ i, i ≠ me) (shard_ids p) in
  let accts := base.filter (λ a, default 0 (m !! a) ≠ me ∧ Get_PartitionMap bc a = Ret me) keys in
  ∃ states p', sendAccounts_and_Txs keys p = Ret p' ∧
    sent p' = sent p ++ ((λ i, (ip_of p i 0, frame AccountState_and_TX
       (marshal (transfer_msg m accts states me q i)))) <$> others) ∧
    TxQueue (Txpool (CurChain p')) = staying m accts others q ∧
    q ≡ₚ TxQueue (Txpool (CurChain p')) ++
         (others ≫= λ i, ast_Txs (transfer_msg m accts states me q i)).
Proof.
  intros p keys m bc me q others accts.
  assert (∃ states, FetchAccounts bc accts = Ret states) as [states Hf].
  { unfold FetchAccounts.
    assert (trie_New (BytesToHash (StateRoot (tip bc))) (triedb bc) = Some (∅ : @Trie MapTrie))
      as -> by exact (proj1 (sample_opens sample_book sample_txs)).
    cbn [or_panic]. rewrite bind_ret.
    destruct (foldM_collect (λ a, load_account (∅ : @Trie MapTrie) a 0) (λ _ _, True) accts [])
      as (ys & E & _); [|by eauto].
    intros a _. eexists. split; [reflexivity|done]. }
  exists states. apply (sendAccounts_and_Txs_splits keys p m states).
  - reflexivity.
  - vm_compute. reflexivity.
  - exact Hf.
Defined.

(** What shard 1 has sent: account 5 and a transaction it owns. *)
Definition received : AccountStateAndTx :=
  mkAST ["0x00000005"] [mkAS "0x00000005" 3 40 "" ""]
    [sample_tx "0x00000005" "0x00000004" 1 false 0] 1.
Definition collected_data : Data_supportCLPA :=
  mkCDM [new_partition] 0 ∅ [] {[1 := received]} true {[0; 1]} ∅ true.

Lemma proposePartition_collects_witness :
  let p := pair_node collected_data [] in
  let ats := [received] in
  let addrs (st : gmap Address AccountState) := elements (dom st) in
  ∃ p' atm,
    proposePartition (λ _, 5) 6 [1] addrs p =
      Ret (p', (true, mkRequest PartitionReq (gobATM atm) 6)) ∧
    ModifiedMap atm = new_partition ∧ ATid atm = 1 ∧
    NoDup (at_Addrs atm) ∧ length (at_Addrs atm) = length (at_AccountState atm) ∧
    (∀ a x, (∃ i, at_Addrs atm !! i = Some a ∧ at_AccountState atm !! i = Some x) ↔
            (∃ at_, at_ ∈ ats ∧ carries at_ a x)) ∧
    Txpool (CurChain p') = AddTxs2Pool (λ _, 5) (ast_Txs received) (Txpool (CurChain p)).
Proof.
  intros p ats addrs.
  apply (proposePartition_collects (λ _, 5) 6 [1] addrs p new_partition).
  - reflexivity.
  - reflexivity.
  - reflexivity.
  - reflexivity.
  - apply Forall_cons; split; [reflexivity|]. apply Forall_nil. exact I.
  - apply (bool_decide_unpack _). vm_compute. exact I.
  - apply (bool_decide_unpack _). vm_compute. exact I.
Defined.

Definition sample_transfer : AccountTransferMsg :=
  mkATM new_partition ["0x00000005"] [mkAS "0x00000005" 3 40 "" ""] 1.


(** Receiving a message of the repartition. *)
Lemma outside_step {A} {SA : Ser A} (ty : MessageType) (m : A) p p' ph :
  Clpa_HandleMessageOutsidePBFT (λ _, 0) ty (marshal m) p = Ret (p', true) →
  cstep (p, ph) (p', ph).
Proof. intros E. by eapply cstep_outside. Qed.

(** A run of the leader of shard 0 up to its proposal: the new partition, its ready
    message, that of shard 1, the accounts it sends, those of shard 1. *)
Lemma repartition_waits_for_all_witness :
  let p0 := pair_node NewCLPADataSupport [] in
  ∃ p p' r, rtc cstep (p0, Begin) (p, WaitCollect) ∧
    Clpa_HandleinPropose (λ _, 0) 6 [] [1] (λ st, elements (dom st)) WaitCollect p
      = Ret (p', Proposed r) ∧
    2 - 1 ≤ Z.of_nat (size (AccountStateTx (cdm p))).
Proof.
  intros p0.
  set (p1 := handlePartitionMsg (mkPM ∅) p0).
  assert (cstep (p0, Begin) (p1, Begin)) as S1.
  { apply (outside_step CPartitionMsg (mkPM ∅)). unfold Clpa_HandleMessageOutsidePBFT, decode.
    unfold marshal, unmarshal, SerJson. rewrite parse_line_ser. reflexivity. }
  assert (∃ p2, sendPartitionReady p1 = Ret p2 ∧ CurChain p2 = CurChain p1 ∧
    seqIDMap p2 = ∅ ∧ pbftChainConfig p2 = pair_config 0 ∧
    cdm p2 = mkCDM [∅] 0 ∅ [] ∅ true {[0]} ∅ false) as (p2 & E2 & C2 & Q2 & G2 & D2).
  { unfold sendPartitionReady. rewrite (proj1 (frame_ok CPartitionReady _ eq_refl)), bind_ret.
    eexists. split; [reflexivity|]. split_and!; reflexivity. }
  assert (cstep (p1, Begin) (p2, WaitReady)) as S2.
  { apply (cstep_propose p1 Begin (λ _, 0) 0 [] [] (λ st, elements (dom st))).
    unfold Clpa_HandleinPropose. change (PartitionOn (cdm p1)) with true. cbv iota.
    rewrite E2. reflexivity. }
  set (p3 := handlePartitionReady (mkPReady 1 7) p2).
  assert (cstep (p2, WaitReady) (p3, WaitReady)) as S3.
  { apply (outside_step CPartitionReady (mkPReady 1 7)). unfold Clpa_HandleMessageOutsidePBFT, decode.
    unfold marshal, unmarshal, SerJson. rewrite parse_line_ser. reflexivity. }
  assert (cdm p3 = mkCDM [∅] 0 ∅ [] ∅ true {[1; 0]} {[1 := 7]} false) as D3.
  { cbn. rewrite D2. reflexivity. }
  assert (∃ p4, sendAccounts_and_Txs [] p3 = Ret p4) as [p4 E4].
  { unfold sendAccounts_and_Txs, modified_map. rewrite D3. cbn [cd_ModifiedMap].
    change (slice_at [∅] (zlen [∅ : gmap Address Z] - 1)) with (Ret (∅ : gmap Address Z)).
    rewrite bind_ret. unfold accounts_to_fetch. cbn [foldM]. rewrite bind_ret.
    unfold FetchAccounts. change (CurChain p3) with (CurChain p2). rewrite C2.
    change (CurChain p1) with (sample_chain sample_book []).
    rewrite (proj1 (sample_opens sample_book [])). cbn [or_panic foldM]. rewrite !bind_ret.
    destruct (send_to_shards_splits ∅ [] [] (TxQueue (Txpool (CurChain p3)))
      (shard_ids p3) [] p3) as (p4 & E & _);
      [reflexivity|apply NoDup_seqZ|set_solver| |eauto].
    unfold staying. by rewrite list_filter_all. }
  assert (cstep (p3, WaitReady) (p4, WaitCollect)) as S4.
  { apply (cstep_propose p3 WaitReady (λ _, 0) 0 [] [] (λ st, elements (dom st))).
    unfold Clpa_HandleinPropose.
    assert (getPartitionReady p3 = true) as ->.
    { unfold getPartitionReady. rewrite D3. change (seqIDMap p3) with (seqIDMap p2).
      change (pbftChainConfig p3) with (pbftChainConfig p2). rewrite Q2, G2. reflexivity. }
    rewrite E4. reflexivity. }
  apply sendAccounts_data in E4 as [D4 G4]. rewrite D3 in D4.
  set (ast := mkAST [] [] [] 1). set (p5 := handleAccountStateAndTxMsg ast p4).
  assert (cstep (p4, WaitCollect) (p5, WaitCollect)) as S5.
  { apply (outside_step AccountState_and_TX ast). unfold Clpa_HandleMessageOutsidePBFT, decode.
    unfold marshal, unmarshal, SerJson. rewrite parse_line_ser. reflexivity. }
  assert (cdm p5 = mkCDM [∅] 0 ∅ [] {[1 := ast]} true {[1; 0]} {[1 := 7]} true) as D5.
  { unfold p5, handleAccountStateAndTxMsg. cbn [cdm set_cdm]. rewrite D4, G4.
    change (pbftChainConfig p3) with (pbftChainConfig p2). rewrite G2. reflexivity. }
  assert (∃ p' r, Clpa_HandleinPropose (λ _, 0) 6 [] [1] (λ st, elements (dom st)) WaitCollect p5
    = Ret (p', Proposed r)) as (p' & r & E).
  { unfold Clpa_HandleinPropose, getCollectOver. rewrite D5. cbn [CollectOver].
    unfold proposePartition. rewrite D5. cbn. eauto. }
  assert (rtc cstep (p0, Begin) (p5, WaitCollect)) as Hrun.
  { eapply rtc_l; [exact S1|]. eapply rtc_l; [exact S2|]. eapply rtc_l; [exact S3|].
    eapply rtc_l; [exact S4|]. eapply rtc_l; [exact S5|]. apply rtc_refl. }
  exists p5, p', r. split; [exact Hrun|]. split; [exact E|].
  apply (repartition_waits_for_all p0 p5 (λ _, 0) 6 [] [1] (λ st, elements (dom st)) p' r).
  - reflexivity.
  - split; reflexivity.
  - exact Hrun.
  - exact E.
Defined.
