(* ===== verification/Injection.v ===== *)
(** * The supervisor's transaction injection

    Models src/supervisor/signal/supervisorStopModule.go (the stop signal) and
    src/supervisor/committee/committee_relay.go: reading the rows of the data set
    ([data2tx]), sending transactions to the shards in rounds ([txSending], which the
    four committees share up to the choice of the shard) and the loop of the relay
    committee over the file ([MsgSendingControl]).

    A row is what [csv.Reader.Read] returns: [None] for an error.  The fields all
    committees have, the local variable [txlist] of the loop, the stop signal and the
    messages sent so far form the record [Feeder].  Sleeping is left out. *)

From S2P Require Import Prelude Params Utils Interfaces Core Instances.
From S2P Require Import TxPool Storage G2E BlockChain MerkleProof Messages.
From Stdlib Require Import Ascii.

(** ** [signal.StopSignal] *)
Record StopSignal := mkStop { stopGap : Z; stopThreshold : Z }.

Definition NewStopSignal (stop_Threshold : Z) : StopSignal := mkStop 0 stop_Threshold.
Definition StopGap_Inc (ss : StopSignal) : StopSignal :=
  mkStop (i64 (stopGap ss + 1)) (stopThreshold ss).
Definition StopGap_Reset (ss : StopSignal) : StopSignal := mkStop 0 (stopThreshold ss).
Definition GapEnough (ss : StopSignal) : bool := stopThreshold ss <=? stopGap ss.

(** ** [new(big.Float).SetString(s)] followed by [Int]

    A string of decimal digits with an optional sign is its value rounded to the
    default precision of 64 bits (to nearest, ties to even).  Fractions, exponents,
    prefixes and infinities are left to a parameter. *)
Module BigFloat.

Class FloatSyntax := { other_float : string → option Z }.

Definition is_digit (c : ascii) : bool :=
  (48 <=? Strconv.code c) && (Strconv.code c <=? 57).

Definition dec_value (n : Z) (l : list ascii) : Z :=
  foldl (λ n c, n * 10 + (Strconv.code c - 48)) n l.

Definition round64 (n : Z) : Z :=
  let k := Z.log2 n - 63 in
  if k <=? 0 then n
  else
    let q := n / 2 ^ k in
    let r := n mod 2 ^ k in
    let half := 2 ^ (k - 1) in
    (if (half <? r) || ((half =? r) && Z.odd q) then q + 1 else q) * 2 ^ k.

(** Sign and digits of a plain decimal string. *)
Definition plain (s : string) : option (bool * list ascii) :=
  let '(neg, digits) :=
    match String.list_ascii_of_string s with
    | c :: l => if Strconv.code c =? 45 then (true, l)
                else if Strconv.code c =? 43 then (false, l) else (false, c :: l)
    | [] => (false, [])
    end in
  match digits with
  | [] => None
  | _ => if forallb is_digit digits then Some (neg, digits) else None
  end.

Definition float_int {F : FloatSyntax} (s : string) : option Z :=
  match plain s with
  | Some (neg, digits) =>
      let v := round64 (dec_value 0 digits) in Some (if neg then - v else v)
  | None => other_float s
  end.

Lemma dec_value_nonneg l n : forallb is_digit l = true → 0 ≤ n → 0 ≤ dec_value n l.
Proof.
  revert n. induction l as [|c l IH]; intros n Hl Hn; [done|].
  cbn in Hl. apply andb_true_iff in Hl as [[Hc _]%andb_true_iff Hl].
  apply IH; [done|]. lia.
Qed.

(** A number of at most 64 bits is exact, a larger one is off by at most half a unit
    of its 64th bit. *)
Lemma round64_small n : 0 ≤ n < 2 ^ 64 → round64 n = n.
Proof.
  intros Hn. unfold round64. destruct (Z.leb_spec (Z.log2 n - 63) 0) as [|Hk]; [done|].
  assert (Z.log2 n < 64); [|lia]. destruct (decide (n = 0)) as [->|]; [done|].
  apply Z.log2_lt_pow2; lia.
Qed.

Lemma round64_error n : 2 ^ 64 ≤ n → Z.abs (round64 n - n) * 2 ^ 64 ≤ n.
Proof.
  intros Hn. unfold round64. set (k := Z.log2 n - 63).
  assert (64 ≤ Z.log2 n) as Hlog by (apply Z.log2_le_pow2; lia).
  destruct (Z.leb_spec k 0) as [|Hk]; [lia|].
  assert (2 ^ (k - 1) * 2 = 2 ^ k) as Hhalf.
  { rewrite <-(Z.pow_1_r 2) at 2. rewrite <-Z.pow_add_r by lia. f_equal. lia. }
  assert (2 ^ (k - 1) * 2 ^ 64 ≤ n) as Hbig.
  { rewrite <-Z.pow_add_r by lia. replace (k - 1 + 64) with (Z.log2 n) by lia.
    apply Z.log2_spec. lia. }
  pose proof (Z.div_mod n (2 ^ k)) as Hdiv.
  pose proof (Z.mod_pos_bound n (2 ^ k)) as Hmod.
  set (q := n / 2 ^ k) in *. set (r := n mod 2 ^ k) in *.
  assert (Z.abs ((if (2 ^ (k - 1) <? r) || ((2 ^ (k - 1) =? r) && Z.odd q)
                  then q + 1 else q) * 2 ^ k - n) ≤ 2 ^ (k - 1)); [|nia].
  destruct (Z.ltb_spec (2 ^ (k - 1)) r) as [Hr|Hr]; cbn [orb]; [nia|].
  destruct (Z.eqb_spec (2 ^ (k - 1)) r); cbn [andb]; [destruct (Z.odd q)|]; nia.
Qed.

End BigFloat.

(** ** [data2tx] *)
(** [s[n:]] *)
Definition str_from (n : nat) (s : string) : string :=
  String.substring n (String.length s - n) s.

Section Data2tx.
Context {PR : Params} {BS : BitSetOps} {G : GobOps} {F : BigFloat.FloatSyntax}.

Definition parse_field (s : string) : Z := (Strconv.ParseUint (String.list_ascii_of_string s) 10).1.

(** The transaction of an accepted row; reading a field that is not there panics. *)
Definition data2tx (now : Time) (data : list string) (nonce : Z) :
    outcome (option Transaction) :=
  d3 ← slice_at data 3;
  if negb (bool_decide (d3 = "0")) then Ret None else
  d4 ← slice_at data 4;
  if negb (bool_decide (d4 = "0")) then Ret None else
  d0 ← slice_at data 0;
  d1 ← slice_at data 1;
  if negb ((16 <? String.length d0)%nat && (16 <? String.length d1)%nat
           && negb (bool_decide (d0 = d1))) then Ret None
  else
    d5 ← slice_at data 5;
    new_val ← or_panic "convert string to float failed" (BigFloat.float_int d5);
    d6 ← slice_at data 6;
    d7 ← slice_at data 7;
    d8 ← slice_at data 8;
    Ret (Some (NewTransaction (str_from 2 d0) (str_from 2 d1) new_val nonce now
                 (parse_field d6) (parse_field d7) (parse_field d8))).

End Data2tx.

(** ** Sending in rounds *)
Abbreviation IpTable := (gmap Z (gmap Z string)) (only parsing).

(** [IpNodeTable[sid][nid]]; a missing entry reads as the empty string. *)
Definition table_ip (t : gmap Z (gmap Z string)) (sid nid : Z) : string :=
  default "" (default ∅ (t !! sid) !! nid).

Section Sending.
Context {PR : Params} {JIT : Json InjectTxs}.

(** One message to the first node of every shard. *)
Definition send_round (ips : IpTable) (sendToShard : gmap Z (list Transaction)) :
    outcome (list (string * bytes)) :=
  foldM (λ out sid,
    send_msg ← MergeMessage CInject (marshal (mkInject (default [] (sendToShard !! sid)) sid));
    Ret (out ++ [(table_ip ips sid 0, send_msg)])) [] (seqZ 0 (u64 ShardNum)).

(** The loop of [txSending] from index [idx] on, [rest] being [txlist[idx:]]. *)
Fixpoint sending_loop (shardOf : Transaction → outcome Z) (ips : IpTable) (idx : Z)
    (rest : list Transaction) (sendToShard : gmap Z (list Transaction))
    (out : list (string * bytes)) : outcome (list (string * bytes)) :=
  full ← (if 0 <? idx then
            if InjectSpeed =? 0 then Panic "integer divide by zero"
            else Ret ((Z.rem idx InjectSpeed =? 0) || match rest with [] => true | _ => false end)
          else Ret false);
  '(sendToShard, out) ←
    (if full : bool then round ← send_round ips sendToShard; Ret (∅, out ++ round)
     else Ret (sendToShard, out));
  match rest with
  | [] => Ret out
  | tx :: rest =>
      sendersid ← shardOf tx;
      sending_loop shardOf ips (idx + 1) rest (map_append sendToShard sendersid tx) out
  end.

(** [txSending]: the messages sent. *)
Definition txSending (shardOf : Transaction → outcome Z) (ips : IpTable)
    (txlist : list Transaction) : outcome (list (string * bytes)) :=
  sending_loop shardOf ips 0 txlist ∅ [].

End Sending.

(** ** The loop over the data set *)
Record Feeder := mkFeeder {
  dataTotalNum : Z;
  nowDataNum : Z;
  batchDataNum : Z;
  IpNodeTable : gmap Z (gmap Z string);
  txlist : list Transaction;
  fd_Ss : StopSignal;
  outbox : list (string * bytes)
}.

(** The fields of a new committee. *)
Definition new_Feeder (ips : IpTable) (Ss : StopSignal) (dataNum batchNum : Z) : Feeder :=
  mkFeeder dataNum 0 batchNum ips [] Ss [].

Definition set_Ss (ss : StopSignal) (f : Feeder) : Feeder :=
  mkFeeder (dataTotalNum f) (nowDataNum f) (batchDataNum f) (IpNodeTable f) (txlist f) ss (outbox f).
Definition send_out (msgs : list (string * bytes)) (f : Feeder) : Feeder :=
  mkFeeder (dataTotalNum f) (nowDataNum f) (batchDataNum f) (IpNodeTable f) (txlist f) (fd_Ss f)
    (outbox f ++ msgs).
(** [txlist = append(txlist, tx); nowDataNum++] *)
Definition accept (tx : Transaction) (f : Feeder) : Feeder :=
  mkFeeder (dataTotalNum f) (i64 (nowDataNum f + 1)) (batchDataNum f) (IpNodeTable f)
    (txlist f ++ [tx]) (fd_Ss f) (outbox f).
(** The reset after a batch was sent. *)
Definition batch_done (f : Feeder) : Feeder :=
  mkFeeder (dataTotalNum f) (nowDataNum f) (batchDataNum f) (IpNodeTable f) []
    (StopGap_Reset (fd_Ss f)) (outbox f).

Definition batch_ready (f : Feeder) : bool :=
  (zlen (txlist f) =? batchDataNum f) || (nowDataNum f =? dataTotalNum f).

(** [for { data, err := reader.Read(); ... }]: [row] is the body, which also tells
    whether the loop is left; the clock of the [i]-th row is [clock i]. *)
Fixpoint read_loop {C St} (row : C → list string → St → outcome (St * bool)) (clock : nat → C)
    (rows : list (option (list string))) (s : St) : outcome St :=
  match rows with
  | [] => Ret s
  | None :: _ => Panic "csv: read error"
  | Some data :: rows =>
      '(s, stop) ← row (clock 0%nat) data s;
      if stop : bool then Ret s else read_loop row (λ i, clock (S i)) rows s
  end.

Section RelayCommittee.
Context {PR : Params} {BS : BitSetOps} {G : GobOps} {F : BigFloat.FloatSyntax}.
Context {JIT : Json InjectTxs}.

(** [RelayCommitteeModule] *)
Definition RelayCommitteeModule : Type := Feeder.
Definition NewRelayCommitteeModule (ips : IpTable) (Ss : StopSignal) (dataNum batchNum : Z) :
    RelayCommitteeModule := new_Feeder ips Ss dataNum batchNum.

(** [uint64(utils.Addr2Shard(tx.Sender))] *)
Definition sender_shard (tx : Transaction) : outcome Z :=
  s ← Addr2Shard (Sender tx); Ret (u64 s).

Definition Relay_txSending (l : list Transaction) (f : RelayCommitteeModule) :
    outcome RelayCommitteeModule :=
  msgs ← txSending sender_shard (IpNodeTable f) l; Ret (send_out msgs f).

(** One pass of the loop; the conditions are checked also after a refused row. *)
Definition relay_row (now : Time) (data : list string) (f : RelayCommitteeModule) :
    outcome (RelayCommitteeModule * bool) :=
  otx ← data2tx now data (u64 (nowDataNum f));
  let f := match otx with Some tx => accept tx f | None => f end in
  f ← (if batch_ready f then f ← Relay_txSending (txlist f) f; Ret (batch_done f) else Ret f);
  Ret (f, nowDataNum f =? dataTotalNum f).

Definition Relay_MsgSendingControl (clock : nat → Time) (file : option (list (option (list string))))
    (f : RelayCommitteeModule) : outcome RelayCommitteeModule :=
  rows ← or_panic "open" file; read_loop relay_row clock rows f.

Definition Relay_HandleBlockInfo (b : BlockInfoMsg) (f : RelayCommitteeModule) :
    RelayCommitteeModule := f.
Definition Relay_HandleOtherMessage (msg : bytes) (f : RelayCommitteeModule) :
    RelayCommitteeModule := f.

End RelayCommittee.

(** ** What [txSending] sends *)

(** The transactions cut into rounds of [n]; [cur] is the round being filled. *)
Fixpoint rounds {A} (n : Z) (cur rest : list A) : list (list A) :=
  match rest with
  | [] => match cur with [] => [] | _ => [cur] end
  | x :: rest => if zlen cur =? n then cur :: rounds n [x] rest else rounds n (cur ++ [x]) rest
  end.

Lemma rounds_concat {A} n (cur rest : list A) : concat (rounds n cur rest) = cur ++ rest.
Proof.
  revert cur. induction rest as [|x rest IH]; intros cur; cbn.
  - destruct cur; cbn; by rewrite ?app_nil_r.
  - destruct (_ =? _); cbn; rewrite IH; [done|]. by rewrite <-app_assoc.
Qed.

Lemma rounds_size {A} n (cur rest : list A) :
  0 < n → zlen cur ≤ n → Forall (λ r, 0 < zlen r ≤ n) (rounds n cur rest).
Proof.
  intros Hn. revert cur. induction rest as [|x rest IH]; intros cur Hc; cbn.
  - destruct cur; [constructor|]. apply Forall_singleton. rewrite zlen_cons in *.
    pose proof (zlen_nonneg cur). lia.
  - destruct (Z.eqb_spec (zlen cur) n).
    + constructor; [|apply IH; rewrite zlen_cons; change (zlen []) with 0; lia].
      split; [|exact Hc]. pose proof (zlen_nonneg cur). lia.
    + apply IH. autorewrite with emu. change (zlen []) with 0. lia.
Qed.

(** Every round but the last is full. *)
Lemma rounds_full {A} n (cur rest : list A) l r :
  rounds n cur rest = l ++ [r] → 0 < n → Forall (λ r, zlen r = n) l.
Proof.
  revert cur l. induction rest as [|x rest IH]; intros cur l E Hn; cbn in E.
  - destruct cur; [by destruct l|]. destruct l as [|b l]; [constructor|].
    injection E as _ E. by destruct l.
  - destruct (Z.eqb_spec (zlen cur) n).
    + destruct l as [|a l]; [constructor|]. injection E as <- E. constructor; [done|]. by eapply IH.
    + by eapply IH.
Qed.

Section SendingProps.
Context {PR : Params} {JIT : Json InjectTxs}.

(** The messages of one round: every shard gets its transactions, in order. *)
Definition round_messages (shardOf : Transaction → outcome Z) (ips : IpTable)
    (r : list Transaction) : list (string * bytes) :=
  (λ sid, (table_ip ips sid 0,
           frame CInject (marshal (mkInject (base.filter (λ tx, shardOf tx = Ret sid) r) sid))))
  <$> seqZ 0 (u64 ShardNum).

Lemma send_round_eq shardOf ips m r :
  (∀ sid, default [] (m !! sid) = base.filter (λ tx, shardOf tx = Ret sid) r) →
  send_round ips m = Ret (round_messages shardOf ips r).
Proof.
  intros Hm. unfold send_round, round_messages.
  enough (∀ l acc, foldM (λ out sid,
    send_msg ← MergeMessage CInject (marshal (mkInject (default [] (m !! sid)) sid));
    Ret (out ++ [(table_ip ips sid 0, send_msg)])) acc l = Ret (acc ++ ((λ sid, (table_ip ips sid 0,
           frame CInject (marshal (mkInject (base.filter (λ tx, shardOf tx = Ret sid) r) sid)))) <$> l)))
    as H by apply (H _ []).
  induction l as [|sid l IH]; intros acc; [by rewrite app_nil_r|].
  cbn [foldM]. rewrite Hm, (proj1 (frame_ok CInject _ eq_refl)), !bind_ret. rewrite IH, <-app_assoc. done.
Qed.

Lemma map_append_filter (shardOf : Transaction → outcome Z) (m : gmap Z (list Transaction)) r tx sid :
  (∀ k, default [] (m !! k) = base.filter (λ tx, shardOf tx = Ret k) r) →
  shardOf tx = Ret sid →
  ∀ k, default [] (map_append m sid tx !! k) = base.filter (λ tx, shardOf tx = Ret k) (r ++ [tx]).
Proof.
  intros Hm Htx k. rewrite lookup_map_append, Hm, filter_app. f_equal.
  case_decide as Hk; [subst; by rewrite filter_cons_True|].
  rewrite filter_cons_False; [done|]. congruence.
Qed.

(** The loop from any point: [cur] was collected since the last round. *)
Lemma sending_loop_eq shardOf ips idx rest m out cur :
  0 < InjectSpeed →
  (∀ tx, tx ∈ rest → is_ret (shardOf tx)) →
  (∀ sid, default [] (m !! sid) = base.filter (λ tx, shardOf tx = Ret sid) cur) →
  0 ≤ idx → zlen cur ≤ InjectSpeed → (idx = 0 ↔ cur = []) →
  (∃ k, 0 ≤ k ∧ idx = k * InjectSpeed + zlen cur) →
  sending_loop shardOf ips idx rest m out =
  Ret (out ++ (rounds InjectSpeed cur rest ≫= round_messages shardOf ips)).
Proof.
  intros Hn. revert idx m out cur. induction rest as [|tx rest IH];
    intros idx m out cur Hret Hm Hidx Hcur H0 (k & Hk & Hmod); cbn [sending_loop].
  - destruct (Z.ltb_spec 0 idx).
    + destruct (Z.eqb_spec InjectSpeed 0); [lia|]. rewrite orb_true_r, bind_ret.
      rewrite (send_round_eq _ _ _ _ Hm). cbn. f_equal.
      destruct cur; [|cbn; by rewrite app_nil_r]. assert (idx = 0) by tauto. lia.
    + assert (cur = []) as -> by (apply H0; lia). cbn. by rewrite app_nil_r.
  - destruct (Hret tx) as [sid Esid]; [by left|].
    assert (∀ tx, tx ∈ rest → is_ret (shardOf tx)) as Hret' by (intros; apply Hret; by right).
    destruct (Z.ltb_spec 0 idx) as [Hi|Hi].
    + destruct (Z.eqb_spec InjectSpeed 0); [lia|]. rewrite orb_false_r, bind_ret.
      assert (0 < zlen cur) as Hcur0.
      { destruct cur; [assert (idx = 0) by tauto; lia|].
        rewrite zlen_cons. pose proof (zlen_nonneg cur). lia. }
      assert ((Z.rem idx InjectSpeed =? 0) = (zlen cur =? InjectSpeed)) as ->.
      { rewrite Z.rem_mod_nonneg by lia. subst idx. rewrite Z.add_comm, Z_mod_plus_full.
        destruct (Z.eqb_spec (zlen cur) InjectSpeed) as [->|].
        - rewrite Z_mod_same_full. done.
        - rewrite Z.mod_small by lia. apply Z.eqb_neq. lia. }
      cbn [rounds]. destruct (Z.eqb_spec (zlen cur) InjectSpeed) as [Hfull|Hpart].
      * rewrite (send_round_eq _ _ _ _ Hm), !bind_ret. cbn beta iota. rewrite Esid, bind_ret.
        rewrite (IH (idx + 1) _ _ [tx]); [cbn; by rewrite <-app_assoc|done| |lia| |split; [lia|done]|].
        -- apply (map_append_filter _ _ []); [|done]. intros. by rewrite lookup_empty.
        -- change (zlen [tx]) with 1. lia.
        -- exists (k + 1). change (zlen [tx]) with 1. lia.
      * rewrite !bind_ret. cbn beta iota. rewrite Esid, bind_ret. apply IH; [done| |lia| | |].
        -- by apply map_append_filter.
        -- autorewrite with emu. change (zlen []) with 0. lia.
        -- split; [lia|]. intros H'. by destruct cur.
        -- exists k. autorewrite with emu. change (zlen []) with 0. lia.
    + assert (cur = []) as -> by (apply H0; lia). rewrite !bind_ret. cbn beta iota.
      rewrite Esid, bind_ret. cbn [rounds]. change (zlen []) with 0.
      destruct (Z.eqb_spec 0 InjectSpeed); [lia|].
      apply IH; [done| |lia|change (zlen ([] ++ [tx])) with 1; lia|split; [lia|done]|].
      * by apply map_append_filter.
      * exists k. change (zlen ([] ++ [tx])) with 1. change (zlen []) with 0 in Hmod. lia.
Qed.

Lemma txSending_eq shardOf ips txlist :
  0 < InjectSpeed → (∀ tx, tx ∈ txlist → is_ret (shardOf tx)) →
  txSending shardOf ips txlist =
  Ret (rounds InjectSpeed [] txlist ≫= round_messages shardOf ips).
Proof.
  intros Hn Hret. unfold txSending.
  rewrite (sending_loop_eq _ _ _ _ _ _ []); [done|done|done| |lia| |done|].
  - intros. by rewrite lookup_empty.
  - change (zlen []) with 0. lia.
  - exists 0. done.
Qed.

Lemma rounds_elem {A} n (l : list A) r x : r ∈ rounds n [] l → x ∈ r → x ∈ l.
Proof.
  intros Hr Hx. rewrite <-(rounds_concat n [] l : _ = l). apply list_elem_of_In, in_concat.
  exists r. by rewrite <-!list_elem_of_In.
Qed.

Lemma round_messages_ext shardOf shardOf' ips r :
  (∀ tx, tx ∈ r → shardOf tx = shardOf' tx) →
  round_messages shardOf ips r = round_messages shardOf' ips r.
Proof.
  intros Hr. unfold round_messages. apply list_fmap_ext. intros i sid _. do 4 f_equal.
  apply list_filter_iff_in. intros tx Htx. by rewrite Hr.
Qed.

(** [txSending], with the shard each committee chooses for a transaction:
    the transactions are sent in rounds of [InjectSpeed], in order, and only the last
    round is smaller; in a round every shard gets one message with exactly its
    transactions, in order, and nothing is lost or sent twice. *)
Theorem txSending_injects shardOf ips txlist :
  0 < InjectSpeed → 0 < ShardNum < 2 ^ 63 →
  (∀ tx, tx ∈ txlist → ∃ sid, shardOf tx = Ret sid ∧ 0 ≤ sid < ShardNum) →
  ∃ rs, txSending shardOf ips txlist = Ret (rs ≫= round_messages shardOf ips) ∧
    concat rs = txlist ∧
    Forall (λ r, 0 < zlen r ≤ InjectSpeed) rs ∧
    (∀ rs' r, rs = rs' ++ [r] → Forall (λ r, zlen r = InjectSpeed) rs') ∧
    Forall (λ r, (seqZ 0 (u64 ShardNum) ≫=
                    λ sid, base.filter (λ tx, shardOf tx = Ret sid) r) ≡ₚ r) rs.
Proof.
  intros HI HS Hsh. exists (rounds InjectSpeed [] txlist). split_and!.
  - apply txSending_eq; [done|]. intros tx Htx. destruct (Hsh tx Htx) as (sid & E & _). by exists sid.
  - apply rounds_concat.
  - apply rounds_size; [done|]. change (zlen []) with 0. lia.
  - intros rs' r E. by eapply rounds_full.
  - apply Forall_forall. intros r Hr. apply classes_perm; [apply NoDup_seqZ|].
    intros tx Htx. destruct (Hsh tx) as (sid & E & Hsid).
    { by eapply rounds_elem. }
    exists sid. split; [done|]. rewrite u64_id by (unfold is_u64, u64_mod; lia).
    apply elem_of_seqZ. lia.
Qed.

End SendingProps.

Section RelayProps.
Context {PR : Params} {BS : BitSetOps} {G : GobOps} {F : BigFloat.FloatSyntax}.
Context {JIT : Json InjectTxs}.

(** A row [data2tx] can read. *)
Definition row_ok (data : list string) : bool :=
  match data2tx 0 data 0 with Ret _ => true | Panic _ => false end.

Lemma row_ok_ret now data nonce : row_ok data = true → is_ret (data2tx now data nonce).
Proof.
  unfold row_ok, data2tx, is_ret. intros H.
  repeat match goal with
  | |- ∃ a, mbind _ ?m = _ => destruct m; cbn [mbind outcome_bind] in *; [|discriminate H]
  | |- ∃ a, (if ?b then _ else _) = _ => destruct b; cbn [mbind outcome_bind] in *; [eauto|]
  end; eauto.
Qed.

(** The transactions of the accepted rows, in order; [n] rows were accepted before. *)
Fixpoint accepted (clock : nat → Time) (n : Z) (rows : list (list string)) : list Transaction :=
  match rows with
  | [] => []
  | data :: rows =>
      match data2tx (clock 0%nat) data (u64 n) with
      | Ret (Some tx) => tx :: accepted (λ i, clock (S i)) (n + 1) rows
      | _ => accepted (λ i, clock (S i)) n rows
      end
  end.

(** The messages of one batch. *)
Definition batch_messages (ips : IpTable) (b : list Transaction) : list (string * bytes) :=
  rounds InjectSpeed [] b ≫= round_messages sender_shard ips.

Lemma sender_shard_ret tx :
  0 < ShardNum → valid_addr (Sender tx) = true → is_ret (sender_shard tx).
Proof. intros Hs Hv. unfold sender_shard. rewrite Addr2Shard_value by done. by eexists. Qed.

(** One accepted or refused row. *)
Lemma relay_row_refused now data f :
  data2tx now data (u64 (nowDataNum f)) = Ret None →
  zlen (txlist f) < batchDataNum f → nowDataNum f ≠ dataTotalNum f →
  relay_row now data f = Ret (f, false).
Proof.
  intros E Hl Hn. unfold relay_row, batch_ready. rewrite E, bind_ret. cbv beta zeta iota.
  destruct (Z.eqb_spec (zlen (txlist f)) (batchDataNum f)); [lia|].
  apply Z.eqb_neq in Hn. rewrite Hn. cbn [orb]. by rewrite bind_ret, Hn.
Qed.

Lemma relay_row_accepted now data f tx :
  0 < InjectSpeed → 0 < ShardNum →
  data2tx now data (u64 (nowDataNum f)) = Ret (Some tx) →
  Forall (λ tx, valid_addr (Sender tx) = true) (txlist f ++ [tx]) →
  relay_row now data f =
  Ret (let f1 := accept tx f in
       (if batch_ready f1
        then batch_done (send_out (batch_messages (IpNodeTable f) (txlist f1)) f1) else f1,
        nowDataNum f1 =? dataTotalNum f1)).
Proof.
  intros HI HS E Hv. unfold relay_row. rewrite E, bind_ret. cbv zeta.
  destruct (batch_ready (accept tx f)); [|done].
  unfold Relay_txSending. rewrite txSending_eq; [done|done|].
  intros x Hx. rewrite Forall_forall in Hv. by apply sender_shard_ret, Hv.
Qed.

(** The batches sent while reading [acc], [cur] being collected and [left] more
    transactions wanted, and the transactions still collected at the end. *)
Fixpoint batches {A} (b left : Z) (cur acc : list A) : list (list A) * list A :=
  match acc with
  | [] => ([], cur)
  | tx :: acc =>
      let cur := cur ++ [tx] in
      if left =? 1 then ([cur], [])
      else if zlen cur =? b then
        let '(bs, r) := batches b (left - 1) [] acc in (cur :: bs, r)
      else batches b (left - 1) cur acc
  end.

Lemma batches_spec {A} b left (cur acc : list A) :
  0 < b → 0 < left → zlen cur < b →
  let '(bs, r) := batches b left cur acc in
  Forall (λ x, zlen x ≤ b) bs ∧
  concat bs ++ r = cur ++ take (Z.to_nat left) acc ∧
  (if left <=? zlen acc then r = []
   else zlen r < b ∧ ∃ q, zlen (concat bs) = q * b).
Proof.
  intros Hb. revert left cur. induction acc as [|x acc IH]; intros left cur Hleft Hcur; cbn [batches].
  { change (zlen []) with 0. destruct (Z.leb_spec left 0); [lia|]. rewrite take_nil, app_nil_r.
    split_and!; [constructor|done|done|by exists 0]. }
  pose proof (zlen_nonneg acc). cbv zeta. assert (zlen (cur ++ [x]) = zlen cur + 1) as Hx by (by rewrite zlen_app).
  rewrite (zlen_cons x acc). destruct (Z.eqb_spec left 1) as [->|Hl].
  { destruct (Z.leb_spec 1 (zlen acc + 1)); [|lia]. cbn. rewrite app_nil_r.
    split_and!; [apply Forall_singleton; lia|by rewrite app_nil_r|done]. }
  replace (Z.to_nat left) with (S (Z.to_nat (left - 1))) by lia. cbn [firstn].
  assert ((left <=? zlen acc + 1) = (left - 1 <=? zlen acc)) as -> by lia.
  destruct (Z.eqb_spec (zlen (cur ++ [x])) b) as [Hfull|Hpart].
  - specialize (IH (left - 1) [] ltac:(lia) ltac:(done)).
    destruct (batches b (left - 1) [] acc) as [bs r]. destruct IH as (H1 & H2 & H3).
    split_and!; [constructor; [lia|done]|cbn [concat]; by rewrite <-!app_assoc, H2|].
    destruct (left - 1 <=? zlen acc); [done|]. destruct H3 as [H3 [q Hq]]. split; [done|].
    exists (q + 1). cbn [concat]. rewrite zlen_app. lia.
  - specialize (IH (left - 1) (cur ++ [x]) ltac:(lia) ltac:(lia)).
    destruct (batches b (left - 1) (cur ++ [x]) acc) as [bs r]. destruct IH as (H1 & H2 & H3).
    split_and!; [done| |done]. by rewrite H2, <-app_assoc.
Qed.

Lemma relay_loop_eq clock rows f :
  0 < InjectSpeed → 0 < ShardNum →
  Forall (λ data, row_ok data = true) rows →
  Forall (λ tx, valid_addr (Sender tx) = true)
    (txlist f ++ accepted clock (nowDataNum f) rows) →
  zlen (txlist f) < batchDataNum f → 0 ≤ nowDataNum f < dataTotalNum f →
  dataTotalNum f < 2 ^ 63 →
  let acc := accepted clock (nowDataNum f) rows in
  let left := dataTotalNum f - nowDataNum f in
  let '(bs, r) := batches (batchDataNum f) left (txlist f) acc in
  ∃ f', read_loop relay_row clock (Some <$> rows) f = Ret f' ∧
    outbox f' = outbox f ++ (bs ≫= batch_messages (IpNodeTable f)) ∧
    txlist f' = r ∧ nowDataNum f' = nowDataNum f + Z.min left (zlen acc).
Proof.
  intros HI HS. revert clock f. induction rows as [|data rows IH];
    intros clock f Hrows Hacc Hlen Hnow Htot; cbv zeta.
  { cbn. exists f. rewrite app_nil_r. change (zlen []) with 0. split_and!; [done..|lia]. }
  apply Forall_cons in Hrows as [Hd Hrows].
  destruct (row_ok_ret (clock 0%nat) data (u64 (nowDataNum f)) Hd) as [otx Eotx].
  cbn [fmap list_fmap read_loop accepted] in Hacc |- *. rewrite Eotx in Hacc |- *.
  destruct otx as [tx|];
    [|rewrite (relay_row_refused _ _ _ Eotx), bind_ret by lia; cbv beta iota; by apply IH].
  rewrite (cons_middle tx), app_assoc in Hacc. apply Forall_app in Hacc as [Htx Hacc].
  rewrite (relay_row_accepted _ _ _ _ HI HS Eotx Htx), bind_ret. cbv zeta beta iota.
  set (f1 := accept tx f) in *.
  assert (nowDataNum f1 = nowDataNum f + 1) as Hn1 by (apply i64_id; lia).
  assert (zlen (txlist f ++ [tx]) = zlen (txlist f) + 1) as Hx by (by rewrite zlen_app).
  set (acc := accepted (λ i, clock (S i)) (nowDataNum f + 1) rows) in *.
  pose proof (zlen_nonneg acc). pose proof (zlen_nonneg (txlist f)).
  rewrite zlen_cons. cbn [batches]. unfold batch_ready.
  rewrite Hn1. cbn [f1 accept txlist batchDataNum dataTotalNum] in *.
  assert ((dataTotalNum f - nowDataNum f =? 1) = (nowDataNum f + 1 =? dataTotalNum f)) as -> by lia.
  destruct (Z.eqb_spec (nowDataNum f + 1) (dataTotalNum f)).
  { rewrite orb_true_r. eexists. split; [done|]. cbn. rewrite app_nil_r. split_and!; [done..|].
    rewrite i64_id by lia. lia. }
  rewrite orb_false_r. destruct (Z.eqb_spec (zlen (txlist f ++ [tx])) (batchDataNum f)).
  - specialize (IH (λ i, clock (S i))
      (batch_done (send_out (batch_messages (IpNodeTable f) (txlist f ++ [tx])) f1)) Hrows).
    cbn [txlist nowDataNum batchDataNum dataTotalNum batch_done send_out outbox IpNodeTable] in IH.
    rewrite Hn1 in IH. fold acc in IH. cbn [f1 accept dataTotalNum batchDataNum IpNodeTable outbox app] in IH.
    specialize (IH Hacc ltac:(change (zlen []) with 0; lia) ltac:(lia) Htot).
    replace (dataTotalNum f - (nowDataNum f + 1)) with (dataTotalNum f - nowDataNum f - 1) in IH by lia.
    destruct (batches _ _ [] acc) as [bs r]. destruct IH as (f' & E1 & E2 & E3 & E4).
    exists f'. split; [exact E1|]. rewrite E2. cbn. rewrite <-app_assoc. split_and!; [done..|lia].
  - specialize (IH (λ i, clock (S i)) f1 Hrows). rewrite Hn1 in IH. fold acc in IH.
    cbn [f1 accept txlist dataTotalNum batchDataNum IpNodeTable outbox] in IH.
    specialize (IH ltac:(by apply Forall_app) ltac:(lia) ltac:(lia) Htot).
    replace (dataTotalNum f - (nowDataNum f + 1)) with (dataTotalNum f - nowDataNum f - 1) in IH by lia.
    destruct (batches _ _ (txlist f ++ [tx]) acc) as [bs r]. destruct IH as (f' & E1 & E2 & E3 & E4).
    exists f'. split_and!; [done..|lia].
Qed.

(** C24 (termination) The relay committee's loop over the data set returns and injects the
    accepted rows in order: all of the first [dataTotalNum] when the file has as many,
    and otherwise only whole batches of [batchDataNum], the rest of the file (fewer
    transactions than a batch) never being sent. *)
Theorem Relay_MsgSendingControl_injects clock rows ips Ss dataNum batchNum :
  0 < InjectSpeed → 0 < ShardNum → 0 < batchNum → 0 < dataNum < 2 ^ 63 →
  Forall (λ data, row_ok data = true) rows →
  Forall (λ tx, valid_addr (Sender tx) = true) (accepted clock 0 rows) →
  ∃ f' bs,
    Relay_MsgSendingControl clock (Some (Some <$> rows))
      (NewRelayCommitteeModule ips Ss dataNum batchNum) = Ret f' ∧
    outbox f' = bs ≫= batch_messages ips ∧
    Forall (λ b, zlen b ≤ batchNum) bs ∧
    nowDataNum f' = Z.min dataNum (zlen (accepted clock 0 rows)) ∧
    concat bs ++ txlist f' = take (Z.to_nat dataNum) (accepted clock 0 rows) ∧
    (if dataNum <=? zlen (accepted clock 0 rows) then txlist f' = []
     else zlen (txlist f') < batchNum ∧ ∃ q, zlen (concat bs) = q * batchNum).
Proof.
  intros HI HS Hb Hd Hrows Hacc.
  pose proof (relay_loop_eq clock rows (NewRelayCommitteeModule ips Ss dataNum batchNum) HI HS Hrows
    Hacc ltac:(done) ltac:(cbn; lia) ltac:(cbn; lia)) as H. cbv zeta in H.
  cbn [batchDataNum NewRelayCommitteeModule new_Feeder dataTotalNum nowDataNum txlist] in H.
  rewrite Z.sub_0_r in H.
  pose proof (batches_spec batchNum dataNum [] (accepted clock 0 rows) Hb ltac:(lia) Hb) as Hs.
  destruct (batches batchNum dataNum [] _) as [bs r].
  destruct H as (f' & E1 & E2 & E3 & E4), Hs as (S1 & S2 & S3).
  exists f', bs. subst r. by split_and!.
Qed.

(** [data2tx] on a row of at least nine fields. *)
Lemma data2tx_fields now d0 d1 d2 d3 d4 d5 d6 d7 d8 more nonce :
  data2tx now ([d0; d1; d2; d3; d4; d5; d6; d7; d8] ++ more) nonce =
  if negb (bool_decide (d3 = "0")) then Ret None
  else if negb (bool_decide (d4 = "0")) then Ret None
  else if negb ((16 <? String.length d0)%nat && (16 <? String.length d1)%nat
                && negb (bool_decide (d0 = d1))) then Ret None
  else new_val ← or_panic "convert string to float failed" (BigFloat.float_int d5);
       Ret (Some (NewTransaction (str_from 2 d0) (str_from 2 d1) new_val nonce now
                    (parse_field d6) (parse_field d7) (parse_field d8))).
Proof. reflexivity. Qed.


End RelayProps.
