(* ===== verification/BrokerCommittee.v ===== *)
(** * The brokers and the broker committee of the supervisor

    Models src/broker/broker.go and src/supervisor/committee/committee_broker.go.  A
    cross-shard transaction between two accounts that are not brokers is replaced by
    two: the sender pays the broker in the sender's shard, and, once a block with that
    transaction was reported, the broker pays the recipient in the recipient's shard.

    The broker state and its operations are also those of the CLPA broker committee
    (src/supervisor/committee/committee_clpa_broker.go), which chooses the shard of an
    address differently: the operations take [fetchModifiedMap] as an argument.  The
    file of broker addresses is an argument too, [None] when it cannot be opened.  Each
    operation is one step: the mutex sections inside it are not interleaved with those
    of another goroutine. *)

From S2P Require Import Prelude Params Utils Interfaces Core Instances Sha256.
From S2P Require Import TxPool Storage G2E BlockChain MerkleProof Messages Injection.

(** ** [broker.Broker] *)
Record Broker := mkBroker {
  BrokerRawMegs : gmap bytes BrokerRawMeg;
  BrokerAddress : list Address;
  RawTx2BrokerTx : gmap bytes (list bytes)
}.

(** [initBrokerAddr]: the first [num] lines, or all when [num] is not positive. *)
Definition initBrokerAddr (file : option (list string)) (num : Z) : list Address :=
  let fix scan (lines : list string) (num : Z) : list Address :=
    match lines with
    | [] => []
    | l :: lines => l :: (if num - 1 =? 0 then [] else scan lines (num - 1))
    end in
  scan (default [] file) num.

Definition NewBroker `{Params} (file : option (list string)) : Broker :=
  mkBroker ∅ (initBrokerAddr file BrokerNum) ∅.

Definition IsBroker (b : Broker) (address : Address) : bool :=
  existsb (λ a, bool_decide (a = address)) (BrokerAddress b).

(** ** The committee's state *)
Record BrokerCommitteeMod := mkBCM {
  bcm_feeder : Feeder;
  bcm_broker : Broker;
  brokerConfirm1Pool : gmap bytes Mag1Confirm;
  brokerConfirm2Pool : gmap bytes Mag2Confirm;
  brokerTxPool : list Transaction
}.

Definition NewBrokerCommitteeMod `{Params} (file : option (list string)) (ips : IpTable)
    (Ss : StopSignal) (dataNum batchNum : Z) : BrokerCommitteeMod :=
  mkBCM (new_Feeder ips Ss dataNum batchNum) (NewBroker file) ∅ ∅ [].

Definition set_feeder (f : Feeder) (c : BrokerCommitteeMod) : BrokerCommitteeMod :=
  mkBCM f (bcm_broker c) (brokerConfirm1Pool c) (brokerConfirm2Pool c) (brokerTxPool c).
Definition set_broker (b : Broker) (c : BrokerCommitteeMod) : BrokerCommitteeMod :=
  mkBCM (bcm_feeder c) b (brokerConfirm1Pool c) (brokerConfirm2Pool c) (brokerTxPool c).
Definition add_confirm1 (m : Mag1Confirm) (c : BrokerCommitteeMod) : BrokerCommitteeMod :=
  mkBCM (bcm_feeder c) (bcm_broker c) (<[Tx1Hash m := m]> (brokerConfirm1Pool c))
    (brokerConfirm2Pool c) (brokerTxPool c).
Definition add_confirm2 (m : Mag2Confirm) (c : BrokerCommitteeMod) : BrokerCommitteeMod :=
  mkBCM (bcm_feeder c) (bcm_broker c) (brokerConfirm1Pool c)
    (<[Tx2Hash m := m]> (brokerConfirm2Pool c)) (brokerTxPool c).

(** [b.BrokerRawMegs[d] = m] *)
Definition register_raw (d : bytes) (m : BrokerRawMeg) (b : Broker) : Broker :=
  mkBroker (<[d := m]> (BrokerRawMegs b)) (BrokerAddress b) (RawTx2BrokerTx b).
(** [b.RawTx2BrokerTx[raw] = append(b.RawTx2BrokerTx[raw], h)] *)
Definition note_broker_tx (raw h : bytes) (b : Broker) : Broker :=
  mkBroker (BrokerRawMegs b) (BrokerAddress b) (map_append (RawTx2BrokerTx b) raw h).

(** [tx.HasBroker = true; tx.SenderIsBroker = s] *)
Definition mark_broker (s : bool) (x : Transaction) : Transaction :=
  mkTx (Sender x) (Recipient x) (tx_Nonce x) (Signature x) (Value x) (TxHash x)
    (tx_Time x) (Relayed x) true s (OriginalSender x) (FinalRecipient x) (RawTxHash x)
    (G2EEnabled x) (G2EMeta x) (Height x) (PairI x) (PairJ x).
(** The fields of a broker transaction that refer to the raw one. *)
Definition set_origin (raw x : Transaction) : Transaction :=
  mkTx (Sender x) (Recipient x) (tx_Nonce x) (Signature x) (Value x) (TxHash x)
    (tx_Time x) (Relayed x) (HasBroker x) (SenderIsBroker x) (Sender raw) (Recipient raw)
    (Some (TxHash raw)) (G2EEnabled x) (G2EMeta x) (Height x) (PairI x) (PairJ x).

(** [make(..., BrokerRawMeg{Tx: tx, Broker: b})] *)
Definition raw_meg (tx : Transaction) (b : Address) : BrokerRawMeg := mkBrokerRaw tx b 0 0 0 "".

Section BrokerCommittee.
Context {PR : Params} {BS : BitSetOps} {G : GobOps} {F : BigFloat.FloatSyntax}.
Context {JIT : Json InjectTxs} {JRaw : Json BrokerRawMeg}.

(** ** The operations, for any [fetchModifiedMap] *)
Section Operations.
Variable fetch : Address → outcome Z.
Implicit Type c : BrokerCommitteeMod.

Definition broker_shard (b : Broker) (tx : Transaction) : outcome Z :=
  sendersid ← fetch (Sender tx);
  if IsBroker b (Sender tx) then fetch (Recipient tx) else Ret sendersid.

Definition Broker_txSending (l : list Transaction) c : outcome BrokerCommitteeMod :=
  msgs ← txSending (broker_shard (bcm_broker c)) (IpNodeTable (bcm_feeder c)) l;
  Ret (set_feeder (send_out msgs (bcm_feeder c)) c).

Definition getBrokerRawMagDigest (r : BrokerRawMeg) : bytes := Sha256.sum256 (marshal r).

(** The transaction to the broker, and from the broker. *)
Definition make_tx1 (now : Time) (m : BrokerType1Meg) : Transaction :=
  let ctx := br_Tx (b1_RawMeg m) in
  set_origin ctx (NewTransaction (Sender ctx) (b1_Broker m) (Value ctx) (tx_Nonce ctx) now
                    (Height ctx) (PairI ctx) (PairJ ctx)).
Definition make_tx2 (now : Time) (m : BrokerType2Meg) : Transaction :=
  let ctx := br_Tx (b2_RawMeg m) in
  set_origin ctx (NewTransaction (b2_Broker m) (Recipient ctx) (Value ctx) (tx_Nonce ctx) now
                    (Height ctx) (PairI ctx) (PairJ ctx)).

Definition type1_step (clock : nat → Time) (s : list Transaction * BrokerCommitteeMod)
    (m : BrokerType1Meg) : list Transaction * BrokerCommitteeMod :=
  let tx1 := make_tx1 (clock (length s.1)) m in
  (s.1 ++ [tx1], add_confirm1 (mkM1 (TxHash tx1) (b1_RawMeg m)) s.2).
Definition type2_step (clock : nat → Time) (s : list Transaction * BrokerCommitteeMod)
    (m : BrokerType2Meg) : list Transaction * BrokerCommitteeMod :=
  let tx2 := make_tx2 (clock (length s.1)) m in
  (s.1 ++ [tx2], add_confirm2 (mkM2 (TxHash tx2) (b2_RawMeg m)) s.2).

Definition handleBrokerType1Mes (clock : nat → Time) (megs : list BrokerType1Meg) c :
    outcome BrokerCommitteeMod :=
  let '(tx1s, c) := foldl (type1_step clock) ([], c) megs in Broker_txSending tx1s c.

Definition handleBrokerType2Mes (clock : nat → Time) (megs : list BrokerType2Meg) c :
    outcome BrokerCommitteeMod :=
  let '(tx2s, c) := foldl (type2_step clock) ([], c) megs in Broker_txSending tx2s c.

Definition handleBrokerRawMag (clock : nat → Time) (megs : list BrokerRawMeg) c :
    outcome BrokerCommitteeMod :=
  let b := foldl (λ b meg, register_raw (getBrokerRawMagDigest meg) meg b) (bcm_broker c) megs in
  handleBrokerType1Mes clock ((λ meg, mkBT1 meg 0 (br_Broker meg)) <$> megs) (set_broker b c).

(** One transaction of the loop: inner transactions and raw messages so far. *)
Definition deal_one (b : Broker) (s : list Transaction * list BrokerRawMeg) (tx : Transaction) :
    outcome (list Transaction * list BrokerRawMeg) :=
  rSid ← fetch (Recipient tx);
  sSid ← fetch (Sender tx);
  if negb (rSid =? sSid) && negb (IsBroker b (Recipient tx)) && negb (IsBroker b (Sender tx)) then
    a ← slice_at (BrokerAddress b) 0;
    Ret (s.1, s.2 ++ [raw_meg tx a])
  else
    let tx := if IsBroker b (Recipient tx) || IsBroker b (Sender tx)
              then mark_broker (IsBroker b (Sender tx)) tx else tx in
    Ret (s.1 ++ [tx], s.2).

Definition dealTxByBroker (clock : nat → Time) (txs : list Transaction) c :
    outcome (list Transaction * BrokerCommitteeMod) :=
  '(itxs, megs) ← foldM (deal_one (bcm_broker c)) ([], []) txs;
  c ← (match megs with [] => Ret c | _ => handleBrokerRawMag clock megs c end);
  Ret (itxs, c).

(** One confirmation of the loop of [handleTx1ConfirmMag]. *)
Definition confirm1_one (s : list BrokerType2Meg * Broker) (m : Mag1Confirm) :
    outcome (list BrokerType2Meg * Broker) :=
  let '(megs, b) := s in
  match BrokerRawMegs b !! getBrokerRawMagDigest (m1_RawMeg m) with
  | None => Ret (megs, b)
  | Some _ =>
      let b := note_broker_tx (TxHash (br_Tx (m1_RawMeg m))) (Tx1Hash m) b in
      a ← slice_at (BrokerAddress b) 0;
      Ret (megs ++ [mkBT2 (m1_RawMeg m) a], b)
  end.

Definition handleTx1ConfirmMag (clock : nat → Time) (l : list Mag1Confirm) c :
    outcome BrokerCommitteeMod :=
  '(megs, b) ← foldM confirm1_one ([], bcm_broker c) l;
  handleBrokerType2Mes clock megs (set_broker b c).

(** The number of finished transactions is only printed. *)
Definition handleTx2ConfirmMag (l : list Mag2Confirm) c : BrokerCommitteeMod :=
  set_broker (foldl (λ b m, note_broker_tx (TxHash (br_Tx (m2_RawMeg m))) (Tx2Hash m) b)
                (bcm_broker c) l) c.

Definition createConfirm (clock : nat → Time) (txs : list Transaction) c :
    outcome BrokerCommitteeMod :=
  let confirm1s := omap (λ tx, brokerConfirm1Pool c !! TxHash tx) txs in
  let confirm2s := omap (λ tx, brokerConfirm2Pool c !! TxHash tx) txs in
  c ← (match confirm1s with [] => Ret c | _ => handleTx1ConfirmMag clock confirm1s c end);
  Ret (match confirm2s with [] => c | _ => handleTx2ConfirmMag confirm2s c end).

Definition broker_BlockInfo (clock : nat → Time) (b : BlockInfoMsg) c :
    outcome BrokerCommitteeMod :=
  if BlockBodyLength b =? 0 then Ret c
  else createConfirm clock (Broker1Txs b ++ Broker2Txs b) c.

(** A batch: the cross-shard transactions go to the brokers, the others are sent. *)
Definition send_batch (clock : nat → Time) c : outcome BrokerCommitteeMod :=
  '(itx, c) ← dealTxByBroker clock (txlist (bcm_feeder c)) c;
  c ← Broker_txSending itx c;
  Ret (set_feeder (batch_done (bcm_feeder c)) c).

(** One pass of the loop of [MsgSendingControl]; a refused row is skipped. *)
Definition broker_row (clock : nat → Time) (data : list string) c :
    outcome (BrokerCommitteeMod * bool) :=
  otx ← data2tx (clock 0%nat) data (u64 (nowDataNum (bcm_feeder c)));
  match otx with
  | None => Ret (c, false)
  | Some tx =>
      let c := set_feeder (accept tx (bcm_feeder c)) c in
      c ← (if batch_ready (bcm_feeder c) then send_batch (λ i, clock (S i)) c else Ret c);
      Ret (c, nowDataNum (bcm_feeder c) =? dataTotalNum (bcm_feeder c))
  end.

End Operations.

(** ** [BrokerCommitteeMod] *)
Definition Broker_fetchModifiedMap (key : Address) : outcome Z :=
  s ← Addr2Shard key; Ret (u64 s).

Definition Broker_MsgSendingControl (clock : nat → nat → Time)
    (file : option (list (option (list string)))) (c : BrokerCommitteeMod) :
    outcome BrokerCommitteeMod :=
  rows ← or_panic "open" file; read_loop (broker_row Broker_fetchModifiedMap) clock rows c.

Definition Broker_HandleBlockInfo (clock : nat → Time) (b : BlockInfoMsg) (c : BrokerCommitteeMod) :
    outcome BrokerCommitteeMod := broker_BlockInfo Broker_fetchModifiedMap clock b c.
Definition Broker_HandleOtherMessage (msg : bytes) (c : BrokerCommitteeMod) :
    BrokerCommitteeMod := c.

(** ** Runs of the committee

    Between the rows of the file, block reports arrive in any order. *)
Inductive committee_step (fetch : Address → outcome Z) : BrokerCommitteeMod → BrokerCommitteeMod → Prop :=
| step_row clock data c c' stop :
    broker_row fetch clock data c = Ret (c', stop) → committee_step fetch c c'
| step_info clock b c c' :
    broker_BlockInfo fetch clock b c = Ret c' → committee_step fetch c c'.

Section Props.
Variable fetch : Address → outcome Z.
Implicit Type c : BrokerCommitteeMod.

(** A raw message as [dealTxByBroker] makes it. *)
Definition raw_ok (b : Broker) (r : BrokerRawMeg) : Prop :=
  is_ret (fetch (Sender (br_Tx r))) ∧ is_ret (fetch (Recipient (br_Tx r))) ∧
  IsBroker b (Sender (br_Tx r)) = false ∧ IsBroker b (Recipient (br_Tx r)) = false ∧
  BrokerAddress b !! 0%nat = Some (br_Broker r).

Definition registered (b : Broker) (r : BrokerRawMeg) : Prop :=
  is_Some (BrokerRawMegs b !! getBrokerRawMagDigest r) ∧ raw_ok b r.

(** Every pending confirmation belongs to a registered raw message. *)
Definition pools_ok c : Prop :=
  (∀ h m, brokerConfirm1Pool c !! h = Some m →
     Tx1Hash m = h ∧ registered (bcm_broker c) (m1_RawMeg m)) ∧
  (∀ h m, brokerConfirm2Pool c !! h = Some m →
     Tx2Hash m = h ∧ registered (bcm_broker c) (m2_RawMeg m)).

(** The brokers stay the same and registered messages stay registered. *)
Definition broker_grows (b b' : Broker) : Prop :=
  BrokerAddress b' = BrokerAddress b ∧
  ∀ d, is_Some (BrokerRawMegs b !! d) → is_Some (BrokerRawMegs b' !! d).

#[local] Instance broker_grows_preorder : PreOrder broker_grows.
Proof. split; [done|]. intros a b c [A1 A2] [B1 B2]. split; [congruence|auto]. Qed.

Lemma raw_ok_grows b b' r : broker_grows b b' → raw_ok b r → raw_ok b' r.
Proof. intros [E _]. unfold raw_ok, IsBroker. by rewrite E. Qed.

Lemma registered_grows b b' r : broker_grows b b' → registered b r → registered b' r.
Proof. intros Hg [H1 H2]. split; [by apply Hg|by eapply raw_ok_grows]. Qed.

Lemma register_raw_grows d m b : broker_grows b (register_raw d m b).
Proof. split; [done|]. intros d' Hd. cbn. rewrite lookup_insert_is_Some'. tauto. Qed.

Lemma pools_ok_ext c c' :
  broker_grows (bcm_broker c) (bcm_broker c') →
  brokerConfirm1Pool c' = brokerConfirm1Pool c → brokerConfirm2Pool c' = brokerConfirm2Pool c →
  pools_ok c → pools_ok c'.
Proof.
  intros Hg E1 E2 [H1 H2]. split; rewrite ?E1, ?E2; intros h m Hm;
    [destruct (H1 h m Hm)|destruct (H2 h m Hm)]; eauto using registered_grows.
Qed.

(** ** The transactions of the brokers *)
Definition tx1s_of (clock : nat → Time) (megs : list BrokerType1Meg) : list Transaction :=
  imap (λ i m, make_tx1 (clock i) m) megs.
Definition tx2s_of (clock : nat → Time) (megs : list BrokerType2Meg) : list Transaction :=
  imap (λ i m, make_tx2 (clock i) m) megs.

Lemma type1_fold clock megs acc c :
  let r := foldl (type1_step clock) (acc, c) megs in
  r.1 = acc ++ imap (λ i m, make_tx1 (clock (length acc + i)%nat) m) megs ∧
  bcm_feeder r.2 = bcm_feeder c ∧ bcm_broker r.2 = bcm_broker c ∧
  brokerConfirm2Pool r.2 = brokerConfirm2Pool c ∧
  ∀ h m, brokerConfirm1Pool r.2 !! h = Some m →
    brokerConfirm1Pool c !! h = Some m ∨ (Tx1Hash m = h ∧ m1_RawMeg m ∈ b1_RawMeg <$> megs).
Proof.
  revert acc c. induction megs as [|m megs IH]; intros acc c; cbv zeta.
  { cbn. rewrite app_nil_r. tauto. }
  cbn [foldl]. unfold type1_step at 2 4 6 8 10. cbn [fst snd].
  edestruct IH as (E1 & E2 & E3 & E4 & E5). split_and!; [|exact E2|exact E3|exact E4|].
  - rewrite E1, <-app_assoc. cbn. rewrite Nat.add_0_r. do 2 f_equal. apply imap_ext.
    intros i x _. cbn. rewrite length_app. cbn. do 2 f_equal. lia.
  - intros h x Hx. destruct (E5 _ _ Hx) as [Hx'|[? Hin]]; [|right; split; [done|by right]].
    cbn in Hx'. apply lookup_insert_Some in Hx' as [[<- <-]|[_ ?]]; [|by left].
    right. split; [done|]. by left.
Qed.

Lemma type2_fold clock megs acc c :
  let r := foldl (type2_step clock) (acc, c) megs in
  r.1 = acc ++ imap (λ i m, make_tx2 (clock (length acc + i)%nat) m) megs ∧
  bcm_feeder r.2 = bcm_feeder c ∧ bcm_broker r.2 = bcm_broker c ∧
  brokerConfirm1Pool r.2 = brokerConfirm1Pool c ∧
  ∀ h m, brokerConfirm2Pool r.2 !! h = Some m →
    brokerConfirm2Pool c !! h = Some m ∨ (Tx2Hash m = h ∧ m2_RawMeg m ∈ b2_RawMeg <$> megs).
Proof.
  revert acc c. induction megs as [|m megs IH]; intros acc c; cbv zeta.
  { cbn. rewrite app_nil_r. tauto. }
  cbn [foldl]. unfold type2_step at 2 4 6 8 10. cbn [fst snd].
  edestruct IH as (E1 & E2 & E3 & E4 & E5). split_and!; [|exact E2|exact E3|exact E4|].
  - rewrite E1, <-app_assoc. cbn. rewrite Nat.add_0_r. do 2 f_equal. apply imap_ext.
    intros i x _. cbn. rewrite length_app. cbn. do 2 f_equal. lia.
  - intros h x Hx. destruct (E5 _ _ Hx) as [Hx'|[? Hin]]; [|right; split; [done|by right]].
    cbn in Hx'. apply lookup_insert_Some in Hx' as [[<- <-]|[_ ?]]; [|by left].
    right. split; [done|]. by left.
Qed.

(** ** The invariant *)
Lemma Broker_txSending_pools l c c' :
  Broker_txSending fetch l c = Ret c' → pools_ok c →
  pools_ok c' ∧ broker_grows (bcm_broker c) (bcm_broker c').
Proof.
  unfold Broker_txSending. intros E Hc. apply bind_Ret_inv in E as (msgs & _ & E). inv_ret.
  split; [|done]. by eapply pools_ok_ext; [| | |exact Hc].
Qed.

Lemma handleBrokerType1Mes_pools clock megs c c' :
  handleBrokerType1Mes fetch clock megs c = Ret c' → pools_ok c →
  (∀ m, m ∈ megs → registered (bcm_broker c) (b1_RawMeg m)) →
  pools_ok c' ∧ broker_grows (bcm_broker c) (bcm_broker c').
Proof.
  unfold handleBrokerType1Mes. intros E [H1 H2] Hm.
  destruct (type1_fold clock megs [] c) as (_ & _ & Eb & E2 & Hp).
  destruct (foldl _ _ megs) as [tx1s c1]. cbn [snd] in *. rewrite <-Eb.
  apply (Broker_txSending_pools _ _ _ E). split; rewrite Eb, ?E2; [|exact H2].
  intros h m [?|[? (x & Ex & Hx)%list_elem_of_fmap]]%Hp; [by apply H1|].
  split; [done|]. rewrite Ex. by apply Hm.
Qed.

Lemma handleBrokerType2Mes_pools clock megs c c' :
  handleBrokerType2Mes fetch clock megs c = Ret c' → pools_ok c →
  (∀ m, m ∈ megs → registered (bcm_broker c) (b2_RawMeg m)) →
  pools_ok c' ∧ broker_grows (bcm_broker c) (bcm_broker c').
Proof.
  unfold handleBrokerType2Mes. intros E [H1 H2] Hm.
  destruct (type2_fold clock megs [] c) as (_ & _ & Eb & E2 & Hp).
  destruct (foldl _ _ megs) as [tx2s c1]. cbn [snd] in *. rewrite <-Eb.
  apply (Broker_txSending_pools _ _ _ E). split; rewrite Eb, ?E2; [exact H1|].
  intros h m [?|[? (x & Ex & Hx)%list_elem_of_fmap]]%Hp; [by apply H2|].
  split; [done|]. rewrite Ex. by apply Hm.
Qed.

(** Registering the raw messages of a batch. *)
Lemma register_all megs b :
  let b' := foldl (λ b meg, register_raw (getBrokerRawMagDigest meg) meg b) b megs in
  broker_grows b b' ∧ ∀ m, m ∈ megs → is_Some (BrokerRawMegs b' !! getBrokerRawMagDigest m).
Proof.
  revert b. induction megs as [|x megs IH]; intros b; cbv zeta; cbn [foldl].
  { split; [done|]. intros m Hm. by apply not_elem_of_nil in Hm. }
  destruct (IH (register_raw (getBrokerRawMagDigest x) x b)) as [Hg Hm]. split.
  { etransitivity; [apply register_raw_grows|exact Hg]. }
  intros m [->|Hin]%elem_of_cons; [|by apply Hm].
  apply Hg. cbn. by rewrite lookup_insert_eq.
Qed.

Lemma handleBrokerRawMag_pools clock megs c c' :
  handleBrokerRawMag fetch clock megs c = Ret c' → pools_ok c →
  Forall (raw_ok (bcm_broker c)) megs →
  pools_ok c' ∧ broker_grows (bcm_broker c) (bcm_broker c').
Proof.
  unfold handleBrokerRawMag. cbv zeta. intros E Hc Hm. rewrite Forall_forall in Hm.
  destruct (register_all megs (bcm_broker c)) as [Hg Hr].
  apply handleBrokerType1Mes_pools in E as [Hp Hg2].
  - split; [done|]. etransitivity; [exact Hg|exact Hg2].
  - by eapply pools_ok_ext; [exact Hg| | |exact Hc].
  - intros m (x & -> & Hx)%list_elem_of_fmap. cbn. split; [by apply Hr|].
    eapply raw_ok_grows; [exact Hg|]. by apply Hm.
Qed.

Lemma deal_fold_ok b txs s s' :
  foldM (deal_one fetch b) s txs = Ret s' → Forall (raw_ok b) s.2 → Forall (raw_ok b) s'.2.
Proof.
  intros E Hs. apply (foldM_inv (λ s, Forall (raw_ok b) s.2)) in E; [done| |done].
  clear. intros s tx s' _ Hs E. unfold deal_one in E.
  apply bind_Ret_inv in E as (rs & Er & E). apply bind_Ret_inv in E as (ss & Es & E).
  destruct (_ && _) eqn:Hx; [apply bind_Ret_inv in E as (a & Ea & E)|]; inv_ret; [|done].
  - apply Forall_app. split; [done|]. apply Forall_singleton. unfold raw_ok, is_ret.
    apply andb_true_iff in Hx as [[_ ?%negb_true_iff]%andb_true_iff ?%negb_true_iff].
    apply slice_at_lookup in Ea as [_ ?]. cbn. split_and!; eauto.
Qed.

Lemma dealTxByBroker_pools clock txs c itxs c' :
  dealTxByBroker fetch clock txs c = Ret (itxs, c') → pools_ok c →
  pools_ok c' ∧ broker_grows (bcm_broker c) (bcm_broker c').
Proof.
  unfold dealTxByBroker. intros E Hc. apply bind_Ret_inv in E as ([it megs] & Ed & E).
  apply deal_fold_ok in Ed; [|constructor]. cbn in Ed.
  apply bind_Ret_inv in E as (c1 & E1 & E). inv_ret.
  destruct megs as [|m megs]; [by inv_ret|]. by eapply handleBrokerRawMag_pools.
Qed.

Lemma confirm1_fold_ok l s s' :
  foldM confirm1_one s l = Ret s' →
  (∀ m, m ∈ l → registered s.2 (m1_RawMeg m)) → (∀ m, m ∈ s.1 → registered s.2 (b2_RawMeg m)) →
  broker_grows s.2 s'.2 ∧ ∀ m, m ∈ s'.1 → registered s'.2 (b2_RawMeg m).
Proof.
  intros E Hl Hs. apply (foldM_inv (λ s', broker_grows s.2 s'.2 ∧
    ∀ m, m ∈ s'.1 → registered s'.2 (b2_RawMeg m))) in E; [done| |done].
  clear E s'. intros [megs b] m s' Hm [Hg Hr] E. unfold confirm1_one in E. cbn [fst snd] in *.
  destruct (BrokerRawMegs b !! _); inv_ret; [|done]. cbn. split; [done|].
  intros x [Hx|Hx%list_elem_of_singleton]%elem_of_app; [by apply Hr|].
  subst x. cbn. eapply registered_grows; [|by apply Hl]. done.
Qed.

Lemma handleTx1ConfirmMag_pools clock l c c' :
  handleTx1ConfirmMag fetch clock l c = Ret c' → pools_ok c →
  (∀ m, m ∈ l → registered (bcm_broker c) (m1_RawMeg m)) →
  pools_ok c' ∧ broker_grows (bcm_broker c) (bcm_broker c').
Proof.
  unfold handleTx1ConfirmMag. intros E Hc Hl. apply bind_Ret_inv in E as ([megs b] & Ed & E).
  apply confirm1_fold_ok in Ed as [Hg Hm]; [|exact Hl|intros m Hm; by apply not_elem_of_nil in Hm].
  cbn [fst snd] in *. apply handleBrokerType2Mes_pools in E as [Hp Hg2]; [| |exact Hm].
  - split; [done|]. etransitivity; [exact Hg|exact Hg2].
  - by eapply pools_ok_ext; [exact Hg| | |exact Hc].
Qed.

Lemma handleTx2ConfirmMag_pools l c :
  pools_ok c → pools_ok (handleTx2ConfirmMag l c) ∧
  broker_grows (bcm_broker c) (bcm_broker (handleTx2ConfirmMag l c)).
Proof.
  intros Hc. assert (broker_grows (bcm_broker c) (bcm_broker (handleTx2ConfirmMag l c))) as Hg.
  { unfold handleTx2ConfirmMag. cbn. generalize (bcm_broker c) as b. clear.
    induction l as [|m l IH]; intros b; cbn; [done|]. etransitivity; [|apply IH]. done. }
  split; [|done]. by eapply pools_ok_ext; [exact Hg| | |exact Hc].
Qed.

Lemma createConfirm_pools clock txs c c' :
  createConfirm fetch clock txs c = Ret c' → pools_ok c →
  pools_ok c' ∧ broker_grows (bcm_broker c) (bcm_broker c').
Proof.
  unfold createConfirm. cbv zeta. intros E Hc.
  apply bind_Ret_inv in E as (c1 & E1 & E). injection E as <-.
  assert (pools_ok c1 ∧ broker_grows (bcm_broker c) (bcm_broker c1)) as [Hc1 Hg1].
  { destruct (omap _ _) as [|m l] eqn:El; [by inv_ret|].
    eapply handleTx1ConfirmMag_pools; [exact E1|done|]. intros x Hx. rewrite <-El in Hx.
    apply list_elem_of_omap in Hx as (tx & _ & Hx). by apply Hc in Hx as [_ ?]. }
  destruct (omap (λ tx, brokerConfirm2Pool c !! TxHash tx) _) as [|m l]; [done|].
  destruct (handleTx2ConfirmMag_pools (m :: l) c1 Hc1) as [Hc2 Hg2]. split; [done|].
  etransitivity; [exact Hg1|exact Hg2].
Qed.

Lemma BlockInfo_pools clock b c c' :
  broker_BlockInfo fetch clock b c = Ret c' → pools_ok c →
  pools_ok c' ∧ broker_grows (bcm_broker c) (bcm_broker c').
Proof.
  unfold broker_BlockInfo. intros E Hc. destruct (_ =? _); [by inv_ret|]. by eapply createConfirm_pools.
Qed.

(** Changes of the feeder do not matter. *)
Lemma set_feeder_pools f c : pools_ok c → pools_ok (set_feeder f c).
Proof. by apply pools_ok_ext. Qed.

Lemma send_batch_pools clock c c' :
  send_batch fetch clock c = Ret c' → pools_ok c →
  pools_ok c' ∧ broker_grows (bcm_broker c) (bcm_broker c').
Proof.
  unfold send_batch. intros E Hc.
  apply bind_Ret_inv in E as ([itx c2] & Ed & E). apply dealTxByBroker_pools in Ed as [Hc2 Hg2]; [|done].
  apply bind_Ret_inv in E as (c3 & Es & E). apply Broker_txSending_pools in Es as [Hc3 Hg3]; [|done].
  inv_ret. split; [by apply set_feeder_pools|]. etransitivity; [exact Hg2|exact Hg3].
Qed.

Lemma row_pools clock data c c' stop :
  broker_row fetch clock data c = Ret (c', stop) → pools_ok c →
  pools_ok c' ∧ broker_grows (bcm_broker c) (bcm_broker c').
Proof.
  unfold broker_row. intros E Hc. apply bind_Ret_inv in E as ([tx|] & _ & E); [|by inv_ret].
  cbv zeta in E. apply bind_Ret_inv in E as (c1 & E1 & E). inv_ret.
  destruct (batch_ready _); [|inv_ret; split; [by apply set_feeder_pools|done]].
  eapply send_batch_pools in E1; [exact E1|]. by apply set_feeder_pools.
Qed.

Lemma reachable_pools file ips Ss dataNum batchNum c :
  rtc (committee_step fetch) (NewBrokerCommitteeMod file ips Ss dataNum batchNum) c →
  pools_ok c ∧ BrokerAddress (bcm_broker c) = initBrokerAddr file BrokerNum.
Proof.
  intros Hr. remember (NewBrokerCommitteeMod file ips Ss dataNum batchNum) as c0 eqn:E0.
  assert (pools_ok c0 ∧ BrokerAddress (bcm_broker c0) = initBrokerAddr file BrokerNum) as H0.
  { subst c0. split; [|done]. by split; intros h m; cbn; rewrite lookup_empty. }
  clear E0. induction Hr as [|c0 c1 c2 Hs _ IH]; [done|]. apply IH. destruct H0 as [Hp Ha].
  rewrite <-Ha. destruct Hs as [clock data c c' stop E|clock b c c' E].
  - apply row_pools in E as [Hp' [Hg _]]; done.
  - apply BlockInfo_pools in E as [Hp' [Hg _]]; done.
Qed.

(** ** What is sent *)

(** The brokers' transactions go where [fetch] puts the address [to]. *)
Lemma Broker_txSending_eq (to : Transaction → Address) l c :
  0 < InjectSpeed →
  (∀ tx, tx ∈ l → broker_shard fetch (bcm_broker c) tx = fetch (to tx) ∧ is_ret (fetch (to tx))) →
  Broker_txSending fetch l c =
  Ret (set_feeder (send_out (rounds InjectSpeed [] l ≫=
         round_messages (λ tx, fetch (to tx)) (IpNodeTable (bcm_feeder c))) (bcm_feeder c)) c).
Proof.
  intros HI Hl. unfold Broker_txSending. rewrite txSending_eq, bind_ret; [|done|].
  2: { intros tx Htx. destruct (Hl tx Htx) as [-> ?]. done. }
  do 3 f_equal. apply list_bind_ext_in. intros r Hr. apply round_messages_ext.
  intros tx Htx. apply Hl. by eapply rounds_elem.
Qed.

(** The pay-out of a confirmation. *)
Definition pays_out (m : Mag1Confirm) (tx2 : Transaction) : Prop :=
  let raw := br_Tx (m1_RawMeg m) in
  Sender tx2 = br_Broker (m1_RawMeg m) ∧ Recipient tx2 = Recipient raw ∧
  Value tx2 = Value raw ∧ RawTxHash tx2 = Some (TxHash raw) ∧
  OriginalSender tx2 = Sender raw ∧ FinalRecipient tx2 = Recipient raw.

Lemma confirm1_one_eq acc b m :
  registered b (m1_RawMeg m) →
  confirm1_one (acc, b) m =
  Ret (acc ++ [mkBT2 (m1_RawMeg m) (br_Broker (m1_RawMeg m))],
       note_broker_tx (TxHash (br_Tx (m1_RawMeg m))) (Tx1Hash m) b).
Proof.
  intros [[r Er] (_ & _ & _ & _ & Ha)]. unfold confirm1_one. rewrite Er.
  by rewrite (proj2 (slice_at_lookup _ 0 (br_Broker (m1_RawMeg m)))).
Qed.

Lemma confirm1_fold_eq l acc b :
  (∀ m, m ∈ l → registered b (m1_RawMeg m)) →
  ∃ b', foldM confirm1_one (acc, b) l =
    Ret (acc ++ ((λ m, mkBT2 (m1_RawMeg m) (br_Broker (m1_RawMeg m))) <$> l), b') ∧
    broker_grows b b'.
Proof.
  revert acc b. induction l as [|m l IH]; intros acc b Hl.
  { exists b. cbn. by rewrite app_nil_r. }
  cbn [foldM]. rewrite confirm1_one_eq, bind_ret by (apply Hl; by left).
  destruct (IH (acc ++ [mkBT2 (m1_RawMeg m) (br_Broker (m1_RawMeg m))])
    (note_broker_tx (TxHash (br_Tx (m1_RawMeg m))) (Tx1Hash m) b)) as (b' & E & Hg).
  { intros x Hx. by apply (registered_grows b); [|apply Hl; right]. }
  exists b'. rewrite E, <-app_assoc. split; [done|]. by transitivity (note_broker_tx (TxHash (br_Tx (m1_RawMeg m))) (Tx1Hash m) b).
Qed.

Lemma tx2s_pay clock (l : list Mag1Confirm) :
  Forall2 pays_out l
    (tx2s_of clock ((λ m, mkBT2 (m1_RawMeg m) (br_Broker (m1_RawMeg m))) <$> l)).
Proof.
  unfold tx2s_of. apply Forall2_same_length_lookup. rewrite length_imap, length_fmap.
  split; [done|]. intros i m tx2 Hm Htx. rewrite list_lookup_imap, list_lookup_fmap, Hm in Htx.
  cbn in Htx. injection Htx as <-. by unfold pays_out.
Qed.

Lemma IsBroker_first b a : BrokerAddress b !! 0%nat = Some a → IsBroker b a = true.
Proof.
  unfold IsBroker. destruct (BrokerAddress b) as [|x l]; [done|]. intros [= ->]. cbn.
  by rewrite bool_decide_true.
Qed.

Lemma handleTx1ConfirmMag_eq clock l c :
  0 < InjectSpeed → (∀ m, m ∈ l → registered (bcm_broker c) (m1_RawMeg m)) →
  (∀ a, a ∈ BrokerAddress (bcm_broker c) → is_ret (fetch a)) →
  ∃ c' tx2s, handleTx1ConfirmMag fetch clock l c = Ret c' ∧ Forall2 pays_out l tx2s ∧
    outbox (bcm_feeder c') = outbox (bcm_feeder c) ++
      (rounds InjectSpeed [] tx2s ≫=
         round_messages (λ tx, fetch (Recipient tx)) (IpNodeTable (bcm_feeder c))) ∧
    brokerConfirm1Pool c' = brokerConfirm1Pool c.
Proof.
  intros HI Hl Ha. unfold handleTx1ConfirmMag.
  destruct (confirm1_fold_eq l [] (bcm_broker c) Hl) as (b' & -> & Hg). rewrite bind_ret.
  cbv beta iota. unfold handleBrokerType2Mes. set (megs := [] ++ _).
  destruct (type2_fold clock megs [] (set_broker b' c)) as (E1 & E2 & E3 & E4 & _).
  destruct (foldl _ _ megs) as [tx2s c1]. cbn [fst snd] in *.
  change (tx2s = tx2s_of clock megs) in E1. subst tx2s megs.
  pose proof (tx2s_pay clock l) as Hpay. cbn [app]. set (tx2s := tx2s_of clock _) in *.
  rewrite (Broker_txSending_eq Recipient); [|done|].
  { eexists _, tx2s. split; [done|]. cbn. rewrite E2, E4. by split_and!. }
  intros tx Htx. apply list_elem_of_lookup in Htx as [i Hi].
  destruct (Forall2_lookup_r _ _ _ _ _ Hpay Hi) as (m & Hm & HS & HR & _).
  destruct (Hl m) as [_ (_ & Hret & _ & _ & Hb)]; [by eapply list_elem_of_lookup_2|].
  unfold broker_shard. rewrite E3, HS, HR.
  assert (BrokerAddress b' !! 0%nat = Some (br_Broker (m1_RawMeg m))) as Hb' by (by rewrite (proj1 Hg)).
  destruct (Ha (br_Broker (m1_RawMeg m))) as [s ->]; [by eapply list_elem_of_lookup_2|].
  rewrite bind_ret. cbn [bcm_broker set_broker]. by rewrite (IsBroker_first _ _ Hb').
Qed.

(** A transaction [dealTxByBroker] gives to the brokers, and one it keeps. *)
Definition needs_broker (b : Broker) (tx : Transaction) : bool :=
  match fetch (Recipient tx), fetch (Sender tx) with
  | Ret r, Ret s => negb (r =? s) && negb (IsBroker b (Recipient tx)) && negb (IsBroker b (Sender tx))
  | _, _ => false
  end.
Definition kept_tx (b : Broker) (tx : Transaction) : Transaction :=
  if IsBroker b (Recipient tx) || IsBroker b (Sender tx)
  then mark_broker (IsBroker b (Sender tx)) tx else tx.

Lemma deal_fold_eq b a txs s :
  BrokerAddress b !! 0%nat = Some a →
  (∀ tx, tx ∈ txs → is_ret (fetch (Recipient tx)) ∧ is_ret (fetch (Sender tx))) →
  foldM (deal_one fetch b) s txs =
  Ret (s.1 ++ (kept_tx b <$> base.filter (λ tx, needs_broker b tx = false) txs),
       s.2 ++ ((λ tx, raw_meg tx a) <$> base.filter (λ tx, needs_broker b tx = true) txs)).
Proof.
  intros Ha. revert s. induction txs as [|tx txs IH]; intros s Htx.
  { cbn. rewrite !app_nil_r. by destruct s. }
  destruct (Htx tx) as [[r Er] [q Es]]; [by left|]. specialize (λ s, IH s (λ x Hx, Htx x ltac:(by right))).
  assert (deal_one fetch b s tx =
    Ret (if needs_broker b tx then (s.1, s.2 ++ [raw_meg tx a]) else (s.1 ++ [kept_tx b tx], s.2))) as E.
  { unfold deal_one, needs_broker. rewrite Er, Es, !bind_ret. destruct (_ && _); [|done].
    by rewrite (proj2 (slice_at_lookup _ 0 a)). }
  cbn [foldM]. rewrite E, bind_ret, IH. destruct (needs_broker b tx) eqn:Hn; cbn [fst snd].
  - rewrite filter_cons_False by congruence. rewrite filter_cons_True by done. by rewrite <-app_assoc.
  - rewrite filter_cons_True by done. rewrite filter_cons_False by congruence. by rewrite <-app_assoc.
Qed.

(** Every transaction to the broker awaits its confirmation. *)
Lemma type1_pool clock megs acc c :
  let r := foldl (type1_step clock) (acc, c) megs in
  (∀ h, is_Some (brokerConfirm1Pool c !! h) → is_Some (brokerConfirm1Pool r.2 !! h)) ∧
  ∀ tx, tx ∈ r.1 → tx ∈ acc ∨ is_Some (brokerConfirm1Pool r.2 !! TxHash tx).
Proof.
  revert acc c. induction megs as [|m megs IH]; intros acc c; cbv zeta; [cbn; tauto|].
  cbn [foldl]. edestruct (IH (type1_step clock (acc, c) m).1) as [H1 H2].
  rewrite (surjective_pairing (type1_step clock (acc, c) m)). split.
  - intros h Hh. apply H1. cbn. rewrite lookup_insert_is_Some'. tauto.
  - intros tx Htx. destruct (H2 tx Htx) as [Hin|?]; [|by right]. cbn in Hin.
    apply elem_of_app in Hin as [?|Hin%list_elem_of_singleton]; [by left|].
    right. subst tx. apply H1. cbn. by rewrite lookup_insert_eq.
Qed.

(** The payment to the broker for a raw transaction. *)
Definition pays_broker (a : Address) (raw tx1 : Transaction) : Prop :=
  Sender tx1 = Sender raw ∧ Recipient tx1 = a ∧ Value tx1 = Value raw ∧
  RawTxHash tx1 = Some (TxHash raw) ∧ OriginalSender tx1 = Sender raw ∧
  FinalRecipient tx1 = Recipient raw.

Lemma tx1s_pay clock a (l : list Transaction) :
  Forall2 (pays_broker a) l
    (tx1s_of clock ((λ meg, mkBT1 meg 0 (br_Broker meg)) <$> ((λ tx, raw_meg tx a) <$> l))).
Proof.
  unfold tx1s_of. apply Forall2_same_length_lookup. rewrite length_imap, !length_fmap.
  split; [done|]. intros i raw tx1 Hm Htx. rewrite list_lookup_imap, !list_lookup_fmap, Hm in Htx.
  cbn in Htx. injection Htx as <-. by unfold pays_broker.
Qed.

Lemma handleBrokerRawMag_eq clock a l c :
  0 < InjectSpeed → BrokerAddress (bcm_broker c) !! 0%nat = Some a →
  (∀ tx, tx ∈ l → is_ret (fetch (Sender tx)) ∧ IsBroker (bcm_broker c) (Sender tx) = false) →
  ∃ c' tx1s, handleBrokerRawMag fetch clock ((λ tx, raw_meg tx a) <$> l) c = Ret c' ∧
    Forall2 (pays_broker a) l tx1s ∧
    outbox (bcm_feeder c') = outbox (bcm_feeder c) ++
      (rounds InjectSpeed [] tx1s ≫=
         round_messages (λ tx, fetch (Sender tx)) (IpNodeTable (bcm_feeder c))) ∧
    (∀ tx, tx ∈ l → is_Some (BrokerRawMegs (bcm_broker c') !! getBrokerRawMagDigest (raw_meg tx a))) ∧
    ∀ tx1, tx1 ∈ tx1s → is_Some (brokerConfirm1Pool c' !! TxHash tx1).
Proof.
  intros HI Ha Hl. unfold handleBrokerRawMag. cbv zeta.
  destruct (register_all ((λ tx, raw_meg tx a) <$> l) (bcm_broker c)) as [Hg Hr].
  set (b' := foldl _ (bcm_broker c) _) in *. clearbody b'.
  unfold handleBrokerType1Mes. pose proof (tx1s_pay clock a l) as Hpay.
  set (megs := (λ meg, mkBT1 meg 0 (br_Broker meg)) <$> _) in *.
  destruct (type1_fold clock megs [] (set_broker b' c)) as (E1 & E2 & E3 & E4 & _).
  destruct (type1_pool clock megs [] (set_broker b' c)) as [_ Hp].
  destruct (foldl _ _ megs) as [tx1s c1]. cbn [fst snd] in *.
  change (tx1s = tx1s_of clock megs) in E1. rewrite <-E1 in Hpay. clear E1.
  rewrite (Broker_txSending_eq Sender); [|done|].
  - eexists _, tx1s. split; [done|]. cbn. rewrite E2, E3. split_and!; [done..| |].
    + intros tx Htx. apply Hr, list_elem_of_fmap. eauto.
    + intros tx1 Htx1. destruct (Hp tx1 Htx1) as [Hn|?]; [by apply not_elem_of_nil in Hn|done].
  - intros tx Htx. apply list_elem_of_lookup in Htx as [i Hi].
    destruct (Forall2_lookup_r _ _ _ _ _ Hpay Hi) as (raw & Hraw & HS & _).
    destruct (Hl raw) as [[q Eq] Hb]; [by eapply list_elem_of_lookup_2|].
    unfold broker_shard. rewrite E3, HS, Eq, bind_ret. cbn [bcm_broker set_broker].
    assert (IsBroker b' (Sender raw) = IsBroker (bcm_broker c) (Sender raw)) as ->
      by (unfold IsBroker; by rewrite (proj1 Hg)).
    rewrite Hb. split; [done|by exists q].
Qed.

Lemma createConfirm_eq clock txs c :
  0 < InjectSpeed → pools_ok c →
  (∀ a, a ∈ BrokerAddress (bcm_broker c) → is_ret (fetch a)) →
  ∃ c' tx2s, createConfirm fetch clock txs c = Ret c' ∧
    Forall2 pays_out (omap (λ tx, brokerConfirm1Pool c !! TxHash tx) txs) tx2s ∧
    outbox (bcm_feeder c') = outbox (bcm_feeder c) ++
      (rounds InjectSpeed [] tx2s ≫=
         round_messages (λ tx, fetch (Recipient tx)) (IpNodeTable (bcm_feeder c))) ∧
    brokerConfirm1Pool c' = brokerConfirm1Pool c.
Proof.
  intros HI [Hp _] Ha. unfold createConfirm. cbv zeta.
  set (confirmed := omap (λ tx, brokerConfirm1Pool c !! TxHash tx) txs).
  assert (∀ m, m ∈ confirmed → registered (bcm_broker c) (m1_RawMeg m)) as Hm.
  { intros m (tx & _ & Hm)%list_elem_of_omap. by apply Hp in Hm as [_ ?]. }
  clearbody confirmed. destruct (handleTx1ConfirmMag_eq clock confirmed c HI Hm Ha)
    as (c1 & tx2s & E1 & H1 & H2 & H3).
  destruct confirmed as [|m l].
  - rewrite bind_ret. eexists _, []. split; [done|].
    destruct (omap _ _); cbn; rewrite app_nil_r; (split_and!; [constructor|done..]).
  - rewrite E1, bind_ret. eexists _, tx2s. split; [done|].
    destruct (omap _ _); by split_and!.
Qed.

End Props.

(** C25 (functional) [dealTxByBroker] hands every cross-shard transaction between ordinary
    accounts to the first broker: for each, in order, one payment of the same value
    from its sender to the broker is sent to the sender's shard and awaits confirmation,
    and its raw message is registered; all other transactions are returned in order,
    those that involve a broker marked. *)
Theorem dealTxByBroker_splits fetch clock txs c a :
  0 < InjectSpeed → BrokerAddress (bcm_broker c) !! 0%nat = Some a →
  (∀ tx, tx ∈ txs → is_ret (fetch (Recipient tx)) ∧ is_ret (fetch (Sender tx))) →
  let b := bcm_broker c in
  let crossing := base.filter (λ tx, needs_broker fetch b tx = true) txs in
  ∃ c' tx1s,
    dealTxByBroker fetch clock txs c =
      Ret (kept_tx b <$> base.filter (λ tx, needs_broker fetch b tx = false) txs, c') ∧
    Forall2 (pays_broker a) crossing tx1s ∧
    outbox (bcm_feeder c') = outbox (bcm_feeder c) ++
      (rounds InjectSpeed [] tx1s ≫=
         round_messages (λ tx, fetch (Sender tx)) (IpNodeTable (bcm_feeder c))) ∧
    (∀ tx, tx ∈ crossing →
       is_Some (BrokerRawMegs (bcm_broker c') !! getBrokerRawMagDigest (raw_meg tx a))) ∧
    ∀ tx1, tx1 ∈ tx1s → is_Some (brokerConfirm1Pool c' !! TxHash tx1).
Proof.
  intros HI Ha Htx b crossing. unfold dealTxByBroker.
  rewrite (deal_fold_eq _ _ a _ _ Ha Htx), bind_ret. cbn [fst snd app]. fold b. fold crossing.
  assert (∀ tx, tx ∈ crossing → is_ret (fetch (Sender tx)) ∧ IsBroker b (Sender tx) = false) as Hc.
  { intros tx [Hn Hin]%list_elem_of_filter. destruct (Htx tx Hin) as [_ ?]. split; [done|].
    unfold needs_broker in Hn. repeat split_match; try done.
    by apply andb_true_iff in Hn as [_ ?%negb_true_iff]. }
  clearbody crossing. destruct crossing as [|x l].
  - cbn [fmap list_fmap]. rewrite bind_ret. exists c, []. cbn. rewrite app_nil_r.
    split_and!; [done|constructor|done|..]; intros tx Hx; by apply not_elem_of_nil in Hx.
  - destruct (handleBrokerRawMag_eq fetch clock a (x :: l) c HI Ha Hc)
      as (c' & tx1s & E & H1 & H2 & H3 & H4).
    cbn [fmap list_fmap] in E |- *. rewrite E, bind_ret. by exists c', tx1s.
Qed.

(** C12 (invariant) In every state the committee can reach, by rows of the file and block
    reports in any order, a report of executed payments to the broker never panics and
    makes the broker pay out each of them: exactly one transaction of the same value
    from the broker to the final recipient per reported payment, sent to the
    recipient's shard, in order.  The pool of awaited confirmations is not emptied:
    the same report pays out again. *)
Theorem broker_pays_out file ips Ss dataNum batchNum c clock b :
  0 < InjectSpeed → 0 < ShardNum → BlockBodyLength b ≠ 0 →
  Forall (λ a, valid_addr a = true) (initBrokerAddr file BrokerNum) →
  rtc (committee_step Broker_fetchModifiedMap)
    (NewBrokerCommitteeMod file ips Ss dataNum batchNum) c →
  let confirmed := omap (λ tx, brokerConfirm1Pool c !! TxHash tx) (Broker1Txs b ++ Broker2Txs b) in
  ∃ c' tx2s, Broker_HandleBlockInfo clock b c = Ret c' ∧
    Forall2 pays_out confirmed tx2s ∧
    outbox (bcm_feeder c') = outbox (bcm_feeder c) ++
      (rounds InjectSpeed [] tx2s ≫=
         round_messages (λ tx, Broker_fetchModifiedMap (Recipient tx)) (IpNodeTable (bcm_feeder c))) ∧
    brokerConfirm1Pool c' = brokerConfirm1Pool c.
Proof.
  intros HI HS Hb Hv Hr confirmed.
  apply reachable_pools in Hr as [Hp Ha]. unfold Broker_HandleBlockInfo, broker_BlockInfo.
  destruct (Z.eqb_spec (BlockBodyLength b) 0); [done|]. apply createConfirm_eq; [done..|].
  rewrite Ha. rewrite Forall_forall in Hv. intros a Hin. unfold Broker_fetchModifiedMap.
  rewrite Addr2Shard_value by auto. by eexists.
Qed.

End BrokerCommittee.
