(* ===== verification/BrokerNode.v ===== *)
(** * The broker modules of a node

    Models [RawBrokerPbftExtraHandleMod] of
    src/consensus_shard/pbft_all/pbftInside_moduleBroker.go and [RawBrokerOutsideModule]
    of pbftOutside_moduleBroker.go.  Blocks are proposed and checked as in the relay
    modules; an added block is reported to the supervisor with its transactions sorted
    into inner-shard transactions, payments to a broker and payments by a broker, and
    the other shards are told the sequence id. *)

From S2P Require Import Prelude Params Utils Interfaces Core Instances Sha256.
From S2P Require Import TxPool Storage G2E BlockChain Ledger ChainProps MerkleProof.
From S2P Require Import Messages PbftNode Pbft Relay Injection BrokerCommittee.

Section BrokerNode.
Context {PR : Params} {BS : BitSetOps} {G : GobOps} {BO : BoltOps} {T : TrieOps}.
Context {JSq : Json SeqIDinfo} {JBI : Json BlockInfoMsg} {JIT : Json InjectTxs}.
Context {D : Type}.

Abbreviation node := (PbftConsensusNode D).
Implicit Type p : node.

(** ** [RawBrokerPbftExtraHandleMod] *)
Definition Broker_HandleinPropose (clock : nat → Time) p : outcome (node * (bool * Request)) :=
  '(block, bc) ← GenerateBlock (i32 (p_NodeID p)) (clock 0%nat) (CurChain p);
  Ret (set_CurChain bc p, (true, mkRequest BlockRequest (Block_Encode block) (clock 1%nat))).

Definition Broker_HandleinPrePrepare (ppmsg : PrePrepare) p : outcome (node * bool) :=
  b ← DecodeB (Msg_Content (RequestMsg ppmsg));
  match IsValidBlock (CurChain p) b with
  | Some _ => Ret (p, false)
  | None =>
      Ret (set_requestPool (<[pp_Digest ppmsg := RequestMsg ppmsg]> (requestPool p)) p, true)
  end.

Definition Broker_HandleinPrepare (_ : Prepare) p : outcome (node * bool) := Ret (p, true).

(** The three kinds of transactions, in the order the code tests them. *)
Definition isInnerShardTx (tx : Transaction) : bool := bool_decide (RawTxHash tx = None).
Definition isBroker1Tx (tx : Transaction) : bool :=
  negb (isInnerShardTx tx) && bool_decide (Sender tx = OriginalSender tx).
Definition isBroker2Tx (tx : Transaction) : bool :=
  negb (isInnerShardTx tx) && bool_decide (Recipient tx = FinalRecipient tx).

Record broker_lists := mkBL {
  bl_inner : list Transaction;
  bl_broker1 : list Transaction;
  bl_broker2 : list Transaction
}.

Definition sort_tx (s : broker_lists) (tx : Transaction) : broker_lists :=
  if isBroker2Tx tx then mkBL (bl_inner s) (bl_broker1 s) (bl_broker2 s ++ [tx])
  else if isBroker1Tx tx then mkBL (bl_inner s) (bl_broker1 s ++ [tx]) (bl_broker2 s)
  else mkBL (bl_inner s ++ [tx]) (bl_broker1 s) (bl_broker2 s).

Definition seq_bytes p (sid : Z) : outcome bytes :=
  MergeMessage CSeqIDinfo (marshal (mkSeqID (p_ShardID p) (sequenceID p))).

(** The main node's part of [HandleinCommit]; [epoch] is the epoch of the report. *)
Definition report_block (epoch : Z) (now : Time) (r : Request) (block : Block) p : outcome node :=
  let l := foldl sort_tx (mkBL [] [] []) (Body block) in
  p ← send_to_shards seq_bytes (ShardNums (pbftChainConfig p)) p;
  msg_send ← MergeMessage CBlockInfo
    (marshal (mkBIM (zlen (Body block)) (bl_inner l) epoch (ReqTime r) now (p_ShardID p)
                [] [] (bl_broker1 l) (bl_broker2 l)));
  Ret (TcpDial msg_send (ip_of p SupervisorShard 0) p).

Definition Broker_HandleinCommit (now : Time) (cmsg : Commit) p : outcome (node * bool) :=
  r ← or_panic "nil pointer dereference" (requestPool p !! cm_Digest cmsg);
  block ← DecodeB (Msg_Content r);
  bc ← AddBlock block (CurChain p);
  let p := set_CurChain bc p in
  if is_leader p then p ← report_block 0 now r block p; Ret (p, true)
  else Ret (p, true).

Definition Broker_HandleReqestforOldSeq (_ : RequestOldMessage) p : outcome (node * bool) :=
  Ret (p, true).

(** The loop over the heights, which indexes [OldRequest]. *)
Definition add_heights (add : node → Request → outcome node) (som : SendOldMessage) p : outcome node :=
  foldM (λ p height,
    r ← slice_at (OldRequest som) (height - so_SeqStartHeight som); add p r)
    p (seqZ (so_SeqStartHeight som) (so_SeqEndHeight som - so_SeqStartHeight som + 1)).

Definition Broker_HandleforSequentialRequest (som : SendOldMessage) p : outcome (node * bool) :=
  if negb (i64 (u64 (so_SeqStartHeight som - so_SeqEndHeight som)) =? zlen (OldRequest som))
  then Ret (p, true)
  else
    p ← add_heights add_old som p;
    Ret (set_sequenceID (u64 (so_SeqEndHeight som + 1)) p, true).

Definition RawBrokerPbftExtraHandleMod : ExtraOpInConsensus (D := D) := {|
  HandleinPropose := Broker_HandleinPropose;
  HandleinPrePrepare := Broker_HandleinPrePrepare;
  HandleinPrepare := Broker_HandleinPrepare;
  HandleinCommit := Broker_HandleinCommit;
  HandleReqestforOldSeq := Broker_HandleReqestforOldSeq;
  HandleforSequentialRequest := Broker_HandleforSequentialRequest
|}.

(** ** [RawBrokerOutsideModule] *)
Definition handleSeqIDinfos (sii : SeqIDinfo) p : node :=
  set_seqID (si_SenderShardID sii) (si_SenderSeq sii) p.

Definition Broker_handleInjectTx (clock : nat → Time) (it : InjectTxs) p : node :=
  set_pool (AddTxs2Pool clock (it_Txs it) (Txpool (CurChain p))) p.

Definition Broker_HandleMessageOutsidePBFT (clock : nat → Time) (msgType : MessageType)
    (content : bytes) p : outcome (node * bool) :=
  if decide (msgType = CSeqIDinfo) then m ← decode content; Ret (handleSeqIDinfos m p, true)
  else if decide (msgType = CInject) then
    m ← decode content; Ret (Broker_handleInjectTx clock m p, true)
  else Ret (p, true).

Definition RawBrokerOutsideModule : OpInterShards (D := D) := {|
  HandleMessageOutsidePBFT := Broker_HandleMessageOutsidePBFT
|}.

(** ** The modules keep votes and round *)
Lemma report_block_same epoch now r b p p' :
  report_block epoch now r b p = Ret p' → same_votes p p' ∧ same_round p p'.
Proof.
  unfold report_block. cbv zeta. intros E. apply bind_Ret_inv in E as (q & Eq & E).
  apply send_to_shards_sent in Eq as [l ->]. apply bind_Ret_inv in E as (msg & _ & E). by inv_ret.
Qed.

Lemma add_old_same p r p' : add_old p r = Ret p' → same_votes p p' ∧ same_round p p'.
Proof. intros E. apply (add_olds_same [r] p p'). cbn. by rewrite E. Qed.

Lemma add_heights_same add som p p' :
  (∀ p r p', add p r = Ret p' → same_votes p p') → add_heights add som p = Ret p' → same_votes p p'.
Proof.
  intros Hadd E. apply (foldM_inv (λ p', same_votes p p')) in E; [done| |done].
  intros q h q' _ Hq Eq. apply bind_Ret_inv in Eq as (r & _ & Eq). apply Hadd in Eq. by etransitivity.
Qed.

#[export] Instance RawBroker_laws : ExtraOpLaws RawBrokerPbftExtraHandleMod.
Proof.
  split; cbn.
  - intros cl p p' r E. unfold Broker_HandleinPropose in E.
    apply bind_Ret_inv in E as ([blk bc] & _ & E). by inv_ret.
  - intros m p p' b E. unfold Broker_HandleinPrePrepare in E.
    apply bind_Ret_inv in E as (blk & _ & E). destruct (IsValidBlock _ _); by inv_ret.
  - intros m p p' b E. unfold Broker_HandleinPrepare in E. by inv_ret.
  - intros now m p p' b E. unfold Broker_HandleinCommit in E. cbv zeta in E.
    apply bind_Ret_inv in E as (r & _ & E). apply bind_Ret_inv in E as (blk & _ & E).
    apply bind_Ret_inv in E as (bc & _ & E). destruct (is_leader _); [|by inv_ret].
    apply bind_Ret_inv in E as (p1 & E1 & E). apply report_block_same in E1. by inv_ret.
  - intros m p p' b E. unfold Broker_HandleReqestforOldSeq in E. by inv_ret.
  - intros m p p' b E. unfold Broker_HandleforSequentialRequest in E.
    destruct (negb _); [by inv_ret|]. apply bind_Ret_inv in E as (p1 & E1 & E).
    apply add_heights_same in E1; [by inv_ret|]. intros ??? H. by apply add_old_same in H as [? _].
Qed.

#[export] Instance RawBrokerOutside_laws : OpInterShardsLaws RawBrokerOutsideModule.
Proof.
  split. cbn. intros cl t c p p' b E. unfold Broker_HandleMessageOutsidePBFT in E.
  repeat case_decide; [..|by inv_ret]; apply bind_Ret_inv in E as (m & _ & E); by inv_ret.
Qed.

(** ** The report of a block *)
Definition is_kind1 (tx : Transaction) : bool := isBroker1Tx tx && negb (isBroker2Tx tx).
Definition is_kind0 (tx : Transaction) : bool := negb (isBroker1Tx tx) && negb (isBroker2Tx tx).

Lemma sort_txs_eq l s :
  foldl sort_tx s l =
  mkBL (bl_inner s ++ base.filter (λ tx, is_kind0 tx = true) l)
       (bl_broker1 s ++ base.filter (λ tx, is_kind1 tx = true) l)
       (bl_broker2 s ++ base.filter (λ tx, isBroker2Tx tx = true) l).
Proof.
  revert s. induction l as [|tx l IH]; intros s; cbn [foldl].
  { by rewrite !app_nil_r; destruct s. }
  rewrite IH. unfold sort_tx. rewrite !filter_cons. unfold is_kind0, is_kind1.
  destruct (isBroker2Tx tx), (isBroker1Tx tx); cbn; by rewrite <-app_assoc.
Qed.

Lemma kinds_perm l :
  base.filter (λ tx, is_kind0 tx = true) l ++ base.filter (λ tx, is_kind1 tx = true) l ++
  base.filter (λ tx, isBroker2Tx tx = true) l ≡ₚ l.
Proof.
  induction l as [|tx l IH]; [done|]. rewrite !filter_cons.
  assert (is_kind0 tx = negb (isBroker1Tx tx) && negb (isBroker2Tx tx)) as -> by done.
  assert (is_kind1 tx = isBroker1Tx tx && negb (isBroker2Tx tx)) as -> by done.
  revert IH. generalize (base.filter (λ tx, is_kind0 tx = true) l) as A.
  generalize (base.filter (λ tx, is_kind1 tx = true) l) as B.
  generalize (base.filter (λ tx, isBroker2Tx tx = true) l) as C. intros C B A <-.
  destruct (isBroker2Tx tx), (isBroker1Tx tx); cbn; try done; rewrite Permutation_middle; try done;
    by rewrite (app_assoc A B), Permutation_middle, <-app_assoc.
Qed.

(** C26 (functional) When a block is committed the leader adds it, tells every other shard
    its sequence id and reports the block to the supervisor with its transactions
    sorted without loss: the brokers' payments of the committee arrive where they are
    awaited, a payment to the broker among the first kind and a pay-out by the broker
    among the second, and transactions without a raw hash count as inner-shard. *)
Theorem Broker_HandleinCommit_reports now cmsg p r block bc :
  requestPool p !! cm_Digest cmsg = Some r → DecodeB (Msg_Content r) = Ret block →
  AddBlock block (CurChain p) = Ret bc → is_leader p = true →
  ∃ p' inner b1 b2, Broker_HandleinCommit now cmsg p = Ret (p', true) ∧ CurChain p' = bc ∧
    sent p' = sent p ++
      ((λ sid, (ip_of p sid 0, frame CSeqIDinfo (marshal (mkSeqID (p_ShardID p) (sequenceID p)))))
         <$> base.filter (λ sid, sid ≠ p_ShardID p) (seqZ 0 (ShardNums (pbftChainConfig p)))) ++
      [(ip_of p SupervisorShard 0, frame CBlockInfo
         (marshal (mkBIM (zlen (Body block)) inner 0 (ReqTime r) now (p_ShardID p) [] [] b1 b2)))] ∧
    inner ++ b1 ++ b2 ≡ₚ Body block ∧
    (∀ tx, tx ∈ Body block → RawTxHash tx = None → tx ∈ inner) ∧
    (∀ a raw tx1, tx1 ∈ Body block → pays_broker a raw tx1 → a ≠ Recipient raw → tx1 ∈ b1) ∧
    (∀ m tx2, tx2 ∈ Body block → pays_out m tx2 → tx2 ∈ b2).
Proof.
  intros Hr Hb Ha Hl. unfold Broker_HandleinCommit. rewrite Hr. cbn [or_panic].
  rewrite bind_ret, Hb, bind_ret, Ha, bind_ret. cbv zeta.
  assert (is_leader (set_CurChain bc p) = true) as -> by done.
  unfold report_block. cbv zeta. rewrite sort_txs_eq. cbn [bl_inner bl_broker1 bl_broker2 app].
  rewrite (send_to_shards_eq seq_bytes (λ _, frame CSeqIDinfo (marshal (mkSeqID (p_ShardID p) (sequenceID p))))).
  2: { intros l sid. unfold seq_bytes. by rewrite (proj1 (frame_ok CSeqIDinfo _ eq_refl)). }
  rewrite bind_ret, (proj1 (frame_ok CBlockInfo _ eq_refl)), !bind_ret.
  eexists _, _, _, _. split; [reflexivity|]. split_and!.
  - done.
  - cbn. by rewrite <-app_assoc.
  - apply kinds_perm.
  - intros tx Hin Hraw. apply list_elem_of_filter. split; [|done].
    unfold is_kind0, isBroker1Tx, isBroker2Tx, isInnerShardTx. by rewrite bool_decide_true.
  - intros a raw tx1 Hin (HS & HR & _ & Hraw & HO & HF) Hne. apply list_elem_of_filter. split; [|done].
    unfold is_kind1, isBroker1Tx, isBroker2Tx, isInnerShardTx. rewrite Hraw, HS, HO, HR, HF.
    by rewrite bool_decide_false, bool_decide_true, bool_decide_false.
  - intros m tx2 Hin (HS & HR & _ & Hraw & HO & HF). apply list_elem_of_filter. split; [|done].
    unfold isBroker2Tx, isInnerShardTx. rewrite Hraw, HR, HF.
    by rewrite bool_decide_false, bool_decide_true.
Qed.

(** A node of a broker shard that was left behind cannot catch up: whatever
    blocks it is sent, from [SeqStartHeight] up to [SeqEndHeight], it either ignores them
    or panics, because the expected number is computed with the bounds exchanged. *)
Theorem broker_node_never_catches_up som p :
  0 ≤ so_SeqStartHeight som ≤ so_SeqEndHeight som → so_SeqEndHeight som < 2 ^ 63 →
  Broker_HandleforSequentialRequest som p =
  if (so_SeqStartHeight som =? so_SeqEndHeight som) && (zlen (OldRequest som) =? 0)
  then Panic "index out of range" else Ret (p, true).
Proof.
  intros Hs He. unfold Broker_HandleforSequentialRequest.
  assert (i64 (u64 (so_SeqStartHeight som - so_SeqEndHeight som)) =
          so_SeqStartHeight som - so_SeqEndHeight som) as ->.
  { rewrite <-(i64_id (so_SeqStartHeight som - so_SeqEndHeight som)) at 2 by lia.
    unfold i64, u64. by rewrite Z.mod_mod. }
  pose proof (zlen_nonneg (OldRequest som)).
  destruct (Z.eqb_spec (so_SeqStartHeight som) (so_SeqEndHeight som)) as [E|];
    destruct (Z.eqb_spec (zlen (OldRequest som)) 0) as [E0|];
    destruct (Z.eqb_spec (so_SeqStartHeight som - so_SeqEndHeight som) (zlen (OldRequest som)));
    cbn [negb andb]; try done; try lia.
  unfold add_heights. rewrite E, Z.sub_diag.
  rewrite seqZ_cons by lia. cbn [foldM]. rewrite Z.sub_diag.
  destruct (OldRequest som); [done|]. rewrite zlen_cons in E0. pose proof (zlen_nonneg l). lia.
Qed.

(** ** Funds of a brokered transfer *)


End BrokerNode.
