(* ===== verification/ClpaCommittee.v ===== *)
(** * The committees that repartition the accounts

    Models src/supervisor/committee/committee_clpa.go and
    src/supervisor/committee/committee_clpa_broker.go.  While it injects transactions
    the supervisor collects a graph of executed transactions from the block reports;
    from time to time it runs CLPA on the graph, broadcasts the accounts that move and
    waits until a shard reports a block of the new epoch.

    The fields both committees add to the others form the record [ClpaPart].
    [MsgSendingControl] waits for other goroutines, so it is a step relation over its
    control points ([ctl]); a block report may be handled between any two steps.  The
    orders of Go's map iterations are arguments of the partition step. *)

From S2P Require Import Prelude Params Utils Interfaces Core Instances Sha256.
From S2P Require Import TxPool Storage G2E BlockChain MerkleProof Messages Pbft CLPA.
From S2P Require Import Injection BrokerCommittee.

(** ** The CLPA fields *)
Record ClpaPart := mkCP {
  curEpoch : Z;
  clpaGraph : CLPAState;
  modifiedMap : gmap Address Z;
  clpaLastRunningTime : Time;
  clpaFreq : Z;
  clpaCnt : Z      (* the local variable of [MsgSendingControl] *)
}.

Definition set_curEpoch (e : Z) (k : ClpaPart) : ClpaPart :=
  mkCP e (clpaGraph k) (modifiedMap k) (clpaLastRunningTime k) (clpaFreq k) (clpaCnt k).
Definition set_clpaGraph (g : CLPAState) (k : ClpaPart) : ClpaPart :=
  mkCP (curEpoch k) g (modifiedMap k) (clpaLastRunningTime k) (clpaFreq k) (clpaCnt k).
Definition set_lastTime (t : Time) (k : ClpaPart) : ClpaPart :=
  mkCP (curEpoch k) (clpaGraph k) (modifiedMap k) t (clpaFreq k) (clpaCnt k).

(** [new(partition.CLPAState)] *)
Definition zero_CLPA : CLPAState := mkCLPA empty_graph ∅ [] [] (of_int 0) 0 0 0 0.
(** The constant 0.5. *)
Definition one_half : float64 := fdiv (of_int 1) (of_int 2).

(** [time.Since(t)], a duration that saturates. *)
Definition Since (now t : Time) : Z := Z.max (- 2 ^ 63) (Z.min (2 ^ 63 - 1) (now - t)).

Section ClpaPart.
Context {PR : Params} {JPM : Json PartitionModifiedMap}.
Implicit Type k : ClpaPart.

Definition new_graph : CLPAState := Init_CLPAState one_half 100 ShardNum zero_CLPA.

Definition new_ClpaPart (clpaFrequency : Z) : ClpaPart :=
  mkCP 0 new_graph ∅ 0 clpaFrequency 0.

Definition fetchModifiedMap k (key : Address) : outcome Z :=
  match modifiedMap k !! key with
  | None => s ← Addr2Shard key; Ret (u64 s)
  | Some val => Ret val
  end.

(** The timer ran out. *)
Definition timer_due (now : Time) k : bool :=
  i64 (clpaFreq k * 1000000000) <=? Since now (clpaLastRunningTime k).

(** [if clpaLastRunningTime.IsZero() { clpaLastRunningTime = time.Now() }] *)
Definition start_timer (now : Time) k : ClpaPart :=
  if IsZero (clpaLastRunningTime k) then set_lastTime now k else k.

(** The messages of [clpaMapSend]. *)
Definition clpaMapSend (ips : IpTable) (m : gmap Address Z) : outcome (list (string * bytes)) :=
  send_msg ← MergeMessage CPartitionMsg (marshal (mkPM m));
  Ret ((λ i, (table_ip ips i 0, send_msg)) <$> seqZ 0 (u64 ShardNum)).

Definition clpaReset k : ClpaPart :=
  set_clpaGraph
    (set_partition (kmap mkVertex (i64 <$> modifiedMap k)) (VertexsNumInShard new_graph) new_graph) k.

(** The section of [MsgSendingControl] under [clpaLock]. *)
Definition repartition (eorder1 : list Vertex) (orders : nat → list Vertex) (eorder2 : list Vertex)
    (ips : IpTable) k : outcome (ClpaPart * list (string * bytes)) :=
  '((mmap, _), g) ← CLPA_Partition eorder1 orders eorder2 (clpaGraph k);
  msgs ← clpaMapSend ips mmap;
  Ret (clpaReset (mkCP (curEpoch k) g (mmap ∪ modifiedMap k) (clpaLastRunningTime k) (clpaFreq k)
                    (i64 (clpaCnt k + 1))), msgs).

(** [atomic.LoadInt32(&curEpoch) == int32(clpaCnt)] *)
Definition epoch_reached k : bool := curEpoch k =? i32 (clpaCnt k).

(** [atomic.CompareAndSwapInt32(&curEpoch, int32(b.Epoch-1), int32(b.Epoch))] *)
Definition swap_epoch (b : BlockInfoMsg) k : ClpaPart :=
  if curEpoch k =? i32 (i64 (Epoch b - 1)) then set_curEpoch (i32 (Epoch b)) k else k.

(** Adding the edges of reported transactions. *)
Definition add_edges (l : list (Address * Address)) k : outcome ClpaPart :=
  g ← foldM (λ g e, AddEdge (mkVertex e.1) (mkVertex e.2) g) (clpaGraph k) l;
  Ret (set_clpaGraph g k).

End ClpaPart.

(** ** [CLPACommitteeModule] *)
Record CLPACommitteeModule := mkCLC { clc_feeder : Feeder; clc_part : ClpaPart }.

(** The points where [MsgSendingControl] may wait: reading the next row, waiting for the
    epoch with rows left, the loop after the file, its waiting, and the end. *)
Inductive ctl :=
| Reading (rows : list (option (list string)))
| WaitEpoch (rows : list (option (list string)))
| Draining
| WaitDrain
| Finished.

Section Clpa.
Context {PR : Params} {BS : BitSetOps} {G : GobOps} {F : BigFloat.FloatSyntax}.
Context {JIT : Json InjectTxs} {JPM : Json PartitionModifiedMap}.
Implicit Type c : CLPACommitteeModule.

Definition NewCLPACommitteeModule (ips : IpTable) (Ss : StopSignal) (dataNum batchNum freq : Z) :
    CLPACommitteeModule := mkCLC (new_Feeder ips Ss dataNum batchNum) (new_ClpaPart freq).

Definition on_part (f : ClpaPart → ClpaPart) c : CLPACommitteeModule :=
  mkCLC (clc_feeder c) (f (clc_part c)).
Definition on_feeder (f : Feeder → Feeder) c : CLPACommitteeModule :=
  mkCLC (f (clc_feeder c)) (clc_part c).

Definition Clpa_txSending (l : list Transaction) c : outcome CLPACommitteeModule :=
  msgs ← txSending (λ tx, fetchModifiedMap (clc_part c) (Sender tx)) (IpNodeTable (clc_feeder c)) l;
  Ret (on_feeder (send_out msgs) c).

(** The body of the loop up to the repartition; tells whether the row was accepted. *)
Definition clpa_row (clock : nat → Time) (data : list string) c :
    outcome (CLPACommitteeModule * bool) :=
  otx ← data2tx (clock 0%nat) data (u64 (nowDataNum (clc_feeder c)));
  match otx with
  | None => Ret (c, false)
  | Some tx =>
      let c := on_feeder (accept tx) c in
      c ← (if batch_ready (clc_feeder c) then
             c ← Clpa_txSending (txlist (clc_feeder c)) (on_part (start_timer (clock 1%nat)) c);
             Ret (on_feeder batch_done c)
           else Ret c);
      Ret (c, true)
  end.

(** The condition of the repartition inside the loop. *)
Definition repartition_due (now : Time) k : bool :=
  (1 <? ShardNum) && negb (IsZero (clpaLastRunningTime k)) && timer_due now k.

Definition Clpa_repartition (o1 : list Vertex) (orders : nat → list Vertex) (o2 : list Vertex) c :
    outcome CLPACommitteeModule :=
  '(k, msgs) ← repartition o1 orders o2 (IpNodeTable (clc_feeder c)) (clc_part c);
  Ret (mkCLC (send_out msgs (clc_feeder c)) k).

(** Where the loop goes after a row. *)
Definition next_row (f : Feeder) (rows : list (option (list string))) : ctl :=
  if nowDataNum f =? dataTotalNum f then Draining else Reading rows.

Definition info_edges (b : BlockInfoMsg) : list (Address * Address) :=
  (λ tx, (Sender tx, Recipient tx)) <$> (InnerShardTxs b ++ Relay2Txs b).

Definition Clpa_HandleBlockInfo (b : BlockInfoMsg) c : outcome CLPACommitteeModule :=
  let c := on_part (swap_epoch b) c in
  if BlockBodyLength b =? 0 then Ret c
  else k ← add_edges (info_edges b) (clc_part c); Ret (mkCLC (clc_feeder c) k).

Definition Clpa_HandleOtherMessage (msg : bytes) c : CLPACommitteeModule := c.

(** The steps of [MsgSendingControl] and the reports handled meanwhile; a report first
    changes the stop signal (in [Supervisor.handleBlockInfos]). *)
Definition note_body (b : BlockInfoMsg) (f : Feeder) : Feeder :=
  set_Ss (if BlockBodyLength b =? 0 then StopGap_Inc (fd_Ss f) else StopGap_Reset (fd_Ss f)) f.

(** Reports of transactions between different accounts with valid addresses. *)
Definition edges_ok (l : list (Address * Address)) : Prop :=
  Forall (λ e, e.1 ≠ e.2 ∧ valid_addr e.1 = true ∧ valid_addr e.2 = true) l.
(** The orders in which the rounds of CLPA visit the vertices. *)
Definition visits (orders : nat → list Vertex) (k : ClpaPart) : Prop :=
  ∀ i, orders i ≡ₚ elements (VertexSet (NetGraph (clpaGraph k))).

Inductive clpa_step : ctl * CLPACommitteeModule → ctl * CLPACommitteeModule → Prop :=
| cs_refused clock data rows c c' :
    clpa_row clock data c = Ret (c', false) →
    clpa_step (Reading (Some data :: rows), c) (Reading rows, c')
| cs_row clock now data rows c c' :
    clpa_row clock data c = Ret (c', true) → repartition_due now (clc_part c') = false →
    clpa_step (Reading (Some data :: rows), c) (next_row (clc_feeder c') rows, c')
| cs_repartition clock now data rows c c' o1 orders o2 c'' :
    clpa_row clock data c = Ret (c', true) → repartition_due now (clc_part c') = true →
    visits orders (clc_part c') → Clpa_repartition o1 orders o2 c' = Ret c'' →
    clpa_step (Reading (Some data :: rows), c) (WaitEpoch rows, c'')
| cs_epoch now rows c :
    epoch_reached (clc_part c) = true →
    clpa_step (WaitEpoch rows, c)
      (next_row (clc_feeder c) rows, on_part (set_lastTime now) c)
| cs_eof c : clpa_step (Reading [], c) (Draining, c)
| cs_drain now c o1 orders o2 c' :
    GapEnough (fd_Ss (clc_feeder c)) = false → timer_due now (clc_part c) = true →
    visits orders (clc_part c) → Clpa_repartition o1 orders o2 c = Ret c' →
    clpa_step (Draining, c) (WaitDrain, c')
| cs_drain_epoch now c :
    epoch_reached (clc_part c) = true →
    clpa_step (WaitDrain, c) (Draining, on_part (set_lastTime now) c)
| cs_finish c :
    GapEnough (fd_Ss (clc_feeder c)) = true → clpa_step (Draining, c) (Finished, c)
| cs_info l b c c' :
    edges_ok (info_edges b) →
    Clpa_HandleBlockInfo b (on_feeder (note_body b) c) = Ret c' → clpa_step (l, c) (l, c').

End Clpa.

(** ** [CLPACommitteeMod_Broker] *)
Record CLPACommitteeMod_Broker := mkCLB { clb_broker : BrokerCommitteeMod; clb_part : ClpaPart }.

Section ClpaBroker.
Context {PR : Params} {BS : BitSetOps} {G : GobOps} {F : BigFloat.FloatSyntax}.
Context {JIT : Json InjectTxs} {JPM : Json PartitionModifiedMap} {JRaw : Json BrokerRawMeg}.
Context {JI2 : Json InnerTx2CrossTx}.
Implicit Type c : CLPACommitteeMod_Broker.

Definition NewCLPACommitteeMod_Broker (file : option (list string)) (ips : IpTable) (Ss : StopSignal)
    (dataNum batchNum freq : Z) : CLPACommitteeMod_Broker :=
  mkCLB (NewBrokerCommitteeMod file ips Ss dataNum batchNum) (new_ClpaPart freq).

Definition clb_fetch c : Address → outcome Z := fetchModifiedMap (clb_part c).
Definition clb_feeder c : Feeder := bcm_feeder (clb_broker c).
Definition with_broker c (b : BrokerCommitteeMod) : CLPACommitteeMod_Broker := mkCLB b (clb_part c).
Definition with_part c (k : ClpaPart) : CLPACommitteeMod_Broker := mkCLB (clb_broker c) k.

(** The brokers' part repeats [BrokerCommittee], with the partition of this committee. *)
Definition ClpaBroker_txSending (l : list Transaction) c : BrokerCommitteeMod → outcome BrokerCommitteeMod :=
  Broker_txSending (clb_fetch c) l.
Definition ClpaBroker_handleBrokerType1Mes (clock : nat → Time) (megs : list BrokerType1Meg) c :
    BrokerCommitteeMod → outcome BrokerCommitteeMod := handleBrokerType1Mes (clb_fetch c) clock megs.
Definition ClpaBroker_handleBrokerType2Mes (clock : nat → Time) (megs : list BrokerType2Meg) c :
    BrokerCommitteeMod → outcome BrokerCommitteeMod := handleBrokerType2Mes (clb_fetch c) clock megs.
Definition ClpaBroker_getBrokerRawMagDigest (r : BrokerRawMeg) : bytes := getBrokerRawMagDigest r.
Definition ClpaBroker_handleBrokerRawMag (clock : nat → Time) (megs : list BrokerRawMeg) c :
    BrokerCommitteeMod → outcome BrokerCommitteeMod := handleBrokerRawMag (clb_fetch c) clock megs.
Definition ClpaBroker_handleTx1ConfirmMag (clock : nat → Time) (l : list Mag1Confirm) c :
    BrokerCommitteeMod → outcome BrokerCommitteeMod := handleTx1ConfirmMag (clb_fetch c) clock l.
Definition ClpaBroker_handleTx2ConfirmMag (l : list Mag2Confirm) :
    BrokerCommitteeMod → BrokerCommitteeMod := handleTx2ConfirmMag l.
Definition ClpaBroker_clpaMapSend (m : gmap Address Z) c : outcome (list (string * bytes)) :=
  clpaMapSend (IpNodeTable (clb_feeder c)) m.
Definition ClpaBroker_clpaReset c : CLPACommitteeMod_Broker := with_part c (clpaReset (clb_part c)).
Definition ClpaBroker_dealTxByBroker (clock : nat → Time) (txs : list Transaction) c :
    outcome (list Transaction * BrokerCommitteeMod) :=
  dealTxByBroker (clb_fetch c) clock txs (clb_broker c).
Definition ClpaBroker_createConfirm (clock : nat → Time) (txs : list Transaction) c :
    outcome BrokerCommitteeMod :=
  createConfirm (clb_fetch c) clock txs (clb_broker c).

(** [HandleOtherMessage]: transactions that became cross-shard by a repartition. *)
Definition ClpaBroker_HandleOtherMessage (clock : nat → Time) (msg : bytes) c :
    outcome CLPACommitteeMod_Broker :=
  '(msgType, content) ← SplitMessage msg;
  if negb (bool_decide (msgType = CInner2CrossTx)) then Ret c
  else
    itct ← decode content;
    '(itxs, b) ← ClpaBroker_dealTxByBroker clock (ic_Txs itct) c;
    b ← ClpaBroker_txSending itxs c b;
    Ret (with_broker c b).

Definition clpa_broker_row (clock : nat → Time) (data : list string) c :
    outcome (CLPACommitteeMod_Broker * bool) :=
  otx ← data2tx (clock 0%nat) data (u64 (nowDataNum (clb_feeder c)));
  match otx with
  | None => Ret (c, false)
  | Some tx =>
      let c := with_broker c (set_feeder (accept tx (clb_feeder c)) (clb_broker c)) in
      c ← (if batch_ready (clb_feeder c) then
             let c := with_part c (start_timer (clock 1%nat) (clb_part c)) in
             b ← send_batch (clb_fetch c) (λ i, clock (S (S i))) (clb_broker c);
             Ret (with_broker c b)
           else Ret c);
      Ret (c, true)
  end.

Definition ClpaBroker_repartition (o1 : list Vertex) (orders : nat → list Vertex) (o2 : list Vertex) c :
    outcome CLPACommitteeMod_Broker :=
  '(k, msgs) ← repartition o1 orders o2 (IpNodeTable (clb_feeder c)) (clb_part c);
  Ret (mkCLB (set_feeder (send_out msgs (clb_feeder c)) (clb_broker c)) k).

(** The edges of a report: inner transactions without a broker, and the raw transactions
    of the payments to a broker. *)
Definition broker_info_edges (b : BlockInfoMsg) : list (Address * Address) :=
  ((λ tx, (Sender tx, Recipient tx)) <$> base.filter (λ tx, HasBroker tx = false) (InnerShardTxs b)) ++
  ((λ tx, (OriginalSender tx, FinalRecipient tx)) <$> Broker1Txs b).

Definition ClpaBroker_HandleBlockInfo (clock : nat → Time) (b : BlockInfoMsg) c :
    outcome CLPACommitteeMod_Broker :=
  let c := with_part c (swap_epoch b (clb_part c)) in
  if BlockBodyLength b =? 0 then Ret c
  else
    bk ← ClpaBroker_createConfirm clock (Broker1Txs b ++ Broker2Txs b) c;
    k ← add_edges (broker_info_edges b) (clb_part c);
    Ret (mkCLB bk k).

(** The composed operations in terms of the handlers of this committee. *)
Lemma ClpaBroker_repartition_eq o1 orders o2 c :
  ClpaBroker_repartition o1 orders o2 c =
    ('((mmap, _), g) ← CLPA_Partition o1 orders o2 (clpaGraph (clb_part c));
     msgs ← ClpaBroker_clpaMapSend mmap c;
     let k := clb_part c in
     let c := with_part c (mkCP (curEpoch k) g (mmap ∪ modifiedMap k) (clpaLastRunningTime k) (clpaFreq k)
                             (i64 (clpaCnt k + 1))) in
     let c := ClpaBroker_clpaReset c in
     Ret (with_broker c (set_feeder (send_out msgs (clb_feeder c)) (clb_broker c)))).
Proof.
  unfold ClpaBroker_repartition, repartition, ClpaBroker_clpaMapSend.
  destruct (CLPA_Partition _ _ _ _) as [[[mmap x] g]|]; [|done]. rewrite !bind_ret.
  by destruct (clpaMapSend _ _) as [msgs|].
Qed.

Lemma ClpaBroker_createConfirm_eq clock txs c :
  ClpaBroker_createConfirm clock txs c =
    (let b := clb_broker c in
     let confirm1s := omap (λ tx, brokerConfirm1Pool b !! TxHash tx) txs in
     let confirm2s := omap (λ tx, brokerConfirm2Pool b !! TxHash tx) txs in
     b ← (match confirm1s with [] => Ret b | _ => ClpaBroker_handleTx1ConfirmMag clock confirm1s c b end);
     Ret (match confirm2s with [] => b | _ => ClpaBroker_handleTx2ConfirmMag confirm2s b end)).
Proof. done. Qed.


Inductive clpa_broker_step :
    ctl * CLPACommitteeMod_Broker → ctl * CLPACommitteeMod_Broker → Prop :=
| cb_refused clock data rows c c' :
    clpa_broker_row clock data c = Ret (c', false) →
    clpa_broker_step (Reading (Some data :: rows), c) (Reading rows, c')
| cb_row clock now data rows c c' :
    clpa_broker_row clock data c = Ret (c', true) → repartition_due now (clb_part c') = false →
    clpa_broker_step (Reading (Some data :: rows), c) (next_row (clb_feeder c') rows, c')
| cb_repartition clock now data rows c c' o1 orders o2 c'' :
    clpa_broker_row clock data c = Ret (c', true) → repartition_due now (clb_part c') = true →
    visits orders (clb_part c') → ClpaBroker_repartition o1 orders o2 c' = Ret c'' →
    clpa_broker_step (Reading (Some data :: rows), c) (WaitEpoch rows, c'')
| cb_epoch now rows c :
    epoch_reached (clb_part c) = true →
    clpa_broker_step (WaitEpoch rows, c)
      (next_row (clb_feeder c) rows, with_part c (set_lastTime now (clb_part c)))
| cb_eof c : clpa_broker_step (Reading [], c) (Draining, c)
| cb_drain now c o1 orders o2 c' :
    GapEnough (fd_Ss (clb_feeder c)) = false → timer_due now (clb_part c) = true →
    visits orders (clb_part c) → ClpaBroker_repartition o1 orders o2 c = Ret c' →
    clpa_broker_step (Draining, c) (WaitDrain, c')
| cb_drain_epoch now c :
    epoch_reached (clb_part c) = true →
    clpa_broker_step (WaitDrain, c) (Draining, with_part c (set_lastTime now (clb_part c)))
| cb_finish c :
    GapEnough (fd_Ss (clb_feeder c)) = true → clpa_broker_step (Draining, c) (Finished, c)
| cb_info l clock b c c' :
    edges_ok (broker_info_edges b) →
    ClpaBroker_HandleBlockInfo clock b
      (with_broker c (set_feeder (note_body b (clb_feeder c)) (clb_broker c))) = Ret c' →
    clpa_broker_step (l, c) (l, c')
| cb_other l clock msg c c' :
    ClpaBroker_HandleOtherMessage clock msg c = Ret c' → clpa_broker_step (l, c) (l, c').

End ClpaBroker.

(** ** The partition the supervisor works with *)
#[export] Instance mkVertex_inj : Inj (=) (=) mkVertex.
Proof. by intros ?? [=]. Qed.

Section PartProps.
Context {PR : Params} {JPM : Json PartitionModifiedMap}.
Implicit Type k : ClpaPart.

(** [pm'] has the entries of [pm] and new ones at the default shard. *)
Definition pm_extends (pm pm' : gmap Vertex Z) : Prop :=
  (∀ v s, pm !! v = Some s → pm' !! v = Some s) ∧
  (∀ v s, pm' !! v = Some s → pm !! v = Some s ∨ (pm !! v = None ∧ Addr2Shard (Addr v) = Ret s)).

#[local] Instance pm_extends_preorder : PreOrder pm_extends.
Proof.
  split; [split; auto|]. intros p q r [A1 A2] [B1 B2]. split; [auto|]. intros v s Hr.
  destruct (B2 v s Hr) as [Hq|[Hn Hs]]; [by apply A2|]. right. split; [|done].
  destruct (p !! v) eqn:E; [apply A1 in E; congruence|done].
Qed.

Lemma AddVertex_extends v cs cs' :
  AddVertex v cs = Ret cs' →
  pm_extends (PartitionMap cs) (PartitionMap cs') ∧ is_Some (PartitionMap cs' !! v).
Proof.
  unfold AddVertex. cbn [PartitionMap set_graph VertexsNumInShard]. intros E.
  apply bind_Ret_inv in E as (s & Es & E). apply bind_Ret_inv in E as (vn & _ & E). inv_ret.
  cbn. rewrite lookup_insert_eq. split; [|done].
  split; intros u t; rewrite lookup_insert; case_decide as Hu; subst; try by auto.
  - intros Ht. rewrite Ht in Es. congruence.
  - intros [= <-]. destruct (PartitionMap cs !! u); [left; congruence|by right].
Qed.

Lemma AddVertex_graph v cs cs' :
  AddVertex v cs = Ret cs' → NetGraph cs' = Graph_AddVertex v (NetGraph cs).
Proof.
  unfold AddVertex. intros E. apply bind_Ret_inv in E as (s & _ & E).
  apply bind_Ret_inv in E as (vn & _ & E). by inv_ret.
Qed.

(** Every vertex of the graph has a shard. *)
Definition placed (cs : CLPAState) : Prop :=
  ∀ v, v ∈ VertexSet (NetGraph cs) → is_Some (PartitionMap cs !! v).

Lemma AddVertex_guard_extends v cs cs' :
  (if decide (v ∈ VertexSet (NetGraph cs)) then Ret cs else AddVertex v cs) = Ret cs' →
  placed cs →
  pm_extends (PartitionMap cs) (PartitionMap cs') ∧ is_Some (PartitionMap cs' !! v) ∧ placed cs'.
Proof.
  intros E Hd. case_decide as Hv.
  { inv_ret. split_and!; [reflexivity|by apply Hd|done]. }
  destruct (AddVertex_extends _ _ _ E) as [X Hs]. split_and!; [done..|].
  intros u Hu. rewrite (AddVertex_graph _ _ _ E) in Hu. cbn in Hu.
  apply elem_of_union in Hu as [->%elem_of_singleton|Hu]; [done|].
  destruct (Hd u Hu) as [s Hs']. exists s. by apply X.
Qed.

Lemma AddEdge_extends u w cs cs' :
  AddEdge u w cs = Ret cs' → placed cs →
  pm_extends (PartitionMap cs) (PartitionMap cs') ∧
  is_Some (PartitionMap cs' !! u) ∧ is_Some (PartitionMap cs' !! w).
Proof.
  unfold AddEdge. intros E Hd. apply bind_Ret_inv in E as (c1 & E1 & E).
  apply bind_Ret_inv in E as (c2 & E2 & E). inv_ret. cbn [PartitionMap set_graph].
  apply AddVertex_guard_extends in E1 as (X1 & U1 & D1); [|done].
  apply AddVertex_guard_extends in E2 as (X2 & W2 & D2); [|done].
  split_and!; [by etransitivity| |done]. destruct U1 as [s Hs]. exists s. by apply X2.
Qed.

(** The graph is well formed, its shards exist, and every account is where the
    supervisor sends its transactions. *)
Definition part_ok k : Prop :=
  (clpa_ok (clpaGraph k) ∧ graph_ok (NetGraph (clpaGraph k)) ∧ cs_ShardNum (clpaGraph k) = ShardNum) ∧
  (∀ a s, modifiedMap k !! a = Some s →
     0 ≤ s < ShardNum ∧ PartitionMap (clpaGraph k) !! mkVertex a = Some s) ∧
  (∀ v s, PartitionMap (clpaGraph k) !! v = Some s → fetchModifiedMap k (Addr v) = Ret s) ∧
  placed (clpaGraph k).

Lemma new_part_ok freq : 0 < ShardNum → part_ok (new_ClpaPart freq).
Proof.
  intros HS. destruct (Init_CLPAState_ok one_half 100 zero_CLPA HS eq_refl) as [H1 H2].
  split; [done|]. split_and!.
  - intros a s. cbn. by rewrite lookup_empty.
  - intros v s. cbn. by rewrite lookup_empty.
  - intros v. cbn. set_solver.
Qed.

Lemma add_edges_ok l k :
  0 < ShardNum < 2 ^ 63 → edges_ok l → part_ok k →
  ∃ k', add_edges l k = Ret k' ∧ part_ok k' ∧ modifiedMap k' = modifiedMap k ∧
    VertexSet (NetGraph (clpaGraph k')) =
      list_to_set ((λ e, mkVertex e.1) <$> l) ∪ list_to_set ((λ e, mkVertex e.2) <$> l) ∪
      VertexSet (NetGraph (clpaGraph k)).
Proof.
  intros HS Hl. revert k. induction Hl as [|[a b] l (Hne & Ha & Hb) Hl IH]; intros k Hk.
  { exists k. unfold add_edges. cbn. destruct k. split_and!; [done..|set_solver]. }
  destruct Hk as ((Hok & Hg & Hn) & Hm & Hp & Hd). cbn [fst snd] in *.
  destruct (AddEdge_ok (mkVertex a) (mkVertex b) (clpaGraph k)) as (g & Eg & Hok' & Hn' & Hg' & HV);
    [done|done|done|by intros [=]|done|done|].
  destruct (AddEdge_extends _ _ _ _ Eg Hd) as ((X1 & X2) & Hu & Hw).
  destruct (IH (set_clpaGraph g k)) as (k' & E & Hk' & Hmm & HV').
  - split; [done|]. split_and!; cbn.
    + intros x s Hx. destruct (Hm x s Hx). auto.
    + intros v s Hv. destruct (X2 v s Hv) as [?|[Hnone Hs]]; [by apply Hp|].
      unfold fetchModifiedMap. cbn. destruct (modifiedMap k !! Addr v) as [t|] eqn:Et.
      * apply Hm in Et as [_ Et]. destruct v; cbn in *. congruence.
      * rewrite Hs, bind_ret. f_equal. apply u64_id. unfold is_u64, u64_mod.
        apply Addr2Shard_range in Hs; lia.
    + intros v Hv. rewrite HV in Hv. apply elem_of_union in Hv as [Hv|Hv].
      * apply elem_of_union in Hv as [->%elem_of_singleton| ->%elem_of_singleton]; done.
      * destruct (Hd v Hv) as [s Hs]. exists s. by apply X1.
  - exists k'. unfold add_edges in *. cbn [foldM fst snd]. rewrite Eg, bind_ret.
    cbn [clpaGraph set_clpaGraph] in E, HV'.
    assert (∀ g', set_clpaGraph g' (set_clpaGraph g k) = set_clpaGraph g' k) as Hset by done.
    split_and!; [|done|done|].
    + destruct (foldM _ g l); cbn in *; [by rewrite <-Hset|done].
    + rewrite HV', HV. cbn. set_solver.
Qed.

Lemma lookup_reset_partition k v s :
  PartitionMap (clpaGraph (clpaReset k)) !! v = Some s ↔
  ∃ t, modifiedMap k !! Addr v = Some t ∧ s = i64 t.
Proof.
  cbn. rewrite lookup_kmap_Some by apply _. destruct v as [a]. cbn. split.
  - intros (a' & [= <-] & Ha). apply lookup_fmap_Some in Ha as (t & <- & Ht). by exists t.
  - intros (t & Ht & ->). exists a. split; [done|]. by rewrite lookup_fmap, Ht.
Qed.

(** Resetting the graph keeps the agreement. *)
Lemma clpaReset_ok k :
  0 < ShardNum < 2 ^ 63 → (∀ a s, modifiedMap k !! a = Some s → 0 ≤ s < ShardNum) →
  part_ok (clpaReset k).
Proof.
  intros HS Hm. destruct (Init_CLPAState_ok one_half 100 zero_CLPA (proj1 HS) eq_refl) as [H1 H2].
  destruct H1 as (P1 & P2 & P3 & P4).
  assert (∀ a s, modifiedMap k !! a = Some s → i64 s = s) as Hi.
  { intros a s Ha. apply i64_id. apply Hm in Ha. lia. }
  split; [split; [|by split]|split_and!].
  - split_and!; [done| |done|].
    + intros v s (t & Ht & ->)%lookup_reset_partition. rewrite (Hi _ _ Ht). by apply Hm in Ht.
    + intros j _. transitivity 0; [apply at_replicate|].
      assert (∀ pm, members ∅ pm j = ∅) as E by (intros pm; unfold members; set_solver).
      change (VertexSet (NetGraph (clpaGraph (clpaReset k)))) with (∅ : gset Vertex). by rewrite E.
  - intros a s Ha. split; [by eapply Hm|]. apply lookup_reset_partition.
    exists s. split; [done|]. by rewrite (Hi _ _ Ha).
  - intros v s (t & Ht & ->)%lookup_reset_partition. unfold fetchModifiedMap.
    change (modifiedMap (clpaReset k)) with (modifiedMap k). by rewrite Ht, (Hi _ _ Ht).
  - cbn. set_solver.
Qed.

Lemma repartition_ok o1 orders o2 ips k :
  0 < ShardNum < 2 ^ 63 → part_ok k →
  visits orders k →
  ∃ mmap cross g, CLPA_Partition o1 orders o2 (clpaGraph k) = Ret ((mmap, cross), g) ∧
  let k' := clpaReset (mkCP (curEpoch k) g (mmap ∪ modifiedMap k) (clpaLastRunningTime k) (clpaFreq k)
                         (i64 (clpaCnt k + 1))) in
    repartition o1 orders o2 ips k =
      Ret (k', (λ i, (table_ip ips i 0, frame CPartitionMsg (marshal (mkPM mmap)))) <$>
                 seqZ 0 (u64 ShardNum)) ∧
    part_ok k' ∧
    ∀ v, v ∈ VertexSet (NetGraph (clpaGraph k)) →
      fetchModifiedMap k' (Addr v) = Ret (shard_of_vertex (PartitionMap g) v).
Proof.
  intros HS ((Hok & Hg & Hn) & Hm & Hp & Hd) Ho.
  destruct (CLPA_Partition_runs o1 o2 orders (clpaGraph k)) as
    (mmap & cross & g & E & (P1 & P2 & _) & Hgr & Hsn & Hres & _); [done|lia|done|].
  exists mmap, cross, g. split; [done|]. cbv zeta. unfold repartition, clpaMapSend.
  rewrite E, bind_ret, (proj1 (frame_ok CPartitionMsg _ eq_refl)), !bind_ret. split; [done|].
  assert (∀ a s, mmap !! a = Some s → 0 ≤ s < ShardNum) as Hr.
  { intros a s Ha. specialize (Hres (mkVertex a)). cbn in Hres. rewrite Ha in Hres. subst s.
    rewrite <-Hn, <-Hsn. by apply in_range_shard. }
  split.
  - apply clpaReset_ok; [done|]. intros a s [Ha|[_ Ha]]%lookup_union_Some_raw; [by eapply Hr|].
    by apply Hm in Ha as [? _].
  - intros v Hv. unfold fetchModifiedMap. cbn [modifiedMap clpaReset set_clpaGraph].
    specialize (Hres v). destruct (mmap !! Addr v) as [s|] eqn:Es.
    + by rewrite (lookup_union_Some_l _ _ _ _ Es), Hres.
    + rewrite lookup_union_r by done. destruct (Hd v Hv) as [s Hs].
      unfold shard_of_vertex in *. rewrite Hs in Hres. cbn in Hres. rewrite Hres. by apply Hp in Hs.
Qed.

End PartProps.

(** ** Runs of the CLPA committee *)
Section ClpaRuns.
Context {PR : Params} {BS : BitSetOps} {G : GobOps} {F : BigFloat.FloatSyntax}.
Context {JIT : Json InjectTxs} {JPM : Json PartitionModifiedMap}.

(** Only the graph and the modified map matter. *)
Lemma part_ok_ext k k' :
  clpaGraph k' = clpaGraph k → modifiedMap k' = modifiedMap k → part_ok k → part_ok k'.
Proof. intros E1 E2. unfold part_ok, fetchModifiedMap. by rewrite E1, E2. Qed.

Lemma start_timer_ok now k : part_ok k → part_ok (start_timer now k).
Proof. unfold start_timer. intros. destruct (IsZero _); [|done]. by eapply part_ok_ext. Qed.

Lemma swap_epoch_ok b k : part_ok k → part_ok (swap_epoch b k).
Proof. unfold swap_epoch. intros. destruct (_ =? _); [|done]. by eapply part_ok_ext. Qed.

Lemma clpa_row_ok clock data c c' a :
  clpa_row clock data c = Ret (c', a) → part_ok (clc_part c) → part_ok (clc_part c').
Proof.
  unfold clpa_row. intros E Hc. apply bind_Ret_inv in E as ([tx|] & _ & E); [|by inv_ret].
  cbv zeta in E. apply bind_Ret_inv in E as (c1 & E1 & E). inv_ret.
  destruct (batch_ready _); [|by inv_ret]. apply bind_Ret_inv in E1 as (c2 & E2 & E1). inv_ret.
  unfold Clpa_txSending in E2. apply bind_Ret_inv in E2 as (msgs & _ & E2). inv_ret.
  cbn. by apply start_timer_ok.
Qed.

Lemma Clpa_repartition_ok o1 orders o2 c c' :
  0 < ShardNum < 2 ^ 63 → visits orders (clc_part c) → part_ok (clc_part c) →
  Clpa_repartition o1 orders o2 c = Ret c' → part_ok (clc_part c').
Proof.
  intros HS Hv Hc E. unfold Clpa_repartition in E. apply bind_Ret_inv in E as ([k msgs] & Ek & E).
  destruct (repartition_ok o1 orders o2 (IpNodeTable (clc_feeder c)) (clc_part c) HS Hc Hv)
    as (mm & cr & g & _ & E' & Hok & _). rewrite E' in Ek. injection Ek as <- _. by inv_ret.
Qed.

Lemma clpa_step_ok s s' :
  0 < ShardNum < 2 ^ 63 → clpa_step s s' → part_ok (clc_part s.2) → part_ok (clc_part s'.2).
Proof.
  intros HS Hs Hc. destruct Hs as
    [clock data rows c c' E|clock now data rows c c' E _|clock now data rows c c' o1 orders o2 c'' E _ Hv Er
    |now rows c _|c|now c o1 orders o2 c' _ _ Hv Er|now c _|c _|l b c c' He E]; cbn [fst snd] in *.
  - by eapply clpa_row_ok.
  - by eapply clpa_row_ok.
  - eapply Clpa_repartition_ok; [done|exact Hv| |exact Er]. by eapply clpa_row_ok.
  - by apply (part_ok_ext (clc_part c)).
  - done.
  - by eapply Clpa_repartition_ok.
  - by apply (part_ok_ext (clc_part c)).
  - done.
  - unfold Clpa_HandleBlockInfo in E. cbv zeta in E. cbn [on_feeder on_part clc_part] in E.
    apply (swap_epoch_ok b) in Hc. destruct (_ =? _); [by inv_ret|].
    destruct (add_edges_ok _ _ HS He Hc) as (k' & Ek & Hk' & _). rewrite Ek in E. by inv_ret.
Qed.

Lemma clpa_run_ok rows ips Ss dataNum batchNum freq l c :
  0 < ShardNum < 2 ^ 63 →
  rtc clpa_step (Reading rows, NewCLPACommitteeModule ips Ss dataNum batchNum freq) (l, c) →
  part_ok (clc_part c).
Proof.
  intros HS Hr. change c with (l, c).2. remember (Reading rows, _) as s0 eqn:E0.
  assert (part_ok (clc_part s0.2)) as H0 by (subst s0; apply new_part_ok, HS).
  clear E0. induction Hr as [|s0 s1 s2 Hs _ IH]; [done|]. apply IH. by eapply clpa_step_ok.
Qed.

(** C14 (invariant) In every state of a run of the CLPA committee, whatever reports arrive
    between its steps, the graph is well formed and agrees with the shards transactions
    are sent to; and a repartition never fails: it sends every shard one message with
    the accounts CLPA moved, after which transactions of every account of the graph go
    to the shard CLPA chose for it. *)
Theorem clpa_committee_repartitions rows ips Ss dataNum batchNum freq l c o1 orders o2 :
  0 < ShardNum < 2 ^ 63 →
  rtc clpa_step (Reading rows, NewCLPACommitteeModule ips Ss dataNum batchNum freq) (l, c) →
  visits orders (clc_part c) →
  let g := clpaGraph (clc_part c) in
  clpa_ok g ∧ graph_ok (NetGraph g) ∧
  (∀ v, v ∈ VertexSet (NetGraph g) →
     fetchModifiedMap (clc_part c) (Addr v) = Ret (shard_of_vertex (PartitionMap g) v)) ∧
  ∃ mmap cross g' c',
    CLPA_Partition o1 orders o2 g = Ret ((mmap, cross), g') ∧
    Clpa_repartition o1 orders o2 c = Ret c' ∧
    outbox (clc_feeder c') = outbox (clc_feeder c) ++
      ((λ i, (table_ip (IpNodeTable (clc_feeder c)) i 0,
              frame CPartitionMsg (marshal (mkPM mmap)))) <$> seqZ 0 (u64 ShardNum)) ∧
    modifiedMap (clc_part c') = mmap ∪ modifiedMap (clc_part c) ∧
    (∀ v, v ∈ VertexSet (NetGraph g) →
       fetchModifiedMap (clc_part c') (Addr v) = Ret (shard_of_vertex (PartitionMap g') v)).
Proof.
  intros HS Hr Hv. cbv zeta. pose proof (clpa_run_ok _ _ _ _ _ _ _ _ HS Hr) as Hok.
  destruct (repartition_ok o1 orders o2 (IpNodeTable (clc_feeder c)) (clc_part c) HS Hok Hv)
    as (mm & cr & g & Eg & E & _ & Hf).
  destruct Hok as ((H1 & H2 & _) & _ & Hp & Hd). split_and!; [done..| |].
  - intros v [s Hs]%Hd. unfold shard_of_vertex. rewrite Hs. by apply Hp.
  - exists mm, cr, g. eexists. split; [exact Eg|]. unfold Clpa_repartition. rewrite E, bind_ret.
    split_and!; [reflexivity..|]. exact Hf.
Qed.

End ClpaRuns.

(** ** Runs of the CLPA broker committee *)
Section ClpaBrokerRuns.
Context {PR : Params} {BS : BitSetOps} {G : GobOps} {F : BigFloat.FloatSyntax}.
Context {JIT : Json InjectTxs} {JPM : Json PartitionModifiedMap} {JRaw : Json BrokerRawMeg}.
Context {JI2 : Json InnerTx2CrossTx}.
Implicit Type c : CLPACommitteeMod_Broker.

(** The partition and the broker pools are well formed; the brokers are [addrs]. *)
Definition clb_ok (addrs : list Address) c : Prop :=
  part_ok (clb_part c) ∧ pools_ok (clb_fetch c) (clb_broker c) ∧
  BrokerAddress (bcm_broker (clb_broker c)) = addrs.

Lemma pools_ok_fetch (f f' : Address → outcome Z) b :
  (∀ a, is_ret (f a) → is_ret (f' a)) → pools_ok f b → pools_ok f' b.
Proof.
  intros Hf [H1 H2]. unfold pools_ok, registered, raw_ok in *.
  split; intros h m Hm; [destruct (H1 h m Hm)|destruct (H2 h m Hm)]; naive_solver.
Qed.

(** The part changes, but not the modified map. *)
Lemma with_part_ok addrs k c :
  clb_ok addrs c → part_ok k → modifiedMap k = modifiedMap (clb_part c) → clb_ok addrs (with_part c k).
Proof.
  intros (Hp & Hb & Ha) Hk Em. split_and!; [done| |done]. eapply pools_ok_fetch; [|exact Hb].
  intros a. unfold clb_fetch, fetchModifiedMap. cbn. by rewrite Em.
Qed.

Lemma with_broker_ok addrs b c :
  clb_ok addrs c → pools_ok (clb_fetch c) b ∧ broker_grows (bcm_broker (clb_broker c)) (bcm_broker b) →
  clb_ok addrs (with_broker c b).
Proof. intros (Hp & _ & Ha) [Hb [Hg _]]. split_and!; [done..|]. cbn. congruence. Qed.

Lemma clb_feeder_ok addrs f c :
  clb_ok addrs c → clb_ok addrs (with_broker c (set_feeder f (clb_broker c))).
Proof.
  intros Hc. apply with_broker_ok; [done|]. destruct Hc as (_ & Hb & _).
  split; [by apply set_feeder_pools|done].
Qed.

Lemma start_timer_map now k : modifiedMap (start_timer now k) = modifiedMap k.
Proof. unfold start_timer. by destruct (IsZero _). Qed.
Lemma swap_epoch_map b k : modifiedMap (swap_epoch b k) = modifiedMap k.
Proof. unfold swap_epoch. by destruct (_ =? _). Qed.

Lemma clb_row_ok addrs clock data c c' a :
  clpa_broker_row clock data c = Ret (c', a) → clb_ok addrs c → clb_ok addrs c'.
Proof.
  unfold clpa_broker_row. intros E Hc. apply bind_Ret_inv in E as ([tx|] & _ & E); [|by inv_ret].
  cbv zeta in E. apply bind_Ret_inv in E as (c1 & E1 & E). injection E as <- _.
  apply (clb_feeder_ok _ (accept tx (clb_feeder c))) in Hc.
  destruct (batch_ready _); [|by inv_ret]. apply bind_Ret_inv in E1 as (b & E2 & E1). injection E1 as <-.
  set (c2 := with_broker c _) in *.
  assert (clb_ok addrs (with_part c2 (start_timer (clock 1%nat) (clb_part c2)))) as H2.
  { apply with_part_ok; [done|apply start_timer_ok, Hc|apply start_timer_map]. }
  apply with_broker_ok; [exact H2|]. apply send_batch_pools in E2; [exact E2|apply H2].
Qed.

Lemma clb_repartition_ok addrs o1 orders o2 c c' :
  0 < ShardNum < 2 ^ 63 → visits orders (clb_part c) → clb_ok addrs c →
  ClpaBroker_repartition o1 orders o2 c = Ret c' → clb_ok addrs c'.
Proof.
  intros HS Hv (Hp & Hb & Ha) E. unfold ClpaBroker_repartition in E.
  apply bind_Ret_inv in E as ([k msgs] & Ek & E). injection E as <-.
  destruct (repartition_ok o1 orders o2 (IpNodeTable (clb_feeder c)) (clb_part c) HS Hp Hv)
    as (mm & cr & g & _ & E' & Hok & _). rewrite E' in Ek. injection Ek as <- _.
  split_and!; [done| |done]. apply set_feeder_pools. eapply pools_ok_fetch; [|exact Hb].
  intros a. unfold clb_fetch, fetchModifiedMap. cbn. rewrite lookup_union.
  destruct (mm !! a), (modifiedMap (clb_part c) !! a); cbn; try done; intros; by eexists.
Qed.

Lemma clb_other_ok addrs clock msg c c' :
  ClpaBroker_HandleOtherMessage clock msg c = Ret c' → clb_ok addrs c → clb_ok addrs c'.
Proof.
  unfold ClpaBroker_HandleOtherMessage. intros E Hc. apply bind_Ret_inv in E as ([t ct] & _ & E).
  destruct (negb _); [by inv_ret|]. apply bind_Ret_inv in E as (m & _ & E).
  apply bind_Ret_inv in E as ([itxs b] & Ed & E). apply bind_Ret_inv in E as (b2 & Es & E).
  injection E as <-. apply dealTxByBroker_pools in Ed as [H1 G1]; [|apply Hc].
  apply Broker_txSending_pools in Es as [H2 G2]; [|done].
  apply with_broker_ok; [done|]. split; [done|]. destruct G1, G2. split; [congruence|auto].
Qed.

Lemma clb_info_ok addrs clock b c c' :
  0 < ShardNum < 2 ^ 63 → edges_ok (broker_info_edges b) → clb_ok addrs c →
  ClpaBroker_HandleBlockInfo clock b c = Ret c' → clb_ok addrs c'.
Proof.
  intros HS He Hc E. unfold ClpaBroker_HandleBlockInfo in E. cbv zeta in E.
  assert (clb_ok addrs (with_part c (swap_epoch b (clb_part c)))) as H1.
  { apply with_part_ok; [done|apply swap_epoch_ok, Hc|apply swap_epoch_map]. }
  set (c1 := with_part c _) in *. destruct (_ =? _); [by inv_ret|].
  apply bind_Ret_inv in E as (bk & Eb & E). apply bind_Ret_inv in E as (k & Ek & E). injection E as <-.
  apply createConfirm_pools in Eb; [|apply H1].
  destruct (add_edges_ok _ _ HS He (proj1 H1)) as (k' & Ek' & Hk' & Hm & _).
  rewrite Ek' in Ek. injection Ek as <-.
  change (mkCLB bk k') with (with_part (with_broker c1 bk) k').
  apply with_part_ok; [by apply with_broker_ok|done|done].
Qed.

Lemma clb_step_ok addrs s s' :
  0 < ShardNum < 2 ^ 63 → clpa_broker_step s s' → clb_ok addrs s.2 → clb_ok addrs s'.2.
Proof.
  intros HS Hs Hc. destruct Hs as
    [clock data rows c c' E|clock now data rows c c' E _|clock now data rows c c' o1 orders o2 c'' E _ Hv Er
    |now rows c _|c|now c o1 orders o2 c' _ _ Hv Er|now c _|c _|l clock b c c' He E|l clock msg c c' E];
    cbn [fst snd] in *.
  - by eapply clb_row_ok.
  - by eapply clb_row_ok.
  - eapply clb_repartition_ok; [done|exact Hv| |exact Er]. by eapply clb_row_ok.
  - apply with_part_ok; [done| |done]. by apply (part_ok_ext (clb_part c)); [| |apply Hc].
  - done.
  - by eapply clb_repartition_ok.
  - apply with_part_ok; [done| |done]. by apply (part_ok_ext (clb_part c)); [| |apply Hc].
  - done.
  - eapply clb_info_ok; [done|exact He| |exact E]. by apply clb_feeder_ok.
  - by eapply clb_other_ok.
Qed.

Lemma clb_run_ok file rows ips Ss dataNum batchNum freq l c :
  0 < ShardNum < 2 ^ 63 →
  rtc clpa_broker_step
    (Reading rows, NewCLPACommitteeMod_Broker file ips Ss dataNum batchNum freq) (l, c) →
  clb_ok (initBrokerAddr file BrokerNum) c.
Proof.
  intros HS Hr. change c with (l, c).2. remember (Reading rows, _) as s0 eqn:E0.
  assert (clb_ok (initBrokerAddr file BrokerNum) s0.2) as H0.
  { subst s0. split_and!; [apply new_part_ok, HS| |done].
    by split; intros h m; cbn; rewrite lookup_empty. }
  clear E0. induction Hr as [|s0 s1 s2 Hs _ IH]; [done|]. apply IH. by eapply clb_step_ok.
Qed.

(** C13 (invariant) The committee with brokers and repartition: in every state of a run,
    with rows, repartitions, reports and returned transactions in any order, a report
    of valid transactions is handled without a panic: the broker pays out every
    reported payment at the shard where the recipient is now, and the reported
    transactions enter the graph, which stays well formed and in agreement with the
    shards transactions are sent to. *)
Theorem clpa_broker_pays_out file rows ips Ss dataNum batchNum freq l c clock b :
  0 < ShardNum < 2 ^ 63 → 0 < InjectSpeed → BlockBodyLength b ≠ 0 →
  Forall (λ a, valid_addr a = true) (initBrokerAddr file BrokerNum) →
  edges_ok (broker_info_edges b) →
  rtc clpa_broker_step
    (Reading rows, NewCLPACommitteeMod_Broker file ips Ss dataNum batchNum freq) (l, c) →
  ∃ c' tx2s, ClpaBroker_HandleBlockInfo clock b c = Ret c' ∧
    Forall2 pays_out
      (omap (λ tx, brokerConfirm1Pool (clb_broker c) !! TxHash tx) (Broker1Txs b ++ Broker2Txs b)) tx2s ∧
    outbox (clb_feeder c') = outbox (clb_feeder c) ++
      (rounds InjectSpeed [] tx2s ≫=
         round_messages (λ tx, fetchModifiedMap (clb_part c) (Recipient tx)) (IpNodeTable (clb_feeder c))) ∧
    let g := clpaGraph (clb_part c') in
    clpa_ok g ∧ graph_ok (NetGraph g) ∧
    VertexSet (NetGraph g) =
      list_to_set ((λ e, mkVertex e.1) <$> broker_info_edges b) ∪
      list_to_set ((λ e, mkVertex e.2) <$> broker_info_edges b) ∪
      VertexSet (NetGraph (clpaGraph (clb_part c))) ∧
    ∀ v, v ∈ VertexSet (NetGraph g) →
      fetchModifiedMap (clb_part c') (Addr v) = Ret (shard_of_vertex (PartitionMap g) v).
Proof.
  intros HS HI Hb Hv He Hr. pose proof (clb_run_ok _ _ _ _ _ _ _ _ _ HS Hr) as Hc.
  unfold ClpaBroker_HandleBlockInfo. cbv zeta. set (c1 := with_part c (swap_epoch b (clb_part c))).
  assert (clb_ok (initBrokerAddr file BrokerNum) c1) as (Hp & Hbr & Ha).
  { apply with_part_ok; [done|apply swap_epoch_ok, Hc|apply swap_epoch_map]. }
  assert (∀ a, clb_fetch c1 a = fetchModifiedMap (clb_part c) a) as Hf.
  { intros a. unfold clb_fetch, fetchModifiedMap. cbn. by rewrite swap_epoch_map. }
  destruct (Z.eqb_spec (BlockBodyLength b) 0); [done|].
  destruct (createConfirm_eq (clb_fetch c1) clock (Broker1Txs b ++ Broker2Txs b) (clb_broker c1) HI Hbr)
    as (bk & tx2s & E & H1 & H2 & _).
  { rewrite Ha. intros a Hin. rewrite Forall_forall in Hv. apply Hv in Hin.
    rewrite Hf. unfold fetchModifiedMap. destruct (_ !! a); [by eexists|].
    rewrite Addr2Shard_value by (done || lia). by eexists. }
  destruct (add_edges_ok _ _ HS He Hp) as (k & Ek & ((K1 & K2 & _) & _ & K3 & K4) & _ & HV).
  unfold ClpaBroker_createConfirm.   rewrite E, bind_ret, Ek, bind_ret. eexists _, tx2s. split; [done|]. split; [exact H1|].
  split; [|split_and!; [done..| |]].
  - change (outbox (bcm_feeder bk) = outbox (clb_feeder c) ++ (rounds InjectSpeed [] tx2s ≫=
      round_messages (λ tx, fetchModifiedMap (clb_part c) (Recipient tx)) (IpNodeTable (clb_feeder c)))).
    rewrite H2. f_equal. apply list_bind_ext_in. intros r _. apply round_messages_ext. auto.
  - cbn [clb_part]. rewrite HV. f_equal. unfold c1. cbn [clb_part with_part].
    unfold swap_epoch. by destruct (_ =? _).
  - cbn. intros v [s Hs]%K4. unfold shard_of_vertex. rewrite Hs. by apply K3.
Qed.

End ClpaBrokerRuns.
