(* ===== verification/HalfFloats.v ===== *)
(** * Half integers as binary64 numbers

    The measurements count a cross-shard transaction as two halves, in [float64]s.
    This file shows that additions of half integers below 2^52 are exact, for the
    operations of [SpecFloat] that model Go's floating-point arithmetic. *)

From S2P Require Import Prelude CLPA.
From Stdlib Require Import Floats.SpecFloat.

Definition fadd : float64 → float64 → float64 := SFadd prec emax.
Definition f_zero : float64 := S754_zero false.
Definition f_two : float64 := of_int 2.

(** The number n/2. *)
Definition half_float (n : Z) : float64 := binary_normalize prec emax n (-1) false.

(** ** Digits and shifts *)
Lemma digits_log2 p : Zpos (digits2_pos p) = Z.log2 (Zpos p) + 1.
Proof.
  induction p as [p IH|p IH|]; [..|done]; cbn [digits2_pos]; rewrite Pos2Z.inj_succ, IH.
  - rewrite (Pos2Z.inj_xI p), Z.log2_succ_double by done. lia.
  - rewrite (Pos2Z.inj_xO p), Z.log2_double by done. lia.
Qed.

Lemma iter_xO p d : Zpos (Pos.iter xO p d) = Zpos p * 2 ^ Zpos d.
Proof.
  induction d as [|d IH] using Pos.peano_ind; [cbn; lia|].
  rewrite Pos.iter_succ, Pos2Z.inj_xO, IH, Pos2Z.inj_succ, Z.pow_succ_r by lia. lia.
Qed.

(** Shifting out zero bits is exact. *)
Lemma shr_1_exact m : 0 < m → shr_1 (Build_shr_record (m * 2) false false) = Build_shr_record m false false.
Proof. intros Hm. destruct m as [|p|p]; [lia| |lia]. by rewrite Z.mul_comm. Qed.

Lemma iter_shr_exact p m :
  0 < m →
  iter_pos shr_1 p (Build_shr_record (m * 2 ^ Zpos p) false false) = Build_shr_record m false false.
Proof.
  assert (∀ q, 0 < 2 ^ Zpos q) as Hp by (intros q; apply Z.pow_pos_nonneg; lia).
  assert (∀ q, 2 ^ Zpos q~0 = 2 ^ Zpos q * 2 ^ Zpos q) as H0.
  { intros q. rewrite <-Z.pow_add_r by lia. f_equal. lia. }
  assert (∀ q, 2 ^ Zpos q~1 = 2 ^ Zpos q * 2 ^ Zpos q * 2) as H1.
  { intros q. rewrite <-H0, Pos2Z.inj_xI, Z.pow_add_r by lia. done. }
  revert m. induction p as [p IH|p IH|]; intros m Hm; cbn [iter_pos]; [| |by apply shr_1_exact].
  - rewrite H1, !Z.mul_assoc, shr_1_exact by (specialize (Hp p); nia).
    rewrite IH by (specialize (Hp p); nia). by apply IH.
  - rewrite H0, Z.mul_assoc, IH by (specialize (Hp p); nia). by apply IH.
Qed.

Lemma shr_exact m e k :
  0 < m → 0 ≤ k →
  shr (Build_shr_record (m * 2 ^ k) false false) e k = (Build_shr_record m false false, e + k).
Proof.
  intros Hm Hk. destruct k as [|p|p]; [cbn; by rewrite Z.mul_1_r, Z.add_0_r| |lia].
  unfold shr. by rewrite iter_shr_exact.
Qed.

(** ** The canonical form *)
Definition canon (n : Z) : float64 :=
  S754_finite false (Z.to_pos (n * 2 ^ (52 - Z.log2 n))) (Z.log2 n - 53).

Lemma log2_shift n k : 0 < n → 0 ≤ k → Z.log2 (n * 2 ^ k) = Z.log2 n + k.
Proof. intros. rewrite <-Z.shiftl_mul_pow2 by lia. rewrite Z.log2_shiftl; lia. Qed.

Lemma Zdigits2_log2 n : 0 < n → Zdigits2 n = Z.log2 n + 1.
Proof. intros Hn. destruct n as [|p|p]; [lia| |lia]. apply digits_log2. Qed.

Lemma fexp_half n : 0 < n → Z.log2 n ≤ 52 → fexp prec emax (Z.log2 n) = Z.log2 n - 53.
Proof. intros. unfold fexp, emin, prec, emax. pose proof (Z.log2_nonneg n). lia. Qed.

(** Rounding a representation of n/2 with enough digits. *)
Lemma round_aux_half n k :
  0 < n → Z.log2 n ≤ 52 → 52 - Z.log2 n ≤ k →
  binary_round_aux prec emax false (n * 2 ^ k) (-1 - k) loc_Exact = canon n.
Proof.
  intros Hn Hl Hk. pose proof (Z.log2_nonneg n).
  set (m := n * 2 ^ (52 - Z.log2 n)).
  assert (0 < m) as Hm by (unfold m; pose proof (Z.pow_pos_nonneg 2 (52 - Z.log2 n)); nia).
  assert (Z.log2 m = 52) as Lm by (unfold m; rewrite log2_shift by lia; lia).
  assert (n * 2 ^ k = m * 2 ^ (k - (52 - Z.log2 n))) as ->.
  { unfold m. rewrite <-Z.mul_assoc, <-Z.pow_add_r by lia. f_equal. f_equal. lia. }
  unfold binary_round_aux, shr_fexp at 1.
  rewrite Zdigits2_log2 by (pose proof (Z.pow_pos_nonneg 2 (k - (52 - Z.log2 n))); nia).
  rewrite log2_shift, Lm by lia.
  replace (52 + (k - (52 - Z.log2 n)) + 1 + (-1 - k)) with (Z.log2 n) by lia.
  rewrite fexp_half by done. cbn [shr_record_of_loc].
  replace (Z.log2 n - 53 - (-1 - k)) with (k - (52 - Z.log2 n)) by lia.
  rewrite shr_exact by lia. cbn [shr_m loc_of_shr_record round_nearest_even].
  unfold shr_fexp. rewrite Zdigits2_log2, Lm by done.
  replace (-1 - k + (k - (52 - Z.log2 n))) with (Z.log2 n - 53) by lia.
  replace (52 + 1 + (Z.log2 n - 53)) with (Z.log2 n) by lia.
  rewrite fexp_half, Z.sub_diag by done. cbn [shr shr_record_of_loc shr_m].
  unfold canon. fold m. destruct m as [|p|p]; [lia| |lia]. cbn [Z.to_pos].
  destruct (Z.leb_spec (Z.log2 n - 53) (emax - prec)) as [|Hbig]; [done|].
  unfold emax, prec in Hbig. lia.
Qed.

Lemma normalize_half n k :
  0 < n → Z.log2 n ≤ 52 → 0 ≤ k →
  binary_normalize prec emax (n * 2 ^ k) (-1 - k) false = canon n.
Proof.
  intros Hn Hl Hk. pose proof (Z.log2_nonneg n).
  assert (0 < n * 2 ^ k) as Hm by (pose proof (Z.pow_pos_nonneg 2 k); nia).
  unfold binary_normalize. destruct (n * 2 ^ k) as [|p|p] eqn:Ep; [lia| |lia].
  unfold binary_round, shl_align. rewrite digits_log2, <-Ep, log2_shift by lia.
  replace (Z.log2 n + k + 1 + (-1 - k)) with (Z.log2 n) by lia. rewrite fexp_half by done.
  destruct (Z.log2 n - 53 - (-1 - k)) as [|q|q] eqn:Eq.
  - rewrite <-Ep. apply round_aux_half; lia.
  - rewrite <-Ep. apply round_aux_half; lia.
  - rewrite iter_xO, <-Ep, <-Z.mul_assoc, <-Z.pow_add_r by lia.
    replace (Z.log2 n - 53) with (-1 - (k + Zpos q)) by lia. apply round_aux_half; lia.
Qed.

Definition small (n : Z) : Prop := 0 ≤ n < 2 ^ 53.

Lemma small_log2 n : small n → 0 < n → Z.log2 n ≤ 52.
Proof. intros [_ H] Hn. enough (Z.log2 n < 53) by lia. by apply Z.log2_lt_pow2. Qed.

Lemma half_float_canon n : small n → 0 < n → half_float n = canon n.
Proof.
  intros Hs Hn. unfold half_float. rewrite <-(normalize_half n 0) by (try apply small_log2; done).
  by rewrite Z.mul_1_r.
Qed.

Lemma half_float_nonneg_zero : half_float 0 = f_zero.
Proof. done. Qed.

(** An integer is the half of its double. *)
Lemma of_int_half n : 0 ≤ n < 2 ^ 52 → of_int n = half_float (2 * n).
Proof.
  intros Hn. destruct (decide (n = 0)) as [->|]; [done|].
  assert (small (2 * n)) as Hs by (unfold small; lia).
  rewrite half_float_canon by (done || lia). pose proof (small_log2 _ Hs ltac:(lia)) as HL.
  assert (Z.log2 (2 * n) = Z.log2 n + 1) as EL by (rewrite Z.log2_double; lia).
  pose proof (Z.log2_nonneg n).
  unfold of_int, binary_normalize. destruct n as [|p|p]; [lia| |lia].
  unfold binary_round, shl_align. rewrite digits_log2, Z.add_0_r, <-EL, fexp_half, Z.sub_0_r by lia.
  destruct (Z.log2 (2 * Zpos p) - 53) as [|q|q] eqn:Eq; [lia..|].
  rewrite iter_xO. replace (Zneg q) with (-1 - (Zpos q - 1)) by lia.
  replace (Zpos p * 2 ^ Zpos q) with (2 * Zpos p * 2 ^ (Zpos q - 1)).
  - apply round_aux_half; lia.
  - rewrite (Z.mul_comm 2), <-Z.mul_assoc, <-Z.pow_succ_r by lia. do 2 f_equal. lia.
Qed.

(** Adding half integers is exact. *)
Lemma align_canon n ez :
  0 < n → Z.log2 n ≤ 52 → ez ≤ Z.log2 n - 53 →
  Zpos (fst (shl_align (Z.to_pos (n * 2 ^ (52 - Z.log2 n))) (Z.log2 n - 53) ez)) = n * 2 ^ (-1 - ez).
Proof.
  intros Hn HL He. pose proof (Z.pow_pos_nonneg 2 (52 - Z.log2 n)).
  unfold shl_align. destruct (ez - (Z.log2 n - 53)) as [|q|q] eqn:Eq; [|lia|]; cbn [fst].
  - rewrite Z2Pos.id by nia. do 2 f_equal. lia.
  - rewrite iter_xO, Z2Pos.id, <-Z.mul_assoc, <-Z.pow_add_r by (lia || nia). do 2 f_equal. lia.
Qed.

Lemma fadd_half a b : 0 ≤ a → 0 ≤ b → small (a + b) → fadd (half_float a) (half_float b) = half_float (a + b).
Proof.
  intros Ha Hb Hs. destruct (decide (a = 0)) as [->|Ha0].
  { rewrite half_float_nonneg_zero, Z.add_0_l. unfold small in Hs.
    destruct (decide (b = 0)) as [->|]; [done|]. by rewrite half_float_canon by (unfold small; lia). }
  destruct (decide (b = 0)) as [->|Hb0].
  { rewrite half_float_nonneg_zero, Z.add_0_r in *. by rewrite half_float_canon by (unfold small in *; lia). }
  assert (small a ∧ small b) as [Sa Sb] by (unfold small in *; lia).
  rewrite !half_float_canon by (done || lia).
  pose proof (small_log2 _ Sa ltac:(lia)) as La. pose proof (small_log2 _ Sb ltac:(lia)) as Lb.
  unfold fadd, canon, SFadd. set (ez := Z.min _ _). cbn [cond_Zopp].
  rewrite !align_canon by lia. rewrite <-Z.mul_add_distr_r.
  replace ez with (-1 - (-1 - ez)) at 2 by lia.
  rewrite normalize_half; [done|lia|apply small_log2; [done|lia]|lia].
Qed.

(** Halving an integer is exact. *)
Lemma fdiv_two n : 0 ≤ n < 2 ^ 52 → fdiv (of_int n) f_two = half_float n.
Proof.
  intros Hn. destruct (decide (n = 0)) as [->|]; [done|].
  assert (small (2 * n) ∧ small n) as [S2 S1] by (unfold small; lia).
  rewrite of_int_half, !half_float_canon by (done || lia).
  pose proof (Z.log2_nonneg n). pose proof (small_log2 _ S2 ltac:(lia)) as L2.
  assert (Z.log2 (2 * n) = Z.log2 n + 1) as EL by (rewrite Z.log2_double; lia).
  set (m := 2 * n * 2 ^ (52 - Z.log2 (2 * n))).
  assert (0 < m) as Hm by (unfold m; pose proof (Z.pow_pos_nonneg 2 (52 - Z.log2 (2 * n))); nia).
  assert (Z.log2 m = 52) as Lm by (unfold m; rewrite log2_shift by lia; lia).
  assert (f_two = S754_finite false (Z.to_pos (2 ^ 52)) (-51)) as -> by reflexivity.
  unfold fdiv, canon at 1, SFdiv. fold m. cbn [xorb]. unfold SFdiv_core_binary.
  rewrite !Z2Pos.id by lia. rewrite !Zdigits2_log2, Lm by lia.
  change (Z.log2 (2 ^ 52)) with 52. rewrite EL.
  replace (52 + 1 + (Z.log2 n + 1 - 53) - (52 + 1 + -51)) with (Z.log2 n - 1) by lia.
  assert (fexp prec emax (Z.log2 n - 1) = Z.log2 n - 54) as -> by (unfold fexp, emin, prec, emax; lia).
  replace (Z.min (Z.log2 n - 54) (Z.log2 n + 1 - 53 - -51)) with (Z.log2 n - 54) by lia.
  replace (Z.log2 n + 1 - 53 - -51 - (Z.log2 n - 54)) with 53 by lia. cbv beta iota zeta.
  rewrite Z.shiftl_mul_pow2 by lia.
  replace (m * 2 ^ 53) with (2 * m * 2 ^ 52) by lia.
  assert (Z.div_eucl (2 * m * 2 ^ 52) (2 ^ 52) = (2 * m, 0)) as ->.
  { rewrite (surjective_pairing (Z.div_eucl _ _)).
    change (Z.div_eucl (2 * m * 2 ^ 52) (2 ^ 52)).1 with (2 * m * 2 ^ 52 / 2 ^ 52).
    change (Z.div_eucl (2 * m * 2 ^ 52) (2 ^ 52)).2 with ((2 * m * 2 ^ 52) mod 2 ^ 52).
    by rewrite Z.div_mul, Z.mod_mul. }
  change (new_location (2 ^ 52) 0) with loc_Exact.
  replace (2 * m) with (n * 2 ^ (53 - Z.log2 n)).
  - replace (Z.log2 n - 54) with (-1 - (53 - Z.log2 n)) by lia. apply round_aux_half; lia.
  - unfold m. rewrite EL. replace (53 - Z.log2 n) with (2 + (52 - (Z.log2 n + 1))) by lia.
    rewrite Z.pow_add_r by lia. change (2 ^ 2) with 4. lia.
Qed.
