(* ===== verification/Measure.v ===== *)
(** * The supervisor's measurements

    Models src/supervisor/measure: the nine measure modules, which accumulate the
    reports of committed blocks per epoch, and what they output at the end.  The
    relay and broker variants of a module differ in the lists they read and in the
    order of some additions; their common fields are shared records.  Numbers of
    transactions and latencies are binary64 where the code uses [float64], with the
    operations of [SpecFloat]; the CSV files are in [Report]. *)

From S2P Require Import Prelude Params Utils Interfaces Core Instances.
From S2P Require Import TxPool Storage G2E BlockChain MerkleProof Messages CLPA HalfFloats.

(** [t.Sub(u)], a duration that saturates; its value in milliseconds and seconds. *)
Definition Sub (t u : Time) : Z := Z.max (- 2 ^ 63) (Z.min (2 ^ 63 - 1) (t - u)).
Definition Milliseconds (d : Z) : Z := Z.quot d 1000000.
Definition Seconds (d : Z) : float64 :=
  fadd (of_int (Z.quot d 1000000000)) (fdiv (of_int (Z.rem d 1000000000)) (of_int 1000000000)).

(** [l[i] = f(l[i])] *)
Definition slice_upd {A} (l : list A) (i : Z) (f : A → A) : outcome (list A) :=
  x ← slice_at l i; slice_set l i (f x).

(** ** Counters per epoch

    The fields [epochID], [normalTxNum] and the numbers of the two halves of
    cross-shard transactions, [relay1TxNum]/[relay2TxNum] or
    [broker1TxNum]/[broker2TxNum]. *)
Record Counts := mkCounts {
  epochID : Z;
  normalTxNum : list Z;
  firstTxNum : list Z;
  secondTxNum : list Z
}.

Definition new_Counts : Counts := mkCounts (-1) [] [] [].

(** One pass of the loop [for epochID < epochid]. *)
Definition extend_counts (c : Counts) : Counts :=
  mkCounts (i64 (epochID c + 1)) (normalTxNum c ++ [0]) (firstTxNum c ++ [0]) (secondTxNum c ++ [0]).

(** How often the loop runs. *)
Definition missing (c : Counts) (epochid : Z) : nat := Z.to_nat (epochid - epochID c).

Definition add_counts (epochid n a b : Z) (c : Counts) : outcome Counts :=
  normal ← slice_upd (normalTxNum c) epochid (λ x, i64 (x + n));
  first ← slice_upd (firstTxNum c) epochid (λ x, i64 (x + a));
  second ← slice_upd (secondTxNum c) epochid (λ x, i64 (x + b));
  Ret (mkCounts (epochID c) normal first second).

(** The counters of a report; [first] and [second] select the halves. *)
Definition count_block (first second : BlockInfoMsg → list Transaction) (b : BlockInfoMsg)
    (c : Counts) : outcome Counts :=
  add_counts (Epoch b) (zlen (InnerShardTxs b)) (zlen (first b)) (zlen (second b))
    (Nat.iter (missing c (Epoch b)) extend_counts c).

(** The slices of floats, extended by zeros as often as the counters. *)
Definition extend_by {A} (n : nat) (z : A) (l : list A) : list A := Nat.iter n (λ l, l ++ [z]) l.

(** [float64(a+b)/2] *)
Definition half_sum (a b : Z) : float64 := fdiv (of_int (i64 (a + b))) f_two.

(** ** [TestTxNumCount_Relay], [TestTxNumCount_Broker] *)
Record TxNumCount := mkTN { tn_counts : Counts; tn_txNum : list float64 }.

Definition NewTestTxNumCount_Relay : TxNumCount := mkTN new_Counts [].
Definition NewTestTxNumCount_Broker : TxNumCount := mkTN new_Counts [].

Definition TxNumCount_Relay_Update (b : BlockInfoMsg) (m : TxNumCount) : outcome TxNumCount :=
  if BlockBodyLength b =? 0 then Ret m else
  c ← count_block Relay1Txs Relay2Txs b (tn_counts m);
  tn ← slice_upd (extend_by (missing (tn_counts m) (Epoch b)) f_zero (tn_txNum m)) (Epoch b)
         (λ x, fadd x (fadd (of_int (zlen (InnerShardTxs b)))
                         (half_sum (zlen (Relay1Txs b)) (zlen (Relay2Txs b)))));
  Ret (mkTN c tn).

Definition TxNumCount_Broker_Update (b : BlockInfoMsg) (m : TxNumCount) : outcome TxNumCount :=
  if BlockBodyLength b =? 0 then Ret m else
  c ← count_block Broker1Txs Broker2Txs b (tn_counts m);
  tn ← slice_upd (extend_by (missing (tn_counts m) (Epoch b)) f_zero (tn_txNum m)) (Epoch b)
         (λ x, fadd x (fadd (of_int (zlen (InnerShardTxs b)))
                         (fdiv (fadd (of_int (zlen (Broker1Txs b))) (of_int (zlen (Broker2Txs b)))) f_two)));
  Ret (mkTN c tn).

(** [OutputRecord]: the numbers of the epochs and their sum. *)
Definition TxNumCount_Output (m : TxNumCount) : list float64 * float64 :=
  foldl (λ s tn, (s.1 ++ [tn], fadd s.2 tn)) ([], f_zero) (tn_txNum m).

(** ** [TestCrossTxRate_Relay], [TestCrossTxRate_Broker] *)
Record CrossTxRate := mkCR { cr_counts : Counts; totTxNum : list float64; totCrossTxNum : list float64 }.

Definition NewTestCrossTxRate_Relay : CrossTxRate := mkCR new_Counts [] [].
Definition NewTestCrossTxRate_Broker : CrossTxRate := mkCR new_Counts [] [].

Definition CrossTxRate_Relay_Update (b : BlockInfoMsg) (m : CrossTxRate) : outcome CrossTxRate :=
  if BlockBodyLength b =? 0 then Ret m else
  let k := missing (cr_counts m) (Epoch b) in
  let h := half_sum (zlen (Relay1Txs b)) (zlen (Relay2Txs b)) in
  c ← count_block Relay1Txs Relay2Txs b (cr_counts m);
  cross ← slice_upd (extend_by k f_zero (totCrossTxNum m)) (Epoch b) (λ x, fadd x h);
  tot ← slice_upd (extend_by k f_zero (totTxNum m)) (Epoch b)
          (λ x, fadd x (fadd h (of_int (zlen (InnerShardTxs b)))));
  Ret (mkCR c tot cross).

Definition CrossTxRate_Broker_Update (b : BlockInfoMsg) (m : CrossTxRate) : outcome CrossTxRate :=
  if BlockBodyLength b =? 0 then Ret m else
  let k := missing (cr_counts m) (Epoch b) in
  let h := half_sum (zlen (Broker1Txs b)) (zlen (Broker2Txs b)) in
  c ← count_block Broker1Txs Broker2Txs b (cr_counts m);
  cross ← slice_upd (extend_by k f_zero (totCrossTxNum m)) (Epoch b) (λ x, fadd x h);
  tot ← slice_upd (extend_by k f_zero (totTxNum m)) (Epoch b)
          (λ x, fadd x (fadd (of_int (zlen (InnerShardTxs b))) h));
  Ret (mkCR c tot cross).

(** [OutputRecord]: the ratios of the epochs, the two totals, and the overall ratio. *)
Definition CrossTxRate_Output (m : CrossTxRate) : outcome (list float64 * float64) :=
  '(ratios, tot, ctx) ← foldMi (λ '(ratios, tot, ctx) eid totTxN,
      cross ← slice_at (totCrossTxNum m) eid;
      Ret (ratios ++ [fdiv cross totTxN], fadd tot totTxN, fadd ctx cross))
    ([], f_zero, f_zero) 0 (totTxNum m);
  Ret (ratios ++ [tot] ++ [ctx], fdiv ctx tot).

(** ** [TestModule_avgTPS_Relay], [TestModule_avgTPS_Broker] *)
Record AvgTPS := mkTPS {
  tps_counts : Counts;
  excutedTxNum : list float64;
  startTime : list Time;
  endTime : list Time
}.

Definition NewTestModule_avgTPS_Relay : AvgTPS := mkTPS new_Counts [] [] [].
Definition NewTestModule_avgTPS_Broker : AvgTPS := mkTPS new_Counts [] [] [].

Definition earlier (t x : Time) : Time := if IsZero x || (t <? x) then t else x.
Definition later (t x : Time) : Time := if IsZero x || (x <? t) then t else x.

(** The part the two variants share: [ex] adds the report to the number of the epoch. *)
Definition tps_update (first second : BlockInfoMsg → list Transaction) (ex : float64 → float64)
    (b : BlockInfoMsg) (m : AvgTPS) : outcome AvgTPS :=
  if BlockBodyLength b =? 0 then Ret m else
  let k := missing (tps_counts m) (Epoch b) in
  c ← count_block first second b (tps_counts m);
  en ← slice_upd (extend_by k f_zero (excutedTxNum m)) (Epoch b) ex;
  st ← slice_upd (extend_by k 0 (startTime m)) (Epoch b) (earlier (ProposeTime b));
  et ← slice_upd (extend_by k 0 (endTime m)) (Epoch b) (later (CommitTime b));
  Ret (mkTPS c en st et).

Definition AvgTPS_Relay_Update (b : BlockInfoMsg) : AvgTPS → outcome AvgTPS :=
  tps_update Relay1Txs Relay2Txs
    (λ x, fadd (fadd x (half_sum (zlen (Relay1Txs b)) (zlen (Relay2Txs b))))
            (of_int (zlen (InnerShardTxs b)))) b.

Definition AvgTPS_Broker_Update (b : BlockInfoMsg) : AvgTPS → outcome AvgTPS :=
  tps_update Broker1Txs Broker2Txs
    (λ x, fadd x (fadd (of_int (zlen (InnerShardTxs b)))
                    (half_sum (zlen (Broker1Txs b)) (zlen (Broker2Txs b))))) b.

(** [OutputRecord] at the time [now]. *)
Definition AvgTPS_Output (now : Time) (m : AvgTPS) : outcome (list float64 * float64) :=
  '(per, tot, eT, lT) ← foldMi (λ '(per, tot, eT, lT) eid exTxNum,
      st ← slice_at (startTime m) eid;
      et ← slice_at (endTime m) eid;
      per ← slice_set per eid (fdiv exTxNum (Seconds (Sub et st)));
      Ret (per, fadd tot exTxNum, if st <? eT then st else eT, if lT <? et then et else lT))
    (replicate (Z.to_nat (epochID (tps_counts m) + 1)) f_zero, f_zero, now, 0) 0 (excutedTxNum m);
  Ret (per, fdiv tot (Seconds (Sub lT eT))).

(** ** [TestModule_TCL_Relay], [TestModule_TCL_Broker]

    [tcl_TS] is [relay1CommitTS] or [brokerTxMap]. *)
Record TCL := mkTCL {
  tcl_counts : Counts;
  tcl_txNum : list float64;
  totTxLatencyEpoch : list float64;
  firstCommitLatency : list Z;
  secondCommitLatency : list Z;
  ctxCommitLatency : list Z;
  normalTxCommitLatency : list Z;
  tcl_TS : gmap bytes Time
}.

Definition NewTestModule_TCL_Relay : TCL := mkTCL new_Counts [] [] [] [] [] [] ∅.
Definition NewTestModule_TCL_Broker : TCL := mkTCL new_Counts [] [] [] [] [] [] ∅.

(** The accumulators of the epoch during the loops over the report. *)
Record tcl_epoch := mkTE {
  te_tot : float64; te_first : Z; te_second : Z; te_ctx : Z; te_normal : Z; te_TS : gmap bytes Time
}.

(** [x += d.Milliseconds()] *)
Definition add_ms (x d : Z) : Z := i64 (x + Milliseconds d).

Definition relay1_tx (mTime : Time) (s : tcl_epoch) (tx : Transaction) : tcl_epoch :=
  mkTE (te_tot s) (add_ms (te_first s) (Sub mTime (tx_Time tx))) (te_second s) (te_ctx s) (te_normal s)
    (<[TxHash tx := mTime]> (te_TS s)).
Definition relay2_tx (mTime : Time) (s : tcl_epoch) (tx : Transaction) : tcl_epoch :=
  let tot := fadd (te_tot s) (Seconds (Sub mTime (tx_Time tx))) in
  match te_TS s !! TxHash tx with
  | Some r1CommitTime =>
      mkTE tot (te_first s) (add_ms (te_second s) (Sub mTime r1CommitTime))
        (add_ms (te_ctx s) (Sub mTime (tx_Time tx))) (te_normal s) (te_TS s)
  | None => mkTE tot (te_first s) (te_second s) (te_ctx s) (te_normal s) (te_TS s)
  end.
Definition normal_tx (mTime : Time) (s : tcl_epoch) (tx : Transaction) : tcl_epoch :=
  mkTE (fadd (te_tot s) (Seconds (Sub mTime (tx_Time tx)))) (te_first s) (te_second s) (te_ctx s)
    (add_ms (te_normal s) (Sub mTime (tx_Time tx))) (te_TS s).

(** [string(tx.RawTxHash)] *)
Definition raw_key (tx : Transaction) : bytes := default "" (RawTxHash tx).

Definition broker1_tx (mTime : Time) (s : tcl_epoch) (tx : Transaction) : tcl_epoch :=
  mkTE (te_tot s) (add_ms (te_first s) (Sub mTime (tx_Time tx))) (te_second s) (te_ctx s) (te_normal s)
    (<[raw_key tx := tx_Time tx]> (te_TS s)).
Definition broker2_tx (mTime : Time) (s : tcl_epoch) (tx : Transaction) : tcl_epoch :=
  let second := add_ms (te_second s) (Sub mTime (tx_Time tx)) in
  match te_TS s !! raw_key tx with
  | Some b1txProposeTime =>
      mkTE (fadd (te_tot s) (Seconds (Sub mTime b1txProposeTime))) (te_first s) second
        (add_ms (te_ctx s) (Sub mTime b1txProposeTime)) (te_normal s) (te_TS s)
  | None => mkTE (te_tot s) (te_first s) second (te_ctx s) (te_normal s) (te_TS s)
  end.

Definition relay_latencies (b : BlockInfoMsg) (s : tcl_epoch) : tcl_epoch :=
  let s := foldl (relay1_tx (CommitTime b)) s (Relay1Txs b) in
  let s := foldl (relay2_tx (CommitTime b)) s (Relay2Txs b) in
  foldl (normal_tx (CommitTime b)) s (InnerShardTxs b).
Definition broker_latencies (b : BlockInfoMsg) (s : tcl_epoch) : tcl_epoch :=
  let s := foldl (normal_tx (CommitTime b)) s (InnerShardTxs b) in
  let s := foldl (broker1_tx (CommitTime b)) s (Broker1Txs b) in
  foldl (broker2_tx (CommitTime b)) s (Broker2Txs b).

Definition tcl_update (first second : BlockInfoMsg → list Transaction)
    (latencies : BlockInfoMsg → tcl_epoch → tcl_epoch) (b : BlockInfoMsg) (m : TCL) : outcome TCL :=
  if BlockBodyLength b =? 0 then Ret m else
  let e := Epoch b in
  let k := missing (tcl_counts m) e in
  c ← count_block first second b (tcl_counts m);
  tn ← slice_upd (extend_by k f_zero (tcl_txNum m)) e
         (λ x, fadd x (fadd (of_int (zlen (InnerShardTxs b))) (half_sum (zlen (first b)) (zlen (second b)))));
  tot ← slice_at (extend_by k f_zero (totTxLatencyEpoch m)) e;
  l1 ← slice_at (extend_by k 0 (firstCommitLatency m)) e;
  l2 ← slice_at (extend_by k 0 (secondCommitLatency m)) e;
  lc ← slice_at (extend_by k 0 (ctxCommitLatency m)) e;
  ln ← slice_at (extend_by k 0 (normalTxCommitLatency m)) e;
  let s := latencies b (mkTE tot l1 l2 lc ln (tcl_TS m)) in
  tots ← slice_set (extend_by k f_zero (totTxLatencyEpoch m)) e (te_tot s);
  l1s ← slice_set (extend_by k 0 (firstCommitLatency m)) e (te_first s);
  l2s ← slice_set (extend_by k 0 (secondCommitLatency m)) e (te_second s);
  lcs ← slice_set (extend_by k 0 (ctxCommitLatency m)) e (te_ctx s);
  lns ← slice_set (extend_by k 0 (normalTxCommitLatency m)) e (te_normal s);
  Ret (mkTCL c tn tots l1s l2s lcs lns (te_TS s)).

Definition TCL_Relay_Update : BlockInfoMsg → TCL → outcome TCL :=
  tcl_update Relay1Txs Relay2Txs relay_latencies.
Definition TCL_Broker_Update : BlockInfoMsg → TCL → outcome TCL :=
  tcl_update Broker1Txs Broker2Txs broker_latencies.

(** [OutputRecord] *)
Definition TCL_Output (m : TCL) : outcome (list float64 * float64) :=
  '(per, lat, num) ← foldMi (λ '(per, lat, num) eid totLatency,
      n ← slice_at (tcl_txNum m) eid;
      Ret (per ++ [fdiv totLatency n], fadd lat totLatency, fadd num n))
    ([], f_zero, f_zero) 0 (totTxLatencyEpoch m);
  Ret (per, fdiv lat num).

(** ** [TestTxDetail] *)
Record txMetricDetailTime := mkDetail {
  TxProposeTimestamp : Time;
  BlockProposeTimestamp : Time;
  TxCommitTimestamp : Time;
  Relay1CommitTimestamp : Time;
  Relay2CommitTimestamp : Time;
  Broker1CommitTimestamp : Time;
  Broker2CommitTimestamp : Time
}.

Definition TestTxDetail : Type := gmap bytes txMetricDetailTime.
Definition NewTestTxDetail : TestTxDetail := ∅.

(** The entry of a hash, made if it is missing, changed by [f]. *)
Definition detail_upd (key : bytes) (f : txMetricDetailTime → txMetricDetailTime) (m : TestTxDetail) :
    TestTxDetail :=
  <[key := f (default (mkDetail 0 0 0 0 0 0 0) (m !! key))]> m.

Definition inner_detail (b : BlockInfoMsg) (m : TestTxDetail) (tx : Transaction) : TestTxDetail :=
  detail_upd (TxHash tx) (λ d, mkDetail (tx_Time tx) (ProposeTime b) (CommitTime b)
    (Relay1CommitTimestamp d) (Relay2CommitTimestamp d) (Broker1CommitTimestamp d)
    (Broker2CommitTimestamp d)) m.
Definition relay1_detail (b : BlockInfoMsg) (m : TestTxDetail) (tx : Transaction) : TestTxDetail :=
  detail_upd (TxHash tx) (λ d, mkDetail (tx_Time tx) (ProposeTime b) (TxCommitTimestamp d)
    (CommitTime b) (Relay2CommitTimestamp d) (Broker1CommitTimestamp d) (Broker2CommitTimestamp d)) m.
Definition relay2_detail (b : BlockInfoMsg) (m : TestTxDetail) (tx : Transaction) : TestTxDetail :=
  detail_upd (TxHash tx) (λ d, mkDetail (TxProposeTimestamp d) (BlockProposeTimestamp d) (CommitTime b)
    (Relay1CommitTimestamp d) (CommitTime b) (Broker1CommitTimestamp d) (Broker2CommitTimestamp d)) m.
Definition broker1_detail (b : BlockInfoMsg) (m : TestTxDetail) (tx : Transaction) : TestTxDetail :=
  detail_upd (raw_key tx) (λ d, mkDetail (tx_Time tx) (ProposeTime b) (TxCommitTimestamp d)
    (Relay1CommitTimestamp d) (Relay2CommitTimestamp d) (CommitTime b) (Broker2CommitTimestamp d)) m.
Definition broker2_detail (b : BlockInfoMsg) (m : TestTxDetail) (tx : Transaction) : TestTxDetail :=
  detail_upd (raw_key tx) (λ d, mkDetail (TxProposeTimestamp d) (BlockProposeTimestamp d) (CommitTime b)
    (Relay1CommitTimestamp d) (Relay2CommitTimestamp d) (Broker1CommitTimestamp d) (CommitTime b)) m.

Definition TxDetail_Update (b : BlockInfoMsg) (m : TestTxDetail) : TestTxDetail :=
  if BlockBodyLength b =? 0 then m else
  let m := foldl (inner_detail b) m (InnerShardTxs b) in
  let m := foldl (relay1_detail b) m (Relay1Txs b) in
  let m := foldl (relay2_detail b) m (Relay2Txs b) in
  let m := foldl (broker1_detail b) m (Broker1Txs b) in
  foldl (broker2_detail b) m (Broker2Txs b).

Definition TxDetail_Output (m : TestTxDetail) : list float64 * float64 := ([], f_zero).

(** ** What the counters hold *)

(** The non-empty reports of an epoch, and the transactions of a kind in them. *)
Definition counted_in (e : Z) (b : BlockInfoMsg) : bool := negb (BlockBodyLength b =? 0) && (Epoch b =? e).
Definition epoch_total (f : BlockInfoMsg → list Transaction) (e : Z) (l : list BlockInfoMsg) : Z :=
  zsum ((λ b, zlen (f b)) <$> base.filter (λ b, counted_in e b = true) l).

(** The value of a float counter, in halves. *)
Definition epoch_halves (first second : BlockInfoMsg → list Transaction) (e : Z) (l : list BlockInfoMsg) : Z :=
  2 * epoch_total InnerShardTxs e l + epoch_total first e l + epoch_total second e l.

Lemma epoch_total_snoc f e l b :
  epoch_total f e (l ++ [b]) = epoch_total f e l + (if counted_in e b then zlen (f b) else 0).
Proof.
  unfold epoch_total. rewrite filter_app, fmap_app, zsum_app. f_equal. rewrite filter_cons.
  destruct (counted_in e b); [|done]. rewrite decide_True by done. cbn -[zlen]. lia.
Qed.

Lemma epoch_total_nonneg f e l : 0 ≤ epoch_total f e l.
Proof.
  unfold epoch_total. apply zsum_nonneg, Forall_fmap, Forall_forall. intros. apply zlen_nonneg.
Qed.

(** A slice with one value per epoch up to [n], for a function of the epoch. *)
Definition tracks {A} (n : Z) (l : list A) (v : Z → A) : Prop :=
  zlen l = n + 1 ∧ ∀ e, 0 ≤ e ≤ n → l !! Z.to_nat e = Some (v e).

Lemma extend_by_eq {A} k (z : A) l : extend_by k z l = l ++ replicate k z.
Proof.
  unfold extend_by. induction k as [|k IH]; [by rewrite app_nil_r|].
  rewrite Nat.iter_succ, IH, <-app_assoc. f_equal. by rewrite <-replicate_S_end.
Qed.

(** Extending to epoch [e] and changing its entry. *)
Lemma tracks_upd {A} n (l : list A) v v' z e f :
  tracks n l v → -1 ≤ n → 0 ≤ e → (∀ i, n < i → v i = z) →
  v' e = f (v e) → (∀ i, i ≠ e → v' i = v i) →
  ∃ l', slice_upd (extend_by (Z.to_nat (e - n)) z l) e f = Ret l' ∧ tracks (Z.max n e) l' v'.
Proof.
  intros [Hlen Hl] Hn He Hz Hv Hne.
  assert (tracks (Z.max n e) (extend_by (Z.to_nat (e - n)) z l) v) as [Hlen' Hl'].
  { rewrite extend_by_eq. split.
    - unfold zlen in *. rewrite length_app, length_replicate. lia.
    - intros i Hi. destruct (decide (i ≤ n)).
      + rewrite lookup_app_l by (unfold zlen in *; lia). apply Hl. lia.
      + rewrite lookup_app_r by (unfold zlen in *; lia). rewrite Hz by lia.
        apply lookup_replicate. unfold zlen in *. split; [done|lia]. }
  set (l1 := extend_by _ z l) in *. unfold slice_upd.
  rewrite (proj2 (slice_at_lookup l1 e (v e))), bind_ret by (split; [lia|apply Hl'; lia]).
  unfold slice_set. destruct (Z.leb_spec 0 e), (Z.ltb_spec e (zlen l1)); try lia. cbn [andb].
  eexists. split; [done|]. split; [unfold zlen in *; by rewrite length_insert|].
  intros i Hi. rewrite list_lookup_insert. unfold zlen in *. case_decide as Hd.
  - replace i with e by lia. by rewrite Hv.
  - rewrite Hne by lia. apply Hl'. lia.
Qed.

(** A report with an epoch the code can index. *)
Definition report_ok (b : BlockInfoMsg) : Prop := 0 ≤ Epoch b < 2 ^ 62.

(** No non-empty report is of an epoch after [n]. *)
Definition no_later (n : Z) (l : list BlockInfoMsg) : Prop :=
  ∀ e, n < e → base.filter (λ b, counted_in e b = true) l = [].

Lemma counted_here b : BlockBodyLength b ≠ 0 → counted_in (Epoch b) b = true.
Proof. intros Hb. unfold counted_in. apply Z.eqb_neq in Hb. by rewrite Hb, Z.eqb_refl. Qed.
Lemma counted_elsewhere e b : e ≠ Epoch b → counted_in e b = false.
Proof.
  intros He. unfold counted_in. destruct (Z.eqb_spec (Epoch b) e); [congruence|]. apply andb_false_r.
Qed.

Lemma no_later_snoc n l b :
  no_later n l → no_later (Z.max n (Epoch b)) (l ++ [b]).
Proof.
  intros Hl e He. rewrite filter_app, Hl by lia. cbn [app].
  rewrite filter_cons_False; [done|]. rewrite counted_elsewhere by lia. done.
Qed.

(** One more report, for a quantity [V] of the epoch and the reports. *)
Lemma tracks_report {A} (V : Z → list BlockInfoMsg → A) n l b sl z f :
  tracks n sl (λ e, V e l) → -1 ≤ n → report_ok b → BlockBodyLength b ≠ 0 → no_later n l →
  (∀ e, base.filter (λ b, counted_in e b = true) l = [] → V e l = z) →
  V (Epoch b) (l ++ [b]) = f (V (Epoch b) l) →
  (∀ e, counted_in e b = false → V e (l ++ [b]) = V e l) →
  ∃ sl', slice_upd (extend_by (Z.to_nat (Epoch b - n)) z sl) (Epoch b) f = Ret sl' ∧
    tracks (Z.max n (Epoch b)) sl' (λ e, V e (l ++ [b])).
Proof.
  intros Ht Hn Hb Hne Hl Hz Hf Hskip.
  apply (tracks_upd n sl (λ e, V e l)); [done|done|apply Hb| |done|].
  - intros i Hi. by apply Hz, Hl.
  - intros i Hi. by apply Hskip, counted_elsewhere.
Qed.

Definition counts_track (first second : BlockInfoMsg → list Transaction) (c : Counts)
    (l : list BlockInfoMsg) : Prop :=
  -1 ≤ epochID c < 2 ^ 62 ∧ no_later (epochID c) l ∧
  tracks (epochID c) (normalTxNum c) (λ e, epoch_total InnerShardTxs e l) ∧
  tracks (epochID c) (firstTxNum c) (λ e, epoch_total first e l) ∧
  tracks (epochID c) (secondTxNum c) (λ e, epoch_total second e l).

Lemma iter_extend_counts k c :
  -1 ≤ epochID c → epochID c + Z.of_nat k < 2 ^ 63 →
  Nat.iter k extend_counts c =
  mkCounts (epochID c + Z.of_nat k) (extend_by k 0 (normalTxNum c)) (extend_by k 0 (firstTxNum c))
    (extend_by k 0 (secondTxNum c)).
Proof.
  intros H1. induction k as [|k IH]; intros H2; [destruct c; cbn; f_equal; lia|].
  rewrite Nat.iter_succ, IH by lia. unfold extend_counts. cbn [epochID normalTxNum firstTxNum secondTxNum].
  rewrite i64_id by lia. f_equal. lia.
Qed.

(** The change of one integer counter. *)
Lemma epoch_total_add (f : BlockInfoMsg → list Transaction) l b :
  BlockBodyLength b ≠ 0 → epoch_total f (Epoch b) (l ++ [b]) < 2 ^ 63 →
  epoch_total f (Epoch b) (l ++ [b]) = i64 (epoch_total f (Epoch b) l + zlen (f b)).
Proof.
  intros Hb Hs. rewrite epoch_total_snoc in *. rewrite counted_here in * by done.
  rewrite i64_id; [done|]. pose proof (epoch_total_nonneg f (Epoch b) l). pose proof (zlen_nonneg (f b)). lia.
Qed.

Lemma epoch_total_skip f e l b : counted_in e b = false → epoch_total f e (l ++ [b]) = epoch_total f e l.
Proof. intros H. rewrite epoch_total_snoc, H. lia. Qed.

Lemma epoch_total_none f e l : base.filter (λ b, counted_in e b = true) l = [] → epoch_total f e l = 0.
Proof. unfold epoch_total. by intros ->. Qed.

Lemma count_block_track first second b c l :
  counts_track first second c l → report_ok b → BlockBodyLength b ≠ 0 →
  (∀ f, f ∈ [InnerShardTxs; first; second] → epoch_total f (Epoch b) (l ++ [b]) < 2 ^ 63) →
  ∃ c', count_block first second b c = Ret c' ∧ epochID c' = Z.max (epochID c) (Epoch b) ∧
    counts_track first second c' (l ++ [b]).
Proof.
  intros ((Hn1 & Hn2) & Hl & T1 & T2 & T3) Hb Hne Hsmall. unfold count_block, missing.
  assert (epochID c + Z.of_nat (Z.to_nat (Epoch b - epochID c)) = Z.max (epochID c) (Epoch b)) as Emax
    by (unfold report_ok in Hb; lia).
  rewrite iter_extend_counts, Emax by (unfold report_ok in Hb; lia). unfold add_counts.
  cbn [normalTxNum firstTxNum secondTxNum epochID].
  assert (∀ f sl, f ∈ [InnerShardTxs; first; second] → tracks (epochID c) sl (λ e, epoch_total f e l) →
    ∃ sl', slice_upd (extend_by (Z.to_nat (Epoch b - epochID c)) 0 sl) (Epoch b)
             (λ x, i64 (x + zlen (f b))) = Ret sl' ∧
      tracks (Z.max (epochID c) (Epoch b)) sl' (λ e, epoch_total f e (l ++ [b]))) as Hupd.
  { intros f sl Hf Hsl. apply (tracks_report (epoch_total f) (epochID c) l b sl 0); [done|lia|done|done|done| | |].
    - intros e. apply epoch_total_none.
    - apply epoch_total_add; [done|by apply Hsmall].
    - intros e. apply epoch_total_skip. }
  destruct (Hupd InnerShardTxs _ ltac:(set_solver) T1) as (s1 & -> & R1).
  destruct (Hupd first _ ltac:(set_solver) T2) as (s2 & -> & R2).
  destruct (Hupd second _ ltac:(set_solver) T3) as (s3 & -> & R3).
  rewrite !bind_ret. eexists. split; [done|]. split; [done|]. unfold report_ok in Hb.
  split_and!; cbn; [lia|lia|by apply no_later_snoc|done..].
Qed.

(** ** The float counters are exact *)
Lemma half_sum_eq a c : 0 ≤ a → 0 ≤ c → a + c < 2 ^ 52 → half_sum a c = half_float (a + c).
Proof. intros. unfold half_sum. rewrite i64_id by lia. apply fdiv_two. lia. Qed.

(** The four ways the code adds a report to a counter. *)
Section Additions.
Variables (h n a c : Z).
Hypothesis (Hh : 0 ≤ h) (Hn : 0 ≤ n) (Ha : 0 ≤ a) (Hc : 0 ≤ c) (Hs : h + 2 * n + a + c < 2 ^ 52).

Lemma add_inner_halves :
  fadd (half_float h) (fadd (of_int n) (half_sum a c)) = half_float (h + 2 * n + a + c).
Proof.
  rewrite half_sum_eq, of_int_half, !fadd_half by (unfold small; lia). f_equal. lia.
Qed.
Lemma add_halves_inner :
  fadd (half_float h) (fadd (half_sum a c) (of_int n)) = half_float (h + 2 * n + a + c).
Proof.
  rewrite half_sum_eq, of_int_half, !fadd_half by (unfold small; lia). f_equal. lia.
Qed.
Lemma add_halves_then_inner :
  fadd (fadd (half_float h) (half_sum a c)) (of_int n) = half_float (h + 2 * n + a + c).
Proof.
  rewrite half_sum_eq, of_int_half, !fadd_half by (unfold small; lia). f_equal. lia.
Qed.
Lemma add_inner_sum_halved :
  fadd (half_float h) (fadd (of_int n) (fdiv (fadd (of_int a) (of_int c)) f_two)) =
  half_float (h + 2 * n + a + c).
Proof.
  assert (fadd (of_int a) (of_int c) = of_int (a + c)) as ->.
  { rewrite (of_int_half a), (of_int_half c), (of_int_half (a + c)), fadd_half by (unfold small; lia).
    f_equal. lia. }
  rewrite fdiv_two, of_int_half, !fadd_half by (unfold small; lia). f_equal. lia.
Qed.
End Additions.

Lemma epoch_halves_snoc first second l b :
  BlockBodyLength b ≠ 0 →
  epoch_halves first second (Epoch b) (l ++ [b]) =
  epoch_halves first second (Epoch b) l + 2 * zlen (InnerShardTxs b) + zlen (first b) + zlen (second b).
Proof.
  intros Hb. unfold epoch_halves. rewrite !epoch_total_snoc, !counted_here by done. lia.
Qed.

Lemma epoch_halves_nonneg first second e l : 0 ≤ epoch_halves first second e l.
Proof.
  unfold epoch_halves. pose proof (epoch_total_nonneg InnerShardTxs e l).
  pose proof (epoch_total_nonneg first e l). pose proof (epoch_total_nonneg second e l). lia.
Qed.

(** One report, for a float counter of all transactions. *)
Lemma halves_track first second n l b sl ex :
  tracks n sl (λ e, half_float (epoch_halves first second e l)) → -1 ≤ n → no_later n l →
  report_ok b → BlockBodyLength b ≠ 0 → epoch_halves first second (Epoch b) (l ++ [b]) < 2 ^ 52 →
  (∀ h, 0 ≤ h → h + 2 * zlen (InnerShardTxs b) + zlen (first b) + zlen (second b) < 2 ^ 52 →
     ex (half_float h) =
     half_float (h + 2 * zlen (InnerShardTxs b) + zlen (first b) + zlen (second b))) →
  ∃ sl', slice_upd (extend_by (Z.to_nat (Epoch b - n)) f_zero sl) (Epoch b) ex = Ret sl' ∧
    tracks (Z.max n (Epoch b)) sl' (λ e, half_float (epoch_halves first second e (l ++ [b]))).
Proof.
  intros Ht Hn Hl Hb Hne Hs Hex.
  apply (tracks_report (λ e l, half_float (epoch_halves first second e l)) n l b sl f_zero);
    [done|done|done|done|done| | |].
  - intros e He. unfold epoch_halves. by rewrite !epoch_total_none.
  - rewrite epoch_halves_snoc in * by done. symmetry. apply Hex; [|done]. apply epoch_halves_nonneg.
  - intros e He. unfold epoch_halves. by rewrite !epoch_total_skip.
Qed.

Lemma totals_small first second l b :
  epoch_halves first second (Epoch b) (l ++ [b]) < 2 ^ 52 →
  ∀ f, f ∈ [InnerShardTxs; first; second] → epoch_total f (Epoch b) (l ++ [b]) < 2 ^ 63.
Proof.
  intros Hs f Hf. unfold epoch_halves in Hs.
  pose proof (epoch_total_nonneg InnerShardTxs (Epoch b) (l ++ [b])).
  pose proof (epoch_total_nonneg first (Epoch b) (l ++ [b])).
  pose proof (epoch_total_nonneg second (Epoch b) (l ++ [b])).
  rewrite !elem_of_cons, elem_of_nil in Hf. destruct Hf as [->|[->|[->|[]]]]; lia.
Qed.

(** Fewer reports hold fewer transactions. *)
Lemma epoch_halves_prefix first second e l b :
  epoch_halves first second e l ≤ epoch_halves first second e (l ++ [b]).
Proof.
  unfold epoch_halves. rewrite !epoch_total_snoc. destruct (counted_in e b); [|lia].
  pose proof (zlen_nonneg (InnerShardTxs b)). pose proof (zlen_nonneg (first b)).
  pose proof (zlen_nonneg (second b)). lia.
Qed.

Lemma no_later_empty n l b : BlockBodyLength b = 0 → no_later n l → no_later n (l ++ [b]).
Proof.
  intros Hb Hl e He. rewrite filter_app, Hl by done. cbn [app].
  rewrite filter_cons_False; [done|]. unfold counted_in. by rewrite Hb.
Qed.

Lemma counted_empty e b : BlockBodyLength b = 0 → counted_in e b = false.
Proof. intros Hb. unfold counted_in. by rewrite Hb. Qed.

(** An empty report changes no quantity. *)
Lemma tracks_empty {A} (V : Z → list BlockInfoMsg → A) n l b sl :
  (∀ e, counted_in e b = false → V e (l ++ [b]) = V e l) → BlockBodyLength b = 0 →
  tracks n sl (λ e, V e l) → tracks n sl (λ e, V e (l ++ [b])).
Proof.
  intros HV Hb [H1 H2]. split; [done|]. intros e He. rewrite HV by (by apply counted_empty). by apply H2.
Qed.

Lemma counts_track_empty first second c l b :
  BlockBodyLength b = 0 → counts_track first second c l → counts_track first second c (l ++ [b]).
Proof.
  intros Hb (H1 & H2 & T1 & T2 & T3). split; [done|]. split; [by apply no_later_empty|].
  split_and!; by apply (tracks_empty (epoch_total _)); [intros; by apply epoch_total_skip|..].
Qed.

Lemma new_counts_track first second : counts_track first second new_Counts [].
Proof.
  assert (∀ v : Z → Z, tracks (-1) [] v) as Ht.
  { intros v. split; [done|]. intros e He. lia. }
  split; [cbn; lia|]. split; [by intros e He|]. split_and!; apply Ht.
Qed.

(** ** The modules *)

(** A run of a module over reports. *)
Definition measure {M} (upd : BlockInfoMsg → M → outcome M) (m : M) (l : list BlockInfoMsg) : outcome M :=
  foldM (λ m b, upd b m) m l.

(** Induction over the reports: [I m l] describes the module after the reports [l]. *)
Lemma measure_ind {M} (upd : BlockInfoMsg → M → outcome M) (I : M → list BlockInfoMsg → Prop)
    (first second : BlockInfoMsg → list Transaction) (m0 : M) (reports : list BlockInfoMsg) :
  I m0 [] →
  (∀ m l b, I m l → report_ok b →
     (∀ e, epoch_halves first second e (l ++ [b]) < 2 ^ 52) → ∃ m', upd b m = Ret m' ∧ I m' (l ++ [b])) →
  Forall report_ok reports → (∀ e, epoch_halves first second e reports < 2 ^ 52) →
  ∃ m, measure upd m0 reports = Ret m ∧ I m reports.
Proof.
  intros H0 Hstep. induction reports as [|b l IH] using rev_ind; intros Hok Hs; [by exists m0|].
  apply Forall_app in Hok as [Hl Hb]. rewrite Forall_singleton in Hb.
  destruct IH as (m & Em & Hm); [done| |].
  { intros e. eapply Z.le_lt_trans; [apply epoch_halves_prefix|apply Hs]. }
  destruct (Hstep m l b Hm Hb Hs) as (m' & Em' & Hm'). exists m'. split; [|done].
  unfold measure in *. rewrite foldM_app, Em, bind_ret. cbn. by rewrite Em'.
Qed.

Definition txnum_ok (first second : BlockInfoMsg → list Transaction) (m : TxNumCount)
    (l : list BlockInfoMsg) : Prop :=
  counts_track first second (tn_counts m) l ∧
  tracks (epochID (tn_counts m)) (tn_txNum m) (λ e, half_float (epoch_halves first second e l)).

Lemma txnum_step first second ex m l b :
  txnum_ok first second m l → report_ok b → (∀ e, epoch_halves first second e (l ++ [b]) < 2 ^ 52) →
  (∀ h, 0 ≤ h → h + 2 * zlen (InnerShardTxs b) + zlen (first b) + zlen (second b) < 2 ^ 52 →
     ex (half_float h) =
     half_float (h + 2 * zlen (InnerShardTxs b) + zlen (first b) + zlen (second b))) →
  ∃ m', (if BlockBodyLength b =? 0 then Ret m else
         c ← count_block first second b (tn_counts m);
         tn ← slice_upd (extend_by (missing (tn_counts m) (Epoch b)) f_zero (tn_txNum m)) (Epoch b) ex;
         Ret (mkTN c tn)) = Ret m' ∧ txnum_ok first second m' (l ++ [b]).
Proof.
  intros [Hc Ht] Hb Hs Hex. destruct (Z.eqb_spec (BlockBodyLength b) 0) as [H0|H0].
  { exists m. split; [done|]. split; [by apply counts_track_empty|].
    apply (tracks_empty (λ e l, half_float (epoch_halves first second e l))); [|done|done].
    intros e He. unfold epoch_halves. by rewrite !epoch_total_skip. }
  destruct (count_block_track first second b (tn_counts m) l Hc Hb H0) as (c & -> & Ee & Hc').
  { by apply totals_small. }
  rewrite bind_ret. unfold missing. pose proof Hc as ((Hn & _) & Hl & _).
  destruct (halves_track first second (epochID (tn_counts m)) l b (tn_txNum m) ex)
    as (tn & -> & Ht'); [done..|by rewrite bind_ret; exists (mkTN c tn); split; [|split; cbn; rewrite ?Ee]].
Qed.

(** The transaction counters of the supervisor are exact: after any
    sequence of reports (with fewer than 2^52 halves of transactions per epoch) every epoch's
    integer counters hold the numbers of transactions of each kind reported for it by
    non-empty blocks, and the [float64] counter their sum with the two halves of
    cross-shard transactions counted as one half each, without any rounding error;
    this holds for the relay and the broker variant, and no update panics. *)
Theorem TxNumCount_exact reports :
  Forall report_ok reports →
  (∀ e, epoch_halves Relay1Txs Relay2Txs e reports < 2 ^ 52) →
  (∀ e, epoch_halves Broker1Txs Broker2Txs e reports < 2 ^ 52) →
  (∃ m, measure TxNumCount_Relay_Update NewTestTxNumCount_Relay reports = Ret m ∧
     txnum_ok Relay1Txs Relay2Txs m reports) ∧
  (∃ m, measure TxNumCount_Broker_Update NewTestTxNumCount_Broker reports = Ret m ∧
     txnum_ok Broker1Txs Broker2Txs m reports).
Proof.
  intros Hok H1 H2. split.
  - apply (measure_ind _ (txnum_ok Relay1Txs Relay2Txs) Relay1Txs Relay2Txs); [|..|done|done].
    + split; [apply new_counts_track|]. split; [done|]. intros e He. cbn in He. lia.
    + intros m l b Hm Hb Hs. apply txnum_step; [done..|]. intros h Hh Hlt.
      apply add_inner_halves; auto with emu.
  - apply (measure_ind _ (txnum_ok Broker1Txs Broker2Txs) Broker1Txs Broker2Txs); [|..|done|done].
    + split; [apply new_counts_track|]. split; [done|]. intros e He. cbn in He. lia.
    + intros m l b Hm Hb Hs. apply txnum_step; [done..|]. intros h Hh Hlt.
      apply add_inner_sum_halved; auto with emu.
Qed.
