(* ===== verification/Supervisor.v ===== *)
(** * The supervisor

    Models src/supervisor/supervisor.go: the choice of the committee and the measure
    modules, the handling of block reports and other messages (each under [tcpLock]),
    and the end of a run: once the committee has injected all transactions and enough
    empty blocks were reported in a row, every node is told to stop and the
    measurements are output.  The committee and the supervisor share the stop signal,
    which is a field of the committee's [Feeder], as are the messages sent.  Listening
    is in [Listen], the CSV files are in [Report]. *)

From S2P Require Import Prelude Params Utils Interfaces Core Instances Sha256.
From S2P Require Import TxPool Storage G2E BlockChain MerkleProof Messages Pbft CLPA HalfFloats.
From S2P Require Import Injection BrokerCommittee ClpaCommittee Measure.

(** ** The interfaces [CommitteeModule] and [MeasureModule] *)
Inductive CommitteeModule :=
| ComRelay (c : RelayCommitteeModule)
| ComBroker (c : BrokerCommitteeMod)
| ComCLPA (c : CLPACommitteeModule)
| ComCLPABroker (c : CLPACommitteeMod_Broker).

Inductive MeasureModule :=
| TPS_Relay (m : AvgTPS)
| TPS_Broker (m : AvgTPS)
| TCL_Relay (m : TCL)
| TCL_Broker (m : TCL)
| CrossRate_Relay (m : CrossTxRate)
| CrossRate_Broker (m : CrossTxRate)
| TxNum_Relay (m : TxNumCount)
| TxNum_Broker (m : TxNumCount)
| Details (m : TestTxDetail).

Record Supervisor := mkSup {
  s_IPaddr : string;
  s_ChainConfig : ChainConfig;
  Ip_nodeTable : gmap Z (gmap Z string);
  listenStop : bool;
  comMod : CommitteeModule;
  testMeasureMods : list MeasureModule
}.

Definition com_feeder (m : CommitteeModule) : Feeder :=
  match m with
  | ComRelay c => c
  | ComBroker c => bcm_feeder c
  | ComCLPA c => clc_feeder c
  | ComCLPABroker c => clb_feeder c
  end.
Definition set_com_feeder (f : Feeder) (m : CommitteeModule) : CommitteeModule :=
  match m with
  | ComRelay _ => ComRelay f
  | ComBroker c => ComBroker (set_feeder f c)
  | ComCLPA c => ComCLPA (on_feeder (λ _, f) c)
  | ComCLPABroker c => ComCLPABroker (with_broker c (set_feeder f (clb_broker c)))
  end.

(** [d.Ss] *)
Definition sup_Ss (d : Supervisor) : StopSignal := fd_Ss (com_feeder (comMod d)).

Definition set_comMod (m : CommitteeModule) (d : Supervisor) : Supervisor :=
  mkSup (s_IPaddr d) (s_ChainConfig d) (Ip_nodeTable d) (listenStop d) m (testMeasureMods d).
Definition set_measures (l : list MeasureModule) (d : Supervisor) : Supervisor :=
  mkSup (s_IPaddr d) (s_ChainConfig d) (Ip_nodeTable d) (listenStop d) (comMod d) l.

(** ** Measure modules *)
Definition new_measure (name : string) : option MeasureModule :=
  if decide (name = "TPS_Relay") then Some (TPS_Relay NewTestModule_avgTPS_Relay)
  else if decide (name = "TPS_Broker") then Some (TPS_Broker NewTestModule_avgTPS_Broker)
  else if decide (name = "TCL_Relay") then Some (TCL_Relay NewTestModule_TCL_Relay)
  else if decide (name = "TCL_Broker") then Some (TCL_Broker NewTestModule_TCL_Broker)
  else if decide (name = "CrossTxRate_Relay") then Some (CrossRate_Relay NewTestCrossTxRate_Relay)
  else if decide (name = "CrossTxRate_Broker") then Some (CrossRate_Broker NewTestCrossTxRate_Broker)
  else if decide (name = "TxNumberCount_Relay") then Some (TxNum_Relay NewTestTxNumCount_Relay)
  else if decide (name = "TxNumberCount_Broker") then Some (TxNum_Broker NewTestTxNumCount_Broker)
  else if decide (name = "Tx_Details") then Some (Details NewTestTxDetail)
  else None.

Definition UpdateMeasureRecord (b : BlockInfoMsg) (m : MeasureModule) : outcome MeasureModule :=
  match m with
  | TPS_Relay m => m ← AvgTPS_Relay_Update b m; Ret (TPS_Relay m)
  | TPS_Broker m => m ← AvgTPS_Broker_Update b m; Ret (TPS_Broker m)
  | TCL_Relay m => m ← TCL_Relay_Update b m; Ret (TCL_Relay m)
  | TCL_Broker m => m ← TCL_Broker_Update b m; Ret (TCL_Broker m)
  | CrossRate_Relay m => m ← CrossTxRate_Relay_Update b m; Ret (CrossRate_Relay m)
  | CrossRate_Broker m => m ← CrossTxRate_Broker_Update b m; Ret (CrossRate_Broker m)
  | TxNum_Relay m => m ← TxNumCount_Relay_Update b m; Ret (TxNum_Relay m)
  | TxNum_Broker m => m ← TxNumCount_Broker_Update b m; Ret (TxNum_Broker m)
  | Details m => Ret (Details (TxDetail_Update b m))
  end.

Definition HandleExtraMessage (msg : bytes) (m : MeasureModule) : MeasureModule := m.

Definition OutputMetricName (m : MeasureModule) : string :=
  match m with
  | TPS_Relay _ | TPS_Broker _ => "Average_TPS"
  | TCL_Relay _ | TCL_Broker _ => "Transaction_Confirm_Latency"
  | CrossRate_Relay _ | CrossRate_Broker _ => "CrossTransaction_ratio"
  | TxNum_Relay _ | TxNum_Broker _ => "Tx_number"
  | Details _ => "Tx_Details"
  end.

Definition OutputRecord (now : Time) (m : MeasureModule) : outcome (list float64 * float64) :=
  match m with
  | TPS_Relay m | TPS_Broker m => AvgTPS_Output now m
  | TCL_Relay m | TCL_Broker m => TCL_Output m
  | CrossRate_Relay m | CrossRate_Broker m => CrossTxRate_Output m
  | TxNum_Relay m | TxNum_Broker m => Ret (TxNumCount_Output m)
  | Details m => Ret (TxDetail_Output m)
  end.

Section Supervisor.
Context {PR : Params} {BS : BitSetOps} {G : GobOps} {F : BigFloat.FloatSyntax}.
Context {JIT : Json InjectTxs} {JPM : Json PartitionModifiedMap} {JRaw : Json BrokerRawMeg}.
Context {JI2 : Json InnerTx2CrossTx} {JBI : Json BlockInfoMsg}.

(** ** [NewSupervisor] *)
Definition new_committee (method : string) (brokers : option (list string)) (ips : IpTable)
    (Ss : StopSignal) : CommitteeModule :=
  if decide (method = "CLPA_Broker") then
    ComCLPABroker (NewCLPACommitteeMod_Broker brokers ips Ss TotalDataSize TxBatchSize ReconfigTimeGap)
  else if decide (method = "CLPA") then
    ComCLPA (NewCLPACommitteeModule ips Ss TotalDataSize TxBatchSize ReconfigTimeGap)
  else if decide (method = "Broker") then
    ComBroker (NewBrokerCommitteeMod brokers ips Ss TotalDataSize TxBatchSize)
  else ComRelay (NewRelayCommitteeModule ips Ss TotalDataSize TxBatchSize).

(** [table] is [params.IPmap_nodeTable], [brokers] the file of broker addresses. *)
Definition NewSupervisor (ip : string) (pcc : ChainConfig) (method : string)
    (brokers : option (list string)) (table : IpTable) (measureModNames : list string) : Supervisor :=
  let Ss := NewStopSignal (i64 (3 * i64 (ShardNums pcc))) in
  mkSup ip pcc table false (new_committee method brokers table Ss) (omap new_measure measureModNames).

(** ** Messages *)
Definition com_HandleBlockInfo (clock : nat → Time) (b : BlockInfoMsg) (m : CommitteeModule) :
    outcome CommitteeModule :=
  match m with
  | ComRelay c => Ret (ComRelay (Relay_HandleBlockInfo b c))
  | ComBroker c => c ← Broker_HandleBlockInfo clock b c; Ret (ComBroker c)
  | ComCLPA c => c ← Clpa_HandleBlockInfo b c; Ret (ComCLPA c)
  | ComCLPABroker c => c ← ClpaBroker_HandleBlockInfo clock b c; Ret (ComCLPABroker c)
  end.

Definition com_HandleOtherMessage (clock : nat → Time) (msg : bytes) (m : CommitteeModule) :
    outcome CommitteeModule :=
  match m with
  | ComRelay c => Ret (ComRelay (Relay_HandleOtherMessage msg c))
  | ComBroker c => Ret (ComBroker (Broker_HandleOtherMessage msg c))
  | ComCLPA c => Ret (ComCLPA (Clpa_HandleOtherMessage msg c))
  | ComCLPABroker c => c ← ClpaBroker_HandleOtherMessage clock msg c; Ret (ComCLPABroker c)
  end.

Definition handleBlockInfos (clock : nat → Time) (content : bytes) (d : Supervisor) :
    outcome Supervisor :=
  bim ← decode content;
  let m := set_com_feeder (note_body bim (com_feeder (comMod d))) (comMod d) in
  m ← com_HandleBlockInfo clock bim m;
  mods ← foldM (λ l x, x ← UpdateMeasureRecord bim x; Ret (l ++ [x])) [] (testMeasureMods d);
  Ret (set_measures mods (set_comMod m d)).

Definition Supervisor_handleMessage (clock : nat → Time) (msg : bytes) (d : Supervisor) :
    outcome Supervisor :=
  '(msgType, content) ← SplitMessage msg;
  if decide (msgType = CBlockInfo) then handleBlockInfos clock content d
  else
    m ← com_HandleOtherMessage clock msg (comMod d);
    Ret (set_measures (HandleExtraMessage msg <$> testMeasureMods d) (set_comMod m d)).

(** ** The end of a run *)

(** The addresses of all nodes, in the order of the loops. *)
Definition all_nodes (d : Supervisor) : list string :=
  seqZ 0 (ShardNums (s_ChainConfig d)) ≫= λ sid,
    (λ nid, table_ip (Ip_nodeTable d) sid nid) <$> seqZ 0 (Nodes_perShard (s_ChainConfig d)).

(** The part of [SupervisorTxHandling] after the waiting loop, with [CloseSupervisor]:
    the names and values that are output. *)
Definition CloseSupervisor (now : Time) (d : Supervisor) :
    outcome (list (string * (list float64 * float64))) :=
  foldM (λ out m, r ← OutputRecord now m; Ret (out ++ [(OutputMetricName m, r)])) [] (testMeasureMods d).

Definition stop_all (now : Time) (d : Supervisor) :
    outcome (Supervisor * list (string * (list float64 * float64))) :=
  stopmsg ← MergeMessage CStop "this is a stop message~";
  let f := send_out ((λ a, (a, stopmsg)) <$> all_nodes d) (com_feeder (comMod d)) in
  let d := mkSup (s_IPaddr d) (s_ChainConfig d) (Ip_nodeTable d) true
             (set_com_feeder f (comMod d)) (testMeasureMods d) in
  out ← CloseSupervisor now d;
  Ret (d, out).

(** ** Runs with the relay committee

    Where [SupervisorTxHandling] is, with the rows still to be read. *)
Inductive sphase := Feeding (rows : list (option (list string))) | Waiting | Stopped.

(** What happened to the stop signal: a batch was sent, or a block was reported. *)
Inductive event := Batch | Report (empty : bool).

(** The row completes a batch. *)
Definition completes_batch (now : Time) (data : list string) (f : Feeder) : bool :=
  match data2tx now data (u64 (nowDataNum f)) with
  | Ret (Some tx) => batch_ready (accept tx f)
  | Ret None => batch_ready f
  | Panic _ => false
  end.

(** [sup_run tr s]: the supervisor can reach [s], and [tr] is what happened. *)
Inductive sup_run (start : sphase * Supervisor) : list event → sphase * Supervisor → Prop :=
| run_start : sup_run start [] start
| run_row tr now data rows d f f' stop :
    sup_run start tr (Feeding (Some data :: rows), d) → comMod d = ComRelay f →
    relay_row now data f = Ret (f', stop) →
    sup_run start (tr ++ if completes_batch now data f then [Batch] else [])
      (if stop then Waiting else Feeding rows, set_comMod (ComRelay f') d)
| run_eof tr d : sup_run start tr (Feeding [], d) → sup_run start tr (Waiting, d)
| run_report tr clock b content ph d d' :
    sup_run start tr (ph, d) → unmarshal content = Some b →
    handleBlockInfos clock content d = Ret d' →
    sup_run start (tr ++ [Report (BlockBodyLength b =? 0)]) (ph, d')
| run_other tr clock msg ct ph d d' t :
    sup_run start tr (ph, d) → SplitMessage msg = Ret (t, ct) → t ≠ CBlockInfo →
    Supervisor_handleMessage clock msg d = Ret d' → sup_run start tr (ph, d')
| run_stop tr now d d' out :
    sup_run start tr (Waiting, d) → GapEnough (sup_Ss d) = true →
    stop_all now d = Ret (d', out) → sup_run start tr (Stopped, d').

(** ** When the supervisor stops *)

(** The number of empty reports since the last batch or non-empty report. *)
Definition quiet (tr : list event) : Z :=
  foldl (λ n ev, match ev with Report true => n + 1 | _ => 0 end) 0 tr.

Lemma quiet_snoc tr ev :
  quiet (tr ++ [ev]) = match ev with Report true => quiet tr + 1 | _ => 0 end.
Proof. unfold quiet. by rewrite foldl_app. Qed.

Lemma quiet_bound tr : 0 ≤ quiet tr ≤ zlen tr.
Proof.
  induction tr as [|ev tr IH] using rev_ind; [done|]. rewrite quiet_snoc, zlen_app.
  change (zlen [ev]) with 1. destruct ev as [|[]]; lia.
Qed.

(** The signal after the events [tr], with threshold [n]. *)
Definition signal_after (n : Z) (tr : list event) (ss : StopSignal) : Prop :=
  stopGap ss = quiet tr ∧ stopThreshold ss = n.

Definition relay_signal (n : Z) (tr : list event) (d : Supervisor) : Prop :=
  ∃ f, comMod d = ComRelay f ∧ signal_after n tr (fd_Ss f).

Lemma relay_row_signal n tr now data f f' stop :
  relay_row now data f = Ret (f', stop) → signal_after n tr (fd_Ss f) →
  signal_after n (tr ++ if completes_batch now data f then [Batch] else []) (fd_Ss f').
Proof.
  unfold relay_row, completes_batch. intros E [Hg Ht]. apply bind_Ret_inv in E as (otx & -> & E).
  cbv zeta in E. apply bind_Ret_inv in E as (f1 & E1 & E). injection E as <- _.
  assert (∀ g, fd_Ss g = fd_Ss f →
    (if batch_ready g then f ← Relay_txSending (txlist g) g; Ret (batch_done f) else Ret g) = Ret f1 →
    signal_after n (tr ++ if batch_ready g then [Batch] else []) (fd_Ss f1)) as Hgen.
  { intros g Eg Ef. destruct (batch_ready g).
    - apply bind_Ret_inv in Ef as (g1 & E2 & Ef). injection Ef as <-. unfold Relay_txSending in E2.
      apply bind_Ret_inv in E2 as (msgs & _ & E2). injection E2 as <-.
      split; cbn; [by rewrite quiet_snoc|by rewrite Eg].
    - injection Ef as <-. by rewrite app_nil_r, Eg. }
  destruct otx as [tx|]; by apply Hgen.
Qed.

Lemma report_signal n tr clock content b d d' :
  relay_signal n tr d → unmarshal content = Some b → handleBlockInfos clock content d = Ret d' →
  zlen tr < 2 ^ 63 - 1 →
  relay_signal n (tr ++ [Report (BlockBodyLength b =? 0)]) d'.
Proof.
  intros (f & Ef & Hg & Ht) Eb E Hlen. unfold handleBlockInfos, decode in E. rewrite Eb in E.
  cbn [or_panic] in E. rewrite bind_ret, Ef in E. cbv zeta in E.
  cbn [com_feeder set_com_feeder com_HandleBlockInfo] in E. rewrite bind_ret in E.
  apply bind_Ret_inv in E as (mods & _ & E). injection E as <-.
  exists (note_body b f). split; [done|]. unfold note_body, signal_after. cbn. rewrite quiet_snoc.
  pose proof (quiet_bound tr). destruct (_ =? _); cbn; [|done].
  rewrite Hg, i64_id by lia. done.
Qed.

Lemma sup_run_signal start tr s n :
  sup_run start tr s → relay_signal n [] start.2 → zlen tr < 2 ^ 63 → relay_signal n tr s.2.
Proof.
  intros Hr H0. induction Hr as [|tr now data rows d f f' stop Hr IH Ef E|tr d Hr IH
    |tr clock b content ph d d' Hr IH Eb E|tr clock msg ct ph d d' t Hr IH Et Hne E|tr now d d' out Hr IH _ E];
    intros Hlen; cbn [fst snd] in *.
  - done.
  - destruct IH as (f0 & Ef0 & Hs).
    { rewrite zlen_app in Hlen. pose proof (zlen_nonneg (if completes_batch now data f then [Batch] else [])). lia. }
    rewrite Ef in Ef0. injection Ef0 as <-. exists f'. split; [done|]. by eapply relay_row_signal.
  - by apply IH.
  - rewrite zlen_app in Hlen. change (zlen [_]) with 1 in Hlen.
    eapply report_signal; [apply IH; lia|done|done|lia].
  - destruct (IH Hlen) as (f & Ef & Hs). unfold Supervisor_handleMessage in E.
    rewrite Et, bind_ret in E. rewrite decide_False in E by done. rewrite Ef in E.
    cbn [com_HandleOtherMessage] in E. rewrite bind_ret in E. injection E as <-. by exists f.
  - destruct (IH Hlen) as (f & Ef & Hs). unfold stop_all in E. apply bind_Ret_inv in E as (msg & _ & E).
    cbv zeta in E. apply bind_Ret_inv in E as (o & _ & E). injection E as <- _.
    cbn [comMod]. rewrite Ef. cbn [com_feeder set_com_feeder]. eexists. split; [done|]. done.
Qed.

(** C23 (safety) The supervisor with the relay committee stops the run exactly when it is
    quiet: at every point of a run the stop signal counts the empty blocks reported
    since the last batch was injected or a non-empty block was reported, whatever else
    happened, and the run may be stopped if and only if these are at least three per
    shard; stopping then sends every node of every shard one stop message. *)
Theorem supervisor_stops_when_quiet ip pcc brokers table names rows tr ph d :
  0 ≤ ShardNums pcc < 2 ^ 60 → zlen tr < 2 ^ 63 →
  sup_run (Feeding rows, NewSupervisor ip pcc "Relay" brokers table names) tr (ph, d) →
  GapEnough (sup_Ss d) = (3 * ShardNums pcc <=? quiet tr) ∧
  (∀ now d' out, stop_all now d = Ret (d', out) →
     listenStop d' = true ∧
     outbox (com_feeder (comMod d')) = outbox (com_feeder (comMod d)) ++
       ((λ a, (a, frame CStop "this is a stop message~")) <$> all_nodes d)).
Proof.
  intros HN Hlen Hr. apply (sup_run_signal _ _ _ (3 * ShardNums pcc)) in Hr; [|..|done].
  - destruct Hr as (f & Ef & Hg & Ht). cbn [snd] in *. split.
    + unfold sup_Ss, GapEnough. rewrite Ef. cbn [com_feeder]. by rewrite Hg, Ht.
    + intros now d' out E. unfold stop_all in E.
      rewrite (proj1 (frame_ok CStop _ eq_refl)), bind_ret in E. cbv zeta in E.
      apply bind_Ret_inv in E as (o & _ & E). injection E as <- _. split; [done|].
      cbn [comMod]. rewrite Ef. done.
  - eexists. split; [reflexivity|]. split; [done|].
    change (i64 (3 * i64 (ShardNums pcc)) = 3 * ShardNums pcc).
    rewrite (i64_id (ShardNums pcc)), i64_id by lia. done.
Qed.

End Supervisor.
