(* ===== verification/Report.v ===== *)
(** * The files of a run

    The CSV output of the measure modules ([writeToCSV] of every file of
    src/supervisor/measure) with [CloseSupervisor], and the lines a leader writes about each
    block ([writeCSVline] of src/consensus_shard/pbft_all/toolFuncs.go). *)

From S2P Require Import Prelude Params Csv Utils Interfaces Core Instances Sha256.
From S2P Require Import TxPool Storage G2E BlockChain MerkleProof Messages PbftNode Pbft CLPA HalfFloats.
From S2P Require Import Injection BrokerCommittee ClpaCommittee Measure Supervisor.
From Stdlib Require Import Floats.SpecFloat.

(** ** Numbers as text *)
Definition digit (d : Z) : string := String (Ascii.ascii_of_nat (48 + Z.to_nat d)) "".

(** The last [k] decimal digits. *)
Fixpoint digits (k : nat) (n : Z) : string :=
  match k with O => "" | S k => digits k (n / 10) +:+ digit (n mod 10) end.

(** [num/den] rounded to an integer, ties to even. *)
Definition round_even (num den : Z) : Z :=
  let q := num / den in
  let r := num mod den in
  if 2 * r <? den then q else if den <? 2 * r then q + 1 else if Z.even q then q else q + 1.

(** [strconv.FormatFloat(x, 'f', k, 64)] for k > 0. *)
Definition FormatFloat (k : nat) (x : float64) : string :=
  match x with
  | S754_nan => "NaN"
  | S754_infinity s => if s : bool then "-Inf" else "+Inf"
  | S754_zero s => (if s : bool then "-" else "") +:+ "0." +:+ digits k 0
  | S754_finite s m e =>
      let n := if 0 <=? e then Zpos m * 2 ^ e * 10 ^ Z.of_nat k
               else round_even (Zpos m * 10 ^ Z.of_nat k) (2 ^ (- e)) in
      (if s : bool then "-" else "") +:+ pretty (n / 10 ^ Z.of_nat k) +:+ "." +:+ digits k n
  end.

(** The precision of all calls is the character '8', which is 56. *)
Definition prec_8 : nat := 56.
Definition fmt (x : float64) : string := FormatFloat prec_8 x.
Definition Itoa (z : Z) : string := pretty z.

(** The nanoseconds from the zero time to 1970. *)
Definition unix_epoch : Z := 62135596800 * 1000000000.
Definition UnixMilli (t : Time) : Z := (t - unix_epoch) / 1000000.

Definition timestampToString (t : Time) : string := if IsZero t then "" else Itoa (UnixMilli t).

(** ** The lines of the modules

    A line per epoch; [columns] are the integer counters of the line. *)
Definition csv_lines {A} (line : Z → A → outcome (list string)) (xs : list A) : outcome (list (list string)) :=
  foldMi (λ acc eid x, l ← line eid x; Ret (acc ++ [l])) [] 0 xs.

Definition count_columns (c : Counts) (eid : Z) : outcome (list string) :=
  n ← slice_at (normalTxNum c) eid;
  a ← slice_at (firstTxNum c) eid;
  b ← slice_at (secondTxNum c) eid;
  Ret [Itoa n; Itoa a; Itoa b].

Definition txnum_line (m : TxNumCount) (eid : Z) (totTxInE : float64) : outcome (list string) :=
  l ← count_columns (tn_counts m) eid; Ret ([Itoa eid; fmt totTxInE] ++ l).

Definition txnum_names (kind : string) : list string :=
  ["EpochID"; "Total tx # in this epoch"; "Normal tx # in this epoch"; kind +:+ "1 tx # in this epoch";
   kind +:+ "2 tx # in this epoch"].

Definition cross_line (m : CrossTxRate) (eid : Z) (totTxInE : float64) : outcome (list string) :=
  x ← slice_at (totCrossTxNum m) eid;
  l ← count_columns (cr_counts m) eid;
  Ret ([Itoa eid; fmt totTxInE; fmt x] ++ l ++ [fmt (fdiv x totTxInE)]).

Definition cross_names (kind : string) : list string :=
  ["EpochID"; "Total tx # in this epoch"; "CTX # in this epoch"; "Normal tx # in this epoch";
   kind +:+ "1 tx # in this epoch"; kind +:+ "2 tx # in this epoch"; "CTX ratio of this epoch"].

Definition tps_line (m : AvgTPS) (eid : Z) (exTxNum : float64) : outcome (list string) :=
  et ← slice_at (endTime m) eid;
  st ← slice_at (startTime m) eid;
  l ← count_columns (tps_counts m) eid;
  Ret ([Itoa eid; fmt exTxNum] ++ l ++
       [Itoa (UnixMilli st); Itoa (UnixMilli et); fmt (fdiv exTxNum (Seconds (Sub et st)))]).

Definition tps_names (kind : string) : list string :=
  ["EpochID"; "Total tx # in this epoch"; "Normal tx # in this epoch"; kind +:+ "1 tx # in this epoch";
   kind +:+ "2 tx # in this epoch"; "Epoch start time"; "Epoch end time"; "Avg. TPS of this epoch"].

Definition tcl_line (m : TCL) (eid : Z) (totTxInE : float64) : outcome (list string) :=
  l ← count_columns (tcl_counts m) eid;
  a ← slice_at (firstCommitLatency m) eid;
  b ← slice_at (secondCommitLatency m) eid;
  n ← slice_at (normalTxCommitLatency m) eid;
  c ← slice_at (ctxCommitLatency m) eid;
  t ← slice_at (totTxLatencyEpoch m) eid;
  Ret ([Itoa eid; fmt totTxInE] ++ l ++ [Itoa a; Itoa b; Itoa n; Itoa c; fmt t]).

Definition tcl_names (kind : string) : list string :=
  let half i j := "Sum of " +:+ kind +:+ i +:+ " TCL (ms) (Duration: " +:+ kind +:+ i +:+
                  " Tx Propose -> " +:+ kind +:+ j +:+ " Tx Commit)" in
  ["EpochID"; "Total tx # in this epoch"; "Normal tx # in this epoch"; kind +:+ "1 tx # in this epoch";
   kind +:+ "2 tx # in this epoch"; half "1" "1"; half "2" "2"; "Sum of innerShardTx TCL (ms)";
   "Sum of CTX TCL (ms) (Duration: " +:+ kind +:+ "1 Tx Propose -> " +:+ kind +:+ "2 Tx Commit)";
   "Sum of All Tx TCL (sec.)"].

(** [new(big.Int).SetBytes(key).String()] *)
Fixpoint big_endian (s : string) (acc : Z) : Z :=
  match s with
  | EmptyString => acc
  | String c s => big_endian s (acc * 256 + Z.of_nat (Ascii.nat_of_ascii c))
  end.

Definition detail_line (key : bytes) (val : txMetricDetailTime) : list string :=
  [Itoa (big_endian key 0);
   timestampToString (TxProposeTimestamp val); timestampToString (BlockProposeTimestamp val);
   timestampToString (TxCommitTimestamp val);
   timestampToString (Relay1CommitTimestamp val); timestampToString (Relay2CommitTimestamp val);
   timestampToString (Broker1CommitTimestamp val); timestampToString (Broker2CommitTimestamp val);
   Itoa (Milliseconds (Sub (TxCommitTimestamp val) (TxProposeTimestamp val)))].

Definition detail_names : list string :=
  ["TxHash (Byte -> Big Int)"; "Tx propose timestamp"; "Block propose timestamp";
   "Tx finally commit timestamp"; "Relay1 Tx commit timestamp (not a relay tx -> nil)";
   "Relay2 Tx commit timestamp (not a relay tx -> nil)";
   "Broker1 Tx commit timestamp (not a broker tx -> nil)";
   "Broker2 Tx commit timestamp (not a broker tx -> nil)"; "Confirmed latency of this tx (ms)"].

(** The range over the map visits the entries in the order [order] of their keys. *)
Definition detail_lines (order : list bytes) (m : TestTxDetail) : list (list string) :=
  omap (λ k, detail_line k <$> m !! k) order.

(** ** [writeToCSV] *)
Section Report.
Context {PR : Params}.

Definition TxNumCount_Relay_writeToCSV (m : TxNumCount) (fs : Files) : outcome Files :=
  rows ← csv_lines (txnum_line m) (tn_txNum m);
  Ret (WriteMetricsToCSV "Tx_number" (txnum_names "Relay") rows fs).
Definition TxNumCount_Broker_writeToCSV (m : TxNumCount) (fs : Files) : outcome Files :=
  rows ← csv_lines (txnum_line m) (tn_txNum m);
  Ret (WriteMetricsToCSV "Tx_number" (txnum_names "Broker") rows fs).

Definition CrossTxRate_Relay_writeToCSV (m : CrossTxRate) (fs : Files) : outcome Files :=
  rows ← csv_lines (cross_line m) (totTxNum m);
  Ret (WriteMetricsToCSV "CrossTransaction_ratio" (cross_names "Relay") rows fs).
Definition CrossTxRate_Broker_writeToCSV (m : CrossTxRate) (fs : Files) : outcome Files :=
  rows ← csv_lines (cross_line m) (totTxNum m);
  Ret (WriteMetricsToCSV "CrossTransaction_ratio" (cross_names "Broker") rows fs).

Definition avgTPS_Relay_writeToCSV (m : AvgTPS) (fs : Files) : outcome Files :=
  rows ← csv_lines (tps_line m) (excutedTxNum m);
  Ret (WriteMetricsToCSV "Average_TPS" (tps_names "Relay") rows fs).
Definition avgTPS_Broker_writeToCSV (m : AvgTPS) (fs : Files) : outcome Files :=
  rows ← csv_lines (tps_line m) (excutedTxNum m);
  Ret (WriteMetricsToCSV "Average_TPS" (tps_names "Broker") rows fs).

Definition TCL_Relay_writeToCSV (m : TCL) (fs : Files) : outcome Files :=
  rows ← csv_lines (tcl_line m) (tcl_txNum m);
  Ret (WriteMetricsToCSV "Transaction_Confirm_Latency" (tcl_names "Relay") rows fs).
Definition TCL_Broker_writeToCSV (m : TCL) (fs : Files) : outcome Files :=
  rows ← csv_lines (tcl_line m) (tcl_txNum m);
  Ret (WriteMetricsToCSV "Transaction_Confirm_Latency" (tcl_names "Broker") rows fs).

Definition TxDetail_writeToCSV (order : list bytes) (m : TestTxDetail) (fs : Files) : outcome Files :=
  Ret (WriteMetricsToCSV "Tx_Details" detail_names (detail_lines order m) fs).

Definition writeToCSV (order : list bytes) (m : MeasureModule) : Files → outcome Files :=
  match m with
  | TPS_Relay m => avgTPS_Relay_writeToCSV m
  | TPS_Broker m => avgTPS_Broker_writeToCSV m
  | TCL_Relay m => TCL_Relay_writeToCSV m
  | TCL_Broker m => TCL_Broker_writeToCSV m
  | CrossRate_Relay m => CrossTxRate_Relay_writeToCSV m
  | CrossRate_Broker m => CrossTxRate_Broker_writeToCSV m
  | TxNum_Relay m => TxNumCount_Relay_writeToCSV m
  | TxNum_Broker m => TxNumCount_Broker_writeToCSV m
  | Details m => TxDetail_writeToCSV order m
  end.

(** [OutputRecord] writes the file and then computes the result. *)
Definition OutputRecord_csv (order : list bytes) (now : Time) (m : MeasureModule) (fs : Files) :
    outcome (Files * (list float64 * float64)) :=
  fs ← writeToCSV order m fs; r ← OutputRecord now m; Ret (fs, r).

(** [CloseSupervisor] with its files. *)
Definition CloseSupervisor_csv (order : list bytes) (now : Time) (d : Supervisor) (fs : Files) :
    outcome (Files * list (string * (list float64 * float64))) :=
  foldM (λ '(fs, out) m,
    '(fs, r) ← OutputRecord_csv order now m fs; Ret (fs, out ++ [(OutputMetricName m, r)]))
    (fs, []) (testMeasureMods d).

(** ** The lines of a leader *)
Section NodeLines.
Context {BS : BitSetOps} {BO : BoltOps} {T : TrieOps} {D : Type}.

Definition node_csv_path (p : PbftConsensusNode D) : string :=
  let n := Itoa (i64 (ShardNums (pbftChainConfig p))) in
  DataWrite_path +:+ "pbft_shardNum=" +:+ n +:+ "/Shard" +:+ Itoa (p_ShardID p) +:+
    Itoa (ShardNums (pbftChainConfig p)) +:+ ".csv".

Definition writeCSVline (metricName metricVal : list string) (p : PbftConsensusNode D) : Files → Files :=
  append_csv (node_csv_path p) metricName [metricVal].

Definition metric_names (kind : string) (from2 : string) : list string :=
  let latency i f := "SUM of confirm latency (ms, " +:+ kind +:+ i +:+ " Txs) (Duration: " +:+ f +:+
                     " proposed -> " +:+ kind +:+ i +:+ " Commit)" in
  ["Block Height"; "EpochID of this block"; "TxPool Size"; "# of all Txs in this block";
   "# of " +:+ kind +:+ "1 Txs in this block"; "# of " +:+ kind +:+ "2 Txs in this block";
   "TimeStamp - Propose (unixMill)"; "TimeStamp - Commit (unixMill)";
   "SUM of confirm latency (ms, All Txs)"; latency "1" (kind +:+ "1"); latency "2" from2].

(** The values, from the block, its report and the pool. *)
Definition metric_values (first second : BlockInfoMsg → list Transaction) (block : Block)
    (bim : BlockInfoMsg) (p : PbftConsensusNode D) : list string :=
  [Itoa (i64 (Number (Header block))); Itoa (Epoch bim); Itoa (zlen (TxQueue (Txpool (CurChain p))));
   Itoa (zlen (Body block)); Itoa (zlen (first bim)); Itoa (zlen (second bim));
   Itoa (UnixMilli (ProposeTime bim)); Itoa (UnixMilli (CommitTime bim));
   Itoa (computeTCL (Body block) (CommitTime bim)); Itoa (computeTCL (first bim) (CommitTime bim));
   Itoa (computeTCL (second bim) (CommitTime bim))].

Definition Relay_write_line (block : Block) (bim : BlockInfoMsg) (p : PbftConsensusNode D) : Files → Files :=
  writeCSVline (metric_names "Relay" "Relay1") (metric_values Relay1Txs Relay2Txs block bim p) p.
Definition Clpa_write_line (block : Block) (bim : BlockInfoMsg) (p : PbftConsensusNode D) : Files → Files :=
  writeCSVline (metric_names "Relay" "Relay1") (metric_values Relay1Txs Relay2Txs block bim p) p.
Definition Broker_write_line (block : Block) (bim : BlockInfoMsg) (p : PbftConsensusNode D) : Files → Files :=
  writeCSVline (metric_names "Broker" "Broker2") (metric_values Broker1Txs Broker2Txs block bim p) p.
Definition ClpaBroker_write_line (block : Block) (bim : BlockInfoMsg) (p : PbftConsensusNode D) : Files → Files :=
  writeCSVline (metric_names "Broker" "Broker2") (metric_values Broker1Txs Broker2Txs block bim p) p.
End NodeLines.

End Report.

(** ** The text of numbers *)
Lemma digit_no_cr d : no_cr (digit (d mod 10)) = true.
Proof.
  pose proof (Z.mod_pos_bound d 10 ltac:(lia)) as Hd. unfold digit.
  assert (∀ k, (k < 10)%nat → no_cr (String (Ascii.ascii_of_nat (48 + k)) "") = true) as H.
  { intros k Hk. do 10 (destruct k as [|k]; [done|]). lia. }
  apply H. lia.
Qed.

Lemma digits_no_cr k n : no_cr (digits k n) = true.
Proof. revert n. induction k as [|k IH]; intros n; [done|]. cbn [digits]. by rewrite no_cr_app, IH, digit_no_cr. Qed.

Lemma pretty_go_no_cr x s : no_cr s = true → no_cr (pretty_N_go x s) = true.
Proof.
  revert s. induction (N.lt_wf_0 x) as [x _ IH]. intros s Hs.
  assert (x = 0 ∨ 0 < x)%N as [->|Hx] by lia; [by rewrite pretty_N_go_0|].
  rewrite pretty_N_go_step by done. apply IH; [by apply N.div_lt|]. cbn [no_cr]. rewrite Hs, andb_true_r.
  unfold pretty_N_char. by repeat case_match.
Qed.

Lemma Itoa_no_cr z : no_cr (Itoa z) = true.
Proof.
  assert (∀ x : N, no_cr (pretty x) = true) as HN.
  { intros x. unfold pretty, pretty_N. case_decide; [done|]. by apply pretty_go_no_cr. }
  unfold Itoa, pretty, pretty_Z. destruct z as [|p|p]; [done|apply HN|].
  change (no_cr ("-" +:+ pretty (N.pos p)) = true). by rewrite no_cr_app, HN.
Qed.

(** The text of n/2. *)
Definition half_text (n : Z) : string :=
  Itoa (n / 2) +:+ "." +:+ (if Z.even n then digits 56 0 else "5" +:+ digits 55 0).

Lemma digits_mod k n : digits k (n mod 10 ^ Z.of_nat k) = digits k n.
Proof.
  revert n. induction k as [|k IH]; intros n; [done|]. cbn [digits].
  rewrite Nat2Z.inj_succ, Z.pow_succ_r by lia.
  assert (0 < 10 ^ Z.of_nat k) as Hp by (apply Z.pow_pos_nonneg; lia).
  rewrite Z.rem_mul_r by lia. pose proof (Z.mod_pos_bound n 10 ltac:(lia)) as Hm.
  rewrite (Z.mul_comm 10), Z.div_add, Z.div_small, Z.add_0_l, IH by lia.
  rewrite Z.mod_add, Z.mod_mod by lia. done.
Qed.

Lemma round_even_exact q den : 0 < den → round_even (q * den) den = q.
Proof.
  intros Hd. unfold round_even. rewrite Z.div_mul, Z.mod_mul by lia.
  by rewrite (proj2 (Z.ltb_lt (2 * 0) den)) by lia.
Qed.

(** n/2 with [k + 1] decimals. *)
Lemma digits_half k n :
  digits (S k) (n * (5 * 10 ^ Z.of_nat k)) =
  if Z.even n then digits (S k) 0 else digits (S k) (5 * 10 ^ Z.of_nat k).
Proof.
  rewrite <-digits_mod, Nat2Z.inj_succ, Z.pow_succ_r by lia.
  assert (0 < 10 ^ Z.of_nat k) as Hp by (apply Z.pow_pos_nonneg; lia).
  replace (10 * 10 ^ Z.of_nat k) with (2 * (5 * 10 ^ Z.of_nat k)) by ring.
  rewrite Z.mul_mod_distr_r by lia. rewrite Zmod_even. destruct (Z.even n); [done|].
  by rewrite Z.mul_1_l.
Qed.

(** A counter of half transactions is written exactly. *)
Lemma fmt_half n : small n → fmt (half_float n) = half_text n.
Proof.
  intros Hn. destruct (Z.eq_dec n 0) as [->|Hne]; [vm_compute; reflexivity|].
  assert (0 < n) as Hpos by (unfold small in Hn; lia).
  rewrite half_float_canon by done. unfold canon, fmt, FormatFloat, half_text.
  pose proof (small_log2 n Hn Hpos) as Hl. pose proof (Z.log2_nonneg n) as Hl0.
  set (l := Z.log2 n) in *. assert (0 < 2 ^ (52 - l)) as H2 by (apply Z.pow_pos_nonneg; lia).
  assert (0 < n * 2 ^ (52 - l)) as Hm by (by apply Z.mul_pos_pos).
  rewrite (proj2 (Z.leb_gt 0 (l - 53))) by lia. rewrite Z2Pos.id by done.
  replace (- (l - 53)) with (52 - l + 1) by lia. rewrite Z.pow_add_r, Z.pow_1_r by lia.
  change prec_8 with (S 55). rewrite Nat2Z.inj_succ, Z.pow_succ_r by lia.
  generalize (digits_half 55 n). assert (0 < 10 ^ Z.of_nat 55) as HT by (apply Z.pow_pos_nonneg; lia).
  assert (digits (S 55) (5 * 10 ^ Z.of_nat 55) = "5" +:+ digits 55 0) as H5 by (vm_compute; reflexivity).
  rewrite H5. clear H5. revert HT. generalize (10 ^ Z.of_nat 55). intros t HT Hd. cbv zeta.
  replace (n * 2 ^ (52 - l) * (10 * t)) with (n * (5 * t) * (2 ^ (52 - l) * 2)) by ring.
  rewrite round_even_exact by lia. replace (10 * t) with (2 * (5 * t)) by ring.
  rewrite Z.div_mul_cancel_r by lia. rewrite Hd. done.
Qed.

(** ** The file of transaction numbers *)
Lemma csv_lines_eq {A} (line : Z → A → outcome (list string)) (row : Z → list string) xs :
  (∀ i x, xs !! i = Some x → line (Z.of_nat i) x = Ret (row (Z.of_nat i))) →
  csv_lines line xs = Ret (row <$> seqZ 0 (zlen xs)).
Proof.
  intros H. unfold csv_lines.
  assert (∀ acc k, (∀ i x, xs !! i = Some x → line (k + Z.of_nat i) x = Ret (row (k + Z.of_nat i))) →
    foldMi (λ acc eid x, l ← line eid x; Ret (acc ++ [l])) acc k xs = Ret (acc ++ (row <$> seqZ k (zlen xs))))
    as Hgen; [|by rewrite Hgen]. clear H.
  induction xs as [|x xs IH]; intros acc k H; [by cbn; rewrite app_nil_r|]. cbn [foldMi].
  pose proof (H 0%nat x eq_refl) as H0. rewrite Z.add_0_r in H0. rewrite H0, !bind_ret, IH.
  - rewrite <-app_assoc. do 2 f_equal. rewrite (seqZ_cons k) by (unfold zlen; cbn [length]; lia).
    cbn [fmap list_fmap app]. f_equal. unfold Z.succ, zlen. cbn [length].
    by replace (Z.pred (Z.of_nat (S (length xs)))) with (Z.of_nat (length xs)) by lia.
  - intros i y Hi. replace (k + 1 + Z.of_nat i) with (k + Z.of_nat (S i)) by lia. by apply H.
Qed.

(** The line of an epoch: the exact numbers of transactions reported for it. *)
Definition count_row (first second : BlockInfoMsg → list Transaction) (reports : list BlockInfoMsg) (e : Z) :
    list string :=
  [Itoa e; half_text (epoch_halves first second e reports); Itoa (epoch_total InnerShardTxs e reports);
   Itoa (epoch_total first e reports); Itoa (epoch_total second e reports)].

Lemma tracks_at {A} n (l : list A) v i : tracks n l v → 0 ≤ i ≤ n → slice_at l i = Ret (v i).
Proof. intros [_ H] Hi. unfold slice_at. rewrite (proj2 (Z.leb_le 0 i)) by lia. by rewrite H by lia. Qed.

Lemma txnum_rows first second m reports :
  txnum_ok first second m reports → (∀ e, epoch_halves first second e reports < 2 ^ 52) →
  csv_lines (txnum_line m) (tn_txNum m) =
    Ret (count_row first second reports <$> seqZ 0 (epochID (tn_counts m) + 1)).
Proof.
  intros [(_ & _ & T1 & T2 & T3) T] Hs.
  assert (zlen (tn_txNum m) = epochID (tn_counts m) + 1) as HL by apply T. rewrite <-HL.
  apply csv_lines_eq. intros i x Hx.
  assert (0 ≤ Z.of_nat i ≤ epochID (tn_counts m)) as Hi
    by (apply lookup_lt_Some in Hx; unfold zlen in HL; lia).
  pose proof (proj2 T (Z.of_nat i) Hi) as Hv. rewrite Nat2Z.id in Hv.
  assert (x = half_float (epoch_halves first second (Z.of_nat i) reports)) as -> by congruence.
  unfold txnum_line, count_columns.
  rewrite (tracks_at _ _ _ _ T1 Hi), (tracks_at _ _ _ _ T2 Hi), (tracks_at _ _ _ _ T3 Hi), !bind_ret.
  rewrite fmt_half; [done|]. unfold small. specialize (Hs (Z.of_nat i)). unfold epoch_halves in *.
  pose proof (epoch_total_nonneg InnerShardTxs (Z.of_nat i) reports).
  pose proof (epoch_total_nonneg first (Z.of_nat i) reports).
  pose proof (epoch_total_nonneg second (Z.of_nat i) reports). lia.
Qed.

Lemma half_text_no_cr n : no_cr (half_text n) = true.
Proof. unfold half_text. rewrite !no_cr_app, Itoa_no_cr. by destruct (Z.even n). Qed.

Lemma count_row_ok first second reports e : record_ok 5%nat (count_row first second reports e).
Proof.
  split_and!; [done..|]. unfold count_row. repeat constructor; apply Itoa_no_cr || apply half_text_no_cr.
Qed.

Lemma txnum_file `{Params} header m first second reports fs :
  record_ok 5%nat header → txnum_ok first second m reports →
  (∀ e, epoch_halves first second e reports < 2 ^ 52) → fs !! metrics_path "Tx_number" = None →
  ∃ fs' content,
    (rows ← csv_lines (txnum_line m) (tn_txNum m); Ret (WriteMetricsToCSV "Tx_number" header rows fs)) = Ret fs' ∧
    fs' !! metrics_path "Tx_number" = Some content ∧
    read_csv content =
      Some <$> (header :: (count_row first second reports <$> seqZ 0 (epochID (tn_counts m) + 1))).
Proof.
  intros Hh Hm Hs Hnone. rewrite (txnum_rows first second m reports Hm Hs), bind_ret.
  eexists _, _. split; [reflexivity|]. split.
  - apply append_csv_fresh. by rewrite Hnone.
  - apply (read_csv_write 5). constructor; [done|]. apply Forall_fmap, Forall_true, count_row_ok.
Qed.

(** C27 (equivalence) The file of transaction numbers is exact.  After any sequence of reports
    (fewer than 2^52 halves of transactions per epoch) no update panics, and the CSV file that
    [writeToCSV] makes reads back as the column names and one line per epoch up to the last
    one reported: the epoch, the number of transactions with each half of a cross-shard
    transaction counted as one half, written as a decimal without any error, and the exact
    numbers of transactions of each kind; for the relay and for the broker variant. *)
Theorem tx_number_file_exact `{Params} reports fs :
  Forall report_ok reports →
  (∀ e, epoch_halves Relay1Txs Relay2Txs e reports < 2 ^ 52) →
  (∀ e, epoch_halves Broker1Txs Broker2Txs e reports < 2 ^ 52) →
  fs !! metrics_path "Tx_number" = None →
  (∃ m fs' content, measure TxNumCount_Relay_Update NewTestTxNumCount_Relay reports = Ret m ∧
     no_later (epochID (tn_counts m)) reports ∧ TxNumCount_Relay_writeToCSV m fs = Ret fs' ∧
     fs' !! metrics_path "Tx_number" = Some content ∧
     read_csv content = Some <$> (txnum_names "Relay" ::
       (count_row Relay1Txs Relay2Txs reports <$> seqZ 0 (epochID (tn_counts m) + 1)))) ∧
  (∃ m fs' content, measure TxNumCount_Broker_Update NewTestTxNumCount_Broker reports = Ret m ∧
     no_later (epochID (tn_counts m)) reports ∧ TxNumCount_Broker_writeToCSV m fs = Ret fs' ∧
     fs' !! metrics_path "Tx_number" = Some content ∧
     read_csv content = Some <$> (txnum_names "Broker" ::
       (count_row Broker1Txs Broker2Txs reports <$> seqZ 0 (epochID (tn_counts m) + 1)))).
Proof.
  intros Hok H1 H2 Hnone. destruct (TxNumCount_exact reports Hok H1 H2) as [(m1 & E1 & Hm1) (m2 & E2 & Hm2)].
  assert (∀ k, k = "Relay" ∨ k = "Broker" → record_ok 5%nat (txnum_names k)) as Hn
    by (intros k [-> | ->]; by repeat constructor).
  split.
  - destruct (txnum_file (txnum_names "Relay") m1 _ _ reports fs (Hn _ (or_introl eq_refl)) Hm1 H1 Hnone)
      as (fs' & content & Ew & Ef & Er).
    exists m1, fs', content. split_and!; try done. apply Hm1.
  - destruct (txnum_file (txnum_names "Broker") m2 _ _ reports fs (Hn _ (or_intror eq_refl)) Hm2 H2 Hnone)
      as (fs' & content & Ew & Ef & Er).
    exists m2, fs', content. split_and!; try done. apply Hm2.
Qed.

(** ** The lines of a leader *)

Lemma metric_names_ok kind from2 : no_cr kind = true → no_cr from2 = true → record_ok 11%nat (metric_names kind from2).
Proof.
  intros Hk Hf. split_and!; [done..|]. unfold metric_names.
  repeat constructor; rewrite ?no_cr_app, ?Hk, ?Hf; done.
Qed.

Lemma metric_values_ok {BS : BitSetOps} {BO : BoltOps} {T : TrieOps} {D : Type} first second block bim
    (p : PbftConsensusNode D) : record_ok 11%nat (metric_values first second block bim p).
Proof. split_and!; [done..|]. unfold metric_values. repeat constructor; apply Itoa_no_cr. Qed.

(** A line about a block is appended to the file of the shard, whose column names contain
    commas, and is read back. *)
Lemma Relay_line_reads_back {PR : Params} {BS : BitSetOps} {BO : BoltOps} {T : TrieOps} {D : Type}
    block bim (p : PbftConsensusNode D) rows fs :
  let names := metric_names "Relay" "Relay1" in
  file_of (node_csv_path p) (names :: rows) fs → Forall (record_ok 11%nat) rows →
  ∃ content, Relay_write_line block bim p fs !! node_csv_path p = Some content ∧
    read_csv content = Some <$> (names :: rows ++ [metric_values Relay1Txs Relay2Txs block bim p]).
Proof.
  intros names Hf Hr. eexists. split; [by apply (append_csv_more 11), Hf; apply metric_names_ok|].
  apply (read_csv_write 11). constructor; [by apply metric_names_ok|]. apply Forall_app. split; [done|].
  apply Forall_singleton, metric_values_ok.
Qed.

(** Writing the files does not change what [CloseSupervisor] outputs. *)
Lemma CloseSupervisor_csv_out {PR : Params} order now d fs fs' out :
  CloseSupervisor_csv order now d fs = Ret (fs', out) → CloseSupervisor now d = Ret out.
Proof.
  enough (∀ ms fs acc,
    foldM (λ '(fs, out) m,
      '(fs, r) ← OutputRecord_csv order now m fs; Ret (fs, out ++ [(OutputMetricName m, r)])) (fs, acc) ms
      = Ret (fs', out) →
    foldM (λ out m, r ← OutputRecord now m; Ret (out ++ [(OutputMetricName m, r)])) acc ms = Ret out) as H
    by apply H.
  intros ms. induction ms as [|m ms IH]; intros fs0 acc E; cbn [foldM] in *.
  { by injection E as <- <-. }
  apply bind_Ret_inv in E as ([fs1 acc1] & E1 & E). unfold OutputRecord_csv in E1.
  apply bind_Ret_inv in E1 as ([fs2 r] & E1 & E2). apply bind_Ret_inv in E1 as (fs3 & _ & E1).
  apply bind_Ret_inv in E1 as (r' & Er & E1). injection E1 as <- <-. injection E2 as <- <-.
  rewrite Er, !bind_ret. by eapply IH.
Qed.
