(* ===== verification/TransferBroker.v ===== *)
(** * Repartition of the broker shards

    Models the CLPA modules of a node that works with brokers:
    src/consensus_shard/pbft_all/pbftInside_modCLPABroker.go,
    accountTransfermod_Broker.go and pbftOutside_modCLPABroker.go.  They repeat the
    modules of [Transfer] where nothing depends on the brokers, and those definitions
    are used again.  They differ in the pooled transactions that follow an account, in
    the transactions that a repartition turns into cross-shard ones, which go back to
    the supervisor, and in the report of a block. *)

From S2P Require Import Prelude Params Utils Interfaces Core Instances Sha256.
From S2P Require Import TxPool Storage G2E BlockChain Ledger ChainProps MerkleProof.
From S2P Require Import Messages PbftNode Pbft Relay Transfer Injection BrokerCommittee BrokerNode.

Section TransferBroker.
Context {PR : Params} {BS : BitSetOps} {G : GobOps} {BO : BoltOps} {T : TrieOps}.
Context {JSq : Json SeqIDinfo} {JBI : Json BlockInfoMsg} {JIT : Json InjectTxs}.
Context {JPM : Json PartitionModifiedMap} {JPR : Json PartitionReady}.
Context {JAST : Json AccountStateAndTx} {JI2C : Json InnerTx2CrossTx} {GA : GobATM}.

Abbreviation node := (PbftConsensusNode Data_supportCLPA).
Implicit Type p : node.

(** ** The steps of the leader *)
Definition ClpaBroker_sendPartitionReady p : outcome node := sendPartitionReady p.

Definition ClpaBroker_getPartitionReady p : bool := getPartitionReady p.

(** What happens to a pooled transaction when the accounts of [addrSet] leave. *)
Record pool_verdict := mkVerdict { beSend : bool; beRemoved : bool; beCross : bool }.

Definition judge (addrSet : list Address) (ptx : Transaction) : pool_verdict :=
  let ok1 := bool_decide (Sender ptx ∈ addrSet) in
  let ok2 := bool_decide (Recipient ptx ∈ addrSet) in
  if decide (RawTxHash ptx = None) then
    if HasBroker ptx then
      if SenderIsBroker ptx then mkVerdict ok2 ok2 false else mkVerdict ok1 ok1 false
    else if ok1 || ok2 then mkVerdict false true true
    else mkVerdict false false false
  else if decide (FinalRecipient ptx = Recipient ptx) then mkVerdict ok2 ok2 false
  else if decide (OriginalSender ptx = Sender ptx) then mkVerdict ok1 ok1 false
  else mkVerdict false false false.

(** One round of the loop over the shards, with the transactions that became
    cross-shard so far. *)
Definition broker_send_to_shard (m : gmap Address Z) (accountToFetch : list Address)
    (asFetched : list AccountState) (acc : node * list Transaction) (i : Z) :
    outcome (node * list Transaction) :=
  let '(p, txsBeCross) := acc in
  if i =? p_ShardID p then Ret (p, txsBeCross)
  else
    let chosen := base.filter (λ x : Address * AccountState, default 0 (m !! x.1) = i)
                    (zip accountToFetch asFetched) in
    let addrSend := chosen.*1 in
    let queue := TxQueue (Txpool (CurChain p)) in
    let txSend := base.filter (λ tx, beSend (judge addrSend tx) = true) queue in
    let cross := base.filter (λ tx, beCross (judge addrSend tx) = true) queue in
    let kept := base.filter (λ tx, beRemoved (judge addrSend tx) = false) queue in
    let p := set_pool (mkPool kept (RelayPool (Txpool (CurChain p)))) p in
    send_msg ← MergeMessage CAccountTransferMsg_broker
      (marshal (mkAST addrSend chosen.*2 txSend (p_ShardID p)));
    Ret (TcpDial send_msg (ip_of p i 0) p, txsBeCross ++ cross).

Definition ClpaBroker_sendAccounts_and_Txs (keys : list Address) p : outcome node :=
  m ← modified_map p (zlen (cd_ModifiedMap (cdm p)) - 1);
  accountToFetch ← accounts_to_fetch m keys p;
  asFetched ← FetchAccounts (CurChain p) accountToFetch;
  '(p, txsBeCross) ← foldM (broker_send_to_shard m accountToFetch asFetched) (p, []) (shard_ids p);
  send_msg ← MergeMessage CInner2CrossTx (marshal (mkI2C txsBeCross));
  Ret (TcpDial send_msg (ip_of p SupervisorShard 0) p).

Definition ClpaBroker_getCollectOver p : bool := getCollectOver p.

(** The received transactions are not examined here. *)
Definition ClpaBroker_proposePartition (clock : nat → Time) (now : Time) (shards : list Z)
    (addrs : gmap Address AccountState → list Address) p :
    outcome (node * (bool * Request)) :=
  let c := cdm p in
  '(states, txs) ← foldM collect_one (ReceivedNewAccountState c, ReceivedNewTx c)
                     (omap (λ s, AccountStateTx c !! s) shards);
  let p := set_cdm (mkCDM (cd_ModifiedMap c) (AccountTransferRound c) states txs
             (AccountStateTx c) (PartitionOn c) (cd_PartitionReady c) (ReadySeq c)
             (CollectOver c)) p in
  let p := set_pool (AddTxs2Pool clock txs (Txpool (CurChain p))) p in
  m ← modified_map p (AccountTransferRound (cdm p));
  let atm := mkATM m (addrs states) (omap (λ a, states !! a) (addrs states))
               (u64 (zlen (cd_ModifiedMap (cdm p)))) in
  Ret (p, (true, mkRequest PartitionReq (AccountTransferMsg_Encode gobATM atm) now)).

Definition ClpaBroker_accountTransfer_do (atm : AccountTransferMsg) p : outcome node :=
  accountTransfer_do atm p.

(** ** [CLPAPbftInsideExtraHandleMod_forBroker] *)
Definition ClpaBroker_HandleinPropose (clock : nat → Time) (now : Time) (keys : list Address)
    (shards : list Z) (addrs : gmap Address AccountState → list Address) (ph : phase) p :
    outcome (node * phase) :=
  match ph with
  | Begin =>
      if PartitionOn (cdm p) then p ← ClpaBroker_sendPartitionReady p; Ret (p, WaitReady)
      else '(p, (_, r)) ← Broker_HandleinPropose clock p; Ret (p, Proposed r)
  | WaitReady =>
      if ClpaBroker_getPartitionReady p
      then p ← ClpaBroker_sendAccounts_and_Txs keys p; Ret (p, WaitCollect)
      else Ret (p, WaitReady)
  | WaitCollect =>
      if ClpaBroker_getCollectOver p then
        '(p, (_, r)) ← ClpaBroker_proposePartition clock now shards addrs p; Ret (p, Proposed r)
      else Ret (p, WaitCollect)
  | Proposed r => Ret (p, Proposed r)
  end.

Definition ClpaBroker_HandleinPrePrepare (ppmsg : PrePrepare) p : outcome (node * bool) :=
  ok ← (if decide (RequestType_ (RequestMsg ppmsg) = PartitionReq) then Ret true
        else b ← DecodeB (Msg_Content (RequestMsg ppmsg));
             Ret (match IsValidBlock (CurChain p) b with Some _ => false | None => true end));
  if ok : bool then
    Ret (set_requestPool (<[pp_Digest ppmsg := RequestMsg ppmsg]> (requestPool p)) p, true)
  else Ret (p, false).

Definition ClpaBroker_HandleinPrepare (_ : Prepare) p : outcome (node * bool) := Ret (p, true).

(** The two flags of the report, here without a test of the raw hash. *)
Definition marked_broker1 (tx : Transaction) : bool := bool_decide (Sender tx = OriginalSender tx).
Definition marked_broker2 (tx : Transaction) : bool :=
  bool_decide (Recipient tx = FinalRecipient tx).

(** The leader's checks of one executed transaction. *)
Definition check_placed p (tx : Transaction) : outcome unit :=
  s ← Get_PartitionMap (CurChain p) (Sender tx);
  let senderIsInshard := s =? p_ShardID p in
  r ← Get_PartitionMap (CurChain p) (Recipient tx);
  let recipientIsInshard := r =? p_ShardID p in
  if marked_broker1 tx && negb senderIsInshard then Panic "Err tx1"
  else if marked_broker2 tx && negb recipientIsInshard then Panic "Err tx2"
  else if decide (RawTxHash tx = None) then
    if HasBroker tx then
      if SenderIsBroker tx && negb recipientIsInshard then Panic "err tx 1 - recipient"
      else if negb (SenderIsBroker tx) && negb senderIsInshard then Panic "err tx 1 - sender"
      else Ret tt
    else if negb senderIsInshard || negb recipientIsInshard then Panic "err tx - without broker"
    else Ret tt
  else Ret tt.

Definition sort_marked p (s : broker_lists) (tx : Transaction) : outcome broker_lists :=
  _ ← check_placed p tx;
  Ret (if marked_broker2 tx then mkBL (bl_inner s) (bl_broker1 s) (bl_broker2 s ++ [tx])
       else if marked_broker1 tx then mkBL (bl_inner s) (bl_broker1 s ++ [tx]) (bl_broker2 s)
       else mkBL (bl_inner s ++ [tx]) (bl_broker1 s) (bl_broker2 s)).

(** The main node's part of [HandleinCommit]. *)
Definition clpa_report_block (now : Time) (r : Request) (block : Block) p : outcome node :=
  l ← foldM (sort_marked p) (mkBL [] [] []) (Body block);
  p ← send_to_shards seq_bytes (ShardNums (pbftChainConfig p)) p;
  msg_send ← MergeMessage CBlockInfo
    (marshal (mkBIM (zlen (Body block)) (bl_inner l) (i64 (AccountTransferRound (cdm p)))
                (ReqTime r) now (p_ShardID p) [] [] (bl_broker1 l) (bl_broker2 l)));
  Ret (TcpDial msg_send (ip_of p SupervisorShard 0) p).

Definition ClpaBroker_HandleinCommit (now : Time) (cmsg : Commit) p : outcome (node * bool) :=
  r ← or_panic "nil pointer dereference" (requestPool p !! cm_Digest cmsg);
  if decide (RequestType_ r = PartitionReq) then
    atm ← DecodeAccountTransferMsg ungobATM (Msg_Content r);
    p ← ClpaBroker_accountTransfer_do atm p; Ret (p, true)
  else
    block ← DecodeB (Msg_Content r);
    bc ← AddBlock block (CurChain p);
    let p := set_CurChain bc p in
    if is_leader p then p ← clpa_report_block now r block p; Ret (p, true)
    else Ret (p, true).

Definition ClpaBroker_HandleReqestforOldSeq (_ : RequestOldMessage) p : outcome (node * bool) :=
  Ret (p, true).

Definition ClpaBroker_HandleforSequentialRequest (som : SendOldMessage) p : outcome (node * bool) :=
  Clpa_HandleforSequentialRequest som p.

(** ** [CLPABrokerOutsideModule] *)
(** The handlers repeat the code of the broker and of the CLPA module. *)
Definition ClpaBroker_handleSeqIDinfos (sii : SeqIDinfo) p : node := handleSeqIDinfos sii p.
Definition ClpaBroker_handleInjectTx (clock : nat → Time) (it : InjectTxs) p : node :=
  Broker_handleInjectTx clock it p.
Definition ClpaBroker_handlePartitionMsg (pm : PartitionModifiedMap) p : node := handlePartitionMsg pm p.
Definition ClpaBroker_handlePartitionReady (pr : PartitionReady) p : node := handlePartitionReady pr p.
Definition ClpaBroker_handleAccountStateAndTxMsg (at_ : AccountStateAndTx) p : node :=
  handleAccountStateAndTxMsg at_ p.

Definition ClpaBroker_HandleMessageOutsidePBFT (clock : nat → Time) (msgType : MessageType)
    (content : bytes) p : outcome (node * bool) :=
  if decide (msgType = CSeqIDinfo) then m ← decode content; Ret (ClpaBroker_handleSeqIDinfos m p, true)
  else if decide (msgType = CInject) then
    m ← decode content; Ret (ClpaBroker_handleInjectTx clock m p, true)
  else if decide (msgType = CPartitionMsg) then
    m ← decode content; Ret (ClpaBroker_handlePartitionMsg m p, true)
  else if decide (msgType = CAccountTransferMsg_broker) then
    m ← decode content; Ret (ClpaBroker_handleAccountStateAndTxMsg m p, true)
  else if decide (msgType = CPartitionReady) then
    m ← decode content; Ret (ClpaBroker_handlePartitionReady m p, true)
  else Ret (p, true).

(** ** The transactions that move *)

(** The account a brokered transaction belongs to, if any. *)
Definition broker_owner (tx : Transaction) : option Address :=
  if decide (RawTxHash tx = None) then
    if HasBroker tx then Some (if SenderIsBroker tx then Recipient tx else Sender tx) else None
  else if decide (FinalRecipient tx = Recipient tx) then Some (Recipient tx)
  else if decide (OriginalSender tx = Sender tx) then Some (Sender tx)
  else None.

(** A transaction between two accounts of the shard, neither of them a broker. *)
Definition plain_inner (tx : Transaction) : bool :=
  bool_decide (RawTxHash tx = None) && negb (HasBroker tx).

(** Does [tx] follow its account to shard [i]? *)
Definition follows (m : gmap Address Z) (accts : list Address) (i : Z) (tx : Transaction) : bool :=
  match broker_owner tx with Some a => goes m accts i a | None => false end.

(** Does a plain transaction lose one of its accounts to shard [i]? *)
Definition splits (m : gmap Address Z) (accts : list Address) (i : Z) (tx : Transaction) : bool :=
  plain_inner tx && (goes m accts i (Sender tx) || goes m accts i (Recipient tx)).

Lemma judge_group m accts states i tx :
  length accts = length states →
  judge (group m accts states i).*1 tx =
  mkVerdict (follows m accts i tx) (follows m accts i tx || splits m accts i tx)
    (splits m accts i tx).
Proof.
  intros Hl. unfold judge. rewrite !goes_group by done.
  unfold follows, splits, broker_owner, plain_inner.
  destruct (decide (RawTxHash tx = None)) as [Hr|Hr];
    [rewrite (bool_decide_true _ Hr)|rewrite (bool_decide_false _ Hr)];
    repeat case_decide; destruct (HasBroker tx), (SenderIsBroker tx);
    cbn [negb andb]; rewrite ?orb_false_r; try done; by destruct (_ || _).
Qed.

Lemma follows_unique m accts i j tx :
  follows m accts i tx = true → follows m accts j tx = true → i = j.
Proof. unfold follows. destruct (broker_owner tx); [apply goes_unique|done]. Qed.

Lemma follows_splits m accts i j tx : follows m accts i tx = true → splits m accts j tx = false.
Proof.
  unfold follows, splits, plain_inner, broker_owner. destruct (decide (RawTxHash tx = None)) as [Hr|Hr].
  - rewrite (bool_decide_true _ Hr). by destruct (HasBroker tx).
  - by rewrite (bool_decide_false _ Hr).
Qed.

(** Is [tx] removed from the pool when shard [i] is served? *)
Definition leaves (m : gmap Address Z) (accts : list Address) (i : Z) (tx : Transaction) : bool :=
  follows m accts i tx || splits m accts i tx.

(** The queue when the shards [done_] have been served, and what became cross-shard. *)
Definition still (m : gmap Address Z) (accts : list Address) (done_ : list Z)
    (q : list Transaction) : list Transaction :=
  base.filter (λ tx, forallb (λ i, negb (leaves m accts i tx)) done_ = true) q.

Definition crossing (m : gmap Address Z) (accts : list Address) (done_ : list Z)
    (q : list Transaction) : list Transaction :=
  base.filter (λ tx, existsb (λ i, splits m accts i tx) done_ = true) q.

Definition broker_transfer_msg (m : gmap Address Z) (accts : list Address)
    (states : list AccountState) (me : Z) (q : list Transaction) (i : Z) : AccountStateAndTx :=
  mkAST (group m accts states i).*1 (group m accts states i).*2
    (base.filter (λ tx, follows m accts i tx = true) q) me.

Lemma still_follows m accts done_ q i :
  i ∉ done_ →
  base.filter (λ tx, follows m accts i tx = true) (still m accts done_ q) =
  base.filter (λ tx, follows m accts i tx = true) q.
Proof.
  intros Hi. unfold still. rewrite list_filter_filter. apply list_filter_iff. intros tx.
  split; [naive_solver|]. intros H. split; [done|]. apply forallb_forall. intros j Hj.
  unfold leaves. rewrite (follows_splits _ _ _ _ _ H), orb_false_r.
  destruct (follows m accts j tx) eqn:Ej; [|done]. exfalso. apply Hi, list_elem_of_In.
  by rewrite (follows_unique _ _ _ _ _ H Ej).
Qed.

Lemma still_snoc m accts done_ q i :
  base.filter (λ tx, leaves m accts i tx = false) (still m accts done_ q) =
  still m accts (done_ ++ [i]) q.
Proof.
  unfold still. rewrite list_filter_filter. apply list_filter_iff. intros tx.
  rewrite forallb_app. cbn. rewrite andb_true_r, andb_true_iff, negb_true_iff. tauto.
Qed.

Lemma splits_follows m accts i j tx : splits m accts i tx = true → follows m accts j tx = false.
Proof.
  intros H. destruct (follows m accts j tx) eqn:E; [|done].
  by rewrite (follows_splits _ _ _ i _ E) in H.
Qed.

(** The transactions split at shard [i] join those split before. *)
Lemma crossing_snoc m accts done_ q i :
  crossing m accts (done_ ++ [i]) q ≡ₚ crossing m accts done_ q ++
    base.filter (λ tx, splits m accts i tx = true) (still m accts done_ q).
Proof.
  unfold crossing, still.
  rewrite <- (filter_app_complement (λ tx, existsb (λ i, splits m accts i tx) done_ = true)
    (base.filter _ q)) at 1.
  rewrite !list_filter_filter. apply Permutation_app; apply reflexive_eq, list_filter_iff; intros tx;
    rewrite existsb_app; cbn; rewrite orb_false_r, orb_true_iff.
  - tauto.
  - split.
    + intros [Hn [H|H]]; [done|]. split; [done|]. apply forallb_forall. intros j Hj.
      unfold leaves. rewrite (splits_follows _ _ _ _ _ H). destruct (splits m accts j tx) eqn:Ej; [|done].
      exfalso. apply Hn, existsb_exists. eauto.
    + intros [H Hs]. split; [|by right]. intros (j & Hj & Ej)%existsb_exists.
      apply (proj1 (forallb_forall _ _) Hs) in Hj. unfold leaves in Hj. rewrite Ej, orb_true_r in Hj. done.
Qed.

Lemma still_perm m accts done_ q :
  NoDup done_ →
  q ≡ₚ still m accts done_ q ++
       (done_ ≫= λ i, base.filter (λ tx, follows m accts i tx = true) q) ++
       crossing m accts done_ q.
Proof.
  induction done_ as [|i done_ IH] using rev_ind; intros Hnd.
  { unfold still, crossing. cbn. rewrite list_filter_all, list_filter_none; [by rewrite app_nil_r|done..]. }
  apply NoDup_app in Hnd as (H1 & H2 & _). rewrite bind_app. cbn. rewrite app_nil_r, crossing_snoc.
  rewrite (IH H1) at 1. rewrite <- still_snoc.
  rewrite <- (still_follows m accts done_ q i) by set_solver.
  set (s := still m accts done_ q). set (b := done_ ≫= _). set (c := crossing _ _ done_ _).
  assert (s ≡ₚ base.filter (λ tx, leaves m accts i tx = false) s ++
    base.filter (λ tx, follows m accts i tx = true) s ++
    base.filter (λ tx, splits m accts i tx = true) s) as Hs.
  { clear. induction s as [|tx s IH]; [done|]. rewrite !filter_cons. unfold leaves in *.
    destruct (follows m accts i tx) eqn:E.
    - rewrite (follows_splits _ _ _ i _ E). cbn. rewrite IH at 1. by rewrite Permutation_middle.
    - destruct (splits m accts i tx); cbn; rewrite IH at 1; [|done].
      by rewrite Permutation_middle, Permutation_middle. }
  rewrite Hs at 1. rewrite <- !app_assoc. solve_Permutation.
Qed.

(** The operation leaves shard, partition and addresses alone. *)
Definition same_place p p' : Prop :=
  PartitionMap (CurChain p') = PartitionMap (CurChain p) ∧ p_ShardID p' = p_ShardID p ∧
  ip_of p' SupervisorShard 0 = ip_of p SupervisorShard 0.

Lemma broker_send_to_shards_splits m accts states q l done_ p cross :
  length accts = length states → NoDup (done_ ++ l) → p_ShardID p ∉ done_ →
  TxQueue (Txpool (CurChain p)) = still m accts done_ q → cross ≡ₚ crossing m accts done_ q →
  let others := base.filter (λ i, i ≠ p_ShardID p) l in
  ∃ p' cross', foldM (broker_send_to_shard m accts states) (p, cross) l = Ret (p', cross') ∧
    sent p' = sent p ++ ((λ i, (ip_of p i 0, frame CAccountTransferMsg_broker
       (marshal (broker_transfer_msg m accts states (p_ShardID p) q i)))) <$> others) ∧
    Txpool (CurChain p') = mkPool (still m accts (done_ ++ others) q)
                             (RelayPool (Txpool (CurChain p))) ∧
    cross' ≡ₚ crossing m accts (done_ ++ others) q ∧ same_place p p'.
Proof.
  intros Hl. revert done_ p cross. induction l as [|i l IH]; intros done_ p cross Hnd Hme Hq Hx others.
  { exists p, cross. unfold others. rewrite filter_nil, app_nil_r. cbn. rewrite app_nil_r, <- Hq.
    split_and!; try done. by destruct (Txpool (CurChain p)). }
  cbn [foldM]. unfold broker_send_to_shard at 2.
  destruct (Z.eqb_spec i (p_ShardID p)) as [->|Hi].
  { rewrite bind_ret. destruct (IH done_ p cross) as (p' & cross' & H); [|done..|].
    - apply NoDup_app in Hnd as (H1 & H2 & H3). apply NoDup_cons in H3 as [_ H3].
      apply NoDup_app. split_and!; [done| |done]. intros x Hx'. specialize (H2 x Hx'). set_solver.
    - exists p', cross'. unfold others. rewrite filter_cons_False by tauto. exact H. }
  cbv zeta. fold (group m accts states i).
  assert (i ∉ done_) as Hid by (apply NoDup_app in Hnd as (_ & H2 & _); set_solver).
  assert (∀ (f : pool_verdict → bool) b,
    base.filter (λ tx, f (judge (group m accts states i).*1 tx) = b) (TxQueue (Txpool (CurChain p))) =
    base.filter (λ tx, f (mkVerdict (follows m accts i tx) (leaves m accts i tx)
      (splits m accts i tx)) = b) (still m accts done_ q)) as Hf.
  { intros f b. rewrite Hq. apply list_filter_iff. intros tx. by rewrite judge_group. }
  rewrite (Hf beSend), (Hf beCross), (Hf beRemoved). clear Hf. cbn [beSend beCross beRemoved].
  rewrite still_follows, still_snoc by done. cbn [p_ShardID set_pool set_CurChain].
  change (mkAST _ _ _ _) with (broker_transfer_msg m accts states (p_ShardID p) q i).
  rewrite (proj1 (frame_ok CAccountTransferMsg_broker _ eq_refl)), !bind_ret.
  set (p1 := TcpDial _ _ _). set (cross1 := cross ++ _).
  destruct (IH (done_ ++ [i]) p1 cross1) as (p' & cross' & E & Hs & Ht & Hc & Hip);
    [by rewrite <- app_assoc|set_solver|done| |].
  { rewrite crossing_snoc. unfold cross1. by rewrite Hx. }
  exists p', cross'. unfold others. rewrite filter_cons_True by done. split_and!; [exact E| | | |].
  - rewrite Hs. cbn. by rewrite <- app_assoc.
  - rewrite Ht. cbn. by rewrite <- app_assoc.
  - rewrite Hc. by rewrite <- app_assoc.
  - exact Hip.
Qed.

Lemma broker_sendAccounts_spec (keys : list Address) p (m : gmap Address Z)
    (states : list AccountState) :
  last (cd_ModifiedMap (cdm p)) = Some m →
  forallb (resolvable (CurChain p)) keys = true →
  let bc := CurChain p in
  let me := p_ShardID p in
  let q := TxQueue (Txpool bc) in
  let others := base.filter (λ i, i ≠ me) (shard_ids p) in
  let accts := base.filter (λ a, default 0 (m !! a) ≠ me ∧ Get_PartitionMap bc a = Ret me) keys in
  FetchAccounts bc accts = Ret states →
  ∃ p' cross, ClpaBroker_sendAccounts_and_Txs keys p = Ret p' ∧
    sent p' = sent p ++ ((λ i, (ip_of p i 0, frame CAccountTransferMsg_broker
       (marshal (broker_transfer_msg m accts states me q i)))) <$> others) ++
       [(ip_of p SupervisorShard 0, frame CInner2CrossTx (marshal (mkI2C cross)))] ∧
    TxQueue (Txpool (CurChain p')) = still m accts others q ∧
    cross ≡ₚ crossing m accts others q ∧
    q ≡ₚ TxQueue (Txpool (CurChain p')) ++
         (others ≫= λ i, ast_Txs (broker_transfer_msg m accts states me q i)) ++ cross ∧
    same_place p p'.
Proof.
  intros Hlast Hr bc me q others accts Hf. unfold ClpaBroker_sendAccounts_and_Txs, modified_map.
  rewrite (slice_at_last _ _ Hlast), bind_ret, accounts_to_fetch_eq, bind_ret by done.
  fold bc me accts. rewrite Hf, bind_ret. apply FetchAccounts_length in Hf.
  destruct (broker_send_to_shards_splits m accts states q (shard_ids p) [] p [])
    as (p' & cross & -> & Hs & Ht & Hc & Hip).
  - done.
  - apply NoDup_seqZ.
  - set_solver.
  - unfold still. by rewrite list_filter_all.
  - unfold crossing. by rewrite list_filter_none.
  - rewrite bind_ret, (proj1 (frame_ok CInner2CrossTx _ eq_refl)), bind_ret. cbn [app] in *.
    eexists _, cross. split; [reflexivity|].
    change (sent (TcpDial ?m ?a p')) with (sent p' ++ [(a, m)]). rewrite Hs, (proj2 (proj2 Hip)).
    change (Txpool (CurChain (TcpDial _ _ p'))) with (Txpool (CurChain p')). rewrite Ht.
    split_and!; [by rewrite <- app_assoc|done|done| |exact Hip]. rewrite Hc. apply still_perm.
    apply NoDup_filter, NoDup_seqZ.
Qed.

(** C16 (functional) The leader of a broker shard loses no pooled transaction in a
    repartition: every other shard gets one message with the accounts the new partition
    gives it and the brokered transactions they own, in order; the supervisor gets, to
    be brokered, exactly the plain transactions with an account that leaves, each once
    even when both leave for different shards; all others stay in the pool in
    order. *)
Theorem ClpaBroker_sendAccounts_and_Txs_splits (keys : list Address) p (m : gmap Address Z)
    (states : list AccountState) :
  last (cd_ModifiedMap (cdm p)) = Some m →
  forallb (resolvable (CurChain p)) keys = true →
  let bc := CurChain p in
  let me := p_ShardID p in
  let q := TxQueue (Txpool bc) in
  let others := base.filter (λ i, i ≠ me) (shard_ids p) in
  let accts := base.filter (λ a, default 0 (m !! a) ≠ me ∧ Get_PartitionMap bc a = Ret me) keys in
  FetchAccounts bc accts = Ret states →
  ∃ p' cross, ClpaBroker_sendAccounts_and_Txs keys p = Ret p' ∧
    sent p' = sent p ++ ((λ i, (ip_of p i 0, frame CAccountTransferMsg_broker
       (marshal (broker_transfer_msg m accts states me q i)))) <$> others) ++
       [(ip_of p SupervisorShard 0, frame CInner2CrossTx (marshal (mkI2C cross)))] ∧
    TxQueue (Txpool (CurChain p')) = still m accts others q ∧
    cross ≡ₚ crossing m accts others q ∧
    q ≡ₚ TxQueue (Txpool (CurChain p')) ++
         (others ≫= λ i, ast_Txs (broker_transfer_msg m accts states me q i)) ++ cross.
Proof.
  intros Hl Hr bc me q others accts Hf.
  destruct (broker_sendAccounts_spec keys p m states Hl Hr Hf) as (p' & cross & H). exists p', cross.
  tauto.
Qed.

(** ** Where the transactions are after a repartition *)

(** The shape of the transactions the brokers and the clients make. *)
Definition tx_shape (tx : Transaction) : bool :=
  if decide (RawTxHash tx = None) then negb (marked_broker1 tx) && negb (marked_broker2 tx)
  else xorb (marked_broker1 tx) (marked_broker2 tx).

(** The owner of the transaction is in the shard; both accounts of a plain one are. *)
Definition placed p (tx : Transaction) : Prop :=
  match broker_owner tx with
  | Some a => Get_PartitionMap (CurChain p) a = Ret (p_ShardID p)
  | None => Get_PartitionMap (CurChain p) (Sender tx) = Ret (p_ShardID p) ∧
            Get_PartitionMap (CurChain p) (Recipient tx) = Ret (p_ShardID p)
  end.

(** A node that has adopted the partition [m]. *)
Definition adopts (m : gmap Address Z) p p' : Prop :=
  PartitionMap (CurChain p') = m ∪ PartitionMap (CurChain p) ∧ p_ShardID p' = p_ShardID p.

Lemma accountTransfer_do_adopts atm p p' :
  ClpaBroker_accountTransfer_do atm p = Ret p' →
  adopts (ModifiedMap atm) p p' ∧ Txpool (CurChain p') = Txpool (CurChain p).
Proof.
  unfold ClpaBroker_accountTransfer_do, accountTransfer_do.
  rewrite Update_PartitionMap_all by apply NoDup_fst_map_to_list. rewrite list_to_map_to_list.
  intros E. apply bind_Ret_inv in E as (bc & Ebc & E). inv_ret.
  apply AddAccounts_eq in Ebc as (rt & db & bloom & s & _ & ->). done.
Qed.

Lemma Get_PartitionMap_adopted m p p' a :
  adopts m p p' →
  Get_PartitionMap (CurChain p') a =
  match m !! a with Some v => Ret v | None => Get_PartitionMap (CurChain p) a end.
Proof.
  intros [H _]. unfold Get_PartitionMap. rewrite H, lookup_union. destruct (m !! a) as [v|].
  - by rewrite union_Some_l.
  - by rewrite (left_id None _).
Qed.

Lemma check_placed_ok p tx :
  tx_shape tx = true → tx_resolvable (CurChain p) tx = true → placed p tx →
  check_placed p tx = Ret tt.
Proof.
  unfold tx_shape, tx_resolvable, resolvable, placed, broker_owner, check_placed, marked_broker1,
    marked_broker2. intros Hs Hr Hp.
  destruct (Get_PartitionMap (CurChain p) (Sender tx)) as [s|] eqn:ES; [|done].
  destruct (Get_PartitionMap (CurChain p) (Recipient tx)) as [r|] eqn:ER; [|done]. rewrite !bind_ret.
  destruct (decide (RawTxHash tx = None)).
  - apply andb_true_iff in Hs as [->%negb_true_iff ->%negb_true_iff]. cbn [andb].
    destruct (HasBroker tx), (SenderIsBroker tx); cbn [negb andb]; cbn in Hp;
      rewrite ?ES, ?ER in Hp; repeat destruct_and?; simplify_eq; by rewrite ?Z.eqb_refl.
  - destruct (decide (FinalRecipient tx = Recipient tx)) as [E2|E2].
    + rewrite (bool_decide_true (Recipient tx = _)) in * by done. rewrite ER in Hp. injection Hp as ->.
      destruct (bool_decide _); [done|]. by rewrite Z.eqb_refl.
    + rewrite (bool_decide_false (Recipient tx = _)) in * by congruence. rewrite xorb_false_r in Hs.
      rewrite Hs. apply bool_decide_eq_true in Hs. rewrite decide_True in Hp by done.
      rewrite ES in Hp. injection Hp as ->. by rewrite Z.eqb_refl.
Qed.

(** An account of the shard that follows no message stays. *)
Lemma account_stays m keys p p' a :
  let accts := base.filter (λ a, default 0 (m !! a) ≠ p_ShardID p ∧
    Get_PartitionMap (CurChain p) a = Ret (p_ShardID p)) keys in
  (∀ a, a ∈ keys ↔ a ∈ dom m) → map_Forall (λ _ s, s ∈ shard_ids p) m →
  adopts m p p' → Get_PartitionMap (CurChain p) a = Ret (p_ShardID p) →
  (∀ i, i ∈ shard_ids p → i ≠ p_ShardID p → goes m accts i a = false) →
  Get_PartitionMap (CurChain p') a = Ret (p_ShardID p').
Proof.
  intros accts Hk Hm Ha Hp Hg. rewrite (Get_PartitionMap_adopted m p p') by done.
  destruct Ha as [_ ->]. destruct (m !! a) as [v|] eqn:Ev; [|done].
  destruct (decide (v = p_ShardID p)) as [->|Hv]; [done|]. exfalso.
  assert (goes m accts v a = true) as E; [|rewrite Hg in E; [done| |done]; by apply (Hm a)].
  unfold goes. rewrite Ev. cbn [default]. rewrite Z.eqb_refl, andb_true_r. apply bool_decide_eq_true.
  apply list_elem_of_filter. rewrite Ev. split; [done|]. apply Hk, elem_of_dom. by eexists.
Qed.

Lemma tx_resolvable_adopted m p p' tx :
  adopts m p p' → tx_resolvable (CurChain p) tx = true → tx_resolvable (CurChain p') tx = true.
Proof.
  intros Ha. unfold tx_resolvable, resolvable. rewrite !(Get_PartitionMap_adopted m p p') by done.
  intros [H1 H2]%andb_true_iff. apply andb_true_iff.
  destruct (m !! Sender tx), (m !! Recipient tx); done.
Qed.

(** So does a transaction that is not removed. *)
Lemma tx_stays m keys p p' tx :
  let accts := base.filter (λ a, default 0 (m !! a) ≠ p_ShardID p ∧
    Get_PartitionMap (CurChain p) a = Ret (p_ShardID p)) keys in
  (∀ a, a ∈ keys ↔ a ∈ dom m) → map_Forall (λ _ s, s ∈ shard_ids p) m → adopts m p p' →
  tx_shape tx = true → placed p tx →
  forallb (λ i, negb (leaves m accts i tx)) (base.filter (λ i, i ≠ p_ShardID p) (shard_ids p)) = true →
  placed p' tx.
Proof.
  intros accts Hk Hm Ha Hs Hp Hn.
  assert (∀ i, i ∈ shard_ids p → i ≠ p_ShardID p → leaves m accts i tx = false) as Hl.
  { intros i Hi Hne. apply negb_true_iff, (proj1 (forallb_forall _ _) Hn), list_elem_of_In.
    by apply list_elem_of_filter. }
  unfold placed in *. destruct (broker_owner tx) as [a|] eqn:Eo.
  - apply (account_stays m keys p); [done..|]. intros i Hi Hne. specialize (Hl i Hi Hne).
    apply orb_false_iff in Hl as [Hl _]. unfold follows in Hl. by rewrite Eo in Hl.
  - assert (plain_inner tx = true) as Hi.
    { revert Hs Eo. unfold plain_inner, tx_shape, broker_owner, marked_broker1, marked_broker2.
      destruct (decide (RawTxHash tx = None)) as [Hr|Hr].
      - rewrite (bool_decide_true _ Hr). by destruct (HasBroker tx).
      - repeat case_decide; try done; by rewrite !bool_decide_false by congruence. }
    destruct Hp as [HS HR]. split; apply (account_stays m keys p); try done; intros i Hi' Hne;
      specialize (Hl i Hi' Hne); apply orb_false_iff in Hl as [_ Hl]; unfold splits in Hl;
      rewrite Hi in Hl; by apply orb_false_iff in Hl as [? ?].
Qed.

(** C17 (safety) After a repartition the leaders of the broker shards do not panic on the
    transactions they execute: when every pooled transaction was in the shard of its
    owner, then once the partition is adopted, the transactions that stayed pass the
    checks of the leader that kept them, and the transactions sent to another shard pass
    the checks of the leader there. *)
Theorem repartition_keeps_placement (keys : list Address) p p1 (m : gmap Address Z)
    (states : list AccountState) (atm : AccountTransferMsg) :
  let me := p_ShardID p in
  let q := TxQueue (Txpool (CurChain p)) in
  let accts := base.filter (λ a, default 0 (m !! a) ≠ me ∧
                 Get_PartitionMap (CurChain p) a = Ret me) keys in
  last (cd_ModifiedMap (cdm p)) = Some m → ModifiedMap atm = m →
  (∀ a, a ∈ keys ↔ a ∈ dom m) → map_Forall (λ _ s, s ∈ shard_ids p) m →
  forallb (resolvable (CurChain p)) keys = true →
  FetchAccounts (CurChain p) accts = Ret states →
  ClpaBroker_sendAccounts_and_Txs keys p = Ret p1 →
  Forall (λ tx, tx_shape tx = true ∧ tx_resolvable (CurChain p) tx = true ∧ placed p tx) q →
  (∀ p2, ClpaBroker_accountTransfer_do atm p1 = Ret p2 →
     Forall (λ tx, check_placed p2 tx = Ret tt) (TxQueue (Txpool (CurChain p2)))) ∧
  (∀ i r r', p_ShardID r = i →
     Forall (λ tx, tx_resolvable (CurChain r) tx = true) q →
     ClpaBroker_accountTransfer_do atm r = Ret r' →
     Forall (λ tx, check_placed r' tx = Ret tt) (ast_Txs (broker_transfer_msg m accts states me q i))).
Proof.
  intros me q accts Hlast Hatm Hk Hm Hr Hf E1 Hq.
  destruct (broker_sendAccounts_spec keys p m states Hlast Hr Hf)
    as (p1' & cross & E1' & _ & Hstill & _ & _ & Hpm & Hme & _).
  rewrite E1 in E1'. injection E1' as <-. rewrite Forall_forall in Hq. split.
  - intros p2 [[H1 H2] Hpool]%accountTransfer_do_adopts. rewrite Hatm in H1.
    assert (adopts m p p2) as Ha by (split; congruence).
    rewrite Hpool, Hstill. apply Forall_forall. intros tx [Hn Htx]%list_elem_of_filter.
    destruct (Hq tx Htx) as (Hs & Hres & Hp).
    apply check_placed_ok; [done|by eapply tx_resolvable_adopted|].
    by eapply (tx_stays m keys).
  - intros i r r' Hi Hres [E2 _]%accountTransfer_do_adopts. rewrite Hatm in E2.
    rewrite Forall_forall in Hres.
    apply Forall_forall. intros tx [Hfo Htx]%list_elem_of_filter. destruct (Hq tx Htx) as (Hs & _ & _).
    apply check_placed_ok; [done|eapply tx_resolvable_adopted; eauto|].
    unfold follows in Hfo. unfold placed. destruct (broker_owner tx) as [a|]; [|done].
    apply andb_true_iff in Hfo as [Hin%bool_decide_eq_true Hd%Z.eqb_eq].
    apply list_elem_of_filter in Hin as [_ Hin]. apply Hk, elem_of_dom in Hin as [v Hv].
    rewrite (Get_PartitionMap_adopted m r r') by done. rewrite Hv in *. cbn in Hd.
    destruct E2 as [_ ->]. congruence.
Qed.
End TransferBroker.
