(* ===== verification/SupervisorExamples.v ===== *)
(** * Concrete supervisors and committees

    Serializers for the messages of the supervisor, sample rows, transactions and
    committees, and the instances of the properties of [PbftRound], [Injection],
    [BrokerCommittee], [BrokerNode], [ClpaCommittee], [Measure], [Supervisor] and
    [TransferBroker]. *)

From S2P Require Import Prelude Params Csv Utils Interfaces Core Instances Sha256.
From S2P Require Import TxPool Storage G2E BlockChain Ledger ChainProps MerkleProof.
From S2P Require Import Messages PbftNode Pbft Relay PbftRound NodeExamples CLPA.
From S2P Require Import Transfer TransferExamples Injection BrokerCommittee BrokerNode.
From S2P Require Import ClpaCommittee HalfFloats Measure Supervisor Report TransferBroker.

#[export] Instance Ser_Raw : Ser BrokerRawMeg :=
  Ser_iso (λ m, (br_Tx m, br_Broker m, Hlock m, Snonce m, Bnonce m, br_Signature m))
    (λ '(a, b, c, d, e, f), mkBrokerRaw a b c d e f) ltac:(by intros []).
#[export] Instance Ser_I2C : Ser InnerTx2CrossTx := Ser_iso ic_Txs mkI2C ltac:(by intros []).
#[export] Instance Ser_SeqID : Ser SeqIDinfo :=
  Ser_iso (λ m, (si_SenderShardID m, si_SenderSeq m)) (λ '(a, b), mkSeqID a b) ltac:(by intros []).

(** No amount of the samples has a fraction or an exponent. *)
#[export] Instance no_other_float : BigFloat.FloatSyntax := {| BigFloat.other_float := λ _, None |}.

#[local] Instance supervisor_params : Params := default_params 2.

(** ** Rounds of consensus *)

(** Node 1 of shard 0 at the beginning of a round. *)
Definition idle_node (bc : BlockChain) : PbftConsensusNode unit :=
  mkPbft (mkNode 1 0 "ip1") 0 1 bc (sample_config 0) sample_ips 4 1
    0 0 ∅ ∅ 7 false ∅ ∅ ∅ ∅ ∅ ∅ 1 false false ∅ tt 10 [].

Definition prepares (d : bytes) : list Prepare :=
  (λ i, mkPrepare d 7 (Some (mkNode i 0 "ip"))) <$> [0; 2; 3].
Definition commits (d : bytes) : list Commit :=
  (λ i, mkCommit d 7 (Some (mkNode i 0 "ip"))) <$> [0; 2; 3].

Lemma replica_round_completes_witness :
  let p := idle_node (sample_chain sample_book []) in
  ∃ r block bc1, DecodeB (Msg_Content r) = Ret block ∧ AddBlock block (CurChain p) = Ret bc1 ∧
  let ths := ((λ m, in_Commit m 0) <$> commits (getDigest r)) ++
    ((λ m, in_Prepare m 0) <$> prepares (getDigest r)) ++ [in_PrePrepare (mkPP r (getDigest r) 7) 0] in
  ∀ n s, nsteps serves n (mkSys p [] ths []) s →
    (n + length (threads s) = length ths)%nat ∧
    (threads s ≠ [] → ∃ s', serves s s') ∧
    (threads s = [] → sequenceID (nd s) = 7 + 1 ∧ pbftStage (nd s) = 1 ∧ CurChain (nd s) = bc1).
Proof.
  intros p. set (L := sample_chain sample_book sample_txs).
  destruct (GenerateBlock_returns 0 1 L (∅ : gmap string string)) as (b & L' & Eg);
    [apply sample_opens|vm_compute; reflexivity|vm_compute; reflexivity|].
  assert (match GenerateBlock 0 1 L with Ret (b, _) => block_fits b | Panic _ => true end = true) as Hfit
    by (vm_compute; reflexivity).
  rewrite Eg in Hfit. pose proof Eg as (_ & _ & Hhash & _ & Hval)%GenerateBlock_eq.
  assert (storable b) as Hb by (by apply hashed_storable).
  assert (replica L (CurChain p)) as Hrep by exact (sample_replica _ _ _).
  destruct (AddBlock_replica 0 1 L (CurChain p) b L' Hrep Eg sample_storage_ok Hb) as (F' & s & Ea & _).
  set (r := mkRequest BlockRequest (Block_Encode b) 1).
  assert (DecodeB (Msg_Content r) = Ret b) as Hdec by (apply DecodeB_Encode, Hb).
  exists r, b, (set_tip F' b s). split; [exact Hdec|]. split; [exact Ea|]. intros ths.
  apply (replica_round_completes p [] [] r b (set_tip F' b s) (prepares (getDigest r))
           (commits (getDigest r)) ths).
  - exact Hdec.
  - destruct Hrep as ([_ HH] & _). unfold IsValidBlock in *. rewrite <-HH. exact Hval.
  - exact Ea.
  - split; [discriminate|reflexivity].
  - reflexivity.
  - reflexivity.
  - reflexivity.
  - reflexivity.
  - reflexivity.
  - reflexivity.
  - reflexivity.
  - repeat constructor; discriminate.
  - repeat constructor; discriminate.
  - change (quorum p) with 3. change (3 ≤ 3). lia.
  - change (quorum p) with 3. change (3 ≤ 3). lia.
  - unfold ths. change (view p) with 0. change (sequenceID p) with 7.
    rewrite (Permutation_app_comm (_ <$> commits _)), <-app_assoc, Permutation_app_comm. cbn. solve_Permutation.
Defined.

(** ** Injection *)

(** The shards of the transactions, as a check to evaluate. *)
Lemma in_some_shard (shardOf : Transaction → outcome Z) txs :
  forallb (λ tx, match shardOf tx with Ret s => (0 <=? s) && (s <? ShardNum) | Panic _ => false end)
    txs = true →
  ∀ tx, tx ∈ txs → ∃ sid, shardOf tx = Ret sid ∧ 0 ≤ sid < ShardNum.
Proof.
  intros H tx Htx%list_elem_of_In. apply (proj1 (forallb_forall _ _) H) in Htx.
  destruct (shardOf tx) as [sid|]; [|done]. exists sid. split; [done|]. lia.
Qed.

Definition row_of (a b value : string) : list string := [a; b; ""; "0"; "0"; value; "1"; "5"; "6"].

Definition sample_rows : list (list string) :=
  [row_of "0x000000000000000000000004" "0x000000000000000000000008" "1000000000000000000";
   ["contract"; "creation"; ""; "1"; "0"];
   row_of "0x000000000000000000000005" "0x000000000000000000000004" "7";
   row_of "0x000000000000000000000009" "0x000000000000000000000005" "20"].

Lemma txSending_injects_witness :
  let shardOf (tx : Transaction) : outcome Z := s ← Addr2Shard (Sender tx); Ret (u64 s) in
  ∃ rs, txSending shardOf sample_ips sample_txs = Ret (rs ≫= round_messages shardOf sample_ips) ∧
    concat rs = sample_txs ∧
    Forall (λ r, 0 < zlen r ≤ InjectSpeed) rs ∧
    (∀ rs' r, rs = rs' ++ [r] → Forall (λ r, zlen r = InjectSpeed) rs') ∧
    Forall (λ r, (seqZ 0 (u64 ShardNum) ≫=
                    λ sid, base.filter (λ tx, shardOf tx = Ret sid) r) ≡ₚ r) rs.
Proof.
  intros shardOf. apply (txSending_injects shardOf sample_ips sample_txs).
  - vm_compute. reflexivity.
  - vm_compute. split; reflexivity.
  - apply in_some_shard. vm_compute. reflexivity.
Defined.

Lemma Relay_MsgSendingControl_injects_witness :
  let clock (i : nat) : Time := 100 + Z.of_nat i in
  zlen (accepted clock 0 sample_rows) = 3 ∧
  ∃ f' bs,
    Relay_MsgSendingControl clock (Some (Some <$> sample_rows))
      (NewRelayCommitteeModule sample_ips (NewStopSignal 3) 10 2) = Ret f' ∧
    outbox f' = bs ≫= batch_messages sample_ips ∧
    Forall (λ b, zlen b ≤ 2) bs ∧
    nowDataNum f' = Z.min 10 (zlen (accepted clock 0 sample_rows)) ∧
    concat bs ++ txlist f' = take (Z.to_nat 10) (accepted clock 0 sample_rows) ∧
    (if 10 <=? zlen (accepted clock 0 sample_rows) then txlist f' = []
     else zlen (txlist f') < 2 ∧ ∃ q, zlen (concat bs) = q * 2).
Proof.
  intros clock. split; [vm_compute; reflexivity|].
  apply (Relay_MsgSendingControl_injects clock sample_rows sample_ips (NewStopSignal 3) 10 2).
  - vm_compute. reflexivity.
  - vm_compute. reflexivity.
  - reflexivity.
  - vm_compute. split; reflexivity.
  - apply (bool_decide_unpack _). vm_compute. exact I.
  - apply (bool_decide_unpack _). vm_compute. exact I.
Defined.


(** ** The broker committee *)
Definition broker_file : option (list string) := Some ["0000000000000000000000aa"].
Definition broker_address : Address := "0000000000000000000000aa".
Definition new_brokers : BrokerCommitteeMod :=
  NewBrokerCommitteeMod broker_file sample_ips (NewStopSignal 3) 10 1.
Definition cross_row : list string :=
  row_of "0x000000000000000000000005" "0x000000000000000000000004" "7".
Definition inner_row : list string :=
  row_of "0x000000000000000000000008" "0x000000000000000000000004" "9".
Definition tick (i : nat) : Time := 100 + Z.of_nat i.

(** The transactions of the two rows. *)
Definition cross_tx : Transaction :=
  match data2tx 100 cross_row 0 with Ret (Some tx) => tx | _ => sample_tx "" "" 0 false 0 end.
Definition inner_tx : Transaction :=
  match data2tx 100 inner_row 0 with Ret (Some tx) => tx | _ => sample_tx "" "" 0 false 0 end.
Definition payment : Transaction := make_tx1 101 (mkBT1 (raw_meg cross_tx broker_address) 0 broker_address).

Lemma shards_known (fetch : Address → outcome Z) txs :
  forallb (λ tx, match fetch (Recipient tx), fetch (Sender tx) with Ret _, Ret _ => true | _, _ => false end)
    txs = true →
  ∀ tx, tx ∈ txs → is_ret (fetch (Recipient tx)) ∧ is_ret (fetch (Sender tx)).
Proof.
  intros H tx Htx%list_elem_of_In. apply (proj1 (forallb_forall _ _) H) in Htx. unfold is_ret.
  destruct (fetch (Recipient tx)), (fetch (Sender tx)); eauto; done.
Qed.

Lemma dealTxByBroker_splits_witness :
  let txs := [cross_tx; inner_tx] in
  let b := bcm_broker new_brokers in
  let fetch := Broker_fetchModifiedMap in
  let crossing := base.filter (λ tx, needs_broker fetch b tx = true) txs in
  length crossing = 1%nat ∧
  ∃ c' tx1s,
    dealTxByBroker fetch tick txs new_brokers =
      Ret (kept_tx b <$> base.filter (λ tx, needs_broker fetch b tx = false) txs, c') ∧
    Forall2 (pays_broker broker_address) crossing tx1s ∧
    outbox (bcm_feeder c') = outbox (bcm_feeder new_brokers) ++
      (rounds InjectSpeed [] tx1s ≫=
         round_messages (λ tx, fetch (Sender tx)) (IpNodeTable (bcm_feeder new_brokers))) ∧
    (∀ tx, tx ∈ crossing →
       is_Some (BrokerRawMegs (bcm_broker c') !! getBrokerRawMagDigest (raw_meg tx broker_address))) ∧
    ∀ tx1, tx1 ∈ tx1s → is_Some (brokerConfirm1Pool c' !! TxHash tx1).
Proof.
  intros txs b fetch crossing. split; [vm_compute; reflexivity|].
  apply (dealTxByBroker_splits fetch tick txs new_brokers broker_address).
  - vm_compute. reflexivity.
  - reflexivity.
  - apply shards_known. vm_compute. reflexivity.
Defined.

(** The report of the block with the payment. *)
Definition payment_report : BlockInfoMsg := mkBIM 1 [] 0 102 103 1 [] [] [payment] [].

Lemma broker_pays_out_witness :
  ∃ c, rtc (committee_step Broker_fetchModifiedMap) new_brokers c ∧
  let b := payment_report in
  let confirmed := omap (λ tx, brokerConfirm1Pool c !! TxHash tx) (Broker1Txs b ++ Broker2Txs b) in
  length confirmed = 1%nat ∧
  ∃ c' tx2s, Broker_HandleBlockInfo tick b c = Ret c' ∧
    Forall2 pays_out confirmed tx2s ∧
    outbox (bcm_feeder c') = outbox (bcm_feeder c) ++
      (rounds InjectSpeed [] tx2s ≫=
         round_messages (λ tx, Broker_fetchModifiedMap (Recipient tx)) (IpNodeTable (bcm_feeder c))) ∧
    brokerConfirm1Pool c' = brokerConfirm1Pool c.
Proof.
  assert (match broker_row Broker_fetchModifiedMap tick cross_row new_brokers with
          | Ret (c, _) => match brokerConfirm1Pool c !! TxHash payment with Some _ => true | None => false end
          | Panic _ => false end = true) as Hrow by (vm_compute; reflexivity).
  destruct (broker_row Broker_fetchModifiedMap tick cross_row new_brokers) as [[c stop]|] eqn:E;
    [|discriminate Hrow].
  assert (rtc (committee_step Broker_fetchModifiedMap) new_brokers c) as Hrun
    by (eapply rtc_once, step_row, E).
  exists c. split; [exact Hrun|]. intros b confirmed. split.
  { unfold confirmed, b, payment_report. cbn [Broker1Txs Broker2Txs app omap list_omap].
    destruct (brokerConfirm1Pool c !! TxHash payment); [reflexivity|discriminate Hrow]. }
  apply (broker_pays_out broker_file sample_ips (NewStopSignal 3) 10 1 c tick b).
  - vm_compute. reflexivity.
  - vm_compute. reflexivity.
  - discriminate.
  - apply (bool_decide_unpack _). vm_compute. exact I.
  - exact Hrun.
Defined.

(** ** The broker modules of a node *)

(** A block with a payment to the broker, its pay-out and an inner transaction; the chain
    does not adopt it, the leader reports it all the same. *)
Definition pay_out : Transaction := make_tx2 104 (mkBT2 (raw_meg cross_tx broker_address) broker_address).
Definition broker_block : Block :=
  mkBlock (mkBH "nobody" "" "" (∅ : @BitSet SetBits) 99 0 0) [payment; inner_tx; pay_out] "stray".
Definition broker_request : Request := mkRequest BlockRequest (Block_Encode broker_block) 1.

Definition broker_leader (bc : BlockChain) : PbftConsensusNode unit :=
  mkPbft (mkNode 0 0 "ip0") 0 0 bc (sample_config 0) sample_ips 4 1
    0 0 ∅ ∅ 7 false {["digest" := broker_request]} ∅ ∅ ∅ ∅ ∅ 3 true false ∅ tt 10 [].

Lemma Broker_HandleinCommit_reports_witness :
  let p := broker_leader (sample_chain sample_book []) in
  let cmsg := mkCommit "digest" 7 None in
  let block := broker_block in
  let r := broker_request in
  ∃ p' inner b1 b2, Broker_HandleinCommit 5 cmsg p = Ret (p', true) ∧ CurChain p' = CurChain p ∧
    sent p' = sent p ++
      ((λ sid, (ip_of p sid 0, frame CSeqIDinfo (marshal (mkSeqID (p_ShardID p) (sequenceID p)))))
         <$> base.filter (λ sid, sid ≠ p_ShardID p) (seqZ 0 (ShardNums (pbftChainConfig p)))) ++
      [(ip_of p SupervisorShard 0, frame CBlockInfo
         (marshal (mkBIM (zlen (Body block)) inner 0 (ReqTime r) 5 (p_ShardID p) [] [] b1 b2)))] ∧
    inner ++ b1 ++ b2 ≡ₚ Body block ∧
    (∀ tx, tx ∈ Body block → RawTxHash tx = None → tx ∈ inner) ∧
    (∀ a raw tx1, tx1 ∈ Body block → pays_broker a raw tx1 → a ≠ Recipient raw → tx1 ∈ b1) ∧
    (∀ m tx2, tx2 ∈ Body block → pays_out m tx2 → tx2 ∈ b2).
Proof.
  intros p cmsg block r. apply (Broker_HandleinCommit_reports 5 cmsg p r block (CurChain p)).
  - reflexivity.
  - apply DecodeB_Encode. repeat (apply Forall_cons; split; [vm_compute; discriminate|]). apply Forall_nil, I.
  - apply AddBlock_rejects. vm_compute. reflexivity.
  - vm_compute. reflexivity.
Defined.

Lemma broker_node_never_catches_up_witness :
  let p := broker_leader (sample_chain sample_book []) in
  let som := mkSOM 7 8 [broker_request; broker_request] None in
  Broker_HandleforSequentialRequest som p =
  if (so_SeqStartHeight som =? so_SeqEndHeight som) && (zlen (OldRequest som) =? 0)
  then Panic "index out of range" else Ret (p, true).
Proof.
  intros p som. apply (broker_node_never_catches_up som p).
  - split; discriminate.
  - reflexivity.
Defined.


(** ** The committees with repartition *)
Definition new_clpa : CLPACommitteeModule :=
  NewCLPACommitteeModule sample_ips (NewStopSignal 3) 10 1 80.

(** The report of a block with two inner transactions. *)
Definition inner_report : BlockInfoMsg := mkBIM 2 [inner_tx; cross_tx] 0 102 103 0 [] [] [] [].

Lemma clpa_committee_repartitions_witness :
  ∃ c, rtc clpa_step (Reading [], new_clpa) (Reading [], c) ∧
  let orders (i : nat) := elements (VertexSet (NetGraph (clpaGraph (clc_part c)))) in
  let o := orders 0%nat in
  let g := clpaGraph (clc_part c) in
  size (VertexSet (NetGraph g)) = 3%nat ∧
  clpa_ok g ∧ graph_ok (NetGraph g) ∧
  (∀ v, v ∈ VertexSet (NetGraph g) →
     fetchModifiedMap (clc_part c) (Addr v) = Ret (shard_of_vertex (PartitionMap g) v)) ∧
  ∃ mmap cross g' c',
    CLPA_Partition o orders o g = Ret ((mmap, cross), g') ∧
    Clpa_repartition o orders o c = Ret c' ∧
    outbox (clc_feeder c') = outbox (clc_feeder c) ++
      ((λ i, (table_ip (IpNodeTable (clc_feeder c)) i 0,
              frame CPartitionMsg (marshal (mkPM mmap)))) <$> seqZ 0 (u64 ShardNum)) ∧
    modifiedMap (clc_part c') = mmap ∪ modifiedMap (clc_part c) ∧
    (∀ v, v ∈ VertexSet (NetGraph g) →
       fetchModifiedMap (clc_part c') (Addr v) = Ret (shard_of_vertex (PartitionMap g') v)).
Proof.
  assert (match Clpa_HandleBlockInfo inner_report (on_feeder (note_body inner_report) new_clpa) with
          | Ret c => (size (VertexSet (NetGraph (clpaGraph (clc_part c)))) =? 3)%nat
          | Panic _ => false end = true) as Hrow by (vm_compute; reflexivity).
  destruct (Clpa_HandleBlockInfo _ _) as [c|] eqn:E; [|discriminate Hrow].
  assert (rtc clpa_step (Reading [], new_clpa) (Reading [], c)) as Hrun.
  { eapply rtc_once, cs_info, E. apply (bool_decide_unpack _). vm_compute. exact I. }
  exists c. split; [exact Hrun|]. intros orders o g. split; [by apply Nat.eqb_eq|].
  apply (clpa_committee_repartitions [] sample_ips (NewStopSignal 3) 10 1 80 (Reading []) c o orders o).
  - vm_compute. split; reflexivity.
  - exact Hrun.
  - intros i. reflexivity.
Defined.

Definition new_clpa_brokers : CLPACommitteeMod_Broker :=
  NewCLPACommitteeMod_Broker broker_file sample_ips (NewStopSignal 3) 10 1 80.

Definition late_payment : Transaction := make_tx1 102 (mkBT1 (raw_meg cross_tx broker_address) 0 broker_address).
Definition late_report : BlockInfoMsg := mkBIM 2 [inner_tx] 0 105 106 1 [] [] [late_payment] [].

Lemma clpa_broker_pays_out_witness :
  let b := late_report in
  ∃ l c, rtc clpa_broker_step (Reading [Some cross_row], new_clpa_brokers) (l, c) ∧
  length (omap (λ tx, brokerConfirm1Pool (clb_broker c) !! TxHash tx) (Broker1Txs b ++ Broker2Txs b)) = 1%nat ∧
  ∃ c' tx2s, ClpaBroker_HandleBlockInfo tick b c = Ret c' ∧
    Forall2 pays_out
      (omap (λ tx, brokerConfirm1Pool (clb_broker c) !! TxHash tx) (Broker1Txs b ++ Broker2Txs b)) tx2s ∧
    outbox (clb_feeder c') = outbox (clb_feeder c) ++
      (rounds InjectSpeed [] tx2s ≫=
         round_messages (λ tx, fetchModifiedMap (clb_part c) (Recipient tx)) (IpNodeTable (clb_feeder c))) ∧
    let g := clpaGraph (clb_part c') in
    clpa_ok g ∧ graph_ok (NetGraph g) ∧
    VertexSet (NetGraph g) =
      list_to_set ((λ e, mkVertex e.1) <$> broker_info_edges b) ∪
      list_to_set ((λ e, mkVertex e.2) <$> broker_info_edges b) ∪
      VertexSet (NetGraph (clpaGraph (clb_part c))) ∧
    ∀ v, v ∈ VertexSet (NetGraph g) →
      fetchModifiedMap (clb_part c') (Addr v) = Ret (shard_of_vertex (PartitionMap g) v).
Proof.
  intros b.
  assert (match clpa_broker_row tick cross_row new_clpa_brokers with
          | Ret (c, acc) => acc && negb (repartition_due 110 (clb_part c)) &&
              match brokerConfirm1Pool (clb_broker c) !! TxHash late_payment with
              | Some _ => true | None => false end
          | Panic _ => false end = true) as Hrow by (vm_compute; reflexivity).
  destruct (clpa_broker_row _ _ _) as [[c acc]|] eqn:E; [|discriminate Hrow].
  apply andb_true_iff in Hrow as [[-> Hdue%negb_true_iff]%andb_true_iff Hpool].
  assert (rtc clpa_broker_step (Reading [Some cross_row], new_clpa_brokers)
            (next_row (clb_feeder c) [], c)) as Hrun by (eapply rtc_once, cb_row; [exact E|exact Hdue]).
  exists (next_row (clb_feeder c) []), c. split; [exact Hrun|]. split.
  { unfold b, late_report. cbn [Broker1Txs Broker2Txs app omap list_omap].
    destruct (brokerConfirm1Pool (clb_broker c) !! TxHash late_payment); [reflexivity|discriminate Hpool]. }
  apply (clpa_broker_pays_out broker_file [Some cross_row] sample_ips (NewStopSignal 3) 10 1 80
           (next_row (clb_feeder c) []) c tick b).
  - vm_compute. split; reflexivity.
  - vm_compute. reflexivity.
  - discriminate.
  - apply (bool_decide_unpack _). vm_compute. exact I.
  - apply (bool_decide_unpack _). vm_compute. exact I.
  - exact Hrun.
Defined.

(** ** Measurements *)
Lemma epoch_total_le f e l : epoch_total f e l ≤ zsum (zlen ∘ f <$> l).
Proof.
  induction l as [|b l IH] using rev_ind; [done|].
  rewrite epoch_total_snoc, fmap_app, zsum_app. cbn. pose proof (zlen_nonneg (f b)).
  destruct (counted_in e b); cbn; lia.
Qed.

Definition cross_report : BlockInfoMsg := mkBIM 3 [inner_tx] 1 102 103 1 [cross_tx] [cross_tx] [payment] [].
Definition sample_reports : list BlockInfoMsg := [inner_report; cross_report; payment_report].

Lemma tx_number_file_exact_witness :
  let reports := sample_reports in
  ∃ m fs' content, measure TxNumCount_Relay_Update NewTestTxNumCount_Relay reports = Ret m ∧
    TxNumCount_Relay_writeToCSV m ∅ = Ret fs' ∧ fs' !! metrics_path "Tx_number" = Some content ∧
    read_csv content = Some <$> (txnum_names "Relay" ::
      (count_row Relay1Txs Relay2Txs reports <$> seqZ 0 (epochID (tn_counts m) + 1))).
Proof.
  intros reports. destruct (tx_number_file_exact reports ∅)
    as [(m & fs' & content & E1 & _ & E2 & E3 & E4) _]; [..|by exists m, fs', content].
  - apply (bool_decide_unpack _). vm_compute. exact I.
  - intros e. unfold epoch_halves. pose proof (epoch_total_le InnerShardTxs e reports) as H1.
    pose proof (epoch_total_le Relay1Txs e reports) as H2.
    pose proof (epoch_total_le Relay2Txs e reports) as H3.
    change (zsum (zlen ∘ InnerShardTxs <$> reports)) with 3 in H1.
    change (zsum (zlen ∘ Relay1Txs <$> reports)) with 1 in H2.
    change (zsum (zlen ∘ Relay2Txs <$> reports)) with 1 in H3. lia.
  - intros e. unfold epoch_halves. pose proof (epoch_total_le InnerShardTxs e reports) as H1.
    pose proof (epoch_total_le Broker1Txs e reports) as H2.
    pose proof (epoch_total_le Broker2Txs e reports) as H3.
    change (zsum (zlen ∘ InnerShardTxs <$> reports)) with 3 in H1.
    change (zsum (zlen ∘ Broker1Txs <$> reports)) with 2 in H2.
    change (zsum (zlen ∘ Broker2Txs <$> reports)) with 0 in H3. lia.
  - reflexivity.
Defined.

(** ** The supervisor *)
Definition small_config : ChainConfig :=
  {| ChainID := 0; cc_NodeID := 0; cc_ShardID := 0; Nodes_perShard := 4;
     ShardNums := 1; BlockSize := 2000; BlockInterval := 5000; cc_InjectSpeed := 2000;
     MaxRelayBlockSize := 10 |}.
Definition sample_supervisor : Supervisor :=
  NewSupervisor "supervisor" small_config "Relay" broker_file sample_ips MeasureRelayMod.
Definition empty_report : BlockInfoMsg := mkBIM 0 [] 0 102 103 0 [] [] [] [].

(** Three empty blocks of the only shard. *)
Lemma supervisor_stops_when_quiet_witness :
  ∃ d, sup_run (Feeding [], sample_supervisor) [Report true; Report true; Report true] (Waiting, d) ∧
  GapEnough (sup_Ss d) = (3 * ShardNums small_config <=? quiet [Report true; Report true; Report true]) ∧
  (∀ now d' out, stop_all now d = Ret (d', out) →
     listenStop d' = true ∧
     outbox (com_feeder (comMod d')) = outbox (com_feeder (comMod d)) ++
       ((λ a, (a, frame CStop "this is a stop message~")) <$> all_nodes d)).
Proof.
  assert (unmarshal (marshal empty_report) = Some empty_report) as Hm by apply parse_line_ser.
  assert (match handleBlockInfos tick (marshal empty_report) sample_supervisor with
          | Ret d => match handleBlockInfos tick (marshal empty_report) d with
             | Ret d => match handleBlockInfos tick (marshal empty_report) d with
                | Ret _ => true | Panic _ => false end
             | Panic _ => false end
          | Panic _ => false end = true) as Hrow by (vm_compute; reflexivity).
  destruct (handleBlockInfos _ _ sample_supervisor) as [d1|] eqn:E1; [|discriminate Hrow].
  destruct (handleBlockInfos _ _ d1) as [d2|] eqn:E2; [|discriminate Hrow].
  destruct (handleBlockInfos _ _ d2) as [d3|] eqn:E3; [|discriminate Hrow].
  assert (sup_run (Feeding [], sample_supervisor) [Report true; Report true; Report true] (Waiting, d3)) as Hrun.
  { apply run_eof. eapply (run_report _ [Report true; Report true] tick empty_report); [|exact Hm|exact E3].
    eapply (run_report _ [Report true] tick empty_report); [|exact Hm|exact E2].
    eapply (run_report _ [] tick empty_report); [apply run_start|exact Hm|exact E1]. }
  exists d3. split; [exact Hrun|].
  apply (supervisor_stops_when_quiet "supervisor" small_config broker_file sample_ips MeasureRelayMod []
           [Report true; Report true; Report true] Waiting d3).
  - split; [discriminate|reflexivity].
  - reflexivity.
  - exact Hrun.
Defined.

(** ** Repartition of a broker shard *)

(** Account 4 of shard 0 moves to shard 1: a plain transaction to account 8 is split, a
    payment by account 4 follows it, a transaction of account 8 stays. *)
Definition broker_queue : list Transaction :=
  [sample_tx "0x00000004" "0x00000008" 5 false 0;
   mkTx "0x00000004" "0x00000006" 1 "" 7 "paid" 1 false false false "0x00000004" "0x00000005" (Some "raw") true "" 0 1 2;
   mkTx "0x00000008" "0x00000006" 1 "" 7 "bought" 1 false true false "" "" None true "" 0 1 2].

Definition fetched (p : PbftConsensusNode Data_supportCLPA) (accts : list Address) : list AccountState :=
  match FetchAccounts (CurChain p) accts with Ret l => l | Panic _ => [] end.

Lemma sample_fetch c q accts :
  FetchAccounts (CurChain (pair_node c q)) accts = Ret (fetched (pair_node c q) accts).
Proof.
  unfold fetched.
  assert (∃ states, FetchAccounts (CurChain (pair_node c q)) accts = Ret states) as [states ->]; [|done].
  unfold FetchAccounts. change (CurChain (pair_node c q)) with (sample_chain sample_book q).
  assert (trie_New (BytesToHash (StateRoot (tip (sample_chain sample_book q))))
            (triedb (sample_chain sample_book q)) = Some (∅ : @Trie MapTrie))
    as -> by exact (proj1 (sample_opens sample_book q)).
  cbn [or_panic]. rewrite bind_ret.
  destruct (foldM_collect (λ a, load_account (∅ : @Trie MapTrie) a 0) (λ _ _, True) accts [])
    as (ys & E & _); [|by eauto].
  intros a _. eexists. split; [reflexivity|done].
Qed.

Lemma ClpaBroker_sendAccounts_and_Txs_splits_witness :
  let p := pair_node moving_data broker_queue in
  let keys := ["0x00000004"; "0x00000005"] in
  let m := new_partition in
  let bc := CurChain p in
  let me := p_ShardID p in
  let q := TxQueue (Txpool bc) in
  let others := base.filter (λ i, i ≠ me) (shard_ids p) in
  let accts := base.filter (λ a, default 0 (m !! a) ≠ me ∧ Get_PartitionMap bc a = Ret me) keys in
  let states := fetched p accts in
  length (still m accts others q) = 1%nat ∧ length (crossing m accts others q) = 1%nat ∧
  ∃ p' cross, ClpaBroker_sendAccounts_and_Txs keys p = Ret p' ∧
    sent p' = sent p ++ ((λ i, (ip_of p i 0, frame CAccountTransferMsg_broker
       (marshal (broker_transfer_msg m accts states me q i)))) <$> others) ++
       [(ip_of p SupervisorShard 0, frame CInner2CrossTx (marshal (mkI2C cross)))] ∧
    TxQueue (Txpool (CurChain p')) = still m accts others q ∧
    cross ≡ₚ crossing m accts others q ∧
    q ≡ₚ TxQueue (Txpool (CurChain p')) ++
         (others ≫= λ i, ast_Txs (broker_transfer_msg m accts states me q i)) ++ cross.
Proof.
  intros p keys m bc me q others accts states.
  split; [vm_compute; reflexivity|]. split; [vm_compute; reflexivity|].
  apply (ClpaBroker_sendAccounts_and_Txs_splits keys p m states).
  - reflexivity.
  - vm_compute. reflexivity.
  - apply sample_fetch.
Defined.

Lemma repartition_keeps_placement_witness :
  let p := pair_node moving_data broker_queue in
  let keys := ["0x00000004"; "0x00000005"] in
  let m := new_partition in
  let me := p_ShardID p in
  let q := TxQueue (Txpool (CurChain p)) in
  let accts := base.filter (λ a, default 0 (m !! a) ≠ me ∧
                 Get_PartitionMap (CurChain p) a = Ret me) keys in
  let states := fetched p accts in
  let atm := sample_transfer in
  ∃ p1, ClpaBroker_sendAccounts_and_Txs keys p = Ret p1 ∧
  (∀ p2, ClpaBroker_accountTransfer_do atm p1 = Ret p2 →
     Forall (λ tx, check_placed p2 tx = Ret tt) (TxQueue (Txpool (CurChain p2)))) ∧
  (∀ i r r', p_ShardID r = i →
     Forall (λ tx, tx_resolvable (CurChain r) tx = true) q →
     ClpaBroker_accountTransfer_do atm r = Ret r' →
     Forall (λ tx, check_placed r' tx = Ret tt) (ast_Txs (broker_transfer_msg m accts states me q i))).
Proof.
  intros p keys m me q accts states atm.
  assert (forallb (resolvable (CurChain p)) keys = true) as Hr by (vm_compute; reflexivity).
  assert (FetchAccounts (CurChain p) accts = Ret states) as Hf by apply sample_fetch.
  destruct (broker_sendAccounts_spec keys p m states eq_refl Hr Hf) as (p1 & _ & E & _).
  exists p1. split; [exact E|]. apply (repartition_keeps_placement keys p p1 m states atm).
  - reflexivity.
  - reflexivity.
  - intros a. assert (keys ≡ₚ elements (dom m)) as -> by (apply (bool_decide_unpack _); vm_compute; exact I).
    apply elem_of_elements.
  - apply (bool_decide_unpack _). vm_compute. exact I.
  - exact Hr.
  - exact Hf.
  - exact E.
  - repeat (apply Forall_cons; split; [split_and!; vm_compute; repeat split; reflexivity|]).
    apply Forall_nil, I.
Defined.
