(* ===== verification/Listen.v ===== *)
(** * Listening for messages

    [TcpListen] and [handleClientRequest] of a node (src/consensus_shard/pbft_all/pbft.go) and
    of the supervisor (src/supervisor/supervisor.go): a goroutine per connection cuts the
    stream into lines and hands each to [handleMessage] under a lock.  The goroutines are a
    step relation over the state of the process and its connections; the state also moves
    by the other goroutines of the process. *)

From S2P Require Import Prelude Params Utils Interfaces Core Instances Sha256.
From S2P Require Import TxPool Storage G2E BlockChain Ledger ChainProps MerkleProof.
From S2P Require Import Networks Messages PbftNode Pbft Relay PbftRound NodeExamples Injection.
From S2P Require Import BrokerCommittee CLPA ClpaCommittee HalfFloats Measure Supervisor.

(** ** One connection *)

(** What the goroutine of a connection has: the bytes that arrived and were not read yet.
    [received] are all bytes that arrived and [seen] the lines handed on so far. *)
Record reader := mkReader { incoming : string; received : string; seen : list string; reading : bool }.

Definition new_reader : reader := mkReader "" "" [] true.

(** Bytes arrive. *)
Definition arrive (chunk : string) (c : reader) : reader :=
  mkReader (incoming c +:+ chunk) (received c +:+ chunk) (seen c) (reading c).

(** The goroutine returns and closes the connection. *)
Definition hang_up (c : reader) : reader := mkReader (incoming c) (received c) (seen c) false.

Section Listen.
Context {X : Type} (listening stopped : X → bool) (handle : bytes → X → outcome X) .

(** A round of the loop of [handleClientRequest]; [ended] tells that the stream has ended,
    with or without an error.  [None] while [ReadBytes] waits. *)
Definition client_round (ended : bool) (c : reader) (x : X) : outcome (option (reader * X)) :=
  match ReadBytes (incoming c) with
  | Some (line, rest) =>
      if stopped x then Ret (Some (hang_up c, x))
      else x ← handle line x; Ret (Some (mkReader rest (received c) (seen c ++ [line]) true, x))
  | None => if ended then Ret (Some (hang_up c, x)) else Ret None
  end.
End Listen.

Section Runs.
Context {X : Type} (listening stopped : X → bool) (handles : (bytes → X → outcome X) → Prop).
Context (env : X → X → Prop).

(** A process and its connections; [handles] are the behaviours of [handleMessage] at
    different times. *)
Inductive listen : X * list reader → X * list reader → Prop :=
| listen_accept x cs : listening x = true → listen (x, cs) (x, cs ++ [new_reader])
| listen_arrive x cs i c chunk :
    cs !! i = Some c → listen (x, cs) (x, <[i := arrive chunk c]> cs)
| listen_round x cs i c handle ended c' x' :
    cs !! i = Some c → reading c = true → handles handle →
    client_round stopped handle ended c x = Ret (Some (c', x')) → listen (x, cs) (x', <[i := c']> cs)
| listen_env x x' cs : env x x' → listen (x, cs) (x', cs).

(** A line that has been read is whole, and lines and the bytes left make up the stream. *)
Definition is_line (l : string) : Prop := ∀ rest, ReadBytes (l +:+ rest) = Some (l, rest).
Definition reader_ok (c : reader) : Prop :=
  Forall is_line (seen c) ∧ received c = foldr String.app (incoming c) (seen c).

Lemma ReadBytes_is_line s l rest : ReadBytes s = Some (l, rest) → is_line l ∧ s = l +:+ rest.
Proof.
  revert l. induction s as [|c s IH]; cbn [ReadBytes]; [done|]. intros l.
  destruct (Ascii.eqb c (Ascii.ascii_of_nat 10)) eqn:Ec.
  - intros [= <- <-]. apply Ascii.eqb_eq in Ec as ->. done.
  - destruct (ReadBytes s) as [[l' rest']|] eqn:E; [|done]. intros [= <- <-].
    destruct (IH l' eq_refl) as [Hl ->]. split; [|done]. intros r.
    change (String c l' +:+ r) with (String c (l' +:+ r)). cbn [ReadBytes]. by rewrite Ec, Hl.
Qed.

Lemma foldr_app_string ls (s t : string) :
  foldr String.app (s +:+ t) ls = foldr String.app s ls +:+ t.
Proof. induction ls as [|l ls IH]; [done|]. cbn [foldr]. by rewrite IH, <-str_app_assoc. Qed.

Lemma listen_reader_ok x cs x' cs' :
  listen (x, cs) (x', cs') → Forall reader_ok cs → Forall reader_ok cs'.
Proof.
  intros Hl Hcs. inversion Hl as [? ? Hlis|? ? i c chunk Ei|? ? i c handle ended c' ? Ei _ _ Er|]; subst; clear Hl.
  - apply Forall_app. split; [done|]. apply Forall_singleton. by split.
  - apply Forall_insert; [done|]. destruct (Forall_lookup_1 _ _ _ _ Hcs Ei) as [H1 H2].
    split; [done|]. cbn. by rewrite H2, foldr_app_string.
  - apply Forall_insert; [done|]. destruct (Forall_lookup_1 _ _ _ _ Hcs Ei) as [H1 H2].
    unfold client_round in Er. destruct (ReadBytes (incoming c)) as [[line rest]|] eqn:E.
    + apply ReadBytes_is_line in E as [Hl Es]. destruct (stopped x); [by injection Er as <- <-|].
      apply bind_Ret_inv in Er as (x1 & _ & Er). injection Er as <- <-. split; cbn.
      * by apply Forall_app_2, Forall_singleton.
      * rewrite foldr_app. cbn. by rewrite H2, Es.
    + destruct ended; [|done]. by injection Er as <- <-.
  - done.
Qed.

(** The lines read are the first messages of the stream. *)
Lemma lines_prefix ls left rest msgs :
  Forall is_line ls → Forall (λ m, no_eol m = true) msgs →
  foldr String.app left ls +:+ rest = stream_of msgs → ls = wire <$> take (length ls) msgs.
Proof.
  intros Hls. revert msgs. induction Hls as [|l ls Hl Hls IH]; intros msgs Hm E; [done|].
  cbn [foldr] in E. change (String.app l ?s) with (l +:+ s) in E. rewrite str_app_assoc in E.
  pose proof (Hl (foldr String.app left ls +:+ rest)) as Hr. rewrite E in Hr.
  destruct Hm as [|m msgs Hm0 Hm]; [done|].
  change (stream_of (m :: msgs)) with (wire m +:+ stream_of msgs) in Hr, E.
  rewrite ReadBytes_line in Hr by done. injection Hr as <- Hr.
  cbn [length take fmap list_fmap]. f_equal. by apply IH.
Qed.

Lemma listen_runs_ok x cs x' cs' :
  rtc listen (x, cs) (x', cs') → Forall reader_ok cs → Forall reader_ok cs'.
Proof.
  intros Hr. remember (x, cs) as a. remember (x', cs') as b. revert x cs x' cs' Heqa Heqb.
  induction Hr as [a|a [x1 cs1] b Hs _ IH]; intros x cs x' cs' -> Heqb H.
  - by injection Heqb as <- <-.
  - eapply IH; [done..|]. by eapply listen_reader_ok.
Qed.

(** Every message of a peer that is handed on was sent, in the order of the sends and
    without gaps, however the stream arrives. *)
Lemma listen_in_order x0 x cs i c msgs rest :
  rtc listen (x0, []) (x, cs) → cs !! i = Some c →
  Forall (λ m, no_eol m = true) msgs → received c +:+ rest = stream_of msgs →
  seen c = wire <$> take (length (seen c)) msgs.
Proof.
  intros Hr Ei Hm E. pose proof (listen_runs_ok _ _ _ _ Hr (Forall_nil_2 _)) as Hcs.
  destruct (Forall_lookup_1 _ _ _ _ Hcs Ei) as [Hs Hrec].
  apply (lines_prefix _ (incoming c) rest); [done..|]. by rewrite <-Hrec.
Qed.

End Runs.

(** ** A node *)
Section NodeListen.
Context {PR : Params} {BS : BitSetOps} {G : GobOps} {BO : BoltOps} {T : TrieOps}.
Context {D : Type} {X : ExtraOpInConsensus (D := D)} {OI : OpInterShards (D := D)}.
Context {JReq : Json Request} {JPP : Json PrePrepare} {JP : Json Prepare} {JC : Json Commit}.
Context {JRO : Json RequestOldMessage} {JSO : Json SendOldMessage}.
Context {JVC : Json ViewChangeMsg} {JNV : Json NewViewMsg}.
Abbreviation psys := (sys (D := D)).

(** [handleMessage] of a node with the goroutines it starts. *)
Definition node_handle (nowMs : Z) (msg : bytes) (s : psys) : outcome psys :=
  '(p, t) ← handleMessage nowMs msg (nd s);
  Ret (mkSys p (tasks s ++ option_list t) (threads s) (history s)).

Definition node_stopped (s : psys) : bool := stopSignal (nd s).

Definition handleClientRequest (nowMs : Z) : bool → reader → psys → outcome (option (reader * psys)) :=
  client_round node_stopped (node_handle nowMs).

(** [TcpListen] accepts connections until [WaitToStop] closes the listener. *)
Definition TcpListen : psys * list reader → psys * list reader → Prop :=
  listen (λ s, negb (node_stopped s)) node_stopped (λ f, ∃ nowMs, f = node_handle nowMs) pstep.

(** A round of a connection is a step of the node or does not change it. *)
Lemma handleClientRequest_step nowMs ended c s c' s' :
  handleClientRequest nowMs ended c s = Ret (Some (c', s')) →
  (s' = s ∧ c' = hang_up c) ∨
  (stopSignal (nd s) = false ∧ pstep s s' ∧ ∃ line, seen c' = seen c ++ [line]).
Proof.
  unfold handleClientRequest, client_round. intros E.
  destruct (ReadBytes (incoming c)) as [[line rest]|].
  - unfold node_stopped in E. destruct (stopSignal (nd s)) eqn:Es; [left; by injection E as <- <-|right].
    apply bind_Ret_inv in E as (s1 & Eh & E). injection E as <- <-. split; [done|]. split; [|by exists line].
    unfold node_handle in Eh. apply bind_Ret_inv in Eh as ([p t] & Eh & E). inv_ret.
    destruct s as [q ts ths hs]. by apply (step_receive q ts ths hs nowMs line p t).
  - destruct ended; [|done]. left. by injection E as <- <-.
Qed.

Lemma TcpListen_step s cs s' cs' :
  TcpListen (s, cs) (s', cs') → s = s' ∨ pstep s s'.
Proof.
  intros Hl. inversion Hl as [|?|? ? i c handle ended c' ? Ei _ [nowMs ->] Er|]; subst; auto.
  apply (handleClientRequest_step nowMs ended c s) in Er as [[-> _]|(_ & Hs & _)]; auto.
Qed.


End NodeListen.

(** ** The supervisor *)
Section SupervisorListen.
Context {PR : Params} {BS : BitSetOps} {G : GobOps} {F : BigFloat.FloatSyntax}.
Context {JIT : Json InjectTxs} {JPM : Json PartitionModifiedMap} {JRaw : Json BrokerRawMeg}.
Context {JI2 : Json InnerTx2CrossTx} {JBI : Json BlockInfoMsg}.

(** The supervisor handles every line, also after it has told the nodes to stop. *)
Definition Supervisor_handleClientRequest (clock : nat → Time) :
    bool → reader → Supervisor → outcome (option (reader * Supervisor)) :=
  client_round (λ _, false) (Supervisor_handleMessage clock).

(** [CloseSupervisor] closes the listener; [env] are the moves of [SupervisorTxHandling]. *)
Definition Supervisor_TcpListen (env : Supervisor → Supervisor → Prop) :
    Supervisor * list reader → Supervisor * list reader → Prop :=
  listen (λ d, negb (listenStop d)) (λ _, false)
    (λ f, ∃ clock, f = Supervisor_handleMessage clock) env.

Lemma Supervisor_listens_in_order env d0 d cs i c msgs rest :
  rtc (Supervisor_TcpListen env) (d0, []) (d, cs) → cs !! i = Some c →
  Forall (λ m, no_eol m = true) msgs → received c +:+ rest = stream_of msgs →
  seen c = wire <$> take (length (seen c)) msgs.
Proof. apply listen_in_order. Qed.

End SupervisorListen.

(** ** A node that is told to stop *)
#[local] Instance listen_params : Params := default_params 2.

