(* ===== verification/Query.v ===== *)
(** * Package [query]: offline readers of a node's databases

    Models src/query/query_block.go and src/query/query_accountstate.go, the functions
    that open the files a stopped node leaves behind: the block database (bolt) and the
    state database (leveldb).  Opening a file is a parameter: [bolt_Open path] is the
    database [bolt.Open] returns for the path, [stat path] whether [os.Stat] finds the
    directory, [leveldb_Open path] the database [rawdb.Open] returns.  Closing the
    databases is not modelled.  A [*core.Block] or [*core.AccountState] is an option:
    [None] is a nil pointer or, for the two readers that start from
    [new(core.Block)], the block without header and body. *)

From S2P Require Import Prelude Params Utils Interfaces Core Instances Sha256.
From S2P Require Import TxPool Storage G2E BlockChain Ledger ChainProps.

(** ** [(b *Bucket) ForEach]: the pairs of a bucket, in the order of the iteration *)
Class BoltIterOps (B : BoltOps) := {
  bolt_Pairs : string → BoltDB → list (bytes * bytes)
}.

(** The iteration visits every key once, with its value. *)
Class BoltIterLaws (B : BoltOps) (I : BoltIterOps B) := {
  bolt_Pairs_NoDup b db : NoDup (bolt_Pairs b db).*1;
  bolt_Pairs_Get b db k v : (k, v) ∈ bolt_Pairs b db ↔ bolt_Get b k db = Some v
}.

#[export] Instance MapBoltIter : BoltIterOps MapBolt := {|
  bolt_Pairs b (db : @BoltDB MapBolt) := map_to_list (default ∅ (db.1 !! b))
|}.

#[export] Instance MapBoltIter_laws : BoltIterLaws MapBolt MapBoltIter.
Proof.
  split; cbn; intros; [apply NoDup_fst_map_to_list|apply elem_of_map_to_list].
Qed.

Section Query.
Context {PR : Params} {BS : BitSetOps} {G : GobOps} {BO : BoltOps} {T : TrieOps}.
Context {BI : BoltIterOps BO}.

(** ** query_block.go *)

(** [initStorage]: the chain configuration made from the ids is not read by
    [NewStorage], so neither here nor in the account queries are the ids arguments. *)
Definition initStorage (bolt_Open : string → option BoltDB) (dbfp : string) :
    outcome Storage :=
  NewStorage dbfp (bolt_Open dbfp).

(** [params.DatabaseWrite_path + fmt.Sprintf("chainDB/S%d_N%d", ShardID, NodeID)] *)
Definition chain_path (ShardID NodeID : Z) : string :=
  DatabaseWrite_path +:+ "chainDB/S" +:+ pretty ShardID +:+ "_N" +:+ pretty NodeID.

(** [db.View] of [bbucket.ForEach]: [f] is the callback on the values. *)
Definition each_block {A} (s : Storage) (f : A → Block → A) (a : A) : outcome A :=
  if bolt_HasBucket "block" (DataBase s) then
    foldM (λ a kv, res ← DecodeB kv.2; Ret (f a res)) a (bolt_Pairs "block" (DataBase s))
  else Panic "nil bucket".

Definition QueryBlocks (bolt_Open : string → option BoltDB) (ShardID NodeID : Z) :
    outcome (list Block) :=
  s ← initStorage bolt_Open (chain_path ShardID NodeID);
  each_block s (λ blocks res, blocks ++ [res]) [].

Definition QueryBlock (bolt_Open : string → option BoltDB) (ShardID NodeID number : Z) :
    outcome (option Block) :=
  s ← initStorage bolt_Open (chain_path ShardID NodeID);
  each_block s (λ block res, if Number (Header res) =? number then Some res else block) None.

(** The newest block, both errors ignored: without a newest hash the nil key is
    looked up. *)
Definition newest_block (s : Storage) : outcome (option Block) :=
  hash ← GetNewestBlockHash s;
  block ← GetBlock s (match hash with inl h => h | inr _ => "" end);
  Ret (match block with inl b => Some b | inr _ => None end).

Definition QueryNewestBlock (bolt_Open : string → option BoltDB) (ShardID NodeID : Z) :
    outcome (option Block) :=
  s ← initStorage bolt_Open (chain_path ShardID NodeID);
  newest_block s.

Definition QueryBlockTxs (bolt_Open : string → option BoltDB) (ShardID NodeID number : Z) :
    outcome (list Transaction) :=
  s ← initStorage bolt_Open (chain_path ShardID NodeID);
  block ← each_block s
    (λ block res, if Number (Header res) =? number then Some res else block) None;
  Ret (match block with Some b => Body b | None => [] end).

(** ** query_accountstate.go *)

(** The state trie of the newest block; a nil [curb] is dereferenced. *)
Definition open_state (bolt_Open : string → option BoltDB) (leveldb_Open : string → EthDB)
    (stat : string → bool) (chainDBfp mptfp : string) : outcome Trie :=
  if stat mptfp then
    let triedb := trie_NewDatabase (leveldb_Open mptfp) in
    s ← initStorage bolt_Open chainDBfp;
    curb ← newest_block s;
    curb ← or_panic "nil pointer" curb;
    or_panic "trie.New" (trie_New (BytesToHash (StateRoot (Header curb))) triedb)
  else Panic "No filepath".

(** [st.Get] and [DecodeAS], or nil. *)
Definition fetch_state (st : Trie) (address : string) : outcome (option AccountState) :=
  match trie_Get st address with
  | None => Ret None
  | Some asenc => a ← DecodeAS asenc; Ret (Some a)
  end.

Definition QueryAccountState (bolt_Open : string → option BoltDB)
    (leveldb_Open : string → EthDB) (stat : string → bool) (chainDBfp mptfp : string)
    (address : string) : outcome (option AccountState) :=
  st ← open_state bolt_Open leveldb_Open stat chainDBfp mptfp;
  fetch_state st address.

Definition QueryAccountStateList (bolt_Open : string → option BoltDB)
    (leveldb_Open : string → EthDB) (stat : string → bool) (chainDBfp mptfp : string)
    (addresses : list string) : outcome (list (option AccountState)) :=
  st ← open_state bolt_Open leveldb_Open stat chainDBfp mptfp;
  foldMi (λ ret i address, a ← fetch_state st address; slice_set ret i a)
    (replicate (length addresses) None) 0 addresses.

(** ** What the queries return *)
Context {GL : GobLaws G} {BL : BoltLaws BO} {TL : TrieLaws T} {BIL : BoltIterLaws BO BI}.

(** The database behind the path holds [bs], each under its hash. *)
Definition holds_blocks (db : BoltDB) (bs : list Block) : Prop :=
  NoDup (b_Hash <$> bs) ∧ Forall (λ b, Forall gob_tx_ok (Body b)) bs ∧
  ∀ h v, bolt_Get "block" h db = Some v ↔ ∃ b, b ∈ bs ∧ h = b_Hash b ∧ v = Block_Encode b.

(** Opening the file creates missing buckets and keeps what is stored. *)
Lemma initStorage_ok open dbfp db :
  open dbfp = Some db →
  ∃ s, initStorage open dbfp = Ret s ∧ storage_ok s ∧
    ∀ b k, bolt_Get b k (DataBase s) = bolt_Get b k db.
Proof. unfold initStorage. intros ->. apply NewStorage_ok. Qed.

Lemma holds_blocks_ext db db' bs :
  (∀ b k, bolt_Get b k db' = bolt_Get b k db) → holds_blocks db bs → holds_blocks db' bs.
Proof. intros E (? & ? & H). split_and!; [done..|]. intros h v. by rewrite E. Qed.

(** The pairs of the bucket are the encoded blocks, in the order of the iteration. *)
Lemma holds_blocks_pairs db bs :
  holds_blocks db bs →
  ∃ l, l ≡ₚ bs ∧ bolt_Pairs "block" db = (λ b, (b_Hash b, Block_Encode b)) <$> l.
Proof.
  intros (Hnd & _ & H). set (enc := λ b, (b_Hash b, Block_Encode b)).
  assert (enc <$> bs ≡ₚ bolt_Pairs "block" db) as HP.
  { apply NoDup_Permutation.
    - apply (NoDup_fmap_1 fst). by rewrite <-list_fmap_compose.
    - apply (NoDup_fmap_1 fst), bolt_Pairs_NoDup.
    - intros [k v]. rewrite bolt_Pairs_Get, H, list_elem_of_fmap. unfold enc. naive_solver. }
  symmetry in HP. apply Permutation_map_inv in HP as (l & Hl & Hp).
  exists l. split; [by symmetry|done].
Qed.

(** The callback sees every block once. *)
Lemma each_block_holds {A} s bs (f : A → Block → A) :
  storage_ok s → holds_blocks (DataBase s) bs →
  ∃ l, l ≡ₚ bs ∧ ∀ a, each_block s f a = Ret (foldl f a l).
Proof.
  intros (_ & _ & _ & HB & _) Hh. destruct (holds_blocks_pairs _ _ Hh) as (l & Hl & El).
  exists l. split; [done|]. unfold each_block. rewrite HB, El.
  destruct Hh as (_ & Hok & _). rewrite <-Hl in Hok. clear -Hok GL.
  induction Hok as [|b l Hb Hok IH]; intros a; [done|]. cbn.
  rewrite DecodeB_Encode by done. cbn. apply IH.
Qed.

(** The last block of the height, in the order of the iteration. *)
Lemma foldl_find n l o :
  match foldl (λ block res, if Number (Header res) =? n then Some res else block) o l with
  | Some b => (b ∈ l ∧ Number (Header b) = n) ∨ (o = Some b ∧ ∀ b', b' ∈ l → Number (Header b') ≠ n)
  | None => o = None ∧ ∀ b', b' ∈ l → Number (Header b') ≠ n
  end.
Proof.
  revert o. induction l as [|b l IH]; intros o; cbn; [destruct o; set_solver|].
  specialize (IH (if Number (Header b) =? n then Some b else o)).
  destruct (foldl _ _ l) as [b'|]; destruct (Z.eqb_spec (Number (Header b)) n); set_solver.
Qed.

(** A fresh database after a sequence of added blocks. *)
Lemma AddBlocks_holds bs s acc :
  storage_ok s → Forall storable bs → NoDup (b_Hash <$> (acc ++ bs)) →
  holds_blocks (DataBase s) acc →
  ∃ s', foldM Storage_AddBlock s bs = Ret s' ∧ storage_ok s' ∧
    holds_blocks (DataBase s') (acc ++ bs) ∧
    bolt_Get "newestBlockHash" "OnlyNewestBlock" (DataBase s') =
      match last bs with
      | Some b => Some (b_Hash b)
      | None => bolt_Get "newestBlockHash" "OnlyNewestBlock" (DataBase s)
      end.
Proof.
  intros Hs Hbs. revert s acc Hs. induction Hbs as [|b bs Hb Hbs IH]; intros s acc Hs Hnd Hh.
  { rewrite app_nil_r in *. by exists s. }
  destruct (AddBlock_effect s b Hs Hb) as (s1 & E1 & Hs1 & Hg & _ & Hn). cbn. rewrite E1.
  replace (acc ++ b :: bs) with ((acc ++ [b]) ++ bs) in * by by rewrite <-app_assoc.
  destruct (IH s1 (acc ++ [b]) Hs1 Hnd) as (s' & E & Hs' & Hh' & Hn').
  { rewrite fmap_app in Hnd. apply NoDup_app in Hnd as (Hnd & _ & _).
    destruct Hh as (_ & Hok & Hget). split_and!; [done| |].
    - apply Forall_app. split; [done|]. apply Forall_singleton, Hb.
    - intros h v. rewrite Hg. rewrite fmap_app in Hnd. case_decide as Hd.
      + subst h. split; [intros [= <-]; exists b; set_solver|].
        intros (b' & [Hb'|Hb'%list_elem_of_singleton]%elem_of_app & Eh & ->); [|by subst].
        apply NoDup_app in Hnd as (_ & Hnd & _). exfalso. apply (Hnd (b_Hash b')).
        * by apply list_elem_of_fmap_2.
        * rewrite <-Eh. set_solver.
      + rewrite Hget. set_solver. }
  exists s'. split_and!; [done..|]. rewrite Hn'. destruct bs as [|b0 bs]; [by rewrite Hn|].
  change (last (b :: b0 :: bs)) with (last (b0 :: bs)).
  destruct (last (b0 :: bs)) eqn:El; [done|]. by apply last_None in El.
Qed.

Lemma foldl_snoc {A} (l acc : list A) : foldl (λ acc x, acc ++ [x]) acc l = acc ++ l.
Proof.
  revert acc. induction l as [|x l IH]; intros acc; cbn; [by rewrite app_nil_r|].
  by rewrite IH, <-app_assoc.
Qed.

Lemma holds_blocks_get s bs b :
  storage_ok s → holds_blocks (DataBase s) bs → b ∈ bs → GetBlock s (b_Hash b) = Ret (inl b).
Proof.
  intros Hs (_ & Hok & H) Hb. rewrite GetBlock_bolt by done.
  rewrite (proj2 (H (b_Hash b) (Block_Encode b))) by eauto. rewrite DecodeB_Encode; [done|].
  by eapply Forall_forall in Hok.
Qed.

(** The newest block of a database that holds [bs]. *)
Lemma newest_of_holds s bs :
  storage_ok s → Forall storable bs → holds_blocks (DataBase s) bs →
  bolt_Get "newestBlockHash" "OnlyNewestBlock" (DataBase s) = b_Hash <$> last bs →
  newest_block s = Ret (last bs).
Proof.
  intros Hs Hst Hh Hn. unfold newest_block. rewrite GetNewestBlockHash_bolt, Hn by done.
  destruct (last bs) as [b|] eqn:El; cbn.
  - apply last_Some_elem_of in El. by rewrite (holds_blocks_get s bs).
  - apply last_None in El as ->. rewrite GetBlock_bolt by done.
    destruct (bolt_Get "block" "" (DataBase s)) eqn:E; [|done].
    apply Hh in E as (? & ?%elem_of_nil & _). done.
Qed.

(** The newest block of a storage. *)
Lemma newest_block_bolt s b :
  GetNewestBlockHash s = Ret (inl (b_Hash b)) →
  GetBlock s (b_Hash b) = Ret (inl b) → newest_block s = Ret (Some b).
Proof. intros Hn Hg. unfold newest_block. rewrite Hn, bind_ret, Hg. done. Qed.

(** C39 (roundtrip) The queries return what was stored: after any sequence of
    [AddBlock]s of blocks with distinct hashes on an empty database, the functions that open its file afterwards
    return without a panic.  [QueryBlocks] lists every added block once,
    [QueryNewestBlock] returns the last one (nil when there is none), and for every
    number [QueryBlock] returns an added block of that height, with
    [QueryBlockTxs] its transactions, or the empty block when no added block has the
    height. *)
Theorem queries_return_stored dbFp db bs ShardID NodeID :
  (∀ b k, bolt_Get b k db = None) → Forall storable bs → NoDup (b_Hash <$> bs) →
  ∃ s0 s, NewStorage dbFp (Some db) = Ret s0 ∧ foldM Storage_AddBlock s0 bs = Ret s ∧
    ∀ open, open (chain_path ShardID NodeID) = Some (DataBase s) →
    (∃ l, QueryBlocks open ShardID NodeID = Ret l ∧ l ≡ₚ bs) ∧
    QueryNewestBlock open ShardID NodeID = Ret (last bs) ∧
    ∀ n, ∃ o, QueryBlock open ShardID NodeID n = Ret o ∧
      QueryBlockTxs open ShardID NodeID n = Ret (match o with Some b => Body b | None => [] end) ∧
      match o with
      | Some b => b ∈ bs ∧ Number (Header b) = n
      | None => ∀ b, b ∈ bs → Number (Header b) ≠ n
      end.
Proof.
  intros Hdb Hbs Hnd. destruct (NewStorage_ok dbFp db) as (s0 & E0 & Hs0 & Hg0).
  destruct (AddBlocks_holds bs s0 [] Hs0 Hbs Hnd) as (s & E & Hs & Hh & Hn).
  { split_and!; [constructor|done|]. intros h v. rewrite Hg0, Hdb. set_solver. }
  exists s0, s. split_and!; [done..|]. intros open Eo.
  destruct (initStorage_ok _ _ _ Eo) as (s1 & E1 & Hs1 & Hg1).
  pose proof (holds_blocks_ext _ _ _ Hg1 Hh) as Hh1.
  unfold QueryBlocks, QueryNewestBlock, QueryBlock, QueryBlockTxs. rewrite E1, !bind_ret.
  split_and!.
  - destruct (each_block_holds s1 bs (λ blocks res, blocks ++ [res]) Hs1 Hh1) as (l & Hl & El).
    exists l. by rewrite El, foldl_snoc.
  - apply newest_of_holds; [done..|]. rewrite Hg1, Hn, Hg0, Hdb. by destruct (last bs).
  - intros n. rewrite !bind_ret. destruct (each_block_holds s1 bs
      (λ block res, if Number (Header res) =? n then Some res else block) Hs1 Hh1) as (l & Hl & El).
    rewrite !El, !bind_ret. eexists. split_and!; [done..|].
    pose proof (foldl_find n l None) as Hf. destruct (foldl _ _ l) as [b|].
    + destruct Hf as [[Hb Hn']|[[=] _]]. by rewrite Hl in Hb.
    + intros b Hb. apply Hf. by rewrite Hl.
Qed.

(** The state of the tip, as the account queries open it. *)
Lemma open_state_tip open ldb stat chainDBfp mptfp bc st :
  chain_inv bc → open chainDBfp = Some (DataBase (bc_Storage bc)) → stat mptfp = true →
  trie_New (BytesToHash (StateRoot (tip bc))) (trie_NewDatabase (ldb mptfp)) = Some st →
  open_state open ldb stat chainDBfp mptfp = Ret st.
Proof.
  intros (Hs & Hn & Hg & _) Eo Hst Ht. unfold open_state. rewrite Hst.
  destruct (initStorage_ok _ _ _ Eo) as (s & -> & Hs1 & Hg1). rewrite bind_ret.
  rewrite (newest_block_bolt s (CurrentBlock bc)).
  - cbn. unfold tip in Ht. by rewrite Ht.
  - rewrite GetNewestBlockHash_bolt, Hg1 by done. by rewrite GetNewestBlockHash_bolt in Hn by done.
  - rewrite GetBlock_bolt, Hg1 by done. by rewrite GetBlock_bolt in Hg by done.
Qed.

(** The loop of [QueryAccountStateList] fills the slice from the left. *)
Lemma fill_states st addrs os pre :
  Forall2 (λ a o, fetch_state st a = Ret o) addrs os →
  foldMi (λ ret i address, a ← fetch_state st address; slice_set ret i a)
    (pre ++ replicate (length addrs) None) (zlen pre) addrs = Ret (pre ++ os).
Proof.
  intros H. revert pre. induction H as [|a o addrs os Ha H IH]; intros pre; [done|].
  cbn [foldMi length replicate]. rewrite Ha, bind_ret. unfold slice_set.
  pose proof (zlen_nonneg pre). rewrite zlen_app, zlen_cons.
  pose proof (zlen_nonneg (replicate (length addrs) (@None AccountState))).
  rewrite (proj2 (Z.leb_le _ _)), (proj2 (Z.ltb_lt _ _)) by lia. cbn [andb].
  rewrite bind_ret. replace (Z.to_nat (zlen pre)) with (length pre) by (unfold zlen; lia).
  rewrite insert_app_r_alt, Nat.sub_diag by done.
  cbn [insert list_insert].
  specialize (IH (pre ++ [o])). rewrite <-!app_assoc, zlen_app in IH. exact IH.
Qed.

(** The account queries agree with the node: on the files of a stopped node, whose tip's
    root opens in the state database with the node's content, [QueryAccountState] returns
    the account [FetchAccounts] returns in the node, or nil when the account was never
    stored, for which the node itself takes a new account with the initial balance; and
    [QueryAccountStateList] returns one answer per address, in order, equal to the single
    queries. *)
Theorem account_queries_agree open ldb stat chainDBfp mptfp bc st st' addrs :
  chain_inv bc → open chainDBfp = Some (DataBase (bc_Storage bc)) → stat mptfp = true →
  opens bc (StateRoot (tip bc)) st → same_content st st' →
  trie_New (BytesToHash (StateRoot (tip bc))) (trie_NewDatabase (ldb mptfp)) = Some st' →
  ∃ os, QueryAccountStateList open ldb stat chainDBfp mptfp addrs = Ret os ∧
    Forall2 (λ a o,
      QueryAccountState open ldb stat chainDBfp mptfp a = Ret o ∧
      match o with
      | Some s => FetchAccounts bc [a] = Ret [s]
      | None => trie_Get st a = None ∧
                FetchAccounts bc [a] = Ret [new_AccountState 0 Init_Balance]
      end) addrs os.
Proof.
  intros Hi Eo Hst [Hop Hok] Hc Ht.
  pose proof (open_state_tip _ _ _ _ _ _ _ Hi Eo Hst Ht) as Es.
  assert (∃ os, Forall2 (λ a o, fetch_state st' a = Ret o ∧ match o with
      | Some s => FetchAccounts bc [a] = Ret [s]
      | None => trie_Get st a = None ∧
                FetchAccounts bc [a] = Ret [new_AccountState 0 Init_Balance]
      end) addrs os) as [os Hos].
  { apply Forall_exists_Forall2_l, Forall_forall. intros a _. unfold FetchAccounts, fetch_state, load_account.
    rewrite Hop, <-(Hc a). cbn. unfold load_account.
    destruct (trie_Get st a) as [enc|] eqn:E; [|by exists None].
    destruct (Hok _ _ E) as [s Hs]. exists (Some s). unfold DecodeAS. by rewrite Hs. }
  exists os. unfold QueryAccountStateList, QueryAccountState. rewrite Es, !bind_ret. split.
  - apply (fill_states st' addrs os []). eapply Forall2_impl; [done|]. naive_solver.
  - done.
Qed.

End Query.

#[local] Instance query_params : Params := default_params 1.

Lemma queries_return_stored_witness :
  let bh n := mkBH "parent" "state" "txs" (∅ : @BitSet SetBits) n 0 0 in
  let bs := [mkBlock (bh 1) [] "h1"; mkBlock (bh 2) [] "h2"] in
  ∃ s0 s, NewStorage "db" (Some empty_bolt) = Ret s0 ∧ foldM Storage_AddBlock s0 bs = Ret s ∧
    ∀ open, open (chain_path 0 3) = Some (DataBase s) →
    (∃ l, QueryBlocks open 0 3 = Ret l ∧ l ≡ₚ bs) ∧
    QueryNewestBlock open 0 3 = Ret (last bs) ∧
    ∀ n, ∃ o, QueryBlock open 0 3 n = Ret o ∧
      QueryBlockTxs open 0 3 n = Ret (match o with Some b => Body b | None => [] end) ∧
      match o with
      | Some b => b ∈ bs ∧ Number (Header b) = n
      | None => ∀ b, b ∈ bs → Number (Header b) ≠ n
      end.
Proof.
  cbv zeta. apply (queries_return_stored "db" empty_bolt).
  - intros b k. reflexivity.
  - apply Forall_cons; split; [|apply Forall_cons; split; [|apply Forall_nil, I]];
      (split; [split; [discriminate|vm_compute; discriminate]|]);
      (split; [vm_compute; discriminate|]); (split; [vm_compute; discriminate|]);
      apply Forall_nil, I.
  - apply (bool_decide_unpack _). vm_compute. exact I.
Defined.

(** The path of a node's block database. *)
Example chain_path_node : chain_path 1 2 = "expTest/database/chainDB/S1_N2".
Proof. reflexivity. Qed.
