(* ===== verification/Build.v ===== *)
(** * Start-up: main.go and package [build]

    Models src/main.go (the choice by the command line, after pflag has parsed it),
    src/build/build.go (the checks of the address table, the configuration of a node and
    the supervisor), src/build/tool.go and src/build/io_file_helper.go (the scripts that
    start all processes).  [ipTable.json] is a parameter: [table] is the map
    [readIpTable] returns, empty when the file cannot be read or decoded.  The package
    variables the start-up assigns are the fields [NodesInShard] and [ShardNum] of
    [Params], the table and the supervisor's address; the latter two are part of the
    result.  The construction of a node is a parameter of [BuildNewPbftNode]
    ([PbftNode.NewPbftNode] with the databases the process opens).  Listening, the pause
    before the first batch and the rate limiters of [networks.InitNetworkTools] are not
    modelled. *)

From S2P Require Import Prelude Params Utils Interfaces Core Instances Sha256.
From S2P Require Import TxPool Storage G2E BlockChain MerkleProof Messages Pbft CLPA HalfFloats.
From S2P Require Import Injection BrokerCommittee ClpaCommittee Measure Supervisor.
From Stdlib Require Import Ascii.

(** ** The configuration of a process *)

(** Assigning [params.NodesInShard] and [params.ShardNum]. *)
Definition set_topology (p : Params) (nodes shards : Z) : Params :=
  mkParams nodes shards (@ConsensusMethod p) (@PbftViewChangeTimeOut p) (@Block_Interval p)
    (@MaxBlockSize_global p) (@BlocksizeInBytes p) (@UseBlocksizeInBytes p) (@InjectSpeed p)
    (@TotalDataSize p) (@TxBatchSize p) (@BrokerNum p) (@RelayWithMerkleProof p)
    (@ExpDataRootDir p) (@DataWrite_path p) (@LogWrite_path p) (@DatabaseWrite_path p)
    (@DatasetFile p) (@ReconfigTimeGap p) (@Delay p) (@JitterRange p) (@Bandwidth p)
    (@G2E_Beta p).

(** [len(ipMap)] *)
Definition len_map {A} (m : gmap Z A) : Z := Z.of_nat (size m).

(** [initConfig]: the supervisor's address, the variables and the configuration. *)
Definition initConfig (table : gmap Z (gmap Z string)) (nid nnm sid snm : Z) (p : Params) :
    outcome (string * Params * ChainConfig) :=
  let supervisorAddr := default "" (default ∅ (table !! SupervisorShard) !! 0) in
  if len_map table - 1 <? i64 snm then Panic "Input ShardNumber, but only fewer shards in ipTable.json"
  else
    _ ← foldM (λ _ shardID,
          if len_map (default ∅ (table !! shardID)) <? i64 nnm
          then Panic "Input NodeNumber, but only fewer nodes in Shard" else Ret ())
          () (seqZ 0 (len_map table - 1));
    let p := set_topology p (i64 nnm) (i64 snm) in
    Ret (supervisorAddr, p, {|
      ChainID := sid; cc_NodeID := nid; cc_ShardID := sid;
      Nodes_perShard := u64 (@NodesInShard p); ShardNums := snm;
      BlockSize := u64 (@MaxBlockSize_global p); BlockInterval := u64 (@Block_Interval p);
      cc_InjectSpeed := u64 (@InjectSpeed p); MaxRelayBlockSize := 0 |}).

(** The measurements: those of the broker committees or those of the relay committees,
    and the details of the transactions. *)
Definition measure_names (methodID : Z) : list string :=
  (if (methodID =? 0) || (methodID =? 2) then MeasureBrokerMod else MeasureRelayMod)
    ++ ["Tx_Details"].

(** [BuildSupervisor] up to the start of the listener; the call of [initConfig] comes
    before the read of [params.SupervisorAddr]. *)
Definition BuildSupervisor (brokers : option (list string)) (table : gmap Z (gmap Z string))
    (nnm snm : Z) (p : Params) : outcome (Params * Supervisor) :=
  let methodID := @ConsensusMethod p in
  method ← slice_at CommitteeMethod methodID;
  '(ip, p, pcc) ← initConfig table 123 nnm 123 snm p;
  Ret (p, @NewSupervisor p ip pcc method brokers table (measure_names methodID)).

(** [BuildNewPbftNode] up to the start of the listener. *)
Definition BuildNewPbftNode {N}
    (NewPbftNode : Params → Z → Z → ChainConfig → gmap Z (gmap Z string) → string → outcome N)
    (table : gmap Z (gmap Z string)) (nid nnm sid snm : Z) (p : Params) : outcome N :=
  let methodID := @ConsensusMethod p in
  method ← slice_at CommitteeMethod methodID;
  '(_, p, pcc) ← initConfig table nid nnm sid snm p;
  NewPbftNode p sid nid pcc table method.

(** ** Scripts *)

(** The directory of the scripts: the content of every file, and [fileUpToDataSet], the
    files this process has started. *)
Record Scripts := mkScripts { files : gmap string string; fileUpToDataSet : gset string }.

Definition nl : string := String (ascii_of_nat 10) "".

Section Scripts.
(** The errors of the file system: [remove_fails path] is an error of [os.Remove] other
    than a missing file, [open_error path] one of [os.OpenFile] or [WriteString]. *)
Context (remove_fails : string → bool) (open_error : string → option string).

Definition attachLineToFile (filePath line : string) (d : Scripts) :
    outcome (Scripts * option string) :=
  d ← (if decide (filePath ∈ fileUpToDataSet d) then Ret d
       else if remove_fails filePath then Panic "os.Remove"
       else Ret (mkScripts (delete filePath (files d)) ({[filePath]} ∪ fileUpToDataSet d)));
  match open_error filePath with
  | Some err => Ret (d, Some err)
  | None => Ret (mkScripts (<[filePath := default "" (files d !! filePath) +:+ line +:+ nl]> (files d))
                   (fileUpToDataSet d), None)
  end.

(** A loop whose body may return an error. *)
Fixpoint until_error {S} (f : Z → S → outcome (S * option string)) (l : list Z) (s : S) :
    outcome (S * option string) :=
  match l with
  | [] => Ret (s, None)
  | x :: l => '(s, e) ← f x s; match e with Some _ => Ret (s, e) | None => until_error f l s end
  end.

(** [strings.Split(s, ":")[0]] *)
Fixpoint before_colon (s : string) : string :=
  match s with
  | String ":" _ | EmptyString => ""
  | String c s => String c (before_colon s)
  end.

(** [strings.ReplaceAll(s, ".", "_")] *)
Fixpoint dots_to_underscores (s : string) : string :=
  match s with
  | EmptyString => ""
  | String "." s => String "_" (dots_to_underscores s)
  | String c s => String c (dots_to_underscores s)
  end.

(** The file and the two kinds of command; [pre], [post] and [cmd] are the parts of the
    formats. *)
Definition script_of (pre post nodeIp : string) : string :=
  pre +:+ dots_to_underscores (before_colon nodeIp) +:+ post.
Definition node_command (cmd : string) (nodenum shardnum i j : Z) : string :=
  cmd +:+ " -n " +:+ pretty j +:+ " -N " +:+ pretty nodenum +:+ " -s " +:+ pretty i
    +:+ " -S " +:+ pretty shardnum +:+ " & " +:+ nl.
Definition supervisor_command (cmd : string) (nodenum shardnum : Z) : string :=
  cmd +:+ " -c -N " +:+ pretty nodenum +:+ " -S " +:+ pretty shardnum +:+ " & " +:+ nl.

(** The common body of the two generators. *)
Definition generate_scripts (pre post cmd : string) (table : gmap Z (gmap Z string))
    (nodenum shardnum : Z) (d : Scripts) : outcome (Scripts * option string) :=
  '(d, e) ← until_error (λ i d,
    match table !! i with
    | None => Ret (d, Some ("the shard (shardID = " +:+ pretty i +:+
                            ") is not existed in the IP Table file"))
    | Some row => until_error (λ j d,
        match row !! j with
        | Some nodeIp =>
            attachLineToFile (script_of pre post nodeIp)
              (node_command cmd nodenum shardnum i j) d
        | None => Ret (d, Some ("the node (shardID = " +:+ pretty i +:+ ", nodeID = " +:+
                    pretty j +:+ ") is not existed in the IP Table file"))
        end) (seqZ 0 nodenum) d
    end) (seqZ 0 shardnum) d;
  match e with
  | Some _ => Ret (d, e)
  | None =>
      match table !! 2147483647 ≫= (.!! 0) with
      | Some nodeIp =>
          attachLineToFile (script_of pre post nodeIp) (supervisor_command cmd nodenum shardnum) d
      | None => Ret (d, Some "the supervisor (shardID = 2147483647, nodeID = 0) is not existed in the IP Table file")
      end
  end.

(** [os] is [runtime.GOOS]. *)
Definition GenerateBatchByIpTable (os : string) (table : gmap Z (gmap Z string))
    (nodenum shardnum : Z) (d : Scripts) : outcome (Scripts * option string) :=
  if decide (os = "windows") then
    generate_scripts "complie_run_IpAddr=" ".bat" "start cmd /k go run main.go"
      table nodenum shardnum d
  else
    generate_scripts "complie_run_IpAddr=" ".sh" "go run main.go" table nodenum shardnum d.

Definition GenerateExeBatchByIpTable (os : string) (table : gmap Z (gmap Z string))
    (nodenum shardnum : Z) (d : Scripts) : outcome (Scripts * option string) :=
  if decide (os = "windows") then
    generate_scripts (os +:+ "_exe_run_IpAddr=") ".bat"
      "start cmd /k blockEmulator_Windows_Precompile.exe" table nodenum shardnum d
  else
    generate_scripts (os +:+ "_exe_run_IpAddr=") ".sh"
      ("./blockEmulator_" +:+ os +:+ "_Precompile") table nodenum shardnum d.

(** ** [main] *)
Record flags := mkFlags {
  fl_shardNum : Z; fl_nodeNum : Z; fl_shardID : Z; fl_nodeID : Z;
  isSupervisor : bool; isGen : bool; isGenerateForExeFile : bool
}.

(** The flags before parsing: the numbers default to the variables. *)
Definition default_flags (p : Params) : flags :=
  mkFlags (@ShardNum p) (@NodesInShard p) (-1) (-1) false false false.

Inductive started {N : Type} :=
| Generated (d : Scripts) (printed : option string)
| StartedSupervisor (p : Params) (s : Supervisor)
| StartedNode (n : N).

(** [main] after [ReadConfigFile] and [pflag.Parse]. *)
Definition main {N}
    (NewPbftNode : Params → Z → Z → ChainConfig → gmap Z (gmap Z string) → string → outcome N)
    (os : string) (brokers : option (list string)) (table : gmap Z (gmap Z string))
    (fl : flags) (p : Params) (d : Scripts) : outcome started :=
  let p := set_topology p (fl_nodeNum fl) (fl_shardNum fl) in
  if isGen fl then
    '(d, e) ← (if isGenerateForExeFile fl
               then GenerateExeBatchByIpTable os table (fl_nodeNum fl) (fl_shardNum fl) d
               else GenerateBatchByIpTable os table (fl_nodeNum fl) (fl_shardNum fl) d);
    Ret (Generated d e)
  else if isSupervisor fl then
    '(p, s) ← BuildSupervisor brokers table (u64 (fl_nodeNum fl)) (u64 (fl_shardNum fl)) p;
    Ret (StartedSupervisor p s)
  else if (fl_shardID fl >=? fl_shardNum fl) || (fl_shardID fl <? 0) then Panic "Wrong ShardID"
  else if (fl_nodeID fl >=? fl_nodeNum fl) || (fl_nodeID fl <? 0) then Panic "Wrong NodeID"
  else
    n ← BuildNewPbftNode NewPbftNode table (u64 (fl_nodeID fl)) (u64 (fl_nodeNum fl))
          (u64 (fl_shardID fl)) (u64 (fl_shardNum fl)) p;
    Ret (StartedNode n).

(** ** Which tables the scripts can be generated from *)

(** Every node of the shards is in the table, and the supervisor. *)
Definition table_complete (table : gmap Z (gmap Z string)) (nodenum shardnum : Z) : Prop :=
  (∀ i, 0 ≤ i < shardnum → ∃ row, table !! i = Some row ∧
     ∀ j, 0 ≤ j < nodenum → is_Some (row !! j)) ∧
  is_Some (table !! SupervisorShard ≫= (.!! 0)).

(** The commands and their files, in the order they are written. *)
Definition shard_commands (pre post cmd : string) (table : gmap Z (gmap Z string))
    (nodenum shardnum i : Z) : list (string * string) :=
  (λ j, (script_of pre post (default "" (default ∅ (table !! i) !! j)),
         node_command cmd nodenum shardnum i j)) <$> seqZ 0 nodenum.
Definition all_commands (pre post cmd : string) (table : gmap Z (gmap Z string))
    (nodenum shardnum : Z) : list (string * string) :=
  (seqZ 0 shardnum ≫= shard_commands pre post cmd table nodenum shardnum) ++
  [(script_of pre post (default "" (table !! SupervisorShard ≫= (.!! 0))),
    supervisor_command cmd nodenum shardnum)].

(** What a list of commands leaves in a file: one line each. *)
Definition file_content (l : list (string * string)) (f : string) : string :=
  foldl (λ s fc, if decide (fc.1 = f) then s +:+ fc.2 +:+ nl else s) "" l.

(** [d'] is [d] with the files of the commands replaced. *)
Definition scripts_written (d : Scripts) (l : list (string * string)) (d' : Scripts) : Prop :=
  (∀ f, f ∈ fileUpToDataSet d' ↔ f ∈ l.*1) ∧
  ∀ f, files d' !! f = if decide (f ∈ l.*1) then Some (file_content l f) else files d !! f.

(** The kind of a committee and of a measure module; [Tx_Details] serves both. *)
Definition uses_brokers (c : CommitteeModule) : bool :=
  match c with ComBroker _ | ComCLPABroker _ => true | ComRelay _ | ComCLPA _ => false end.
Definition measures_brokers (m : MeasureModule) : option bool :=
  match m with
  | TPS_Broker _ | TCL_Broker _ | CrossRate_Broker _ | TxNum_Broker _ => Some true
  | TPS_Relay _ | TCL_Relay _ | CrossRate_Relay _ | TxNum_Relay _ => Some false
  | Details _ => None
  end.

(** The measure modules fit the committee of the method. *)
Lemma modules_match (p : Params) methodID method brokers ips Ss :
  slice_at CommitteeMethod methodID = Ret method →
  Forall (λ m, measures_brokers m ∈ [None; Some (uses_brokers (@new_committee p method brokers ips Ss))])
    (omap new_measure (measure_names methodID)).
Proof.
  intros [Hr E]%slice_at_lookup.
  assert (methodID = 0 ∨ methodID = 1 ∨ methodID = 2 ∨ methodID = 3) as Hm.
  { apply lookup_lt_Some in E. cbn in E. lia. }
  destruct Hm as [->|[->|[->| ->]]]; cbn in E; injection E as <-;
    repeat (apply Forall_cons; split; [cbn; set_solver|]); constructor.
Qed.

Lemma list_fmap_bind_singleton {A B} (f : A → B) l : f <$> l = l ≫= (λ x, [f x]).
Proof. induction l as [|x l IH]; [done|]. cbn. by rewrite <-IH. Qed.

Lemma until_error_none {S} (f : Z → S → outcome (S * option string)) (P : Z → Prop) l :
  (∀ x s, x ∈ l → ∃ s' e, f x s = Ret (s', e) ∧ (e = None ↔ P x)) →
  ∀ s, ∃ s' e, until_error f l s = Ret (s', e) ∧ (e = None ↔ ∀ x, x ∈ l → P x).
Proof.
  induction l as [|x l IH]; intros Hf s; cbn; [exists s, None; set_solver|].
  destruct (Hf x s) as (s1 & e & -> & He); [set_solver|]. rewrite bind_ret.
  destruct e as [e|]; [exists s1, (Some e); set_solver|].
  destruct (IH ltac:(set_solver) s1) as (s' & e & -> & He'). exists s', e. set_solver.
Qed.

Lemma until_error_collect {S A} (f : Z → S → outcome (S * option string)) (g : Z → list A)
    (R : list A → S → Prop) l :
  (∀ x acc s, x ∈ l → R acc s → ∃ s', f x s = Ret (s', None) ∧ R (acc ++ g x) s') →
  ∀ acc s, R acc s → ∃ s', until_error f l s = Ret (s', None) ∧ R (acc ++ (l ≫= g)) s'.
Proof.
  induction l as [|x l IH]; intros Hf acc s Hs; cbn; [rewrite app_nil_r; eauto|].
  destruct (Hf x acc s) as (s1 & -> & Hs1); [set_solver|done|]. rewrite bind_ret.
  destruct (IH ltac:(set_solver) _ _ Hs1) as (s' & -> & Hs'). exists s'.
  by rewrite app_assoc.
Qed.

Context (Hrm : ∀ f, remove_fails f = false) (Hop : ∀ f, open_error f = None).

Lemma file_content_snoc l f c f' :
  file_content (l ++ [(f, c)]) f' =
    if decide (f = f') then file_content l f' +:+ c +:+ nl else file_content l f'.
Proof. unfold file_content. by rewrite foldl_app. Qed.

Lemma file_content_out l f : f ∉ l.*1 → file_content l f = "".
Proof.
  induction l as [|[f' c] l IH] using rev_ind; [done|]. rewrite fmap_app. intros Hf.
  rewrite file_content_snoc. rewrite decide_False by set_solver. apply IH. set_solver.
Qed.

Lemma attach_written d l d1 f c :
  scripts_written d l d1 →
  ∃ d2, attachLineToFile f c d1 = Ret (d2, None) ∧ scripts_written d (l ++ [(f, c)]) d2.
Proof.
  intros [Hu Hf]. unfold attachLineToFile. rewrite Hrm, Hop.
  assert (∀ f', f' ∈ (l ++ [(f, c)]).*1 ↔ f' ∈ l.*1 ∨ f' = f) as Hin.
  { intros f'. rewrite fmap_app. set_solver. }
  case_decide as Hd; rewrite bind_ret; eexists; (split; [reflexivity|]);
    (split; cbn; [intros f'; rewrite Hin; set_solver|]); intros f'; rewrite file_content_snoc.
  - rewrite lookup_insert, Hf, (decide_True (P := f ∈ _)) by (by apply Hu).
    case_decide; [subst; by rewrite decide_True by (apply Hin; by right)|].
    rewrite Hf. apply decide_ext. rewrite Hin. naive_solver.
  - assert (f ∉ l.*1) as Hnf by (by rewrite <-Hu). rewrite lookup_insert, lookup_delete_eq.
    case_decide; [subst; rewrite decide_True by (apply Hin; by right);
      by rewrite file_content_out|].
    rewrite lookup_delete_ne, Hf by done. apply decide_ext. rewrite Hin. naive_solver.
Qed.

Lemma attach_ret f c d : ∃ d', attachLineToFile f c d = Ret (d', None).
Proof. unfold attachLineToFile. rewrite Hrm, Hop. case_decide; eexists; reflexivity. Qed.

(** Without errors of the file system, the only errors are those of the table. *)
Lemma generate_scripts_none pre post cmd table nodenum shardnum d :
  ∃ d' e, generate_scripts pre post cmd table nodenum shardnum d = Ret (d', e) ∧
    (e = None ↔ table_complete table nodenum shardnum).
Proof.
  unfold generate_scripts.
  match goal with |- context [until_error ?f (seqZ 0 shardnum) d] =>
    destruct (until_error_none f (λ i, ∃ row, table !! i = Some row ∧
      ∀ j, 0 ≤ j < nodenum → is_Some (row !! j)) (seqZ 0 shardnum)) with (s := d)
      as (d1 & e1 & -> & He1) end.
  { intros i d1 _. destruct (table !! i) as [row|] eqn:Ei; [|eexists _, _; naive_solver].
    match goal with |- context [until_error ?f _ d1] =>
      destruct (until_error_none f (λ j, is_Some (row !! j)) (seqZ 0 nodenum)) with (s := d1)
        as (d2 & e2 & -> & He2) end.
    - intros j d2 _. destruct (row !! j) as [ip|]; [|eexists _, _; by rewrite is_Some_alt].
      destruct (attach_ret (script_of pre post ip) (node_command cmd nodenum shardnum i j) d2)
        as [d3 ->]. exists d3, None. by rewrite is_Some_alt.
    - exists d2, e2. split; [done|]. rewrite He2. setoid_rewrite elem_of_seqZ. naive_solver. }
  rewrite bind_ret. setoid_rewrite elem_of_seqZ in He1. unfold table_complete, SupervisorShard.
  destruct e1 as [e1|]; [exists d1, (Some e1); naive_solver|].
  destruct (table !! 2147483647 ≫= _) as [ip|]; cbn.
  - destruct (attach_ret (script_of pre post ip) (supervisor_command cmd nodenum shardnum) d1)
      as [d2 ->]. exists d2, None. naive_solver.
  - eexists _, _. split; [done|]. rewrite is_Some_alt. naive_solver.
Qed.

(** From a complete table, every process gets its line in the script of its machine. *)
Lemma generate_scripts_writes pre post cmd table nodenum shardnum d :
  table_complete table nodenum shardnum → fileUpToDataSet d = ∅ →
  ∃ d', generate_scripts pre post cmd table nodenum shardnum d = Ret (d', None) ∧
    scripts_written d (all_commands pre post cmd table nodenum shardnum) d'.
Proof.
  intros [Hc [sip Hsup]] Hd. unfold generate_scripts.
  assert (scripts_written d [] d) as Hw by (split; [set_solver|done]).
  match goal with |- context [until_error ?f (seqZ 0 shardnum) d] =>
    destruct (until_error_collect f (shard_commands pre post cmd table nodenum shardnum)
      (scripts_written d) (seqZ 0 shardnum)) with (acc := @nil (string * string)) (s := d)
      as (d1 & -> & Hw1); [|exact Hw|] end.
  - intros i acc d1 Hi%elem_of_seqZ Hd1. destruct (Hc i) as (row & Ei & Hrow); [lia|].
    rewrite Ei. unfold shard_commands. rewrite Ei. change (default ∅ (Some row)) with row.
    rewrite list_fmap_bind_singleton.
    match goal with |- context [until_error ?f _ d1] =>
      apply (until_error_collect f _ (scripts_written d)); [|exact Hd1] end.
    intros j acc' d2 Hj%elem_of_seqZ Hd2. destruct (Hrow j) as [ip Ej]; [lia|].
    rewrite Ej. change (default "" (Some ip)) with ip. by apply attach_written.
  - rewrite bind_ret. unfold SupervisorShard in Hsup. rewrite Hsup.
    unfold all_commands, SupervisorShard. rewrite Hsup. by apply attach_written.
Qed.

(** ** The checks of a process *)

(** [initConfig] compares numbers of entries only: it returns exactly when the table has
    more rows than shards and, but for the last, the rows 0, 1, ... have enough entries. *)
Lemma initConfig_counts table nid nnm sid snm p :
  is_ret (initConfig table nid nnm sid snm p) ↔
  i64 snm < len_map table ∧
  ∀ i, 0 ≤ i < len_map table - 1 → i64 nnm ≤ len_map (default ∅ (table !! i)).
Proof.
  unfold initConfig. destruct (Z.ltb_spec (len_map table - 1) (i64 snm)).
  { split; [intros [? [=]]|lia]. }
  setoid_rewrite <-(Z.add_0_l (len_map table - 1)) at 2. setoid_rewrite <-elem_of_seqZ.
  generalize (seqZ 0 (len_map table - 1)) as l. intros l. trans (Forall (λ i, i64 nnm ≤
    len_map (default ∅ (table !! i))) l); [|rewrite Forall_forall; intuition lia].
  induction l as [|i l IH]; cbn [foldM]; [split; [by constructor|by eexists]|].
  rewrite Forall_cons. destruct (Z.ltb_spec (len_map (default ∅ (table !! i))) (i64 nnm)).
  { split; [intros [? [=]]|lia]. }
  rewrite bind_ret, IH. intuition lia.
Qed.

Lemma initConfig_result table nid nnm sid snm p r :
  initConfig table nid nnm sid snm p = Ret r →
  r.1.1 = default "" (default ∅ (table !! SupervisorShard) !! 0) ∧
  r.1.2 = set_topology p (i64 nnm) (i64 snm) ∧
  cc_ShardID r.2 = sid ∧ cc_NodeID r.2 = nid ∧ Nodes_perShard r.2 = u64 (i64 nnm) ∧
  ShardNums r.2 = snm.
Proof.
  unfold initConfig. destruct (_ <? _); [done|]. intros E.
  apply bind_Ret_inv in E as ([] & _ & E). injection E as <-. done.
Qed.

Lemma row_size (row : gmap Z string) n :
  (∀ j, 0 ≤ j < n → is_Some (row !! j)) → n ≤ len_map row.
Proof.
  intros H. destruct (decide (n < 0)); [unfold len_map; lia|].
  assert (list_to_set (seqZ 0 n) ⊆ dom row) as Hsub.
  { intros j. rewrite elem_of_list_to_set, elem_of_seqZ, elem_of_dom. intros. apply H. lia. }
  apply subseteq_size in Hsub. rewrite size_list_to_set, length_seqZ, size_dom in Hsub
    by apply NoDup_seqZ. unfold len_map. lia.
Qed.

Lemma i64_u64 z : 0 ≤ z < 2 ^ 63 → u64 z = z ∧ i64 z = z.
Proof. intros. split; [apply u64_id; unfold is_u64, u64_mod; lia|apply i64_id; lia]. Qed.

(** A complete table without further rows passes the checks. *)
Lemma initConfig_complete table nodenum shardnum nid sid p :
  0 ≤ nodenum < 2 ^ 63 → 0 ≤ shardnum < 2 ^ 63 →
  table_complete table nodenum shardnum → len_map table = shardnum + 1 →
  ∃ ip pcc, initConfig table nid nodenum sid shardnum p =
              Ret (ip, set_topology p nodenum shardnum, pcc) ∧
    table !! SupervisorShard ≫= (.!! 0) = Some ip ∧ cc_ShardID pcc = sid ∧ cc_NodeID pcc = nid ∧
    Nodes_perShard pcc = nodenum ∧ ShardNums pcc = shardnum.
Proof.
  intros Hn Hs [Hc [sip Hsup]] Hl.
  destruct (i64_u64 _ Hn) as [Un In], (i64_u64 _ Hs) as [Us Is].
  destruct (proj2 (initConfig_counts table nid nodenum sid shardnum p)) as [[[ip p'] pcc] E].
  { rewrite In, Is. split; [lia|]. intros i Hi. destruct (Hc i) as (row & -> & Hr); [lia|].
    by apply row_size. }
  rewrite E. apply initConfig_result in E as (Ei & Ep & H). cbn in Ei, Ep, H. subst.
  rewrite In, Is, Un in *.
  destruct (table !! SupervisorShard) as [row|]; cbn in Hsup; [|done].
  eexists _, _. split; [done|]. cbn. unfold id. rewrite Hsup. done.
Qed.

Lemma CommitteeMethod_at p :
  0 ≤ @ConsensusMethod p < 4 →
  ∃ method, CommitteeMethod !! Z.to_nat (@ConsensusMethod p) = Some method ∧
    slice_at CommitteeMethod (@ConsensusMethod p) = Ret method.
Proof.
  intros Hm. destruct (slice_at_ok CommitteeMethod (@ConsensusMethod p)) as [m Em];
    [unfold zlen; cbn; lia|]. exists m. split; [|done].
  by apply slice_at_lookup in Em as [_ Em].
Qed.

Lemma main_node {N} new os brokers table nodenum shardnum i j p d method :
  0 ≤ nodenum < 2 ^ 63 → 0 ≤ shardnum < 2 ^ 63 → table_complete table nodenum shardnum →
  len_map table = shardnum + 1 → slice_at CommitteeMethod (@ConsensusMethod p) = Ret method →
  0 ≤ i < shardnum → 0 ≤ j < nodenum →
  ∃ pcc, main (N := N) new os brokers table (mkFlags shardnum nodenum i j false false false) p d =
      (n ← new (set_topology p nodenum shardnum) i j pcc table method; Ret (StartedNode n)) ∧
    cc_ShardID pcc = i ∧ cc_NodeID pcc = j ∧ Nodes_perShard pcc = nodenum ∧ ShardNums pcc = shardnum.
Proof.
  intros Hn Hs Hc Hl Em Hi Hj. unfold main.
  cbn [isGen isSupervisor fl_shardID fl_shardNum fl_nodeID fl_nodeNum].
  rewrite !Z.geb_leb, !(proj2 (Z.leb_gt _ _)), !(proj2 (Z.ltb_ge _ _)) by lia. cbn [orb].
  rewrite (proj1 (i64_u64 nodenum Hn)), (proj1 (i64_u64 shardnum Hs)),
    (proj1 (i64_u64 i ltac:(lia))), (proj1 (i64_u64 j ltac:(lia))). unfold BuildNewPbftNode.
  change (@ConsensusMethod (set_topology p nodenum shardnum)) with (@ConsensusMethod p).
  rewrite Em, bind_ret.
  destruct (initConfig_complete table nodenum shardnum j i (set_topology p nodenum shardnum))
    as (ip & pcc & -> & _ & H); [done..|]. rewrite bind_ret. by exists pcc.
Qed.

Lemma main_supervisor {N} new os brokers table nodenum shardnum p d method :
  0 ≤ nodenum < 2 ^ 63 → 0 ≤ shardnum < 2 ^ 63 → table_complete table nodenum shardnum →
  len_map table = shardnum + 1 → slice_at CommitteeMethod (@ConsensusMethod p) = Ret method →
  ∃ s, main (N := N) new os brokers table (mkFlags shardnum nodenum (-1) (-1) true false false) p d =
        Ret (StartedSupervisor (set_topology p nodenum shardnum) s) ∧
    table !! SupervisorShard ≫= (.!! 0) = Some (s_IPaddr s) ∧
    ShardNums (s_ChainConfig s) = shardnum ∧
    Forall (λ m, measures_brokers m ∈ [None; Some (uses_brokers (comMod s))]) (testMeasureMods s).
Proof.
  intros Hn Hs Hc Hl Em. unfold main. cbn [isGen isSupervisor fl_shardNum fl_nodeNum].
  rewrite (proj1 (i64_u64 nodenum Hn)), (proj1 (i64_u64 shardnum Hs)).
  unfold BuildSupervisor.
  change (@ConsensusMethod (set_topology p nodenum shardnum)) with (@ConsensusMethod p).
  rewrite Em, bind_ret.
  destruct (initConfig_complete table nodenum shardnum 123 123 (set_topology p nodenum shardnum))
    as (ip & pcc & -> & Hip & _ & _ & _ & Hsn); [done..|]. rewrite !bind_ret.
  eexists. split; [reflexivity|]. cbn [s_IPaddr s_ChainConfig comMod testMeasureMods].
  split_and!; [done..|]. by apply modules_match.
Qed.

(** The name of the scripts before and after the address, and the command, by the
    operating system and the kind of script. *)
Definition script_format (os : string) (exe : bool) : string * string * string :=
  match exe, decide (os = "windows") with
  | false, left _ => ("complie_run_IpAddr=", ".bat", "start cmd /k go run main.go")
  | false, right _ => ("complie_run_IpAddr=", ".sh", "go run main.go")
  | true, left _ => (os +:+ "_exe_run_IpAddr=", ".bat",
                     "start cmd /k blockEmulator_Windows_Precompile.exe")
  | true, right _ => (os +:+ "_exe_run_IpAddr=", ".sh", "./blockEmulator_" +:+ os +:+ "_Precompile")
  end.

(** [main] with the flags of the generators. *)
Lemma main_generates {N} new os brokers table nodenum shardnum exe p d :
  let '(pre, post, cmd) := script_format os exe in
  main (N := N) new os brokers table (mkFlags shardnum nodenum (-1) (-1) false true exe) p d =
    ('(d, e) ← generate_scripts pre post cmd table nodenum shardnum d; Ret (Generated d e)).
Proof.
  unfold script_format, main, GenerateExeBatchByIpTable, GenerateBatchByIpTable. cbn [isGen isGenerateForExeFile].
  destruct exe, (decide (os = "windows")); done.
Qed.


End Scripts.

(** ** Examples *)

(** Two shards of two nodes on two machines. *)
Definition example_table : gmap Z (gmap Z string) :=
  {[ 0 := {[ 0 := "10.0.0.1:3000"; 1 := "10.0.0.2:3000" ]};
     1 := {[ 0 := "10.0.0.1:3001"; 1 := "10.0.0.2:3001" ]};
     SupervisorShard := {[ 0 := "10.0.0.1:4000" ]} ]}.

Definition example_node (p : Params) (sid nid : Z) (pcc : ChainConfig)
    (table : gmap Z (gmap Z string)) (method : string) : outcome (string * string) :=
  Ret (default "" (default ∅ (table !! sid) !! nid), method).

(** The script of the second machine. *)
Example example_script :
  match GenerateBatchByIpTable (λ _, false) (λ _, None) "linux" example_table 2 2
          (mkScripts ∅ ∅) with
  | Ret (d, None) => files d !! "complie_run_IpAddr=10_0_0_2.sh" = Some
      ("go run main.go -n 1 -N 2 -s 0 -S 2 & " +:+ nl +:+ nl +:+
       "go run main.go -n 1 -N 2 -s 1 -S 2 & " +:+ nl +:+ nl)
  | _ => False
  end.
Proof. vm_compute. reflexivity. Qed.

(** [initConfig] accepts a table whose shard 0 has no node 0 and which has no supervisor:
    the ids of the entries are not compared, and the missing addresses are empty. *)
Example initConfig_misnumbered :
  let table : gmap Z (gmap Z string) :=
    {[ 0 := {[ 7 := "10.0.0.1:3000" ]}; 5 := {[ 0 := "10.0.0.1:4000" ]} ]} in
  match BuildNewPbftNode example_node table 0 1 0 1 (default_params 1) with
  | Ret n => n = ("", "CLPA_Broker") | Panic _ => False
  end ∧
  match initConfig table 0 1 0 1 (default_params 1) with
  | Ret (ip, _, _) => ip = "" | Panic _ => False
  end.
Proof. vm_compute. done. Qed.

